(* ===== verification/_CoqProject ===== *)
-Q . S2P
Prelude.v
GoPath.v
GoBase.v
BftTypes.v
Logger.v
BftModel.v
Summary.v
PowClient.v
TxInterface.v
TxSystem.v
TxTheorems.v
TxExamples.v
Messages.v
Wire.v
IpcClient.v
GadgetOverIpc.v
MessageTheorems.v
KVStore.v
ShardConfStore.v
Selector.v
Node.v
Network.v
Peer.v
NodeOps.v
Configuration.v
Handlers.v
NodeInit.v
Run.v
CommandLine.v
NodeInvariant.v
NodeQuiet.v
NodeSafety.v
HandlerSafety.v
NetworkTheorems.v
PeerTheorems.v
NodeSystem.v
T1Timer.v
NodeStart.v
ConfigurationTheorems.v
Lifecycle.v
Agreement.v
Ledger.v
Process.v
Replication.v
Behaviour.v
Proposals.v
Round.v
NodeModel.v
NodeExamples.v
HandlerExamples.v
LibExamples.v
LoggerExamples.v
IpcExamples.v
NetExamples.v
RunExamples.v
CommandExamples.v
AgreementExamples.v
RoundExamples.v
