(* ===== verification/Prelude.v ===== *)
(** * Finality gadget partition: verification development

    The program is a shard ("partition") node of the Unicity network whose transactions are the
    blocks of a proof-of-work chain.  The validators of the shard agree, round by round, on the
    hash of a PoW block that is deep enough to be final; the root chain certifies the hash
    with a unicity certificate (UC).

    ** The parts of the program

    - The transaction system, [FGPTxSystem] (src/txsystem/), reads the PoW node through the
      [Client] interface (src/pow/types), and keeps the certified hash and the one proposed.
    - The partition node (src/partition/) drives the transaction system through the
      [TransactionSystem] interface: the leader proposes, followers verify and vote, every
      validator sends a certification request to the root chain, and the certificate that
      comes back commits the block, starts the next round and says who leads it.  A node that
      missed blocks recovers them from its peers.
    - Blocks and shard configurations are kept in key-value databases.
    - The messages are in src/network/protocol, their framing on a stream in
      src/network/cbor.go.  The validator network (src/network) sends them to other peers and
      puts what it receives into a channel the main loop reads.
    - The PoW node is reached over JSON-RPC (src/pow/ipc_client.go).
    - The run command (src/cmd/run.go) puts a node together from its files: databases, shard
      configurations, keys and flags, transaction system, peer and network.

    ** Files

    Foundations.
    - Prelude: errors and results, the monad [M] of handlers (state, error and panic; state
      changes made before an error stay), weakest preconditions for it, tactics.
    - GoBase: [uint64] arithmetic, byte slices with nil, hex, [strconv.ParseUint], big-endian
      integers and the byte order of keys.
    - BftTypes: data of bft-go-base, bft-core and libp2p, their functions as the fields of
      [BftLib], and what the sources rely on as the classes [AccessorLaws], [OrderLaws],
      [VerifyLaws], [KeyLaws] and [CborLaws].  BftModel: a concrete instance of them.
    - KVStore: the key-value database interface, its laws, the in-memory database, and
      [CrashDB], a database that stops after a number of writes.
    - GoPath: paths of the file system.

    The transaction system.
    - Summary: state/summary.go.  PowClient: pow/types/types.go.
    - TxInterface: the [TransactionSystem] interface of partition/node.go with its contract
      [TransactionSystemLaws].
    - TxSystem: every method of txsystem/fgp_txsystem.go ([fgp_LeaderPropose],
      [fgp_FollowerVerify], [fgp_Commit], [fgp_Revert], [fgp_RestoreState], ...).
    - TxTheorems: what is proposed and accepted, that errors change nothing, that a follower
      with the same view accepts the leader's proposal, the invariant of every sequence of
      calls, and that the type implements the contract.
    - IpcClient: pow/ipc_client.go, an implementation of [Client].  GadgetOverIpc: over a PoW
      node that answers, the transaction system works as against the node itself.

    Messages.
    - Messages: src/network/protocol (certification, blockproposal, handshake, replication).
    - MessageTheorems: validation accepts exactly the messages it should, and what is signed
      verifies.
    - Wire: network/cbor.go; round trip and size limit.

    The network.
    - Network: libp2p_network.go and validator_network.go, with the reflection on message types
      by which a protocol is found.  NetworkTheorems: the protocols are complete and match,
      what one validator sends another receives, handlers end on every stream, and the channel
      never holds a nil message.
    - Peer: peer.go.  PeerTheorems: when joining the network fails.

    The node.
    - ShardConfStore: partition/shard_conf_store.go with its theorems (the cache is invisible
      as long as no epoch is stored again after it was read, what a stored epoch reads back
      as, configurations follow each other).
    - Selector: partition/root_node_selector.go with its theorems.
    - Node: state.go, status.go and the struct [Node]; NodeOps: validators.go,
      state_helpers.go, store_helpers.go, consensus_helpers.go and the timer of round.go;
      Handlers: proposal_producer.go, certificate_handler.go, block_processor.go,
      proposal_handler.go, recovery.go, and the dispatcher and loop of node.go; Configuration:
      configuration.go; NodeInit: node_init.go.
    - NodeInvariant: the shard a node belongs to ([Shard]), certificates of it that were
      verified against a trust base ([genuine]), the invariant [Inv] and the order [good]
      between a node and what it may become.  NodeQuiet, NodeSafety, HandlerSafety: every
      operation, on success and on error, does not panic and leaves a [good] node.
    - NodeSystem: the interleaving of the main loop, the replication workers and the timer
      goroutine as a step relation, and the theorems about all its runs: committed history is
      final, the committed blocks are all available, the latest certificate does not go back,
      no message stops or crashes the loop.
    - NodeStart: a node starts in a state that satisfies the invariant, and the one case in
      which it does not.  ConfigurationTheorems: the same from a configuration, with peer and
      network.
    - T1Timer: a leader that is not recovering always has a timeout coming, and how one may
      be lost.
    - Replication: what a peer is sent in answer to a replication request: which blocks, how
      many, and how far.
    - Behaviour, Proposals: the functional behaviour of the handlers: finalizing a block,
      certificates, recovery, proposals and certification requests.
    - Round: a round in which nothing fails.  The other theorems say what holds when a handler
      returns; this one says that the handlers return and that the round ends in a commit on the
      leader and on every follower.

    The command and the logger.
    - Run: cmd/run.go, cmd/block.go, cmd/pow.go, the logger set-up of cmd/main.go, and
      [Node.Run].  Lifecycle: the run command as a step between two runs of a node; committed
      history survives restarts.  Here and in the next two files a restart is one on a store
      that has a block or has no pending proposal ([restartable]): on a pending proposal alone
      a node starts in the state that NodeStart shows to be wrong.  After the first commit of a
      node this leaves nothing out.
    - Agreement: the nodes of a shard as one system.  Nodes join, run, are restarted and get
      whatever the network delivers; two nodes never finalize different PoW blocks in a round,
      if the root chain certifies at most one record for it ([root_chain_safe]).
    - Ledger: the specification of a shard, a ledger of decided rounds, and that the nodes of
      Agreement implement it (a simulation).
    - CommandLine: [initializeConfig] and [main] of cmd/main.go; where the value of a flag comes
      from, and the exit code.
    - Process: the goroutines of [Node.Run] as a group, and the quit signal; what ends the
      process, and that a signal does.
    - Logger: logger/attr.go and logger/slog.go; composed formatters run in order, and from
      which level on a logger logs.

    Concrete runs.
    - NodeModel: a world and a node with every parameter instantiated.  TxExamples,
      NodeExamples, HandlerExamples, LibExamples, IpcExamples, NetExamples, RunExamples,
      CommandExamples, LoggerExamples, AgreementExamples, RoundExamples: the theorems at
      concrete inputs.

    ** How the code is read

    - A [uint64] is a [Z] with its wrap-around written out where the code computes with it;
      times are nanoseconds.  A Go pointer that may be nil is an [option], and following a nil
      one is a panic, which the theorems exclude.  nil and empty slices are different.
    - A method with a mutex, or one that runs in the main loop only, is one step.  What
      a handler changed before it returned an error stays changed.
    - Log lines, tracing and metrics are left out, except for the pointers that their arguments
      follow: those can panic.  An error carries the constant part of its text and the errors
      it wraps.
    - The PoW node, the network, the clock, random numbers, the trust base store and the
      context are one world [W] that every call may change, so two calls may see
      different chains.
    - The bft libraries, the CBOR codec, the hash functions and the database are parameters
      with laws; the theorems hold for all of them that satisfy the laws, and the concrete runs
      show that some do.

    ** Bounds and fuel

    Recursion follows the data (peers, blocks, iterators, validators) except in these places.
    The loop of [rootNodesSelector] has the number of nodes as fuel, and
    [rootNodesSelector_rotation] shows that it ends by its own condition.  The loop of a stream
    handler has one more than the bytes of the stream as fuel, and [stream_handler_correct]
    shows that this is enough, as every message takes at least one byte.  Dialling a peer counts
    the retries down, as the code does.  Reading and writing a uvarint takes at most ten
    bytes, as [encoding/binary] fixes for 64 bits.

    ** What is not modelled

    The libp2p host, its streams and its DHT are operations of the world.  Of the command
    line: the parsing of arguments by cobra and pflag, which is a parameter, and the closing of
    the databases when a command ends.  [LedgerReplicationResponse.Pretty] only formats log text.
    The helpers under internal/testutils belong to the tests.

    The goroutines that [Send] starts and the dials of [BootstrapConnect] run one after
    the other in the model, each in a world that may have changed in any way.  A restart
    happens between two steps of a run.  A crash in the middle of a handler is covered by taking
    [CrashDB] as the database: after the crash nothing is written, and the store the
    handler leaves is the one of that moment.

    The root chain is not part of the program.  Agreement takes its one promise as a hypothesis,
    and Round gives it the certificate to send.  In Agreement the network is any that delivers
    what a stream handler accepts; the streams between the nodes are modelled in Network, for
    two peers. *)

From stdpp Require Import base list strings option gmap.
From Stdlib Require Import ZArith Lia.

Open Scope Z_scope.

(** ** Errors

    A Go [error] built by [errors.New], [fmt.Errorf] with [%w] or [errors.Join].
    The text is the constant part of the message: the formatted arguments carry no
    behaviour.  An [fmt.Errorf] with no [%w] is an [ErrNew]. *)
Inductive error : Type :=
  | ErrNew (msg : string)
  | ErrWrap (msg : string) (inner : error)
  | ErrJoin (fst_err snd_err : error).

#[global] Instance error_eq_dec : EqDecision error.
Proof. solve_decision. Defined.

(** [errors.Is]: the target is the error itself or one it wraps. *)
Fixpoint errors_Is (err target : error) : bool :=
  bool_decide (err = target) ||
  match err with
  | ErrNew _ => false
  | ErrWrap _ e => errors_Is e target
  | ErrJoin e1 e2 => errors_Is e1 target || errors_Is e2 target
  end.

(** [errors.Join(err1, err2)] where [err1] may be nil. *)
Definition errors_Join (err1 : option error) (err2 : error) : error :=
  match err1 with None => err2 | Some e => ErrJoin e err2 end.

(** ** Results: the pair [(value, error)] of a Go call, where the value is meaningful
    exactly when the error is nil. *)
Inductive result (A : Type) : Type :=
  | Ok (a : A)
  | Fail (e : error).
Arguments Ok {A} a.
Arguments Fail {A} e.

#[global] Instance result_ret : MRet result := fun A a => Ok a.
#[global] Instance result_bind : MBind result := fun A B f r =>
  match r with Ok a => f a | Fail e => Fail e end.

(** [return fmt.Errorf("msg: %w", err)] *)
Definition wrap {A} (msg : string) (r : result A) : result A :=
  match r with Ok a => Ok a | Fail e => Fail (ErrWrap msg e) end.

Definition is_ok {A} (r : result A) : bool :=
  match r with Ok _ => true | Fail _ => false end.

(** [if bad { return err }] *)
Definition fail_if (bad : bool) (e : error) : result unit :=
  if bad then Fail e else Ok tt.

(** A call that returns only an [error], as the [error] it returns. *)
Definition err_of (r : result unit) : option error :=
  match r with Ok _ => None | Fail e => Some e end.

Lemma result_bind_ok {A B} (f : A → result B) r b :
  r ≫= f = Ok b ↔ ∃ a, r = Ok a ∧ f a = Ok b.
Proof. destruct r; simpl; naive_solver. Qed.

Lemma wrap_ok {A} msg (r : result A) a : wrap msg r = Ok a ↔ r = Ok a.
Proof. destruct r; simpl; naive_solver. Qed.

Lemma fail_if_ok bad e u : fail_if bad e = Ok u ↔ bad = false.
Proof. destruct bad, u; simpl; naive_solver. Qed.

Create HintDb go.
Create HintDb node.
Create Rewrite HintDb go.
Create Rewrite HintDb wp.
#[export] Hint Rewrite @result_bind_ok @wrap_ok fail_if_ok : go.

(** ** Stateful code: a state, and one of three ways for a call to end.

    The state is returned in all three: what a call changed before it returned an
    error, or before it panicked on a nil pointer, stays changed. *)
Inductive outcome (A : Type) : Type :=
  | Ret (a : A)
  | Throw (e : error)
  | Panic.
Arguments Ret {A} a.
Arguments Throw {A} e.
Arguments Panic {A}.

Definition M (S A : Type) : Type := S → outcome A * S.

Section monad.
Context {S : Type}.

#[global] Instance M_ret : MRet (M S) := fun A a s => (Ret a, s).

#[global] Instance M_bind : MBind (M S) := fun A B f m s =>
  match m s with
  | (Ret a, s') => f a s'
  | (Throw e, s') => (Throw e, s')
  | (Panic, s') => (Panic, s')
  end.

Definition throw {A} (e : error) : M S A := fun s => (Throw e, s).
Definition panic {A} : M S A := fun s => (Panic, s).
Definition gets {A} (f : S → A) : M S A := fun s => (Ret (f s), s).
Definition modify (f : S → S) : M S unit := fun s => (Ret tt, f s).

(** A call whose error the caller inspects instead of returning it. *)
Definition try {A} (m : M S A) : M S (result A) := fun s =>
  match m s with
  | (Ret a, s') => (Ret (Ok a), s')
  | (Throw e, s') => (Ret (Fail e), s')
  | (Panic, s') => (Panic, s')
  end.

(** [if v, err := m; err != nil { return fmt.Errorf("msg: %w", err) }] *)
Definition wrapM {A} (msg : string) (m : M S A) : M S A := fun s =>
  match m s with
  | (Throw e, s') => (Throw (ErrWrap msg e), s')
  | r => r
  end.

(** Raise the error of a [result]. *)
Definition lift {A} (r : result A) : M S A := fun s =>
  match r with Ok a => (Ret a, s) | Fail e => (Throw e, s) end.

(** A pointer or struct field dereference: panics on nil. *)
Definition deref {A} (p : option A) : M S A := fun s =>
  match p with Some a => (Ret a, s) | None => (Panic, s) end.

Definition unless (ok : bool) (e : error) : M S unit :=
  if ok then mret tt else throw e.
End monad.

(** Running a call on a concrete state: it is enough to compute how it ends. *)
Lemma pair_fst {A B} (p : A * B) a : p.1 = a → p = (a, p.2).
Proof. by intros <-; destruct p. Qed.

Definition returned {A} (o : outcome A) (d : A) : A := match o with Ret a => a | _ => d end.
Definition is_ret {A} (o : outcome A) : bool := match o with Ret _ => true | _ => false end.
Lemma is_ret_returned {A} (o : outcome A) d : is_ret o = true → o = Ret (returned o d).
Proof. by destruct o. Qed.

(** ** Weakest preconditions

    [wp m Q E s]: run from [s], the call does not panic; if it returns [a] in [s'] then
    [Q a s'], and if it returns the error [e] in [s'] then [E e s'].  There is no
    divergence, so this is a total-correctness statement. *)
Definition wp {S A} (m : M S A) (Q : A → S → Prop) (E : error → S → Prop) (s : S) : Prop :=
  match m s with
  | (Ret a, s') => Q a s'
  | (Throw e, s') => E e s'
  | (Panic, _) => False
  end.

Section wp_rules.
Context {S : Type}.
Implicit Types (s : S).

Lemma wp_ret {A} (a : A) Q E s : wp (mret a) Q E s ↔ Q a s.
Proof. done. Qed.

Lemma wp_bind {A B} (m : M S A) (k : A → M S B) Q E s :
  wp (m ≫= k) Q E s ↔ wp m (fun a => wp (k a) Q E) E s.
Proof.
  unfold wp, mbind, M_bind. destruct (m s) as [[] ?]; done.
Qed.

Lemma wp_throw {A} e Q E s : wp (throw (A:=A) e) Q E s ↔ E e s.
Proof. done. Qed.

Lemma wp_gets {A} (f : S → A) Q E s : wp (gets f) Q E s ↔ Q (f s) s.
Proof. done. Qed.

Lemma wp_modify f Q E s : wp (modify f) Q E s ↔ Q tt (f s).
Proof. done. Qed.

Lemma wp_try {A} (m : M S A) Q E s :
  wp (try m) Q E s ↔ wp m (fun a => Q (Ok a)) (fun e => Q (Fail e)) s.
Proof. unfold wp, try. destruct (m s) as [[] ?]; done. Qed.

Lemma wp_wrapM {A} msg (m : M S A) Q E s :
  wp (wrapM msg m) Q E s ↔ wp m Q (fun e => E (ErrWrap msg e)) s.
Proof. unfold wp, wrapM. destruct (m s) as [[] ?]; done. Qed.

Lemma wp_lift {A} (r : result A) Q E s :
  wp (lift r) Q E s ↔ match r with Ok a => Q a s | Fail e => E e s end.
Proof. destruct r; done. Qed.

Lemma wp_deref {A} (p : option A) Q E s :
  wp (deref p) Q E s ↔ match p with Some a => Q a s | None => False end.
Proof. destruct p; done. Qed.

Lemma wp_unless ok e Q E s :
  wp (unless ok e) Q E s ↔ if ok then Q tt s else E e s.
Proof. destruct ok; done. Qed.

(** The rule of consequence. *)
Lemma wp_mono {A} (m : M S A) (Q Q' : A → S → Prop) (E E' : error → S → Prop) s :
  wp m Q E s →
  (∀ a s', Q a s' → Q' a s') → (∀ e s', E e s' → E' e s') →
  wp m Q' E' s.
Proof. unfold wp. destruct (m s) as [[] ?]; eauto. Qed.

Lemma wp_ret_inv {A} (m : M S A) Q E s a s' :
  wp m Q E s → m s = (Ret a, s') → Q a s'.
Proof. unfold wp. intros H Hm. by rewrite Hm in H. Qed.

Lemma wp_throw_inv {A} (m : M S A) Q E s e s' :
  wp m Q E s → m s = (Throw e, s') → E e s'.
Proof. unfold wp. intros H Hm. by rewrite Hm in H. Qed.

Lemma bind_ret_inv {A B} (m : M S A) (k : A → M S B) s b s' :
  (m ≫= k) s = (Ret b, s') → ∃ a s1, m s = (Ret a, s1) ∧ k a s1 = (Ret b, s').
Proof. unfold mbind, M_bind. destruct (m s) as [[] ?]; naive_solver. Qed.

(** How a sequence ends: in its second part, or in its first with an error or a panic. *)
Lemma bind_inv {A B} (m : M S A) (k : A → M S B) s o s' :
  (m ≫= k) s = (o, s') →
  (∃ a s1, m s = (Ret a, s1) ∧ k a s1 = (o, s')) ∨ (∃ o1, m s = (o1, s')) ∧ ∀ b, o ≠ Ret b.
Proof. unfold mbind, M_bind. destruct (m s) as [[] ?]; naive_solver. Qed.

(** The same for an outcome of either kind. *)
Lemma wp_outcome {A} (m : M S A) Q E s o s' :
  wp m Q E s → m s = (o, s') →
  match o with Ret a => Q a s' | Throw e => E e s' | Panic => False end.
Proof. unfold wp. intros H Hm. rewrite Hm in H. by destruct o. Qed.
End wp_rules.

#[export] Hint Rewrite @wp_ret @wp_bind @wp_throw @wp_gets @wp_modify @wp_try @wp_wrapM
  @wp_lift @wp_deref @wp_unless : wp.

(** One symbolic execution step: push [wp] through the monad operations, then split on
    the scrutinee of the first conditional of the goal. *)
Ltac wp_norm := repeat progress (autorewrite with wp; cbn beta iota).
Ltac wp_case :=
  match goal with
  | |- context [match ?x with _ => _ end] =>
      lazymatch x with
      | context [match _ with _ => _ end] => fail
      | _ => destruct x eqn:?
      end
  end.
