(* ===== verification/GoPath.v ===== *)
(** * Paths of the file system

    What the command line uses of Go's [path/filepath] on Unix: cleaning a path and joining
    its elements. *)

From Stdlib Require Import ZArith Strings.Ascii String.
From stdpp Require Import base list strings.
From S2P Require Import Prelude.

Definition slash : ascii := "/"%char.

(** The elements between the separators, of which there is always one. *)
Fixpoint path_split (s : string) : string * list string :=
  match s with
  | EmptyString => (EmptyString, [])
  | String c s =>
      let '(e, es) := path_split s in
      if Ascii.eqb c slash then (EmptyString, e :: es) else (String c e, es)
  end.

Definition path_elems (s : string) : list string := (path_split s).1 :: (path_split s).2.

(** The elements that stay; [kept] holds those before, the last one first. *)
Fixpoint clean_elems (rooted : bool) (kept : list string) (elems : list string) : list string :=
  match elems with
  | [] => reverse kept
  | e :: elems =>
      if String.eqb e "" || String.eqb e "." then clean_elems rooted kept elems
      else if String.eqb e ".." then
        match kept with
        | last :: before =>
            if String.eqb last ".." then clean_elems rooted (e :: kept) elems
            else clean_elems rooted before elems
        | [] => if rooted then clean_elems rooted [] elems else clean_elems rooted [e] elems
        end
      else clean_elems rooted (e :: kept) elems
  end.

Definition filepath_IsAbs (path : string) : bool :=
  match path with String c _ => Ascii.eqb c slash | EmptyString => false end.

Definition filepath_Clean (path : string) : string :=
  let rooted := filepath_IsAbs path in
  let text := String.concat "/" (clean_elems rooted [] (path_elems path)) in
  if rooted then append "/" text
  else if String.eqb text "" then "." else text.

(** Leading empty elements are skipped. *)
Fixpoint filepath_Join (elems : list string) : string :=
  match elems with
  | [] => ""
  | e :: rest => if String.eqb e "" then filepath_Join rest else filepath_Clean (String.concat "/" elems)
  end.

Example join_home : filepath_Join ["/home/op/.fgp"; "blocks.db"] = "/home/op/.fgp/blocks.db"%string.
Proof. reflexivity. Qed.
Example clean_dots : filepath_Clean "a//b/./../../c/.." = "."%string ∧ filepath_Clean "/../x/" = "/x"%string.
Proof. split; reflexivity. Qed.
