(* ===== verification/GoBase.v ===== *)
(** * The parts of Go and of its standard library the sources use

    Unsigned 64-bit arithmetic with its wrap-around, byte slices (where nil and empty are
    different values that [bytes.Equal] does not tell apart), [encoding/hex],
    [strconv.ParseUint] in base 10, and [encoding/binary]'s big-endian integers with the
    byte-wise order a sorted key-value store iterates its keys in. *)

From Stdlib Require Import ZArith Lia Strings.Byte Ascii String.
From stdpp Require Import base list strings option gmap sorting.
From S2P Require Import Prelude.

(** ** [uint64] *)

Definition maxUint64 : Z := 2 ^ 64 - 1.

(** The value an arithmetic expression of type [uint64] has. *)
Definition u64 (z : Z) : Z := z mod 2 ^ 64.
Definition u64_add (a b : Z) : Z := u64 (a + b).
Definition u64_sub (a b : Z) : Z := u64 (a - b).
Definition u64_mul (a b : Z) : Z := u64 (a * b).

(** The same for [int64]. *)
Definition i64 (z : Z) : Z := (z + 2 ^ 63) mod 2 ^ 64 - 2 ^ 63.

(** [t.Sub(u)] of two times, a [Duration]: the nearest one when there is none that long. *)
Definition duration_between (t u : Z) : Z := Z.max (- 2 ^ 63) (Z.min (2 ^ 63 - 1) (t - u)).

(** The values of the type. *)
Definition is_u64 (z : Z) : Prop := 0 <= z <= maxUint64.
#[global] Instance is_u64_dec z : Decision (is_u64 z).
Proof. unfold is_u64. apply _. Defined.

Lemma is_u64_bound z : is_u64 z ↔ 0 <= z < 2 ^ 64.
Proof. unfold is_u64, maxUint64. lia. Qed.

Lemma u64_is_u64 z : is_u64 (u64 z).
Proof. apply is_u64_bound, Z.mod_pos_bound. lia. Qed.

Lemma u64_id z : is_u64 z → u64 z = z.
Proof. intros H%is_u64_bound. by apply Z.mod_small. Qed.

Lemma u64_sub_id a b : is_u64 a → 0 <= b <= a → u64_sub a b = a - b.
Proof. intros [? ?] ?. apply u64_id. split; lia. Qed.

Lemma u64_add_id a b : 0 <= a + b <= maxUint64 → u64_add a b = a + b.
Proof. intros. by apply u64_id. Qed.

(** ** Byte slices *)

Definition Z_of_byte (b : byte) : Z := Z.of_N (Byte.to_N b).
Definition byte_of_Z (z : Z) : byte := default x00 (Byte.of_N (Z.to_N (z mod 256))).

#[global] Instance byte_eq_dec : EqDecision byte := Byte.byte_eq_dec.
#[global] Program Instance byte_countable : Countable byte :=
  inj_countable Byte.to_N Byte.of_N _.
Next Obligation. intros b. apply Byte.of_to_N. Qed.

Lemma Z_of_byte_range b : 0 <= Z_of_byte b < 256.
Proof. unfold Z_of_byte. pose proof (Byte.to_N_bounded b). lia. Qed.

Lemma byte_of_Z_of_byte b : byte_of_Z (Z_of_byte b) = b.
Proof.
  unfold byte_of_Z, Z_of_byte. rewrite Z.mod_small by apply Z_of_byte_range.
  by rewrite N2Z.id, Byte.of_to_N.
Qed.

Lemma Z_of_byte_of_Z z : Z_of_byte (byte_of_Z z) = z mod 256.
Proof.
  unfold byte_of_Z, Z_of_byte.
  pose proof (Z.mod_pos_bound z 256 ltac:(lia)) as Hb.
  destruct (Byte.of_N (Z.to_N (z mod 256))) as [b|] eqn:E; simpl.
  - apply Byte.to_of_N in E. rewrite E. lia.
  - apply Byte.of_N_None_iff in E. lia.
Qed.

#[global] Instance Z_of_byte_inj : Inj (=) (=) Z_of_byte.
Proof. intros a b H. by rewrite <-(byte_of_Z_of_byte a), H, byte_of_Z_of_byte. Qed.

(** A value of type [[]byte]. *)
Inductive slice : Type :=
  | nil_slice
  | Bytes (bs : list byte).

#[global] Instance slice_eq_dec : EqDecision slice.
Proof. solve_decision. Defined.

Definition slice_bytes (s : slice) : list byte :=
  match s with nil_slice => [] | Bytes bs => bs end.

Definition slice_is_nil (s : slice) : bool :=
  match s with nil_slice => true | Bytes _ => false end.

Definition slice_len (s : slice) : Z := Z.of_nat (length (slice_bytes s)).

(** [bytes.Equal]: "a nil argument is equivalent to an empty slice". *)
Definition bytes_Equal (a b : slice) : bool := bool_decide (slice_bytes a = slice_bytes b).

(** The equality [bytes.Equal] decides; coarser than [=] (nil against empty). *)
#[global] Instance slice_equiv : Equiv slice := fun a b => slice_bytes a = slice_bytes b.

#[global] Instance slice_equivalence : Equivalence (≡@{slice}).
Proof. split; unfold equiv, slice_equiv; congruence. Qed.

Lemma bytes_Equal_spec a b : bytes_Equal a b = true ↔ a ≡ b.
Proof. unfold bytes_Equal. by rewrite bool_decide_eq_true. Qed.

Lemma bytes_Equal_false a b : bytes_Equal a b = false ↔ ¬ a ≡ b.
Proof. rewrite <-bytes_Equal_spec. destruct (bytes_Equal a b); naive_solver. Qed.

#[global] Instance bytes_Equal_proper : Proper ((≡) ==> (≡) ==> (=)) bytes_Equal.
Proof. intros a b H c d H'. unfold bytes_Equal. by rewrite H, H'. Qed.

#[global] Instance slice_len_proper : Proper ((≡) ==> (=)) slice_len.
Proof. intros a b H. unfold slice_len. by rewrite H. Qed.

Lemma bytes_Equal_refl a : bytes_Equal a a = true.
Proof. by apply bytes_Equal_spec. Qed.

Lemma slice_len_nonneg s : 0 <= slice_len s.
Proof. unfold slice_len. lia. Qed.

(** A slice with elements is determined by them. *)
Lemma slice_nonempty_eq a b : 0 < slice_len a → a ≡ b → a = b.
Proof.
  unfold slice_len, equiv, slice_equiv. destruct a, b; simpl; intros; subst; simpl in *; naive_solver lia.
Qed.

#[export] Hint Rewrite bytes_Equal_spec bytes_Equal_false bytes_Equal_refl : go.

(** ** [encoding/hex] *)

Definition hex_digit (n : Z) : ascii :=
  ascii_of_nat (Z.to_nat (if n <? 10 then 48 + n else 87 + n)).

(** [hex.EncodeToString]: two lower-case digits per byte. *)
Fixpoint hex_encode (bs : list byte) : string :=
  match bs with
  | [] => EmptyString
  | b :: bs =>
      String (hex_digit (Z_of_byte b / 16))
        (String (hex_digit (Z_of_byte b mod 16)) (hex_encode bs))
  end.
Definition hex_EncodeToString (s : slice) : string := hex_encode (slice_bytes s).

Definition from_hex_char (c : ascii) : option Z :=
  let n := Z.of_nat (nat_of_ascii c) in
  if (48 <=? n) && (n <=? 57) then Some (n - 48)
  else if (97 <=? n) && (n <=? 102) then Some (n - 87)
  else if (65 <=? n) && (n <=? 70) then Some (n - 55)
  else None.

Definition ErrHexLength : error := ErrNew "encoding/hex: odd length hex string".
Definition ErrHexByte : error := ErrNew "encoding/hex: invalid byte".

Fixpoint hex_decode (s : string) : result (list byte) :=
  match s with
  | EmptyString => Ok []
  | String c1 EmptyString =>
      match from_hex_char c1 with
      | Some _ => Fail ErrHexLength
      | None => Fail ErrHexByte
      end
  | String c1 (String c2 s) =>
      match from_hex_char c1, from_hex_char c2 with
      | Some h, Some l => bs ← hex_decode s; mret (byte_of_Z (16 * h + l) :: bs)
      | _, _ => Fail ErrHexByte
      end
  end.

(** [hex.DecodeString]: the result is never the nil slice. *)
Definition hex_DecodeString (s : string) : result slice :=
  bs ← hex_decode s; mret (Bytes bs).

Lemma from_hex_digit n : 0 <= n < 16 → from_hex_char (hex_digit n) = Some n.
Proof.
  intros H. assert (n = 0 ∨ n = 1 ∨ n = 2 ∨ n = 3 ∨ n = 4 ∨ n = 5 ∨ n = 6 ∨ n = 7 ∨ n = 8 ∨
    n = 9 ∨ n = 10 ∨ n = 11 ∨ n = 12 ∨ n = 13 ∨ n = 14 ∨ n = 15) as Hn by lia.
  repeat (destruct Hn as [->|Hn]; [reflexivity|]). by subst.
Qed.

Lemma hex_decode_encode bs : hex_decode (hex_encode bs) = Ok bs.
Proof.
  induction bs as [|b bs IH]; [done|]. simpl.
  pose proof (Z_of_byte_range b).
  rewrite !from_hex_digit by (split; [Z.div_mod_to_equations|Z.div_mod_to_equations]; lia).
  rewrite IH. simpl. unfold mret, result_ret.
  rewrite <-(Z.div_mod (Z_of_byte b) 16) by lia. by rewrite byte_of_Z_of_byte.
Qed.

Lemma hex_roundtrip s : hex_DecodeString (hex_EncodeToString s) = Ok (Bytes (slice_bytes s)).
Proof. unfold hex_DecodeString, hex_EncodeToString. by rewrite hex_decode_encode. Qed.

#[global] Instance hex_EncodeToString_proper : Proper ((≡) ==> (=)) hex_EncodeToString.
Proof. intros a b H. unfold hex_EncodeToString. by rewrite H. Qed.

#[global] Instance hex_EncodeToString_inj : Inj (≡) (=) hex_EncodeToString.
Proof.
  intros a b H. apply (f_equal hex_DecodeString) in H. rewrite !hex_roundtrip in H.
  by injection H.
Qed.

(** ** [strconv.ParseUint(s, 10, 64)] *)

Definition ErrSyntax : error := ErrNew "invalid syntax".
Definition ErrRange : error := ErrNew "value out of range".

Definition digit_val (c : ascii) : option Z :=
  let n := Z.of_nat (nat_of_ascii c) in
  if (48 <=? n) && (n <=? 57) then Some (n - 48) else None.

(** The loop over the bytes of the string; [n] is the [uint64] accumulator.
    [maxUint64/10 + 1] is the smallest number whose product with 10 overflows. *)
Fixpoint parse_uint_loop (n : Z) (s : string) : result Z :=
  match s with
  | EmptyString => Ok n
  | String c s =>
      match digit_val c with
      | None => Fail ErrSyntax
      | Some d =>
          if maxUint64 / 10 + 1 <=? n then Fail ErrRange
          else
            let n10 := u64_mul n 10 in
            let n1 := u64_add n10 d in
            if n1 <? n10 then Fail ErrRange else parse_uint_loop n1 s
      end
  end.

Definition ParseUint (s : string) : result Z :=
  match s with
  | EmptyString => Fail ErrSyntax
  | _ => parse_uint_loop 0 s
  end.

(** The number a string of decimal digits denotes, read from the left. *)
Fixpoint dec_value (acc : Z) (s : string) : option Z :=
  match s with
  | EmptyString => Some acc
  | String c s => match digit_val c with Some d => dec_value (10 * acc + d) s | None => None end
  end.

Lemma digit_val_range c d : digit_val c = Some d → 0 <= d <= 9.
Proof. unfold digit_val. case_match eqn:E; intros; simplify_eq; lia. Qed.

Lemma dec_value_ge acc s n : 0 <= acc → dec_value acc s = Some n → acc <= n.
Proof.
  revert acc. induction s as [|c s IH]; intros acc Ha; simpl; [naive_solver lia|].
  destruct (digit_val c) as [d|] eqn:Hd; [|done].
  intros H. pose proof (digit_val_range _ _ Hd). apply IH in H; lia.
Qed.

Lemma parse_uint_loop_spec acc s n :
  is_u64 acc →
  parse_uint_loop acc s = Ok n ↔ dec_value acc s = Some n ∧ is_u64 n.
Proof.
  revert acc. induction s as [|c s IH]; intros acc Ha; simpl.
  { split; [intros [= ->]; done | intros [[= ->] ?]; done]. }
  destruct (digit_val c) as [d|] eqn:Hd; [|split; [done|by intros []]].
  pose proof (digit_val_range _ _ Hd) as Hr.
  assert (maxUint64 / 10 + 1 = 1844674407370955162) as -> by reflexivity.
  unfold is_u64, maxUint64 in *.
  destruct (Z.leb_spec 1844674407370955162 acc) as [Hc|Hc].
  - split; [done|]. intros [H Hn]. apply dec_value_ge in H; lia.
  - unfold u64_mul. rewrite (u64_id (acc * 10)) by (unfold is_u64, maxUint64; lia).
    destruct (decide (acc * 10 + d <= maxUint64)) as [Hs|Hs]; unfold maxUint64 in *.
    + rewrite u64_add_id by (unfold maxUint64; lia).
      destruct (Z.ltb_spec (acc * 10 + d) (acc * 10)); [lia|].
      rewrite IH by (unfold is_u64, maxUint64; lia).
      by replace (10 * acc + d) with (acc * 10 + d) by lia.
    + assert (u64_add (acc * 10) d = acc * 10 + d - 2 ^ 64) as ->.
      { unfold u64_add, u64. symmetry. apply (Z.mod_unique _ _ 1); lia. }
      destruct (Z.ltb_spec (acc * 10 + d - 2 ^ 64) (acc * 10)); [|lia].
      split; [done|]. intros [H' Hn]. apply dec_value_ge in H'; lia.
Qed.

Lemma ParseUint_spec s n :
  ParseUint s = Ok n ↔ s ≠ ""%string ∧ dec_value 0 s = Some n ∧ is_u64 n.
Proof.
  unfold ParseUint. destruct s as [|c s]; [split; [done|naive_solver]|].
  rewrite parse_uint_loop_spec by (unfold is_u64, maxUint64; lia). naive_solver.
Qed.

Lemma ParseUint_u64 s n : ParseUint s = Ok n → is_u64 n.
Proof. rewrite ParseUint_spec. naive_solver. Qed.

(** ** Byte-wise order, and [encoding/binary] big-endian integers *)

(** [bytes.Compare(a, b) < 0] *)
Fixpoint bytes_ltb (a b : list byte) : bool :=
  match a, b with
  | _, [] => false
  | [], _ :: _ => true
  | x :: a, y :: b =>
      (Z_of_byte x <? Z_of_byte y) || ((Z_of_byte x =? Z_of_byte y) && bytes_ltb a b)
  end.
Definition bytes_leb (a b : list byte) : bool := negb (bytes_ltb b a).

Lemma bytes_ltb_cons x a y b :
  bytes_ltb (x :: a) (y :: b) = true ↔
  Z_of_byte x < Z_of_byte y ∨ (x = y ∧ bytes_ltb a b = true).
Proof.
  simpl. rewrite orb_true_iff, andb_true_iff, Z.ltb_lt, Z.eqb_eq.
  split; intros [?|[? ?]]; auto; right; naive_solver.
Qed.

Lemma bytes_ltb_irrefl a : bytes_ltb a a = false.
Proof. induction a as [|x a IH]; [done|]. simpl. by rewrite Z.ltb_irrefl, Z.eqb_refl, IH. Qed.

Lemma bytes_ltb_trans a b c :
  bytes_ltb a b = true → bytes_ltb b c = true → bytes_ltb a c = true.
Proof.
  revert b c. induction a as [|x a IH]; intros [|y b] [|z c]; try done.
  rewrite !bytes_ltb_cons. intros [H1|[-> H1]] [H2|[-> H2]]; auto.
  - left. lia.
  - right. eauto.
Qed.

Lemma bytes_ltb_total a b : bytes_ltb a b = false → bytes_ltb b a = false → a = b.
Proof.
  revert b. induction a as [|x a IH]; intros [|y b]; try done.
  rewrite <-!not_true_iff_false, !bytes_ltb_cons. intros H1 H2.
  assert (x = y) as ->.
  { apply (inj Z_of_byte). destruct (Z.lt_trichotomy (Z_of_byte x) (Z_of_byte y)); naive_solver. }
  f_equal. apply IH; apply not_true_iff_false; naive_solver.
Qed.

(** [k] bytes of [z], most significant first. *)
Fixpoint be_encode (k : nat) (z : Z) : list byte :=
  match k with
  | O => []
  | S k => byte_of_Z (z / 256 ^ Z.of_nat k) :: be_encode k z
  end.

Fixpoint be_decode_acc (acc : Z) (bs : list byte) : Z :=
  match bs with
  | [] => acc
  | b :: bs => be_decode_acc (256 * acc + Z_of_byte b) bs
  end.
Definition be_decode (bs : list byte) : Z := be_decode_acc 0 bs.

(** [binary.BigEndian.PutUint64] into a fresh 8-byte slice, and [binary.BigEndian.Uint64],
    which panics ([None]) on a slice shorter than 8 bytes and ignores the bytes after. *)
Definition be_PutUint64 (z : Z) : list byte := be_encode 8 z.
Definition be_Uint64 (bs : list byte) : option Z :=
  if (Nat.leb 8 (length bs)) then Some (be_decode (take 8 bs)) else None.

Lemma length_be_encode k z : length (be_encode k z) = k.
Proof. induction k; simpl; auto. Qed.

Lemma mod_256_S k z :
  z mod 256 ^ Z.of_nat (S k) =
  (z / 256 ^ Z.of_nat k) mod 256 * 256 ^ Z.of_nat k + z mod 256 ^ Z.of_nat k.
Proof.
  rewrite Nat2Z.inj_succ, Z.pow_succ_r, (Z.mul_comm 256) by lia.
  rewrite Z.rem_mul_r by lia. lia.
Qed.

Lemma be_decode_acc_encode acc k z :
  be_decode_acc acc (be_encode k z) = acc * 256 ^ Z.of_nat k + z mod 256 ^ Z.of_nat k.
Proof.
  revert acc. induction k as [|k IH]; intros acc.
  { simpl. rewrite Z.pow_0_r, Z.mod_1_r. lia. }
  cbn [be_encode be_decode_acc]. rewrite IH, Z_of_byte_of_Z, mod_256_S, Nat2Z.inj_succ, Z.pow_succ_r by lia.
  lia.
Qed.

Lemma be_Uint64_PutUint64 z : is_u64 z → be_Uint64 (be_PutUint64 z) = Some z.
Proof.
  intros H%is_u64_bound. unfold be_Uint64, be_PutUint64.
  rewrite length_be_encode. simpl Nat.leb. cbv iota.
  rewrite take_ge by (by rewrite length_be_encode).
  unfold be_decode. rewrite be_decode_acc_encode. f_equal. by apply Z.mod_small.
Qed.

Lemma be_decode_acc_bound acc bs :
  0 <= acc → acc * 256 ^ Z.of_nat (length bs) <= be_decode_acc acc bs < (acc + 1) * 256 ^ Z.of_nat (length bs).
Proof.
  revert acc. induction bs as [|b bs IH]; intros acc Hacc; cbn [length be_decode_acc]; [lia|].
  pose proof (Z_of_byte_range b) as Hb. rewrite Nat2Z.inj_succ, Z.pow_succ_r by lia.
  specialize (IH (256 * acc + Z_of_byte b) ltac:(lia)).
  assert (0 < 256 ^ Z.of_nat (length bs)) by (apply Z.pow_pos_nonneg; lia). nia.
Qed.

Lemma be_Uint64_u64 bs e : be_Uint64 bs = Some e → is_u64 e.
Proof.
  unfold be_Uint64. destruct (Nat.leb_spec 8 (length bs)) as [Hl|]; [|done]. intros [= <-].
  pose proof (be_decode_acc_bound 0 (take 8 bs) ltac:(lia)) as Hb. rewrite length_take, Nat.min_l in Hb by done.
  apply is_u64_bound. exact Hb.
Qed.

Lemma be_encode_ltb k a b :
  bytes_ltb (be_encode k a) (be_encode k b) = (a mod 256 ^ Z.of_nat k <? b mod 256 ^ Z.of_nat k).
Proof.
  induction k as [|k IH].
  { simpl. by rewrite !Z.mod_1_r. }
  cbn [be_encode bytes_ltb]. rewrite IH, !Z_of_byte_of_Z, !mod_256_S.
  assert (0 < 256 ^ Z.of_nat k) as Hp by lia.
  pose proof (Z.mod_pos_bound a _ Hp). pose proof (Z.mod_pos_bound b _ Hp).
  pose proof (Z.mod_pos_bound (a / 256 ^ Z.of_nat k) 256). pose proof (Z.mod_pos_bound (b / 256 ^ Z.of_nat k) 256).
  set (ha := (a / 256 ^ Z.of_nat k) mod 256) in *. set (hb := (b / 256 ^ Z.of_nat k) mod 256) in *.
  set (p := 256 ^ Z.of_nat k) in *.
  apply eq_true_iff_eq. rewrite orb_true_iff, andb_true_iff, !Z.ltb_lt, Z.eqb_eq. nia.
Qed.

Lemma be_PutUint64_ltb a b :
  is_u64 a → is_u64 b → bytes_ltb (be_PutUint64 a) (be_PutUint64 b) = (a <? b).
Proof.
  intros Ha%is_u64_bound Hb%is_u64_bound. unfold be_PutUint64. rewrite be_encode_ltb.
  by rewrite !Z.mod_small.
Qed.
