(* ===== verification/BftTypes.v ===== *)
(** * Data and functions of the bft-go-base, bft-core and libp2p libraries

    The sources call these libraries and do not contain them.  The structs whose fields the
    sources read or build are records with those fields; types the sources only pass around
    are the fields of [BftTypes]; the functions are the fields of [BftLib]; and what the
    sources rely on about the functions is stated, one named law at a time, in the [...Laws]
    classes.  No definition here stands for code of the libraries. *)

From Stdlib Require Import ZArith Lia Strings.Byte String.
From stdpp Require Import base list strings option gmap.
From S2P Require Import Prelude GoBase.

(** ** Types *)

Class BftTypes := {
  ShardID : Type;
  ShardTreeCertificate : Type;
  ShardTreeCertificate_zero : ShardTreeCertificate;
  UnicityTreeCertificate : Type;
  TransactionRecord : Type;
  TrustBase : Type;
  Verifier : Type;
  Signer : Type;
}.

(** [peer.ID]: the raw bytes of the identifier, in a Go string; [""] when unset. *)
Definition PeerID : Type := string.

(** [uuid.UUID] *)
Definition UUID : Type := list byte.

Section types.
Context {BT : BftTypes}.

(** [types.InputRecord] *)
Record InputRecord := mkIR {
  ir_Version : Z;
  ir_RoundNumber : Z;
  ir_Epoch : Z;
  ir_PreviousHash : slice;
  ir_Hash : slice;
  ir_SummaryValue : slice;
  ir_Timestamp : Z;
  ir_BlockHash : slice;
  ir_SumOfEarnedFees : Z;
  ir_ETHash : slice;
}.

(** [types.UnicitySeal] *)
Record UnicitySeal := mkSeal {
  seal_Version : Z;
  seal_Epoch : Z;
  seal_RootChainRoundNumber : Z;
  seal_Timestamp : Z;
  seal_PreviousHash : slice;
  seal_Hash : slice;
}.

(** [types.UnicityCertificate] *)
Record UnicityCertificate := mkUC {
  uc_Version : Z;
  uc_InputRecord : option InputRecord;
  uc_TRHash : slice;
  uc_ShardConfHash : slice;
  uc_ShardTreeCertificate : ShardTreeCertificate;
  uc_UnicityTreeCertificate : option UnicityTreeCertificate;
  uc_UnicitySeal : option UnicitySeal;
}.

(** [types.NodeInfo] *)
Record NodeInfo := mkNodeInfo {
  ni_NodeID : string;
  ni_SigKey : slice;
  ni_Stake : Z;
}.

(** [types.PartitionDescriptionRecord]: the configuration of a shard in an epoch. *)
Record PartitionDescriptionRecord := mkPDR {
  pdr_NetworkID : Z;
  pdr_PartitionTypeID : Z;
  pdr_PartitionID : Z;
  pdr_ShardID : ShardID;
  pdr_T2Timeout : Z;
  pdr_Epoch : Z;
  pdr_EpochStart : Z;
  pdr_Validators : list NodeInfo;
  pdr_PartitionParams : gmap string string;
}.

(** [types.Header] *)
Record Header := mkHeader {
  hdr_Version : Z;
  hdr_PartitionID : Z;
  hdr_ShardID : ShardID;
  hdr_ProposerID : string;
  hdr_PreviousBlockHash : slice;
}.

(** [types.Block]; the certificate is carried as CBOR bytes. *)
Record Block := mkBlock {
  blk_Header : option Header;
  blk_Transactions : option (list TransactionRecord);
  blk_UnicityCertificate : slice;
}.
End types.

(** ** Functions *)

Class BftLib {BT : BftTypes} := {
  (** accessors of a [*types.UnicityCertificate], callable on nil *)
  GetRoundNumber : option UnicityCertificate → Z;
  GetRootRoundNumber : option UnicityCertificate → Z;
  GetRootEpoch : option UnicityCertificate → Z;
  GetShardEpoch : option UnicityCertificate → Z;
  GetStateHash : option UnicityCertificate → slice;
  GetPreviousStateHash : option UnicityCertificate → slice;
  GetBlockHash : option UnicityCertificate → slice;
  GetETHash : option UnicityCertificate → slice;
  (** relations between a certificate and an earlier one *)
  IsDuplicate : UnicityCertificate → option UnicityCertificate → bool;
  IsRepeat : UnicityCertificate → option UnicityCertificate → result bool;
  IsSuccessor : UnicityCertificate → option UnicityCertificate → bool;
  IsInitial : UnicityCertificate → bool;
  CheckNonEquivocatingCertificates : UnicityCertificate → UnicityCertificate → result unit;
  AssertEqualIR : InputRecord → option InputRecord → result unit;
  (** [uc.Verify(trustBase, hashAlg, partition, shard, shardConfHash)] *)
  UC_Verify : option UnicityCertificate → TrustBase → Z → Z → ShardID → slice → result unit;
  UC_Hash : UnicityCertificate → Z → result slice;
  utc_Partition : UnicityTreeCertificate → Z;
  InputRecord_IsValid : option InputRecord → result unit;
  (** CBOR of a certificate *)
  Cbor_Marshal_UC : UnicityCertificate → result slice;
  Cbor_Unmarshal_UC : slice → result UnicityCertificate;
  (** methods of [*types.Block]; [CalculateBlockHash] also updates the block *)
  Block_InputRecord : Block → result InputRecord;
  Block_CalculateBlockHash : Block → Z → Block * result InputRecord;
  Block_Size : Block → result Z;
  Block_IsValid : Block → Z → slice → result unit;
  (** methods of the shard configuration and of its validators *)
  ShardID_Equal : ShardID → ShardID → bool;
  PDR_Hash : PartitionDescriptionRecord → Z → result slice;
  PDR_FindValidator : PartitionDescriptionRecord → string → option NodeInfo;
  PDR_Verify : PartitionDescriptionRecord → option PartitionDescriptionRecord → result unit;
  NodeInfo_SigVerifier : NodeInfo → result Verifier;
  (** trust base *)
  RootNodes : TrustBase → list NodeInfo;
  (** signatures *)
  SignHash : Signer → slice → result slice;
  SignBytes : Signer → slice → result slice;
  VerifyHash : Verifier → slice → slice → result unit;
  VerifyBytes : Verifier → slice → slice → result unit;
  (** [peer.Decode] and [peer.ID.String] *)
  peer_Decode : string → result PeerID;
  peer_String : PeerID → string;
  (** [util.Uint64ToBytes], [util.BytesToUint64], [util.Uint32ToBytes] *)
  Uint64ToBytes : Z → list byte;
  BytesToUint64 : list byte → Z;
  Uint32ToBytes : Z → list byte;
}.

(** ** Laws *)

(** The accessors return the field they are named after (a [uint64] where it is a number),
    and the zero value for nil. *)
Class AccessorLaws {BT : BftTypes} (BL : BftLib) : Prop := {
  GetRoundNumber_nil : GetRoundNumber None = 0;
  GetRoundNumber_ir u ir : uc_InputRecord u = Some ir → GetRoundNumber (Some u) = u64 (ir_RoundNumber ir);
  GetStateHash_nil : GetStateHash None = nil_slice;
  GetStateHash_ir u ir : uc_InputRecord u = Some ir → GetStateHash (Some u) = ir_Hash ir;
  GetBlockHash_nil : GetBlockHash None = nil_slice;
  GetBlockHash_ir u ir : uc_InputRecord u = Some ir → GetBlockHash (Some u) = ir_BlockHash ir;
  GetRootRoundNumber_nil : GetRootRoundNumber None = 0;
  GetRootRoundNumber_seal u sl :
    uc_UnicitySeal u = Some sl → GetRootRoundNumber (Some u) = u64 (seal_RootChainRoundNumber sl);
  GetRoundNumber_u64 u : is_u64 (GetRoundNumber u);
  GetRootRoundNumber_u64 u : is_u64 (GetRootRoundNumber u);
}.

(** What the node relies on when it compares certificates: a successor is the certificate of
    the next round, with no round in between (the initial certificate, of round 0, follows the
    missing one); a duplicate has the same root round; and a
    certificate of an earlier root round does not replace a later one. *)
Class OrderLaws {BT : BftTypes} (BL : BftLib) : Prop := {
  IsSuccessor_round u p :
    IsSuccessor u p = true →
    GetRoundNumber (Some u) = GetRoundNumber p + 1 ∨ p = None ∧ GetRoundNumber (Some u) = 0;
  IsDuplicate_root u p :
    IsDuplicate u p = true → GetRootRoundNumber (Some u) = GetRootRoundNumber p;
  CheckNonEquivocating_root u p x :
    CheckNonEquivocatingCertificates p u = Ok x →
    GetRootRoundNumber (Some p) <= GetRootRoundNumber (Some u);
}.

(** A certificate or block that verifies has the parts its verification needs. *)
Class VerifyLaws {BT : BftTypes} (BL : BftLib) : Prop := {
  UC_Verify_parts uc tb alg pid sid sch x :
    UC_Verify uc tb alg pid sid sch = Ok x →
    ∃ u, uc = Some u ∧ is_Some (uc_InputRecord u) ∧ is_Some (uc_UnicitySeal u);
  Block_IsValid_header b alg sch x : Block_IsValid b alg sch = Ok x → is_Some (blk_Header b);
}.

(** Fixed-width keys sort as the numbers they encode, and decode back to them. *)
Class KeyLaws {BT : BftTypes} (BL : BftLib) : Prop := {
  Uint64ToBytes_ltb a b :
    is_u64 a → is_u64 b → bytes_ltb (Uint64ToBytes a) (Uint64ToBytes b) = (a <? b);
  BytesToUint64_ToBytes a : is_u64 a → BytesToUint64 (Uint64ToBytes a) = a;
  Uint64ToBytes_length a : length (Uint64ToBytes a) = 8%nat;
  Uint32ToBytes_length a : length (Uint32ToBytes a) = 4%nat;
  Uint32ToBytes_0_ltb a : is_u64 a → bytes_ltb (Uint32ToBytes 0) (Uint64ToBytes a) = true;
}.

(** A certificate that was encoded decodes to itself; the input record [CalculateBlockHash]
    returns is the one of the certificate it leaves in the block. *)
Class CborLaws {BT : BftTypes} (BL : BftLib) : Prop := {
  Marshal_UC_not_nil u bs : Cbor_Marshal_UC u = Ok bs → slice_is_nil bs = false;
  Unmarshal_Marshal_UC u bs : Cbor_Marshal_UC u = Ok bs → Cbor_Unmarshal_UC bs = Ok u;
  CalculateBlockHash_record b alg b' ir u :
    Block_CalculateBlockHash b alg = (b', Ok ir) →
    Cbor_Unmarshal_UC (blk_UnicityCertificate b') = Ok u → uc_InputRecord u = Some ir;
}.
