(* ===== verification/Logger.v ===== *)
(** * The logger (logger/attr.go, logger/slog.go)

    The attributes of log records and the functions that format them, the configuration of a
    logger, and the handlers that wrap others.  Of [log/slog] the model has values, attributes
    and levels; the formatting of times and JSON are parameters. *)

From Stdlib Require Import ZArith Lia Strings.Ascii String.
From stdpp Require Import base list strings option.
From S2P Require Import Prelude GoPath GoBase BftTypes.

(** ** Strings *)

Definition ascii_between (lo hi : ascii) (c : ascii) : bool := (N_of_ascii lo <=? N_of_ascii c)%N && (N_of_ascii c <=? N_of_ascii hi)%N.
Definition shift_ascii (d : Z) (c : ascii) : ascii := ascii_of_N (Z.to_N (Z.of_N (N_of_ascii c) + d)).

(** [strings.ToLower], as far as it matters for a comparison with ASCII text: of the other
    letters only U+0130 and U+212A have an ASCII lower case. *)
Fixpoint ToLower (s : string) : string :=
  match s with
  | EmptyString => EmptyString
  | String "196" (String "176" s) => String "i" (ToLower s)
  | String "226" (String "132" (String "170" s)) => String "k" (ToLower s)
  | String c s => String (if ascii_between "A" "Z" c then shift_ascii 32 c else c) (ToLower s)
  end%char.

(** [strings.ToUpper], likewise: U+0131 and U+017F. *)
Fixpoint ToUpper (s : string) : string :=
  match s with
  | EmptyString => EmptyString
  | String "196" (String "177" s) => String "I" (ToUpper s)
  | String "197" (String "191" s) => String "S" (ToUpper s)
  | String c s => String (if ascii_between "a" "z" c then shift_ascii (-32) c else c) (ToUpper s)
  end%char.

(** ** Levels *)

Definition LevelDebug : Z := -4.
Definition LevelInfo : Z := 0.
Definition LevelWarn : Z := 4.
Definition LevelError : Z := 8.
Definition LevelTrace : Z := LevelDebug - 4.
Definition levelNone : Z := - 2 ^ 63.

(** [strings.IndexAny(s, "+-")]: the text before the first sign, and from it on. *)
Fixpoint split_sign (s : string) : string * option string :=
  match s with
  | EmptyString => (EmptyString, None)
  | String c rest =>
      if Ascii.eqb c "+" || Ascii.eqb c "-" then (EmptyString, Some s)
      else let '(name, o) := split_sign rest in (String c name, o)
  end.

(** [strconv.Atoi] of a text that starts with a sign. *)
Definition Atoi_signed (s : string) : result Z :=
  match s with
  | String c digits =>
      n ← ParseUint digits;
      if Ascii.eqb c "-" then if n <=? 2 ^ 63 then mret (- n) else Fail ErrRange
      else if n <? 2 ^ 63 then mret n else Fail ErrRange
  | EmptyString => Fail ErrSyntax
  end.

(** [Level.UnmarshalText] into a level that is 0: what the variable holds afterwards. *)
Definition level_of_text (s : string) : Z :=
  let '(name, sign) := split_sign s in
  match (match sign with Some t => Atoi_signed t | None => Ok 0 end) with
  | Fail _ => 0
  | Ok offset =>
      let base := ToUpper name in
      if String.eqb base "DEBUG" then i64 (LevelDebug + offset)
      else if String.eqb base "INFO" then i64 (LevelInfo + offset)
      else if String.eqb base "WARN" then i64 (LevelWarn + offset)
      else if String.eqb base "ERROR" then i64 (LevelError + offset)
      else 0
  end.

Section logger.
Context {BT : BftTypes} {BL : BftLib} {Time : Type}.

(** ** Attributes *)

Record Source := mkSource { src_Function : string; src_File : string; src_Line : Z }.

(** A value of a dynamic type: nil, the ones the logger looks at, and others. *)
Inductive any :=
  | AnyNil
  | AnyPeerID (id : PeerID)
  | AnySource (s : Source)
  | AnyOther (type_name : string).

Inductive Value :=
  | KindAny (a : any)
  | KindLogValuer (a : any)
  | KindString (s : string)
  | KindBool (b : bool)
  | KindInt64 (n : Z)
  | KindUint64 (n : Z)
  | KindFloat64 (bits : Z)
  | KindDuration (n : Z)
  | KindTime (t : Time)
  | KindGroup (l : list (string * Value)).

Definition Attr : Type := string * Value.

(** [slog.Attr{}], which handlers ignore. *)
Definition zero_attr : Attr := (""%string, KindAny AnyNil).

Definition TimeKey : string := "time".
Definition LevelKey : string := "level".
Definition MessageKey : string := "msg".
Definition SourceKey : string := "source".
Definition NodeIDKey : string := "node_id".
Definition ErrorKey : string := "err".
Definition RoundKey : string := "round".
Definition DataKey : string := "data".

(** A formatter may be nil, and may panic. *)
Definition formatter : Type := list string → Attr → outcome Attr.

Context (time_IsZero : Time → bool) (time_Format : string → Time → string) (value_String : Value → string).
Context (reflect_TypeString : any → string) (json_Marshal : any → result string).

(** [f1(groups, f0(groups, a))] *)
Definition then_format (f0 f1 : formatter) : formatter := fun groups a =>
  match f0 groups a with Ret a => f1 groups a | Throw e => Throw e | Panic => Panic end.

(** [composeAttrFmt] after the nil formatters were deleted. *)
Fixpoint compose_non_nil (f : list formatter) : option formatter :=
  match f with
  | [] => None
  | [f0] => Some f0
  | [f0; f1] => Some (then_format f0 f1)
  | [f0; f1; f2] => Some (then_format (then_format f0 f1) f2)
  | f0 :: f1 :: f2 :: rest =>
      let first := then_format (then_format f0 f1) f2 in
      match compose_non_nil rest with
      | None => Some first
      | Some g => Some (then_format first g)
      end
  end.

Definition composeAttrFmt (f : list (option formatter)) : option formatter :=
  compose_non_nil (omap (fun x => x) f).

Definition formatTimeAttr (format : string) : option formatter :=
  if String.eqb format "" then None
  else if String.eqb format "none" then
    Some (fun _ a => if String.eqb a.1 TimeKey then Ret zero_attr else Ret a)
  else
    Some (fun _ a =>
      if String.eqb a.1 TimeKey then
        match a.2 with
        | KindTime t => if time_IsZero t then Ret a else Ret (a.1, KindString (time_Format format t))
        | _ => Panic
        end
      else Ret a).

(** The short form of an identifier. *)
Definition short_peerID (id : PeerID) : string :=
  let pid := peer_String id in
  if 10 <? Z.of_nat (String.length pid) then
    append (substring 0 2 pid) (append "*" (substring (String.length pid - 6) 6 pid))
  else pid.

Definition formatPeerIDAttr (format : string) : option formatter :=
  if String.eqb format "none" then
    Some (fun _ a => match a.2 with KindAny (AnyPeerID _) => Ret zero_attr | _ => Ret a end)
  else if String.eqb format "short" then
    Some (fun _ a => match a.2 with
      | KindAny (AnyPeerID id) => Ret (a.1, KindString (short_peerID id))
      | _ => Ret a
      end)
  else None.

Definition formatDataAttrAsJSON : formatter := fun _ a =>
  if String.eqb a.1 DataKey then
    match a.2 with
    | KindAny x => match json_Marshal x with Ok b => Ret (a.1, KindString b) | Fail _ => Ret a end
    | _ => Ret a
    end
  else Ret a.

Definition formatAttrWallet : formatter := fun _ a =>
  if String.eqb a.1 LevelKey || String.eqb a.1 MessageKey || String.eqb a.1 ErrorKey then Ret a
  else Ret zero_attr.

Definition kind_String (v : Value) : string :=
  match v with
  | KindAny _ => "Any" | KindLogValuer _ => "LogValuer" | KindString _ => "String" | KindBool _ => "Bool"
  | KindInt64 _ => "Int64" | KindUint64 _ => "Uint64" | KindFloat64 _ => "Float64"
  | KindDuration _ => "Duration" | KindTime _ => "Time" | KindGroup _ => "Group"
  end.

Fixpoint trim_stars (s : string) : string :=
  match s with String "*" s => trim_stars s | s => s end.
Fixpoint dots_to_underscores (s : string) : string :=
  match s with
  | EmptyString => EmptyString
  | String c s => String (if Ascii.eqb c "." then "_"%char else c) (dots_to_underscores s)
  end.

(** There is no type of nil to ask for its name. *)
Definition dataName (v : Value) : outcome string :=
  match v with
  | KindAny AnyNil => Panic
  | KindAny a | KindLogValuer a => Ret (dots_to_underscores (trim_stars (reflect_TypeString a)))
  | v => Ret (kind_String v)
  end.

(** The text after the last slash, which [filepath.Split] returns as the file. *)
Definition after_last_slash (s : string) : string := List.last (path_elems s) ""%string.

(** The text after the first dot, when there is one. *)
Fixpoint after_first_dot (s : string) : option string :=
  match s with
  | EmptyString => None
  | String c s => if Ascii.eqb c "." then Some s else after_first_dot s
  end.

Definition trimSource (src : Source) : Source :=
  let f := after_last_slash (src_Function src) in
  mkSource (default f (after_first_dot f)) (src_File src) (src_Line src).

(** [slog.Any(key, v.Any())] and [slog.Any(key, v)] of a value keep the value. *)
Definition formatAttrECS : formatter := fun _ a =>
  let '(key, v) := a in
  if String.eqb key MessageKey then Ret ("message"%string, KindString (value_String v))
  else if String.eqb key SourceKey then
    match v with
    | KindAny (AnySource src) =>
        let src := trimSource src in
        Ret ("log"%string, KindGroup [("origin"%string, KindGroup
          [("function"%string, KindString (src_Function src));
           ("file"%string, KindGroup [("name"%string, KindString (src_File src)); ("line"%string, KindInt64 (src_Line src))])])])
    | _ => Ret a
    end
  else if String.eqb key NodeIDKey then
    Ret ("service"%string, KindGroup [("node"%string, KindGroup [("name"%string, v)])])
  else if String.eqb key ErrorKey then Ret ("error"%string, KindGroup [("message"%string, v)])
  else if String.eqb key DataKey then
    match dataName v with
    | Ret name => Ret (DataKey, KindGroup [(name, v)])
    | Throw e => Throw e
    | Panic => Panic
    end
  else Ret a.

(** [slog.Any] on values of types it has no kind for. *)
Definition attr_NodeID (id : PeerID) : Attr := (NodeIDKey, KindAny (AnyPeerID id)).
Definition attr_Error (err : any) : Attr := (ErrorKey, KindAny err).
Definition attr_Data (d : any) : Attr := (DataKey, KindAny d).

Definition attr_Shard (partition : Z) (shard : string) : Attr :=
  ("shard"%string, KindGroup [("partition"%string, KindUint64 partition); ("id"%string, KindString shard)]).

(** ** Configuration *)

Definition fmtTEXT : string := "text".
Definition fmtJSON : string := "json".
Definition fmtECS : string := "ecs".
Definition fmtCONSOLE : string := "console".
Definition fmtWALLET : string := "wallet".

Inductive Writer := Stdout | Stderr | Discard | LogFile (path : string).

(** The colour callback is nil or a function of the writer. *)
Record LogConfiguration := mkLogConfiguration {
  cfg_Level : string;
  cfg_Format : string;
  cfg_OutputPath : string;
  cfg_TimeFormat : string;
  cfg_PeerIDFormat : string;
  cfg_ShowGoroutineID : option bool;
  cfg_ConsoleSupportsColor : option (Writer → bool);
}.

Context (is_terminal : Writer → bool).

Definition initDefaults (c : LogConfiguration) : LogConfiguration :=
  let level := if String.eqb (cfg_Level c) "" then "INFO"%string else cfg_Level c in
  let format := if String.eqb (cfg_Format c) "" then fmtCONSOLE else cfg_Format c in
  let timeFormat :=
    if String.eqb (cfg_TimeFormat c) "" then
      if String.eqb format fmtCONSOLE then "15:04:05.0000"%string else "2006-01-02T15:04:05.0000Z0700"%string
    else cfg_TimeFormat c in
  let peerIDFormat :=
    if String.eqb (cfg_PeerIDFormat c) "" && String.eqb format fmtCONSOLE then "short"%string else cfg_PeerIDFormat c in
  let color := Some (default is_terminal (cfg_ConsoleSupportsColor c)) in
  let goID := if String.eqb format fmtWALLET then Some false else cfg_ShowGoroutineID c in
  mkLogConfiguration level format (cfg_OutputPath c) timeFormat peerIDFormat goID color.

Definition DevNull : string := "/dev/null".

Definition logLevel (c : LogConfiguration) : Z :=
  if String.eqb (cfg_OutputPath c) "discard" || String.eqb (cfg_OutputPath c) DevNull then levelNone
  else
    let level := ToLower (cfg_Level c) in
    if String.eqb level "warning" then LevelWarn
    else if String.eqb level "trace" then LevelTrace
    else if String.eqb level "none" then levelNone
    else level_of_text (cfg_Level c).

Record HandlerOptions := mkHandlerOptions {
  opt_AddSource : bool;
  opt_Level : Z;
  opt_ReplaceAttr : option formatter;
}.

Definition handlerOptions (c : LogConfiguration) : option HandlerOptions :=
  let plain := composeAttrFmt [formatTimeAttr (cfg_TimeFormat c); formatPeerIDAttr (cfg_PeerIDFormat c)] in
  if String.eqb (cfg_Format c) fmtTEXT then Some (mkHandlerOptions true (logLevel c) plain)
  else if String.eqb (cfg_Format c) fmtJSON then Some (mkHandlerOptions true (logLevel c) plain)
  else if String.eqb (cfg_Format c) fmtECS then
    Some (mkHandlerOptions true (logLevel c)
      (composeAttrFmt [formatTimeAttr (cfg_TimeFormat c); Some formatAttrECS]))
  else None.

(** Handlers: those of [log/slog] and of tint, with the attributes and groups added to them,
    and the two of this package. *)
Inductive added := AddedAttrs (l : list Attr) | AddedGroup (name : string).
Inductive Handler :=
  | TextHandler (out : Writer) (o : option HandlerOptions) (ctx : list added)
  | JSONHandler (out : Writer) (o : option HandlerOptions) (ctx : list added)
  | TintHandler (out : Writer) (noColor : bool) (timeFormat : string) (o : HandlerOptions) (ctx : list added)
  | ABHandler (h : Handler)
  | RoundHandler (h : Handler) (round : unit → Z).

Definition NewABHandler (h : Handler) : Handler :=
  match h with ABHandler h => ABHandler h | h => ABHandler h end.
Definition NewRoundHandler (h : Handler) (getRound : unit → Z) : Handler :=
  match h with RoundHandler h _ => RoundHandler h getRound | h => RoundHandler h getRound end.

Definition cfg_Handler (c : LogConfiguration) (out : Writer) : LogConfiguration * result Handler :=
  let c := initDefaults c in
  let noColor := match cfg_ConsoleSupportsColor c with None => true | Some f => negb (f out) end in
  let format := ToLower (cfg_Format c) in
  if String.eqb format fmtTEXT then (c, Ok (NewABHandler (TextHandler out (handlerOptions c) [])))
  else if String.eqb format fmtJSON || String.eqb format fmtECS then
    (c, Ok (NewABHandler (JSONHandler out (handlerOptions c) [])))
  else if String.eqb format fmtCONSOLE then
    (c, Ok (NewABHandler (TintHandler out noColor (cfg_TimeFormat c)
      (mkHandlerOptions true (logLevel c)
        (composeAttrFmt [formatPeerIDAttr (cfg_PeerIDFormat c); Some formatDataAttrAsJSON])) [])))
  else if String.eqb format fmtWALLET then
    (c, Ok (NewABHandler (TintHandler out noColor (cfg_TimeFormat c)
      (mkHandlerOptions false (logLevel c) (Some formatAttrWallet)) [])))
  else (c, Fail (ErrNew "unknown log format")).

(** [filepath.Dir] and the file operations. *)
Definition filepath_Dir (name : string) : string :=
  filepath_Clean (String.concat "/" (removelast (path_elems name) ++ [""%string])).

Context (MkdirAll OpenFile : string → result unit).

Definition filenameToWriter (name : string) : result Writer :=
  let lower := ToLower name in
  if String.eqb lower "stdout" then Ok Stdout
  else if String.eqb lower "stderr" || String.eqb lower "" then Ok Stderr
  else if String.eqb lower "discard" || String.eqb lower DevNull then Ok Discard
  else
    wrap "create dir for log output" (MkdirAll (filepath_Dir name)) ≫= fun _ =>
    wrap "open file for log output" (OpenFile (filepath_Clean name)) ≫= fun _ =>
    mret (LogFile (filepath_Clean name)).

Definition logger_New (c : LogConfiguration) : result Handler :=
  out ← wrap "creating writer for log output" (filenameToWriter (cfg_OutputPath c));
  wrap "creating logger handler" (cfg_Handler c out).2.

(** ** Methods of the handlers *)

Context (tint_Enabled : Z → Z → bool).

(** A handler without options logs from INFO on. *)
Fixpoint Enabled (h : Handler) (level : Z) : bool :=
  match h with
  | TextHandler _ o _ | JSONHandler _ o _ =>
      match o with Some o => opt_Level o | None => LevelInfo end <=? level
  | TintHandler _ _ _ o _ => tint_Enabled (opt_Level o) level
  | ABHandler h | RoundHandler h _ => Enabled h level
  end.

Fixpoint with_added (x : added) (h : Handler) : Handler :=
  match h with
  | TextHandler out o ctx => TextHandler out o (ctx ++ [x])
  | JSONHandler out o ctx => JSONHandler out o (ctx ++ [x])
  | TintHandler out nc tf o ctx => TintHandler out nc tf o (ctx ++ [x])
  | ABHandler h => NewABHandler (with_added x h)
  | RoundHandler h round => NewRoundHandler (with_added x h) round
  end.
Definition WithAttrs (attrs : list Attr) : Handler → Handler := with_added (AddedAttrs attrs).
Definition WithGroup (name : string) : Handler → Handler := with_added (AddedGroup name).

(** The handler that writes a record, and the attributes of the record it gets. *)
Fixpoint Handle (h : Handler) (attrs : list Attr) : Handler * list Attr :=
  match h with
  | ABHandler h => Handle h attrs
  | RoundHandler h round => Handle h (attrs ++ [(RoundKey, KindUint64 (round tt))])
  | h => (h, attrs)
  end.

(** ** Properties *)

(** All formatters one after the other. *)
Fixpoint format_all (f : list formatter) : formatter := fun groups a =>
  match f with
  | [] => Ret a
  | f0 :: f => match f0 groups a with Ret a => format_all f groups a | Throw e => Throw e | Panic => Panic end
  end.

Lemma compose_non_nil_spec f :
  match compose_non_nil f with
  | None => f = []
  | Some g => f ≠ [] ∧ ∀ groups a, g groups a = format_all f groups a
  end.
Proof.
  induction f as [f IH] using (induction_ltof1 _ (@length formatter)). unfold ltof in IH.
  destruct f as [|f0 [|f1 [|f2 [|f3 rest]]]]; [done|split; [done|]..|].
  - intros groups a. simpl. by destruct (f0 groups a).
  - intros groups a. unfold then_format. simpl. destruct (f0 groups a) as [a'| |]; [|done|done]. by destruct (f1 groups a').
  - intros groups a. unfold then_format. simpl. destruct (f0 groups a) as [a0| |]; [|done|done].
    destruct (f1 groups a0) as [a1| |]; [|done|done]. by destruct (f2 groups a1).
  - specialize (IH (f3 :: rest) ltac:(simpl; lia)).
    change (compose_non_nil (f0 :: f1 :: f2 :: f3 :: rest)) with
      (let first := then_format (then_format f0 f1) f2 in
       match compose_non_nil (f3 :: rest) with None => Some first | Some g => Some (then_format first g) end).
    cbv zeta. destruct (compose_non_nil (f3 :: rest)) as [g|]; [|done]. destruct IH as [_ IH]. split; [done|].
    intros groups a. unfold then_format. cbn [format_all]. destruct (f0 groups a) as [a0| |]; [|done|done].
    destruct (f1 groups a0) as [a1| |]; [|done|done]. destruct (f2 groups a1) as [a2| |]; [|done|done]. apply IH.
Qed.

(** Composing formatters, for any number of them: the result is nil exactly when there is
    none but nil ones, and otherwise it applies the others one after the other, in the order
    given, each to what the one before returned. *)
Theorem composeAttrFmt_sequence f :
  match composeAttrFmt f with
  | None => omap (fun x => x) f = []
  | Some g => omap (fun x => x) f ≠ [] ∧ ∀ groups a, g groups a = format_all (omap (fun x => x) f) groups a
  end.
Proof. apply compose_non_nil_spec. Qed.

(** Wrapping a handler, adding attributes or groups does not change what is logged. *)
Lemma Enabled_NewABHandler h level : Enabled (NewABHandler h) level = Enabled h level.
Proof. by destruct h. Qed.
Lemma Enabled_NewRoundHandler h r level : Enabled (NewRoundHandler h r) level = Enabled h level.
Proof. by destruct h. Qed.
Lemma Enabled_with_added x h level : Enabled (with_added x h) level = Enabled h level.
Proof.
  induction h; simpl; [done|done|done|by rewrite Enabled_NewABHandler|by rewrite Enabled_NewRoundHandler].
Qed.

(** The formats of the handlers of [log/slog]. *)
Definition slog_format (format : string) : bool :=
  String.eqb format fmtTEXT || String.eqb format fmtJSON || String.eqb format fmtECS.

Lemma handlerOptions_level c :
  match handlerOptions c with
  | Some o => slog_format (cfg_Format c) = true ∧ opt_Level o = logLevel c
  | None => slog_format (cfg_Format c) = false
  end.
Proof.
  unfold handlerOptions, slog_format.
  destruct (String.eqb (cfg_Format c) fmtTEXT); [done|]. destruct (String.eqb (cfg_Format c) fmtJSON); [done|].
  by destruct (String.eqb (cfg_Format c) fmtECS).
Qed.

(** C37: From which level on a logger for text, JSON or ECS logs: from the configured one if the
    format is written in lower case, but from INFO on, whatever is configured, if it has a
    capital letter; the configured level "none" is the lowest there is, so that everything is
    logged. *)
Theorem logger_level c out h level :
  slog_format (ToLower (cfg_Format (initDefaults c))) = true →
  (cfg_Handler c out).2 = Ok h → - 2 ^ 63 <= level →
  Enabled h level =
    if slog_format (cfg_Format (initDefaults c)) then
      if String.eqb (ToLower (cfg_Level (initDefaults c))) "none" then true
      else logLevel (initDefaults c) <=? level
    else LevelInfo <=? level.
Proof.
  set (c' := initDefaults c). unfold slog_format at 1. intros Hf Hh Hl. unfold cfg_Handler in Hh. fold c' in Hh. clearbody c'.
  assert (∃ mk : option HandlerOptions → Handler, h = NewABHandler (mk (handlerOptions c')) ∧
    ∀ o, Enabled (mk o) level = (match o with Some o => opt_Level o | None => LevelInfo end <=? level)) as (mk & -> & He).
  { destruct (String.eqb (ToLower (cfg_Format c')) fmtTEXT).
    - exists (fun o => TextHandler out o []). by injection Hh as <-.
    - cbn [orb] in Hf. rewrite Hf in Hh. exists (fun o => JSONHandler out o []). by injection Hh as <-. }
  rewrite Enabled_NewABHandler, He. pose proof (handlerOptions_level c') as Ho.
  destruct (handlerOptions c') as [o|]; [|by rewrite Ho]. destruct Ho as [Hs Hlv]. rewrite Hs, Hlv.
  destruct (String.eqb (ToLower (cfg_Level c')) "none") eqn:Hn; [|done].
  unfold logLevel. apply String.eqb_eq in Hn. rewrite Hn. apply Z.leb_le.
  by destruct (String.eqb (cfg_OutputPath c') "discard" || String.eqb (cfg_OutputPath c') DevNull).
Qed.

(** A record that goes through a round handler gets the round of the moment, after its own
    attributes. *)
Lemma Handle_round h getRound attrs :
  Handle (NewRoundHandler h getRound) attrs =
  Handle (match h with RoundHandler h _ => h | h => h end) (attrs ++ [(RoundKey, KindUint64 (getRound tt))]).
Proof. by destruct h. Qed.
End logger.
