(* ===== verification/BftModel.v ===== *)
(** * A concrete instance of the library interface

    Small executable functions that satisfy every law of BftTypes: certificates are encoded
    by counting, signatures are the key followed by the message, a certificate verifies when
    it has a seal and its input record is one of the two the root chain has certified.  It
    shows that the laws are consistent and lets the code run on concrete inputs; nothing is
    proved of the code for this instance alone. *)

From Stdlib Require Import ZArith Lia Strings.Byte String.
From stdpp Require Import base list strings option gmap countable.
From S2P Require Import Prelude GoBase BftTypes.

#[local] Instance ModelTypes : BftTypes := {|
  ShardID := Z;
  ShardTreeCertificate := unit;
  ShardTreeCertificate_zero := tt;
  UnicityTreeCertificate := Z;
  TransactionRecord := Z;
  TrustBase := list NodeInfo;
  Verifier := Z;
  Signer := Z;
|}.

(** ** Encoding of a certificate *)

#[local] Instance slice_countable : Countable slice :=
  inj_countable' (fun s => match s with nil_slice => None | Bytes bs => Some bs end)
    (fun o => match o with None => nil_slice | Some bs => Bytes bs end)
    ltac:(intros []; done).

#[local] Instance InputRecord_eq_dec : EqDecision InputRecord.
Proof. solve_decision. Defined.
#[local] Instance UnicitySeal_eq_dec : EqDecision UnicitySeal.
Proof. solve_decision. Defined.
#[local] Instance UC_eq_dec : EqDecision UnicityCertificate.
Proof. unfold EqDecision. solve_decision. Defined.

#[local] Instance InputRecord_countable : Countable InputRecord :=
  inj_countable'
    (fun r => (ir_Version r, ir_RoundNumber r, ir_Epoch r, ir_PreviousHash r, ir_Hash r,
       (ir_SummaryValue r, ir_Timestamp r, ir_BlockHash r, ir_SumOfEarnedFees r, ir_ETHash r)))
    (fun '(a, b, c, d, e, (f, g, h, i, j)) => mkIR a b c d e f g h i j)
    ltac:(intros []; done).

#[local] Instance UnicitySeal_countable : Countable UnicitySeal :=
  inj_countable'
    (fun r => (seal_Version r, seal_Epoch r, seal_RootChainRoundNumber r, seal_Timestamp r,
       seal_PreviousHash r, seal_Hash r))
    (fun '(a, b, c, d, e, f) => mkSeal a b c d e f)
    ltac:(intros []; done).

#[local] Instance UC_countable : Countable UnicityCertificate :=
  inj_countable'
    (fun u => (uc_Version u, uc_InputRecord u, uc_TRHash u, uc_ShardConfHash u,
       uc_UnicityTreeCertificate u : option Z, uc_UnicitySeal u))
    (fun '(a, b, c, d, e, f) => mkUC a b c d (tt : ShardTreeCertificate) e f)
    ltac:(intros [? ? ? ? [] ? ?]; done).

Fixpoint pos_bytes (p : positive) : list byte :=
  match p with
  | xH => []
  | xO p => x00 :: pos_bytes p
  | xI p => x01 :: pos_bytes p
  end.

Fixpoint bytes_pos (bs : list byte) : positive :=
  match bs with
  | [] => xH
  | x00 :: bs => xO (bytes_pos bs)
  | _ :: bs => xI (bytes_pos bs)
  end.

Lemma bytes_pos_bytes p : bytes_pos (pos_bytes p) = p.
Proof. induction p; simpl; congruence. Qed.

Definition marshal_uc (u : UnicityCertificate) : result slice := Ok (Bytes (pos_bytes (encode u))).
Definition unmarshal_uc (s : slice) : result UnicityCertificate :=
  match decode (bytes_pos (slice_bytes s)) with
  | Some u => Ok u
  | None => Fail (ErrNew "cbor: invalid")
  end.

Lemma unmarshal_marshal_uc u s : marshal_uc u = Ok s → unmarshal_uc s = Ok u.
Proof.
  intros [= <-]. unfold unmarshal_uc. simpl. by rewrite bytes_pos_bytes, decode_encode.
Qed.

(** ** Certificates *)

Definition uc_round (o : option UnicityCertificate) : Z :=
  match o ≫= uc_InputRecord with Some ir => u64 (ir_RoundNumber ir) | None => 0 end.
Definition uc_root_round (o : option UnicityCertificate) : Z :=
  match o ≫= uc_UnicitySeal with Some sl => u64 (seal_RootChainRoundNumber sl) | None => 0 end.
Definition uc_hash_of (f : InputRecord → slice) (o : option UnicityCertificate) : slice :=
  match o ≫= uc_InputRecord with Some ir => f ir | None => nil_slice end.

Definition block_ir (b : Block) : result InputRecord :=
  u ← unmarshal_uc (blk_UnicityCertificate b);
  match uc_InputRecord u with Some ir => mret ir | None => Fail (ErrNew "nil input record") end.

Definition set_block_hash (h : slice) (ir : InputRecord) : InputRecord :=
  mkIR (ir_Version ir) (ir_RoundNumber ir) (ir_Epoch ir) (ir_PreviousHash ir) (ir_Hash ir)
    (ir_SummaryValue ir) (ir_Timestamp ir) h (ir_SumOfEarnedFees ir) (ir_ETHash ir).

(** The block hash is empty when the state does not change, otherwise the hashes in a row. *)
Definition calc_block_hash (b : Block) (alg : Z) : Block * result InputRecord :=
  match unmarshal_uc (blk_UnicityCertificate b), blk_Header b with
  | Ok u, Some h =>
      match uc_InputRecord u with
      | Some ir =>
          let bh := if bytes_Equal (ir_Hash ir) (ir_PreviousHash ir) then nil_slice
                    else Bytes (slice_bytes (hdr_PreviousBlockHash h) ++ slice_bytes (ir_Hash ir)) in
          let ir' := set_block_hash bh ir in
          let u' := mkUC (uc_Version u) (Some ir') (uc_TRHash u) (uc_ShardConfHash u)
                      (uc_ShardTreeCertificate u) (uc_UnicityTreeCertificate u) (uc_UnicitySeal u) in
          (mkBlock (blk_Header b) (blk_Transactions b) (Bytes (pos_bytes (encode u'))), Ok ir')
      | None => (b, Fail (ErrNew "nil input record"))
      end
  | _, _ => (b, Fail (ErrNew "invalid block"))
  end.

(** What the root chain certifies: the initial record, and the record of round 1, which
    finalizes the PoW block "bb". *)
Definition m_ir0 : InputRecord := mkIR 1 0 0 nil_slice nil_slice nil_slice 0 nil_slice 0 nil_slice.
Definition m_ir1 : InputRecord :=
  mkIR 1 1 0 nil_slice (Bytes [xbb]) (Bytes []) 77 (Bytes [xbb]) 0 nil_slice.

Definition verify_uc (pid : Z) (o : option UnicityCertificate) : result unit :=
  match o with
  | Some u =>
      match uc_InputRecord u, uc_UnicitySeal u with
      | Some ir, Some _ =>
          if bool_decide (ir = m_ir0 ∨ ir = m_ir1) && bool_decide (uc_UnicityTreeCertificate u = Some pid) then Ok tt
          else Fail (ErrNew "quorum not reached")
      | _, _ => Fail (ErrNew "invalid unicity certificate")
      end
  | None => Fail (ErrNew "unicity certificate is nil")
  end.

Lemma verify_uc_record pid u x : verify_uc pid (Some u) = Ok x → uc_InputRecord u = Some m_ir0 ∨ uc_InputRecord u = Some m_ir1.
Proof.
  unfold verify_uc. destruct (uc_InputRecord u) as [ir|]; [|done]. destruct (uc_UnicitySeal u); [|done].
  case_bool_decide as Hir; [|done]. intros _. by destruct Hir as [->| ->]; [left|right].
Qed.

Definition ok_if (b : bool) (msg : string) : result unit := if b then Ok tt else Fail (ErrNew msg).

Definition sign (k : Z) (m : slice) : result slice := Ok (Bytes (byte_of_Z k :: slice_bytes m)).
Definition verify (k : Z) (sig m : slice) : result unit :=
  ok_if (bool_decide (sig = Bytes (byte_of_Z k :: slice_bytes m))) "verification failed".

#[local] Instance ModelLib : @BftLib ModelTypes := {|
  GetRoundNumber := uc_round;
  GetRootRoundNumber := uc_root_round;
  GetRootEpoch o := match o ≫= uc_UnicitySeal with Some sl => seal_Epoch sl | None => 0 end;
  GetShardEpoch o := match o ≫= uc_InputRecord with Some ir => ir_Epoch ir | None => 0 end;
  GetStateHash := uc_hash_of ir_Hash;
  GetPreviousStateHash := uc_hash_of ir_PreviousHash;
  GetBlockHash := uc_hash_of ir_BlockHash;
  GetETHash := uc_hash_of ir_ETHash;
  IsDuplicate u p := uc_root_round (Some u) =? uc_root_round p;
  IsRepeat u p :=
    Ok (bool_decide (uc_InputRecord u = (p ≫= uc_InputRecord)) &&
        (uc_root_round p <? uc_root_round (Some u)));
  IsSuccessor u p :=
    ((uc_round (Some u) =? uc_round p + 1) || (bool_decide (p = None) && (uc_round (Some u) =? 0))) &&
    bytes_Equal (uc_hash_of ir_PreviousHash (Some u)) (uc_hash_of ir_Hash p);
  IsInitial u := uc_round (Some u) =? 0;
  CheckNonEquivocatingCertificates p u :=
    ok_if (uc_root_round (Some p) <=? uc_root_round (Some u)) "equivocating";
  AssertEqualIR a b := ok_if (bool_decide (Some a = b)) "input records differ";
  UC_Verify o tb alg pid sid sch := verify_uc pid o;
  UC_Hash u alg := marshal_uc u;
  utc_Partition p := p;
  InputRecord_IsValid o := ok_if (bool_decide (is_Some o)) "input record is nil";
  Cbor_Marshal_UC := marshal_uc;
  Cbor_Unmarshal_UC := unmarshal_uc;
  Block_InputRecord := block_ir;
  Block_CalculateBlockHash := calc_block_hash;
  Block_Size b := Ok 1;
  Block_IsValid b alg sch := ok_if (bool_decide (is_Some (blk_Header b))) "block header is nil";
  ShardID_Equal a b := a =? b;
  PDR_Hash c alg := Ok (Bytes (be_encode 8 (pdr_Epoch c)));
  PDR_FindValidator c id := List.find (fun v => String.eqb (ni_NodeID v) id) (pdr_Validators c);
  PDR_Verify c prev :=
    ok_if (match prev with Some p => pdr_Epoch c =? pdr_Epoch p + 1 | None => true end) "invalid epoch";
  NodeInfo_SigVerifier v := Ok (ni_Stake v);
  RootNodes tb := tb;
  SignHash := sign;
  SignBytes := sign;
  VerifyHash := verify;
  VerifyBytes := verify;
  peer_Decode s := if String.eqb s "" then Fail (ErrNew "empty peer id") else Ok s;
  peer_String id := id;
  Uint64ToBytes := be_encode 8;
  BytesToUint64 := be_decode;
  Uint32ToBytes := be_encode 4;
|}.

Lemma ok_if_ok b msg u : ok_if b msg = Ok u ↔ b = true.
Proof. destruct b, u; simpl; naive_solver. Qed.

Lemma is_u64_0 : is_u64 0.
Proof. unfold is_u64, maxUint64. lia. Qed.

#[local] Instance ModelAccessorLaws : AccessorLaws ModelLib.
Proof.
  split; simpl; unfold uc_round, uc_root_round, uc_hash_of; simpl; try done;
    try by intros ? ? ->.
  - intros [u|]; simpl; [|apply is_u64_0]. case_match; [apply u64_is_u64|apply is_u64_0].
  - intros [u|]; simpl; [|apply is_u64_0]. case_match; [apply u64_is_u64|apply is_u64_0].
Qed.

#[local] Instance ModelOrderLaws : OrderLaws ModelLib.
Proof.
  split; simpl.
  - intros u p [H _]%andb_true_iff. apply orb_true_iff in H as [H|H]; [left; by apply Z.eqb_eq|right].
    apply andb_true_iff in H as [Hp%bool_decide_eq_true Hr%Z.eqb_eq]. done.
  - intros u p H. by apply Z.eqb_eq.
  - intros u p x H%ok_if_ok. by apply Z.leb_le.
Qed.

#[local] Instance ModelVerifyLaws : VerifyLaws ModelLib.
Proof.
  split; simpl.
  - intros [u|] tb alg pid sid sch x; simpl; [|done]. repeat case_match; try done. eauto.
  - intros b _ _ x H%ok_if_ok. by apply bool_decide_eq_true in H.
Qed.

Lemma zeros_ltb k l : (k < length l)%nat → bytes_ltb (replicate k x00) l = true.
Proof.
  revert l. induction k as [|k IH]; intros [|x l] Hl; cbn [replicate bytes_ltb length] in *; try lia; try done.
  rewrite IH by lia. pose proof (Z_of_byte_range x). rewrite andb_true_r. apply orb_true_iff.
  change (Z_of_byte x00) with 0 in *. rewrite Z.ltb_lt, Z.eqb_eq. lia.
Qed.

Lemma be_encode_0_ltb a : is_u64 a → bytes_ltb (be_encode 4 0) (be_encode 8 a) = true.
Proof. intros _. apply (zeros_ltb 4). rewrite length_be_encode. lia. Qed.

#[local] Instance ModelKeyLaws : KeyLaws ModelLib.
Proof.
  split; intros.
  - by apply be_PutUint64_ltb.
  - change (be_decode (be_encode 8 a) = a). unfold be_decode. rewrite be_decode_acc_encode. rewrite Z.add_0_l.
    apply Z.mod_small. by apply is_u64_bound.
  - done.
  - done.
  - change (bytes_ltb (be_encode 4 0) (be_encode 8 a) = true). by apply be_encode_0_ltb.
Qed.

Lemma calc_block_hash_record b alg b' ir u :
  calc_block_hash b alg = (b', Ok ir) → unmarshal_uc (blk_UnicityCertificate b') = Ok u → uc_InputRecord u = Some ir.
Proof.
  unfold calc_block_hash. intros Hc Hu. repeat case_match; simplify_eq/=;
    rewrite (unmarshal_marshal_uc _ _ eq_refl) in Hu; by injection Hu as <-.
Qed.

#[local] Instance ModelCborLaws : CborLaws ModelLib.
Proof.
  split; simpl; [by intros u bs [= <-]|apply unmarshal_marshal_uc|apply calc_block_hash_record].
Qed.
