(* ===== verification/Summary.v ===== *)
(** * State summary (txsystem/state/summary.go)

    The aggregate the transaction system shows the node: what the input record of a
    certification request is filled from, and what a certificate is compared with. *)

From Stdlib Require Import ZArith Lia Strings.Byte String.
From stdpp Require Import base list strings option gmap.
From S2P Require Import Prelude GoBase BftTypes.

Definition ErrStateContainsUncommittedChanges : error :=
  ErrNew "state contains uncommitted changes".

Record Summary := mkSummary {
  rootHash : slice;
  summaryValue : slice;
  sumOfEarnedFees : Z;
  etHash : slice;
}.

Definition NewStateSummary (rootHash summaryValue : slice) (sumOfEarnedFees : Z) (etHash : slice) : Summary :=
  mkSummary rootHash summaryValue sumOfEarnedFees etHash.
Definition Root (s : Summary) : slice := rootHash s.
Definition SummaryValue (s : Summary) : slice := summaryValue s.
Definition SumOfEarnedFees (s : Summary) : Z := sumOfEarnedFees s.
Definition ETHash (s : Summary) : slice := etHash s.

Definition EqualsIR (s : Summary) (ucIR : option InputRecord) : result unit :=
  match ucIR with
  | None => Fail (ErrNew "unicity certificate input record is nil")
  | Some ir =>
      if negb (bytes_Equal (ir_Hash ir) (rootHash s)) then
        Fail (ErrNew "transaction system state is not equal to unicity certificate value")
      else if negb (bytes_Equal (ir_SummaryValue ir) (summaryValue s)) then
        Fail (ErrNew "transaction system summary value not equal to unicity certificate value")
      else if negb (ir_SumOfEarnedFees ir =? sumOfEarnedFees s) then
        Fail (ErrNew "transaction system sum of earned fees not equal to unicity certificate value")
      else if negb (bytes_Equal (ir_ETHash ir) (etHash s)) then
        Fail (ErrNew "transaction system executed transactions buffer hash not equal to unicity certificate value")
      else Ok tt
  end.

(** A summary matches an input record when the four values it holds are the record's,
    hashes compared as [bytes.Equal] does. *)
Definition matches_ir (s : Summary) (ir : InputRecord) : Prop :=
  ir_Hash ir ≡ rootHash s ∧ ir_SummaryValue ir ≡ summaryValue s ∧
  ir_SumOfEarnedFees ir = sumOfEarnedFees s ∧ ir_ETHash ir ≡ etHash s.

Lemma EqualsIR_spec s o u :
  EqualsIR s o = Ok u ↔ ∃ ir, o = Some ir ∧ matches_ir s ir.
Proof.
  unfold EqualsIR, matches_ir. destruct o as [ir|]; [|naive_solver].
  destruct u. repeat (case_match; rewrite ?negb_true_iff, ?negb_false_iff in *);
    autorewrite with go in *; rewrite ?Z.eqb_eq, ?Z.eqb_neq in *; naive_solver.
Qed.
