(* ===== verification/PowClient.v ===== *)
(** * The PoW node as the gadget sees it (pow/types/types.go)

    Headers and chain tips as the RPC reports them, and the [Client] interface.  A call goes
    over the network to a node that keeps mining, so every call takes and returns the state
    [W] of the world outside the process: two calls in a row may see different chains. *)

From Stdlib Require Import ZArith Lia Strings.Byte String.
From stdpp Require Import base list strings option gmap.
From S2P Require Import Prelude GoBase.

(** [Difficulty], a JSON float the gadget does not use, is kept as its literal. *)
Record BlockHeader := mkBlockHeader {
  bh_Hash : string;
  bh_Confirmations : Z;
  bh_Height : Z;
  bh_Version : Z;
  bh_VersionHex : string;
  bh_Time : Z;
  bh_Mediantime : Z;
  bh_Nonce : Z;
  bh_Bits : string;
  bh_Difficulty : string;
  bh_Chainwork : string;
  bh_PreviousBlockHash : string;
  bh_RxHash : string;
}.

Record ChainTip := mkChainTip {
  ct_Height : Z;
  ct_Hash : string;
  ct_BranchLen : Z;
  ct_Status : string;
}.

Definition IsActive (b : BlockHeader) : bool := 0 <? bh_Confirmations b.

(** The [Client] interface. *)
Class Client (W : Type) := {
  GetTip : W → result BlockHeader * W;
  GetBlockHeaderByHash : string → W → result BlockHeader * W;
  GetBlockHeaderByHeight : Z → W → result BlockHeader * W;
  GetChainTips : W → result (list ChainTip) * W;
}.

(** What the types of the interface promise: heights and branch lengths are [uint64]. *)
Class ClientTypes (W : Type) {C : Client W} : Prop := {
  GetTip_u64 w b w' : GetTip w = (Ok b, w') → is_u64 (bh_Height b);
  GetBlockHeaderByHash_u64 h w b w' :
    GetBlockHeaderByHash h w = (Ok b, w') → is_u64 (bh_Height b);
  GetBlockHeaderByHeight_u64 n w b w' :
    GetBlockHeaderByHeight n w = (Ok b, w') → is_u64 (bh_Height b);
  GetChainTips_u64 w ts w' :
    GetChainTips w = (Ok ts, w') →
    Forall (fun t => is_u64 (ct_Height t) ∧ is_u64 (ct_BranchLen t)) ts;
}.

(** A PoW node whose chain does not change between calls: the tip, the headers it knows and
    its chain tips.  Used to run the code on concrete chains. *)
Record FixedChain := mkFixedChain {
  fc_tip : result BlockHeader;
  fc_headers : list BlockHeader;
  fc_tips : result (list ChainTip);
}.

(** The JSON numbers decode into [uint64] fields. *)
Definition typed_header (b : BlockHeader) : BlockHeader :=
  mkBlockHeader (bh_Hash b) (bh_Confirmations b) (u64 (bh_Height b)) (bh_Version b)
    (bh_VersionHex b) (bh_Time b) (bh_Mediantime b) (bh_Nonce b) (bh_Bits b) (bh_Difficulty b)
    (bh_Chainwork b) (bh_PreviousBlockHash b) (bh_RxHash b).
Definition typed_tip (t : ChainTip) : ChainTip :=
  mkChainTip (u64 (ct_Height t)) (ct_Hash t) (u64 (ct_BranchLen t)) (ct_Status t).

Definition map_ok {A B} (f : A → B) (r : result A) : result B :=
  match r with Ok a => Ok (f a) | Fail e => Fail e end.

Definition find_header (p : BlockHeader → bool) (c : FixedChain) : result BlockHeader :=
  match List.find p (typed_header <$> fc_headers c) with
  | Some b => Ok b
  | None => Fail (ErrNew "rpc error: block not found")
  end.

#[global] Instance FixedChain_Client : Client FixedChain := {|
  GetTip c := (map_ok typed_header (fc_tip c), c);
  GetBlockHeaderByHash h c := (find_header (fun b => String.eqb (bh_Hash b) h) c, c);
  GetBlockHeaderByHeight n c :=
    (find_header (fun b => (bh_Height b =? n) && IsActive b) c, c);
  GetChainTips c := (map_ok (fmap typed_tip) (fc_tips c), c);
|}.

Lemma find_header_spec p c b :
  find_header p c = Ok b → is_u64 (bh_Height b) ∧ p b = true.
Proof.
  unfold find_header. destruct (List.find _ _) as [b'|] eqn:E; [|done]. intros [= ->].
  apply List.find_some in E as [Hin Hp]. split; [|done].
  apply list_elem_of_In, list_elem_of_fmap in Hin as (b' & -> & _). apply u64_is_u64.
Qed.

#[global] Instance FixedChain_ClientTypes : ClientTypes FixedChain.
Proof.
  split; simpl.
  - intros [tip hs ts] b w' H. simpl in H. destruct tip; simplify_eq/=. apply u64_is_u64.
  - intros h w b w' [= H _]. by apply find_header_spec in H as [].
  - intros n w b w' [= H _]. by apply find_header_spec in H as [].
  - intros [tip hs ts] l w' H. simpl in H. destruct ts; simplify_eq/=.
    apply Forall_fmap, Forall_true. intros t. simpl. auto using u64_is_u64.
Qed.

Lemma FixedChain_ByHeight n (c : FixedChain) b c' :
  GetBlockHeaderByHeight n c = (Ok b, c') → bh_Height b = n.
Proof.
  simpl. intros [= H _]. apply find_header_spec in H as [_ H].
  apply andb_true_iff in H as [H _]. by apply Z.eqb_eq.
Qed.
