(* ===== verification/TxInterface.v ===== *)
(** * The [TransactionSystem] interface (partition/node.go)

    The contract between the node and the transaction system it drives.  [TransactionSystem]
    has the operations of the Go interface; [TransactionSystemLaws] states what the interface's
    comments promise: a round is proposed or verified, then committed with a certificate or
    reverted, and only a commit (or a restore from a certificate) changes what is certified.
    The node's theorems are proved against these laws; FGPTxSystem discharges them. *)

From Stdlib Require Import ZArith Lia Strings.Byte String.
From stdpp Require Import base list strings option gmap.
From S2P Require Import Prelude GoBase BftTypes Summary.

Section interface.
Context {BT : BftTypes} {BL : BftLib}.

(** [T] is the state of the transaction system, [W] the world its operations query. *)
Class TransactionSystem (T W : Type) := {
  StateSummary : T → result Summary;
  LeaderPropose : Z → M (T * W) Summary;
  FollowerVerify : Z → slice → M (T * W) Summary;
  RestoreState : UnicityCertificate → M (T * W) unit;
  UpdateConfig : PartitionDescriptionRecord → M (T * W) unit;
  Revert : T → T;
  Commit : UnicityCertificate → M (T * W) unit;
  CommittedUC : T → option UnicityCertificate;
}.

Definition same_committed {T W} {TS : TransactionSystem T W} (t : T) (s : T * W) : Prop :=
  CommittedUC (s.1) = CommittedUC t.

Class TransactionSystemLaws (T W : Type) {TS : TransactionSystem T W} : Prop := {
  (** executing a round does not change what is certified *)
  LeaderPropose_committed r t w :
    wp (LeaderPropose r) (fun _ => same_committed t) (fun _ => same_committed t) (t, w);
  FollowerVerify_committed r root t w :
    wp (FollowerVerify r root) (fun _ => same_committed t) (fun _ => same_committed t) (t, w);
  UpdateConfig_committed conf t w :
    wp (UpdateConfig conf) (fun _ => same_committed t) (fun _ => same_committed t) (t, w);
  CommittedUC_Revert t : CommittedUC (Revert t) = CommittedUC t;
  (** a commit records the certificate and makes its state the current one; one that fails
      records nothing *)
  Commit_spec u t w :
    wp (Commit u)
      (fun _ s => CommittedUC s.1 = Some u ∧
        ∃ sm, StateSummary s.1 = Ok sm ∧ Root sm ≡ GetStateHash (Some u))
      (fun _ => same_committed t) (t, w);
  RestoreState_spec u t w :
    wp (RestoreState u)
      (fun _ s => CommittedUC s.1 = Some u ∧
        ∃ sm, StateSummary s.1 = Ok sm ∧ Root sm ≡ GetStateHash (Some u))
      (fun _ => same_committed t) (t, w);
  (** after a revert there are no uncommitted changes *)
  StateSummary_Revert t : ∃ sm, StateSummary (Revert t) = Ok sm;
}.
End interface.
