(* ===== verification/TxSystem.v ===== *)
(** * The finality gadget's transaction system (txsystem/fgp_txsystem.go)

    [FGPTxSystem] keeps the hash of the last certified PoW block and the one being
    certified.  The leader proposes the block [dFG] confirmations deep; a follower checks a
    proposed block; a certificate commits it.  Operations run under the struct's mutex, so
    each is one atomic step on the struct and the PoW node. *)

From Stdlib Require Import ZArith Lia Strings.Byte String.
From stdpp Require Import base list strings option gmap.
From S2P Require Import Prelude GoBase BftTypes Summary PowClient TxInterface.

Section txsystem.
Context {BT : BftTypes} {BL : BftLib}.
Context {W : Type} {C : Client W}.

(** The struct, without its mutex, logger and PoW client (the client is the world [W]). *)
Record FGPTxSystem := mkFGPTxSystem {
  shardConf : PartitionDescriptionRecord;
  dFG : Z;
  committedStateHash : slice;
  committedStateHeight : Z;
  pendingStateHash : slice;
  pendingStateHeight : Z;
  committedUC : option UnicityCertificate;
  fgp_summaryValue : slice;
  fgp_sumOfEarnedFees : Z;
  fgp_etHash : slice;
}.

Definition set_pending (h : slice) (height : Z) (s : FGPTxSystem) : FGPTxSystem :=
  mkFGPTxSystem (shardConf s) (dFG s) (committedStateHash s) (committedStateHeight s)
    h height (committedUC s) (fgp_summaryValue s) (fgp_sumOfEarnedFees s) (fgp_etHash s).

Definition set_committed (h : slice) (height : Z) (uc : option UnicityCertificate)
    (s : FGPTxSystem) : FGPTxSystem :=
  mkFGPTxSystem (shardConf s) (dFG s) h height (pendingStateHash s) (pendingStateHeight s)
    uc (fgp_summaryValue s) (fgp_sumOfEarnedFees s) (fgp_etHash s).

Definition set_config (conf : PartitionDescriptionRecord) (d : Z) (s : FGPTxSystem) : FGPTxSystem :=
  mkFGPTxSystem conf d (committedStateHash s) (committedStateHeight s) (pendingStateHash s)
    (pendingStateHeight s) (committedUC s) (fgp_summaryValue s) (fgp_sumOfEarnedFees s)
    (fgp_etHash s).

(** The checks on the ["dFG"] partition parameter, the same text in [NewFGPTxSystem] and
    [UpdateConfig]. *)
Definition parse_dFG (conf : PartitionDescriptionRecord) : result Z :=
  match pdr_PartitionParams conf !! "dFG"%string with
  | None => Fail (ErrNew "dFG not defined in shard conf")
  | Some dFGString =>
      d ← wrap "non numeric dFG defined in shard conf" (ParseUint dFGString);
      if d =? 0 then Fail (ErrNew "dFG must be greater than 0") else mret d
  end.

Definition NewFGPTxSystem (conf : PartitionDescriptionRecord) : result FGPTxSystem :=
  d ← parse_dFG conf;
  mret (mkFGPTxSystem conf d nil_slice 0 nil_slice 0 None (Bytes []) 0 nil_slice).

(** A method of the struct: it runs on the struct and the world. *)
Definition TxM (A : Type) : Type := M (FGPTxSystem * W) A.

(** A call of the PoW client. *)
Definition pow {A} (call : W → result A * W) : TxM A := fun '(s, w) =>
  match call w with
  | (Ok a, w') => (Ret a, (s, w'))
  | (Fail e, w') => (Throw e, (s, w'))
  end.

Definition self {A} (f : FGPTxSystem → A) : TxM A := gets (fun st => f st.1).
Definition update (f : FGPTxSystem → FGPTxSystem) : TxM unit :=
  modify (fun st => (f st.1, st.2)).

Definition fgp_UpdateConfig (conf : PartitionDescriptionRecord) : TxM unit :=
  d ← lift (parse_dFG conf);
  update (set_config conf d).

Definition summary_of (s : FGPTxSystem) (root : slice) : Summary :=
  NewStateSummary root (fgp_summaryValue s) (fgp_sumOfEarnedFees s) (fgp_etHash s).

Definition fgp_StateSummary (s : FGPTxSystem) : result Summary :=
  if negb (slice_is_nil (pendingStateHash s)) then Fail ErrStateContainsUncommittedChanges
  else Ok (summary_of s (committedStateHash s)).

(** The loop over the chain tips: no branch other than the active one may reach the
    candidate's height from below it. *)
Fixpoint check_tips (candidateHeight : Z) (tips : list ChainTip) : result unit :=
  match tips with
  | [] => Ok tt
  | t :: tips =>
      if String.eqb (ct_Status t) "active" then check_tips candidateHeight tips
      else if ct_Height t <? ct_BranchLen t then
        Fail (ErrNew "invalid chain tip: branch length exceeds height")
      else
        let forkHeight := u64_sub (ct_Height t) (ct_BranchLen t) in
        if (candidateHeight <=? ct_Height t) && (forkHeight <? candidateHeight) then
          Fail (ErrNew "competing fork visible")
        else check_tips candidateHeight tips
  end.

(** The height of the block with hash [committed]; 0 before the first certified block. *)
Definition query_hFG (committed : slice) : TxM Z :=
  if slice_is_nil committed then mret 0
  else
    lastCertBlock ← wrapM "failed to find last certified block for hash"
      (pow (GetBlockHeaderByHash (hex_EncodeToString committed)));
    mret (bh_Height lastCertBlock).

Definition fgp_LeaderPropose (round : Z) : TxM Summary :=
  (* 1. the current tip *)
  tip ← wrapM "failed to get PoW chain tip" (pow GetTip);
  (* 2. the height of the latest certified PoW block, 0 if there is none *)
  committed ← self committedStateHash;
  hFG ← query_hFG committed;
  (* 3. there is a new PoW block *)
  unless (negb (bh_Height tip <=? hFG)) (ErrNew "no new final enough PoW block");;
  (* 4. it is final enough *)
  d ← self dFG;
  unless (negb (u64_sub (bh_Height tip) hFG <? u64_sub d 1))
    (ErrNew "no new final enough PoW block (not enough confirmations)");;
  (* 5. the candidate at depth dFG *)
  let candidateHeight := u64_sub (bh_Height tip) (u64_sub d 1) in
  unless (negb (candidateHeight <=? hFG))
    (ErrNew "no new final enough PoW block (already finalized or older)");;
  candBlock ← wrapM "failed to get candidate block" (pow (GetBlockHeaderByHeight candidateHeight));
  (* 6. no competing fork visible at the candidate's height *)
  tips ← wrapM "failed to get chain tips for fork check" (pow GetChainTips);
  lift (check_tips candidateHeight tips);;
  candHashBytes ← wrapM "failed to decode candidate block hash" (lift (hex_DecodeString (bh_Hash candBlock)));
  update (set_pending candHashBytes (bh_Height candBlock));;
  self (fun s => summary_of s (pendingStateHash s)).

Definition fgp_FollowerVerify (round : Z) (proposedRoot : slice) : TxM Summary :=
  (* 1. a no-op transition *)
  s ← self id;
  if bytes_Equal proposedRoot (committedStateHash s) then
    update (set_pending proposedRoot (committedStateHeight s));;
    self (fun s => summary_of s (pendingStateHash s))
  else
    (* 2. the block by hash *)
    block ← wrapM "failed to get block by hash"
      (pow (GetBlockHeaderByHash (hex_EncodeToString proposedRoot)));
    unless (IsActive block) (ErrNew "proposed block is not in the active chain");;
    (* 3. the current tip *)
    tip ← wrapM "failed to get PoW chain tip" (pow GetTip);
    (* 4. the block has sufficient confirmations *)
    unless (negb (bh_Height tip <? bh_Height block))
      (ErrNew "proposed block height is ahead of tip height");;
    unless (negb (u64_sub (bh_Height tip) (bh_Height block) <? u64_sub (dFG s) 1))
      (ErrNew "proposed block does not have sufficient confirmations");;
    update (set_pending proposedRoot (bh_Height block));;
    self (fun s => summary_of s (pendingStateHash s)).

Definition fgp_RestoreState (uc : UnicityCertificate) : TxM unit :=
  let stateHash := GetStateHash (Some uc) in
  (if 0 <? slice_len stateHash then
     block ← wrapM "failed to get block by hash"
       (pow (GetBlockHeaderByHash (hex_EncodeToString stateHash)));
     update (fun s => set_committed (committedStateHash s) (bh_Height block) (committedUC s) s)
   else mret tt);;
  update (fun s =>
    set_pending nil_slice 0 (set_committed stateHash (committedStateHeight s) (Some uc) s)).

Definition fgp_Revert (s : FGPTxSystem) : FGPTxSystem := set_pending nil_slice 0 s.

Definition fgp_Commit (uc : UnicityCertificate) : TxM unit :=
  s ← self id;
  unless (bytes_Equal (pendingStateHash s) (GetStateHash (Some uc))) (ErrNew "state mismatch");;
  update (fun s =>
    set_pending nil_slice 0
      (set_committed (pendingStateHash s) (pendingStateHeight s) (Some uc) s)).

Definition fgp_CommittedUC (s : FGPTxSystem) : option UnicityCertificate := committedUC s.

#[export] Instance FGP_TransactionSystem : TransactionSystem FGPTxSystem W := {|
  StateSummary := fgp_StateSummary;
  LeaderPropose := fgp_LeaderPropose;
  FollowerVerify := fgp_FollowerVerify;
  RestoreState := fgp_RestoreState;
  UpdateConfig := fgp_UpdateConfig;
  Revert := fgp_Revert;
  Commit := fgp_Commit;
  CommittedUC := fgp_CommittedUC;
|}.
End txsystem.
