(* ===== verification/TxTheorems.v ===== *)
(** * Correctness of the finality gadget's transaction system

    What a successful proposal and a successful verification guarantee about the PoW chain,
    that failures leave the state alone, that a leader's proposal is accepted by a follower
    that sees the same chain, and that the type implements the [TransactionSystem]
    contract. *)

From Stdlib Require Import ZArith Lia Strings.Byte String.
From stdpp Require Import base list strings option gmap relations.
From S2P Require Import Prelude GoBase BftTypes Summary PowClient TxInterface TxSystem.

Section primitives.
Context {BT : BftTypes} {BL : BftLib}.
Context {W : Type} {C : Client W}.
Implicit Types (s : FGPTxSystem) (w : W).

(** ** Execution rules of the methods' primitives *)

Lemma wp_pow {A} (call : W → result A * W) Q E s w :
  wp (pow call) Q E (s, w) ↔
  match call w with (Ok a, w') => Q a (s, w') | (Fail e, w') => E e (s, w') end.
Proof. unfold wp, pow. by destruct (call w) as [[] ?]. Qed.

Lemma wp_self {A} (f : FGPTxSystem → A) Q E (st : FGPTxSystem * W) :
  wp (self f) Q E st ↔ Q (f st.1) st.
Proof. done. Qed.

Lemma wp_update f Q E (st : FGPTxSystem * W) : wp (update f) Q E st ↔ Q tt (f st.1, st.2).
Proof. done. Qed.

End primitives.

#[export] Hint Rewrite @wp_pow @wp_self @wp_update : wp.

Section txtheorems.
Context {BT : BftTypes} {BL : BftLib}.
Context {W : Type} {C : Client W}.
Implicit Types (s : FGPTxSystem) (w : W).

(** ** The well-formedness invariant *)

(** [dFG] is a positive [uint64]; the three constants are the ones of [NewFGPTxSystem]; the
    certified state is the one the certificate names. *)
Record tx_wf s : Prop := {
  wf_dFG : 1 <= dFG s <= maxUint64;
  wf_summaryValue : fgp_summaryValue s = Bytes [];
  wf_fees : fgp_sumOfEarnedFees s = 0;
  wf_etHash : fgp_etHash s = nil_slice;
  wf_certified : committedStateHash s ≡ GetStateHash (committedUC s);
}.

Lemma parse_dFG_spec conf d :
  parse_dFG conf = Ok d ↔
  ∃ str, pdr_PartitionParams conf !! "dFG"%string = Some str ∧ ParseUint str = Ok d ∧ d ≠ 0.
Proof.
  unfold parse_dFG. destruct (pdr_PartitionParams conf !! _) as [str|]; [|naive_solver].
  autorewrite with go. split.
  - intros (d' & Hp & Hd). apply wrap_ok in Hp. case_match eqn:E; [done|].
    apply Z.eqb_neq in E. injection Hd as ->. eauto.
  - intros (str' & [= <-] & Hp & Hd). exists d. rewrite wrap_ok. split; [done|].
    by rewrite (proj2 (Z.eqb_neq d 0) Hd).
Qed.

Lemma parse_dFG_range conf d : parse_dFG conf = Ok d → 1 <= d <= maxUint64.
Proof.
  rewrite parse_dFG_spec. intros (str & _ & Hp & Hd). apply ParseUint_u64 in Hp as [? ?]. lia.
Qed.

Lemma dFG_pred s : tx_wf s → u64_sub (dFG s) 1 = dFG s - 1.
Proof. intros [[? ?] _ _ _ _]. apply u64_sub_id; [split; lia|lia]. Qed.

(** ** Proposing *)

(** A branch that reaches height [ch] from below it, or whose data is impossible. *)
Definition competing (ch : Z) (t : ChainTip) : Prop :=
  ct_Status t ≠ "active"%string ∧
  (ct_Height t < ct_BranchLen t ∨ (ch <= ct_Height t ∧ ct_Height t - ct_BranchLen t < ch)).

Lemma check_tips_spec ch tips u :
  Forall (fun t => is_u64 (ct_Height t) ∧ is_u64 (ct_BranchLen t)) tips →
  check_tips ch tips = Ok u ↔ Forall (fun t => ¬ competing ch t) tips.
Proof.
  destruct u. induction 1 as [|t tips [Hh Hb] Hts IH]; simpl; [naive_solver|].
  rewrite Forall_cons, <-IH. clear IH. unfold competing.
  destruct (String.eqb_spec (ct_Status t) "active") as [Ha|Ha]; [naive_solver|].
  destruct (Z.ltb_spec (ct_Height t) (ct_BranchLen t)) as [Hl|Hl]; [naive_solver|].
  rewrite u64_sub_id by (destruct Hb; auto with lia).
  destruct (_ && _) eqn:E; [rewrite andb_true_iff in E|rewrite andb_false_iff in E];
    rewrite ?Z.leb_le, ?Z.ltb_lt, ?Z.leb_gt, ?Z.ltb_ge in E; naive_solver lia.
Qed.

(** The height of the last certified block, as the PoW node reports it. *)
Definition last_certified s w (hFG : Z) w' : Prop :=
  match committedStateHash s with
  | nil_slice => hFG = 0 ∧ w' = w
  | Bytes _ => ∃ b, GetBlockHeaderByHash (hex_EncodeToString (committedStateHash s)) w = (Ok b, w')
      ∧ hFG = bh_Height b
  end.

(** What the PoW node answers to the four queries of a proposal. *)
Definition leader_view s w (tip : BlockHeader) (hFG : Z) (cand : BlockHeader)
    (tips : list ChainTip) w' : Prop :=
  ∃ w1 w2 w3, GetTip w = (Ok tip, w1) ∧ last_certified s w1 hFG w2 ∧
    GetBlockHeaderByHeight (bh_Height tip - (dFG s - 1)) w2 = (Ok cand, w3) ∧
    GetChainTips w3 = (Ok tips, w').

(** The conditions under which the block at depth [dFG] is proposed: it is above the last
    certified one, and no branch competes at its height. *)
Definition leader_accepts s (tip : BlockHeader) (hFG : Z) (tips : list ChainTip) : Prop :=
  let ch := bh_Height tip - (dFG s - 1) in
  hFG < ch ∧ Forall (fun t => ¬ competing ch t) tips.

(** The stage of [fgp_LeaderPropose] after the tip and [hFG] are known. *)
Lemma leader_checks_iff (s : FGPTxSystem) tip hFG :
  tx_wf s → is_u64 (bh_Height tip) → is_u64 hFG →
  hFG < bh_Height tip - (dFG s - 1) ↔
  (bh_Height tip <=? hFG) = false ∧
  (u64_sub (bh_Height tip) hFG <? u64_sub (dFG s) 1) = false ∧
  (u64_sub (bh_Height tip) (u64_sub (dFG s) 1) <=? hFG) = false.
Proof.
  intros Hwf Ht Hh. rewrite (dFG_pred _ Hwf). destruct Hwf as [[? ?] _ _ _ _].
  pose proof Ht as [? ?]. pose proof Hh as [? ?].
  rewrite Z.leb_gt, Z.ltb_ge. split.
  - intros H'. rewrite Z.leb_gt. rewrite !u64_sub_id by (auto; lia). lia.
  - intros (H1' & H2' & H3'). rewrite u64_sub_id in H2' by (auto; lia).
    rewrite Z.leb_gt, u64_sub_id in H3' by (auto; lia). lia.
Qed.

Lemma candidate_height (s : FGPTxSystem) tip hFG :
  tx_wf s → is_u64 (bh_Height tip) → is_u64 hFG → hFG < bh_Height tip - (dFG s - 1) →
  u64_sub (bh_Height tip) (u64_sub (dFG s) 1) = bh_Height tip - (dFG s - 1).
Proof.
  intros Hwf ? [? ?] ?. rewrite (dFG_pred _ Hwf). destruct Hwf as [[? ?] _ _ _ _].
  apply u64_sub_id; [done|lia].
Qed.

Context {CT : ClientTypes W}.

Lemma last_certified_u64 s w hFG w' : last_certified s w hFG w' → is_u64 hFG.
Proof.
  unfold last_certified. destruct (committedStateHash s).
  - intros [-> _]. split; unfold maxUint64; lia.
  - intros (b & Hb & ->). eauto using GetBlockHeaderByHash_u64.
Qed.


Lemma wp_query_hFG s w Q E :
  (∀ hFG w', last_certified s w hFG w' → Q hFG (s, w')) →
  (∀ e w', E e (s, w')) →
  wp (query_hFG (committedStateHash s)) Q E (s, w).
Proof.
  intros HQ HE. unfold query_hFG, last_certified in *.
  destruct (committedStateHash s) eqn:Hc; simpl in *; wp_norm; [by apply HQ|].
  destruct (GetBlockHeaderByHash _ w) as [[b|e] w'] eqn:Hb; simpl; [|by apply HE].
  wp_norm. apply HQ. eauto.
Qed.

(** The state of the struct a call that fails leaves behind. *)
Definition unchanged s (st : FGPTxSystem * W) : Prop := st.1 = s.

Lemma LeaderPropose_wp r s w :
  tx_wf s →
  wp (fgp_LeaderPropose r)
    (fun sm st => ∃ tip hFG cand tips root,
      leader_view s w tip hFG cand tips st.2 ∧ leader_accepts s tip hFG tips ∧
      hex_DecodeString (bh_Hash cand) = Ok root ∧
      st.1 = set_pending root (bh_Height cand) s ∧ sm = summary_of s root)
    (fun _ => unchanged s) (s, w).
Proof.
  intros Hwf. unfold fgp_LeaderPropose, leader_view, leader_accepts. wp_norm.
  destruct (GetTip w) as [[tip|] w1] eqn:Htip; [|done]. simpl. wp_norm.
  apply wp_query_hFG; [|done]. intros hFG w2 Hcert.
  pose proof (leader_checks_iff s tip hFG Hwf (GetTip_u64 _ _ _ Htip) (last_certified_u64 _ _ _ _ Hcert)) as Hiff.
  wp_norm. simpl. do 3 (wp_case; [|done]; wp_norm; simpl).
  rewrite negb_true_iff in *. destruct Hiff as [_ Hiff].
  assert (hFG < bh_Height tip - (dFG s - 1)) as Hlt by auto.
  rewrite (candidate_height _ _ hFG) by eauto using GetTip_u64, last_certified_u64.
  destruct (GetBlockHeaderByHeight _ w2) as [[cand|] w3] eqn:Hcand; [|done]. wp_norm. simpl.
  destruct (GetChainTips w3) as [[tips|] w4] eqn:Htips; [|done]. wp_norm. simpl.
  destruct (check_tips _ tips) as [[]|] eqn:Hchk; [|done]. wp_norm. simpl.
  destruct (hex_DecodeString _) as [root|] eqn:Hhex; [|done]. wp_norm. simpl.
  apply check_tips_spec in Hchk; [|by eapply GetChainTips_u64].
  exists tip, hFG, cand, tips, root. eauto 15.
Qed.

Ltac exec := unfold mbind, M_bind, wrapM, pow, self, gets, unless, update, modify, lift, mret, M_ret, throw; simpl.

Lemma query_hFG_run s w hFG w' :
  last_certified s w hFG w' → query_hFG (committedStateHash s) (s, w) = (Ret hFG, (s, w')).
Proof.
  unfold query_hFG, last_certified. destruct (committedStateHash s); simpl.
  - by intros [-> ->].
  - intros (b & Hb & ->). exec. by rewrite Hb.
Qed.

Lemma LeaderPropose_complete r s w tip hFG cand tips w' root :
  tx_wf s → leader_view s w tip hFG cand tips w' → leader_accepts s tip hFG tips →
  hex_DecodeString (bh_Hash cand) = Ok root →
  fgp_LeaderPropose r (s, w) =
    (Ret (summary_of s root), (set_pending root (bh_Height cand) s, w')).
Proof.
  intros Hwf (w1 & w2 & w3 & Htip & Hcert & Hcand & Htips) [Hlt Hcomp] Hhex.
  pose proof (GetTip_u64 _ _ _ Htip) as Hu. pose proof (last_certified_u64 _ _ _ _ Hcert) as Hu'.
  destruct (proj1 (leader_checks_iff s tip hFG Hwf Hu Hu') Hlt) as (H1 & H2 & H3).
  pose proof (candidate_height s tip hFG Hwf Hu Hu' Hlt) as Hch.
  unfold fgp_LeaderPropose. exec. rewrite Htip. simpl.
  rewrite (query_hFG_run _ _ _ _ Hcert), H1. simpl. rewrite H2. simpl. rewrite H3. simpl.
  rewrite Hch, Hcand. simpl. rewrite Htips. simpl.
  rewrite (proj2 (check_tips_spec _ _ tt (GetChainTips_u64 _ _ _ Htips)) Hcomp). simpl.
  by rewrite Hhex.
Qed.

(** C6: A proposal succeeds exactly when the PoW node answers the four queries and the block
    [dFG] confirmations deep is strictly above the last certified block with no other branch
    competing at its height; it then returns that block's hash as the new root and records it
    as pending, changing nothing else.  The heights are compared as integers: no [uint64]
    subtraction of the code wraps around. *)
Theorem LeaderPropose_correct r s w sm s' w' :
  tx_wf s →
  fgp_LeaderPropose r (s, w) = (Ret sm, (s', w')) ↔
  ∃ tip hFG cand tips root,
    leader_view s w tip hFG cand tips w' ∧ leader_accepts s tip hFG tips ∧
    hex_DecodeString (bh_Hash cand) = Ok root ∧
    s' = set_pending root (bh_Height cand) s ∧ sm = summary_of s root.
Proof.
  intros Hwf. split.
  - intros H. exact (wp_ret_inv _ _ _ _ _ _ (LeaderPropose_wp r s w Hwf) H).
  - intros (tip & hFG & cand & tips & root & Hv & Ha & Hh & -> & ->).
    by eapply LeaderPropose_complete.
Qed.

(** ** Verifying *)

(** A follower accepts a root that is the certified one, or the hash of an active block with
    at least [dFG] confirmations (the tip counts as one). *)
Inductive follower_view s w (root : slice) : Z → W → Prop :=
  | view_noop :
      root ≡ committedStateHash s → follower_view s w root (committedStateHeight s) w
  | view_block block tip w1 w' :
      ¬ root ≡ committedStateHash s →
      GetBlockHeaderByHash (hex_EncodeToString root) w = (Ok block, w1) →
      GetTip w1 = (Ok tip, w') →
      0 < bh_Confirmations block →
      bh_Height block + dFG s <= bh_Height tip + 1 →
      follower_view s w root (bh_Height block) w'.

Lemma follower_checks_iff s (block tip : BlockHeader) :
  tx_wf s → is_u64 (bh_Height block) → is_u64 (bh_Height tip) →
  bh_Height block + dFG s <= bh_Height tip + 1 ↔
  (bh_Height tip <? bh_Height block) = false ∧
  (u64_sub (bh_Height tip) (bh_Height block) <? u64_sub (dFG s) 1) = false.
Proof.
  intros Hwf Hb Ht. rewrite (dFG_pred _ Hwf). destruct Hwf as [[? ?] _ _ _ _].
  pose proof Hb as [? ?]. pose proof Ht as [? ?]. rewrite Z.ltb_ge. split.
  - intros ?. rewrite Z.ltb_ge, u64_sub_id by (auto; lia). lia.
  - intros [? Hd]. rewrite Z.ltb_ge, u64_sub_id in Hd by (auto; lia). lia.
Qed.

Lemma FollowerVerify_wp r root s w :
  tx_wf s →
  wp (fgp_FollowerVerify r root)
    (fun sm st => ∃ height, follower_view s w root height st.2 ∧
      st.1 = set_pending root height s ∧ sm = summary_of s root)
    (fun _ => unchanged s) (s, w).
Proof.
  intros Hwf. unfold fgp_FollowerVerify. wp_norm. simpl.
  destruct (bytes_Equal root (committedStateHash s)) eqn:Heq; wp_norm; simpl.
  { eexists. split_and!; [by apply view_noop, bytes_Equal_spec|done|done]. }
  apply bytes_Equal_false in Heq.
  destruct (GetBlockHeaderByHash _ w) as [[block|] w1] eqn:Hb; [|done]. wp_norm. simpl.
  destruct (IsActive block) eqn:Hact; [|done]. wp_norm. simpl.
  destruct (GetTip w1) as [[tip|] w2] eqn:Htip; [|done]. wp_norm. simpl.
  do 2 (wp_case; [|done]; wp_norm; simpl). rewrite negb_true_iff in *.
  exists (bh_Height block). repeat split. eapply view_block; eauto.
  - by apply Z.ltb_lt.
  - apply follower_checks_iff; eauto using GetBlockHeaderByHash_u64, GetTip_u64.
Qed.

Lemma FollowerVerify_complete r root s w height w' :
  tx_wf s → follower_view s w root height w' →
  fgp_FollowerVerify r root (s, w) = (Ret (summary_of s root), (set_pending root height s, w')).
Proof.
  intros Hwf Hv. unfold fgp_FollowerVerify. exec.
  destruct Hv as [Heq|block tip w1 w' Heq Hb Htip Hact Hconf].
  - by rewrite (proj2 (bytes_Equal_spec _ _) Heq).
  - rewrite (proj2 (bytes_Equal_false _ _) Heq). simpl. rewrite Hb. simpl.
    unfold IsActive. rewrite (proj2 (Z.ltb_lt _ _) Hact). simpl. rewrite Htip. simpl.
    destruct (proj1 (follower_checks_iff s block tip Hwf
      (GetBlockHeaderByHash_u64 _ _ _ _ Hb) (GetTip_u64 _ _ _ Htip)) Hconf) as [-> H2].
    simpl. by rewrite H2.
Qed.

(** C9: Verification of a proposed root succeeds exactly when the root is the certified one,
    or the PoW node knows it as a block of the active chain with at least [dFG]
    confirmations; the root is then recorded as pending and nothing else changes. *)
Theorem FollowerVerify_correct r root s w sm s' w' :
  tx_wf s →
  fgp_FollowerVerify r root (s, w) = (Ret sm, (s', w')) ↔
  ∃ height, follower_view s w root height w' ∧
    s' = set_pending root height s ∧ sm = summary_of s root.
Proof.
  intros Hwf. split.
  - intros H. exact (wp_ret_inv _ _ _ _ _ _ (FollowerVerify_wp r root s w Hwf) H).
  - intros (h & Hv & -> & ->). by apply FollowerVerify_complete.
Qed.

(** C15: Agreement: a root the leader proposes is accepted by every follower with the same
    [dFG] whose PoW node has the proposed block, at the same height, in its active chain, and a
    tip at least as high as the one the leader saw: a round with an honest leader is not lost
    to verification. *)
Theorem proposal_accepted r s w sm s' w' tip w1 r2 s2 w2 b2 w2' tip2 w2'' :
  (∀ n w b w', GetBlockHeaderByHeight n w = (Ok b, w') → bh_Height b = n) →
  tx_wf s → tx_wf s2 → dFG s2 = dFG s →
  fgp_LeaderPropose r (s, w) = (Ret sm, (s', w')) → GetTip w = (Ok tip, w1) →
  GetBlockHeaderByHash (hex_EncodeToString (Root sm)) w2 = (Ok b2, w2') →
  bh_Height b2 = pendingStateHeight s' → IsActive b2 = true →
  GetTip w2' = (Ok tip2, w2'') → bh_Height tip <= bh_Height tip2 →
  ∃ sm2 st2, fgp_FollowerVerify r2 (Root sm) (s2, w2) = (Ret sm2, st2) ∧
    Root sm2 = Root sm ∧ pendingStateHash st2.1 = Root sm.
Proof.
  intros Hheight Hwf Hwf2 Hd Hp Htip Hb Hbh Hact Htip2 Hle.
  destruct (wp_ret_inv _ _ _ _ _ _ (LeaderPropose_wp r s w Hwf) Hp)
    as (tip' & hFG & cand & tips & root & (? & ? & ? & Ht & _ & Hc & _) & _ & _ & Hs & _).
  assert (tip' = tip) as -> by congruence. apply Hheight in Hc. simpl in Hs. subst s'. simpl in Hbh.
  assert (∃ h w3, follower_view s2 w2 (Root sm) h w3) as (h & w3 & Hv2).
  { destruct (bytes_Equal (Root sm) (committedStateHash s2)) eqn:Heq.
    - eexists _, _. by apply view_noop, bytes_Equal_spec.
    - eexists _, _. eapply view_block; eauto.
      + by apply bytes_Equal_false.
      + by apply Z.ltb_lt.
      + rewrite Hbh, Hc, Hd. lia. }
  eexists _, _. split; [by apply FollowerVerify_complete|done].
Qed.

(** ** Runs *)

(** What a step of a run does to the state: accept a root (by proposing or verifying it),
    commit or restore a certificate, or none of these. *)
Inductive label :=
  | LAccept (root : slice)
  | LCommit (u : UnicityCertificate)
  | LRestore (u : UnicityCertificate)
  | LOther.

(** One call of a method, whatever its outcome, or a change of the PoW chain. *)
Inductive tx_step : FGPTxSystem * W → label → FGPTxSystem * W → Prop :=
  | step_propose r st sm st' :
      fgp_LeaderPropose r st = (Ret sm, st') → tx_step st (LAccept (Root sm)) st'
  | step_propose_err r st e st' :
      fgp_LeaderPropose r st = (Throw e, st') → tx_step st LOther st'
  | step_verify r root st sm st' :
      fgp_FollowerVerify r root st = (Ret sm, st') → tx_step st (LAccept root) st'
  | step_verify_err r root st e st' :
      fgp_FollowerVerify r root st = (Throw e, st') → tx_step st LOther st'
  | step_restore u st st' :
      fgp_RestoreState u st = (Ret tt, st') → tx_step st (LRestore u) st'
  | step_restore_err u st e st' :
      fgp_RestoreState u st = (Throw e, st') → tx_step st LOther st'
  | step_update conf st o st' :
      fgp_UpdateConfig conf st = (o, st') → tx_step st LOther st'
  | step_commit u st st' :
      fgp_Commit u st = (Ret tt, st') → tx_step st (LCommit u) st'
  | step_commit_err u st e st' :
      fgp_Commit u st = (Throw e, st') → tx_step st LOther st'
  | step_revert s w : tx_step (s, w) LOther (fgp_Revert s, w)
  | step_world s w w' : tx_step (s, w) LOther (s, w').

(** The runs of a freshly created system, with their labels in order. *)
Inductive tx_run : list label → FGPTxSystem * W → Prop :=
  | run_new conf s w : NewFGPTxSystem conf = Ok s → tx_run [] (s, w)
  | run_step ls st l st' : tx_run ls st → tx_step st l st' → tx_run (ls ++ [l]) st'.

Lemma RestoreState_wp u s w :
  wp (fgp_RestoreState u)
    (fun _ st => ∃ height, st.1 = set_pending nil_slice 0
       (set_committed (GetStateHash (Some u)) height (Some u) s))
    (fun _ => unchanged s) (s, w).
Proof.
  unfold fgp_RestoreState. wp_norm. destruct (0 <? _); wp_norm; simpl.
  - destruct (GetBlockHeaderByHash _ w) as [[b|] w1]; [|done]. wp_norm. simpl. eauto.
  - eauto.
Qed.

Lemma Commit_wp u s w :
  wp (fgp_Commit u)
    (fun _ st => pendingStateHash s ≡ GetStateHash (Some u) ∧
       st = (set_pending nil_slice 0
         (set_committed (pendingStateHash s) (pendingStateHeight s) (Some u) s), w))
    (fun _ st => ¬ pendingStateHash s ≡ GetStateHash (Some u) ∧ st = (s, w)) (s, w).
Proof.
  unfold fgp_Commit. wp_norm. simpl. destruct (bytes_Equal _ _) eqn:E; wp_norm; simpl.
  - by apply bytes_Equal_spec in E.
  - by apply bytes_Equal_false in E.
Qed.

(** C39: Only the leader checks that finality moves forward. A follower that is asked to verify a
    block of the active chain with enough confirmations accepts it although it is below the
    block that is already certified, and when the root chain certifies it, commits it: the
    finalized height goes back. *)
Theorem finality_moves_back r s w root block tip w1 w' u :
  tx_wf s → ¬ root ≡ committedStateHash s →
  GetBlockHeaderByHash (hex_EncodeToString root) w = (Ok block, w1) → GetTip w1 = (Ok tip, w') →
  0 < bh_Confirmations block → bh_Height block + dFG s <= bh_Height tip + 1 →
  bh_Height block < committedStateHeight s → GetStateHash (Some u) ≡ root →
  ∃ s1 s2, fgp_FollowerVerify r root (s, w) = (Ret (summary_of s root), (s1, w')) ∧
    fgp_Commit u (s1, w') = (Ret tt, (s2, w')) ∧
    committedStateHash s2 = root ∧ committedStateHeight s2 < committedStateHeight s.
Proof.
  intros Hwf Hne Hb Ht Hconf Hdeep Hlow Hu. set (s1 := set_pending root (bh_Height block) s).
  pose proof (Commit_wp u s1 w') as Hc. unfold wp in Hc.
  destruct (fgp_Commit u (s1, w')) as [[[]|e|] st] eqn:Hrun; [|by destruct Hc as [[] _]|done].
  destruct Hc as [_ ->]. eexists _, _. split; [|split; [exact Hrun|done]].
  apply FollowerVerify_complete; [done|]. by eapply view_block.
Qed.

Lemma UpdateConfig_wp conf s w :
  wp (fgp_UpdateConfig conf)
    (fun _ st => ∃ d, parse_dFG conf = Ok d ∧ st = (set_config conf d s, w))
    (fun e st => parse_dFG conf = Fail e ∧ st = (s, w)) (s, w).
Proof.
  unfold fgp_UpdateConfig. wp_norm. destruct (parse_dFG conf); wp_norm; simpl; eauto.
Qed.

Lemma NewFGPTxSystem_wf `{!AccessorLaws BL} conf s : NewFGPTxSystem conf = Ok s → tx_wf s.
Proof.
  unfold NewFGPTxSystem. autorewrite with go. intros (d & Hd & Hs). apply parse_dFG_range in Hd.
  unfold mret, result_ret in Hs. simplify_eq. split; simpl; try done. by rewrite GetStateHash_nil.
Qed.

Lemma set_pending_wf h n s : tx_wf s → tx_wf (set_pending h n s).
Proof. by intros []; split. Qed.

Lemma set_committed_wf h n u s :
  tx_wf s → h ≡ GetStateHash (Some u) → tx_wf (set_committed h n (Some u) s).
Proof. by intros [] ?; split. Qed.

#[local] Hint Resolve set_pending_wf set_committed_wf : go.

Lemma tx_step_wf st l st' : tx_step st l st' → tx_wf st.1 → tx_wf st'.1.
Proof.
  intros Hstep Hwf. destruct Hstep as
    [r [s w] sm st' H|r [s w] e st' H|r root [s w] sm st' H|r root [s w] e st' H
    |u [s w] st' H|u [s w] e st' H|conf [s w] o st' H|u [s w] st' H|u [s w] e st' H|s w|s w w'];
    simpl in *.
  - destruct (wp_outcome _ _ _ _ _ _ (LeaderPropose_wp r s w Hwf) H) as (?&?&?&?&?&?&?&?&->&?).
    auto with go.
  - by rewrite (wp_outcome _ _ _ _ _ _ (LeaderPropose_wp r s w Hwf) H).
  - destruct (wp_outcome _ _ _ _ _ _ (FollowerVerify_wp r root s w Hwf) H) as (?&?&->&?). auto with go.
  - by rewrite (wp_outcome _ _ _ _ _ _ (FollowerVerify_wp r root s w Hwf) H).
  - destruct (wp_outcome _ _ _ _ _ _ (RestoreState_wp u s w) H) as [? ->]. auto with go.
  - by rewrite (wp_outcome _ _ _ _ _ _ (RestoreState_wp u s w) H).
  - pose proof (wp_outcome _ _ _ _ _ _ (UpdateConfig_wp conf s w) H) as H'. destruct o; [|naive_solver|done].
    destruct H' as (d & Hd & ->). apply parse_dFG_range in Hd. destruct Hwf. by split.
  - destruct (wp_outcome _ _ _ _ _ _ (Commit_wp u s w) H) as [? ->]. simpl. auto with go.
  - destruct (wp_outcome _ _ _ _ _ _ (Commit_wp u s w) H) as [_ ->]. done.
  - unfold fgp_Revert. auto with go.
  - done.
Qed.

(** The invariant of the transaction system holds in every run: [dFG] stays a positive
    [uint64] (so [dFG-1] never wraps around), the summary constants stay the ones the root
    chain expects of this partition, and the certified state hash is the one of the committed
    certificate. *)
Theorem tx_run_wf `{!AccessorLaws BL} ls st : tx_run ls st → tx_wf st.1.
Proof. induction 1; eauto using NewFGPTxSystem_wf, tx_step_wf. Qed.

(** ** Provenance of what is committed *)

(** The pending root of a run, when there is one, was accepted in the run. *)
Definition pending_accepted (ls : list label) s : Prop :=
  pendingStateHash s = nil_slice ∨ LAccept (pendingStateHash s) ∈ ls.

Lemma tx_step_pending ls st l st' :
  tx_wf st.1 → tx_step st l st' → pending_accepted ls st.1 → pending_accepted (ls ++ [l]) st'.1.
Proof.
  unfold pending_accepted. intros Hwf Hstep. destruct Hstep as
    [r [s w] sm st' H|r [s w] e st' H|r root [s w] sm st' H|r root [s w] e st' H
    |u [s w] st' H|u [s w] e st' H|conf [s w] o st' H|u [s w] st' H|u [s w] e st' H|s w|s w w'];
    simpl in *; rewrite ?elem_of_app.
  - destruct (wp_outcome _ _ _ _ _ _ (LeaderPropose_wp r s w Hwf) H) as (?&?&?&?&?&?&?&?&->&->).
    simpl. set_solver.
  - rewrite (wp_outcome _ _ _ _ _ _ (LeaderPropose_wp r s w Hwf) H). naive_solver.
  - destruct (wp_outcome _ _ _ _ _ _ (FollowerVerify_wp r root s w Hwf) H) as (?&?&->&?).
    simpl. set_solver.
  - rewrite (wp_outcome _ _ _ _ _ _ (FollowerVerify_wp r root s w Hwf) H). naive_solver.
  - destruct (wp_outcome _ _ _ _ _ _ (RestoreState_wp u s w) H) as [? ->]. simpl. auto.
  - rewrite (wp_outcome _ _ _ _ _ _ (RestoreState_wp u s w) H). naive_solver.
  - pose proof (wp_outcome _ _ _ _ _ _ (UpdateConfig_wp conf s w) H) as H'.
    destruct o; [|naive_solver|done]. destruct H' as (d & Hd & ->). simpl. naive_solver.
  - destruct (wp_outcome _ _ _ _ _ _ (Commit_wp u s w) H) as [? ->]. simpl. auto.
  - destruct (wp_outcome _ _ _ _ _ _ (Commit_wp u s w) H) as [_ ->]. naive_solver.
  - simpl. auto.
  - naive_solver.
Qed.

Lemma tx_run_inv `{!AccessorLaws BL} ls st :
  tx_run ls st → tx_wf st.1 ∧ pending_accepted ls st.1.
Proof.
  induction 1 as [conf s w H|ls st l st' _ [IHwf IHp] H].
  - split; [by eapply NewFGPTxSystem_wf|]. left. unfold NewFGPTxSystem in H.
    autorewrite with go in H. destruct H as (d & _ & Hs). unfold mret, result_ret in Hs. by simplify_eq.
  - eauto using tx_step_wf, tx_step_pending.
Qed.

(** C26: A certificate is committed only for a root this node itself accepted before: in every
    run, a commit is preceded by a successful proposal or verification of a root equal to the
    certified state hash, unless that hash is empty (the certificate of the initial state). *)
Theorem commit_accepted `{!AccessorLaws BL} ls st l1 u l2 :
  tx_run ls st → ls = l1 ++ LCommit u :: l2 →
  GetStateHash (Some u) ≡ nil_slice ∨
  ∃ root, LAccept root ∈ l1 ∧ root ≡ GetStateHash (Some u).
Proof.
  intros Hrun. revert l1 l2. induction Hrun as [|ls st l st' Hrun IH Hstep]; intros l1 l2 Heq.
  { by destruct l1. }
  induction l2 as [|x l2 _] using rev_ind.
  - apply app_inj_tail in Heq as [<- ->]. destruct (tx_run_inv _ _ Hrun) as [Hwf Hp].
    inversion Hstep as [| | | | | | |u' [s w] st'' H| | |]; subst.
    destruct (wp_outcome _ _ _ _ _ _ (Commit_wp u s w) H) as [Hu _].
    destruct Hp as [Hp|Hp]; simpl in *; [left; by rewrite <-Hu, Hp|right; eauto].
  - rewrite app_comm_cons, app_assoc in Heq. apply app_inj_tail in Heq as [-> _]. by eapply IH.
Qed.

(** C27: Failed calls are atomic: a proposal, a verification, a restore, a configuration update
    or a commit that returns an error leaves every field of the struct as it was. *)
Theorem failed_call_unchanged s w e st' :
  tx_wf s →
  (∃ r, fgp_LeaderPropose r (s, w) = (Throw e, st')) ∨
  (∃ r root, fgp_FollowerVerify r root (s, w) = (Throw e, st')) ∨
  (∃ u, fgp_RestoreState u (s, w) = (Throw e, st')) ∨
  (∃ conf, fgp_UpdateConfig conf (s, w) = (Throw e, st')) ∨
  (∃ u, fgp_Commit u (s, w) = (Throw e, st')) →
  st'.1 = s.
Proof.
  intros Hwf [(r & H)|[(r & root & H)|[(u & H)|[(conf & H)|(u & H)]]]].
  - exact (wp_outcome _ _ _ _ _ _ (LeaderPropose_wp r s w Hwf) H).
  - exact (wp_outcome _ _ _ _ _ _ (FollowerVerify_wp r root s w Hwf) H).
  - exact (wp_outcome _ _ _ _ _ _ (RestoreState_wp u s w) H).
  - by destruct (wp_outcome _ _ _ _ _ _ (UpdateConfig_wp conf s w) H) as [_ ->].
  - by destruct (wp_outcome _ _ _ _ _ _ (Commit_wp u s w) H) as [_ ->].
Qed.
End txtheorems.

(** ** The contract of the node *)

Section contract.
Context {BT : BftTypes} {BL : BftLib} {W : Type} {C : Client W}.

(** Any run of a method that keeps the committed certificate: symbolic execution. *)
Ltac frame_tx :=
  repeat first
    [ done
    | progress wp_norm; simpl
    | match goal with |- context [match ?c ?w with _ => _ end] => destruct (c w) as [[] ?] end
    | wp_case ].

Lemma query_hFG_frame (P : FGPTxSystem * W → Prop) Q h (s : FGPTxSystem) w :
  (∀ n w', Q n (s, w')) → (∀ w', P (s, w')) → wp (query_hFG h) Q (fun _ => P) (s, w).
Proof.
  intros HQ HP. unfold query_hFG. destruct (slice_is_nil h); [apply HQ|]. wp_norm.
  destruct (GetBlockHeaderByHash _ w) as [[] w']; wp_norm; auto.
Qed.

Lemma fgp_LeaderPropose_committed r (s : FGPTxSystem) w :
  wp (fgp_LeaderPropose r) (fun _ => same_committed s) (fun _ => same_committed s) (s, w).
Proof.
  unfold fgp_LeaderPropose. wp_norm. destruct (GetTip w) as [[tip|] w1]; [|done]. wp_norm.
  apply query_hFG_frame; [|done]. intros n w'. unfold same_committed. frame_tx.
Qed.

Lemma fgp_FollowerVerify_committed r root (s : FGPTxSystem) w :
  wp (fgp_FollowerVerify r root) (fun _ => same_committed s) (fun _ => same_committed s) (s, w).
Proof. unfold fgp_FollowerVerify, same_committed. frame_tx. Qed.

#[global] Instance FGP_TransactionSystemLaws : TransactionSystemLaws FGPTxSystem W.
Proof.
  split; simpl; intros.
  - apply fgp_LeaderPropose_committed.
  - apply fgp_FollowerVerify_committed.
  - eapply wp_mono; [apply UpdateConfig_wp| |]; unfold same_committed; simpl; naive_solver.
  - done.
  - eapply wp_mono; [apply Commit_wp| |]; unfold same_committed; simpl.
    + intros _ ? [Hh ->]. simpl. eauto.
    + naive_solver.
  - eapply wp_mono; [apply RestoreState_wp| |]; unfold same_committed, unchanged; simpl.
    + intros _ [? ?] [height Hs]. simpl in *. subst. simpl. eauto.
    + intros _ [? ?] Hs. simpl in *. by subst.
  - unfold fgp_StateSummary. simpl. eauto.
Qed.

(** C16: [FGPTxSystem] implements the [TransactionSystem] contract the node is written against:
    proposing, verifying, reverting and reconfiguring keep the committed certificate, a commit
    or restore makes exactly the given certificate the committed one with its state hash as
    the current root, a failed one keeps the old, and after a revert the summary is
    available. *)
Theorem FGPTxSystem_implements : TransactionSystemLaws FGPTxSystem W.
Proof. apply _. Qed.
End contract.
