(* ===== verification/TxExamples.v ===== *)
(** * Concrete runs of the transaction system

    The scenario of the repository's own tests ([dFG] 6, tip at height 10, candidate at
    height 5) with concrete values for every parameter; each lemma applies the theorem it is
    named after. *)

From Stdlib Require Import ZArith Lia Strings.Byte String.
From stdpp Require Import base list strings option gmap.
From S2P Require Import Prelude GoBase BftTypes BftModel Summary PowClient TxInterface TxSystem TxTheorems.

#[local] Existing Instances ModelTypes ModelLib ModelAccessorLaws ModelOrderLaws ModelVerifyLaws ModelKeyLaws.

Definition ex_header (hash : string) (confirmations height : Z) : BlockHeader :=
  mkBlockHeader hash confirmations height 1 "" 0 0 0 "" "" "" "" "".

Definition ex_conf : PartitionDescriptionRecord :=
  mkPDR 3 3 3 0 2500 0 1 [] {[ "dFG"%string := "6"%string ]}.

Definition ex_chain : FixedChain :=
  mkFixedChain (Ok (ex_header "aa" 1 10))
    [ex_header "aa" 1 10; ex_header "bb" 6 5; ex_header "cc" 9 2]
    (Ok [mkChainTip 10 "aa" 0 "active"; mkChainTip 4 "dd" 1 "valid-fork"]).

Definition ex_new : FGPTxSystem :=
  mkFGPTxSystem ex_conf 6 nil_slice 0 nil_slice 0 None (Bytes []) 0 nil_slice.
Definition ex_pending : FGPTxSystem := set_pending (Bytes [xbb]) 5 ex_new.
Definition ex_uc : UnicityCertificate :=
  mkUC 1 (Some (mkIR 1 1 0 nil_slice (Bytes [xbb]) (Bytes []) 0 nil_slice 0 nil_slice))
    nil_slice nil_slice (tt : ShardTreeCertificate) None (Some (mkSeal 1 1 7 0 nil_slice nil_slice)).

Lemma ex_new_ok : NewFGPTxSystem ex_conf = Ok ex_new.
Proof. vm_compute. reflexivity. Qed.

Lemma ex_new_wf : tx_wf ex_new.
Proof. by apply (NewFGPTxSystem_wf ex_conf), ex_new_ok. Qed.

Lemma LeaderPropose_correct_witness :
  tx_wf ex_new ∧
  ∃ tip hFG cand tips root, leader_view ex_new ex_chain tip hFG cand tips ex_chain ∧
    leader_accepts ex_new tip hFG tips ∧ hex_DecodeString (bh_Hash cand) = Ok root ∧
    ex_pending = set_pending root (bh_Height cand) ex_new ∧
    summary_of ex_new (Bytes [xbb]) = summary_of ex_new root.
Proof.
  split; [apply ex_new_wf|].
  apply (LeaderPropose_correct 1 ex_new ex_chain _ ex_pending ex_chain ex_new_wf).
  vm_compute. reflexivity.
Defined.

Lemma FollowerVerify_correct_witness :
  tx_wf ex_new ∧
  ∃ height, follower_view ex_new ex_chain (Bytes [xbb]) height ex_chain ∧
    ex_pending = set_pending (Bytes [xbb]) height ex_new ∧
    summary_of ex_new (Bytes [xbb]) = summary_of ex_new (Bytes [xbb]).
Proof.
  split; [apply ex_new_wf|].
  apply (FollowerVerify_correct 1 (Bytes [xbb]) ex_new ex_chain _ ex_pending ex_chain ex_new_wf).
  vm_compute. reflexivity.
Defined.

Lemma proposal_accepted_witness :
  ∃ sm2 st2, fgp_FollowerVerify 1 (Bytes [xbb]) (ex_new, ex_chain) = (Ret sm2, st2) ∧
    Root sm2 = Bytes [xbb] ∧ pendingStateHash st2.1 = Bytes [xbb].
Proof.
  apply (proposal_accepted 1 ex_new ex_chain (summary_of ex_new (Bytes [xbb])) ex_pending ex_chain
    (ex_header "aa" 1 10) ex_chain 1 ex_new ex_chain (ex_header "bb" 6 5) ex_chain
    (ex_header "aa" 1 10) ex_chain FixedChain_ByHeight ex_new_wf ex_new_wf eq_refl);
    try (vm_compute; reflexivity).
  vm_compute. discriminate.
Defined.

(** The block at height 5 is certified; the one at height 2 is verified and committed. *)
Definition ex_certified : FGPTxSystem := set_committed (Bytes [xbb]) 5 (Some ex_uc) ex_new.
Definition ex_uc_back : UnicityCertificate :=
  mkUC 1 (Some (mkIR 1 2 0 (Bytes [xbb]) (Bytes [xcc]) (Bytes []) 0 nil_slice 0 nil_slice))
    nil_slice nil_slice (tt : ShardTreeCertificate) None (Some (mkSeal 1 1 8 0 nil_slice nil_slice)).

Lemma ex_certified_wf : tx_wf ex_certified.
Proof. apply set_committed_wf; [apply ex_new_wf|vm_compute; reflexivity]. Qed.

Lemma finality_moves_back_witness :
  ∃ s1 s2, fgp_FollowerVerify 2 (Bytes [xcc]) (ex_certified, ex_chain) =
      (Ret (summary_of ex_certified (Bytes [xcc])), (s1, ex_chain)) ∧
    fgp_Commit ex_uc_back (s1, ex_chain) = (Ret tt, (s2, ex_chain)) ∧
    committedStateHash s2 = Bytes [xcc] ∧ committedStateHeight s2 < 5.
Proof.
  apply (finality_moves_back 2 ex_certified ex_chain (Bytes [xcc]) (ex_header "cc" 9 2) (ex_header "aa" 1 10)
    ex_chain ex_chain ex_uc_back ex_certified_wf); try (vm_compute; reflexivity); vm_compute; discriminate.
Defined.

(** A run: propose, commit. *)
Lemma ex_run :
  tx_run [LAccept (Bytes [xbb]); LCommit ex_uc]
    (set_pending nil_slice 0 (set_committed (Bytes [xbb]) 5 (Some ex_uc) ex_pending), ex_chain).
Proof.
  apply (run_step [LAccept (Bytes [xbb])] (ex_pending, ex_chain)).
  - apply (run_step [] (ex_new, ex_chain)); [apply (run_new ex_conf), ex_new_ok|].
    apply (step_propose 1 _ (summary_of ex_new (Bytes [xbb]))). vm_compute. reflexivity.
  - apply step_commit. vm_compute. reflexivity.
Defined.

Lemma tx_run_wf_witness :
  tx_wf (set_pending nil_slice 0 (set_committed (Bytes [xbb]) 5 (Some ex_uc) ex_pending)).
Proof. apply (tx_run_wf _ _ ex_run). Defined.

Lemma commit_accepted_witness :
  GetStateHash (Some ex_uc) ≡ nil_slice ∨
  ∃ root, LAccept root ∈ [LAccept (Bytes [xbb])] ∧ root ≡ GetStateHash (Some ex_uc).
Proof. apply (commit_accepted _ _ [LAccept (Bytes [xbb])] ex_uc [] ex_run). reflexivity. Defined.

(** A commit of a certificate of another state fails. *)
Lemma failed_call_unchanged_witness :
  ∃ e, fgp_Commit ex_uc (ex_new, ex_chain) = (Throw e, (ex_new, ex_chain)) ∧
    (ex_new, ex_chain).1 = ex_new.
Proof.
  exists (ErrNew "state mismatch"). split; [vm_compute; reflexivity|].
  apply (failed_call_unchanged ex_new ex_chain (ErrNew "state mismatch")); [apply ex_new_wf|].
  do 4 right. exists ex_uc. vm_compute. reflexivity.
Defined.
