(* ===== verification/Messages.v ===== *)
(** * Protocol messages (network/protocol)

    The messages nodes exchange with each other and with the root chain, their validation, and
    their signing.  The hash of a CBOR-encoded value ([abhash]) and the CBOR encoding itself
    belong to a library and are the fields of [MsgLib]. *)

From Stdlib Require Import ZArith Lia Strings.Byte String.
From stdpp Require Import base list strings option gmap.
From S2P Require Import Prelude GoBase BftTypes.

Section messages.
Context {BT : BftTypes}.

(** ** certification/records.go *)

Record TechnicalRecord := mkTR {
  tr_Round : Z;
  tr_Epoch : Z;
  tr_Leader : string;
  tr_StatHash : slice;
  tr_FeeHash : slice;
}.

Record StatisticalRecord := mkStatisticalRecord {
  sr_Blocks : Z;
  sr_BlockFees : Z;
  sr_BlockSize : Z;
  sr_StateSize : Z;
  sr_MaxFee : Z;
  sr_MaxBlockSize : Z;
  sr_MaxStateSize : Z;
}.

(** ** blockproposal/block_proposal.go *)

Record BlockProposal := mkBlockProposal {
  bp_PartitionID : Z;
  bp_ShardID : ShardID;
  bp_NodeID : PeerID;
  bp_UnicityCertificate : option UnicityCertificate;
  bp_Technical : TechnicalRecord;
  bp_ProposedRoot : slice;
  bp_Signature : slice;
}.

Definition bp_set_Signature (sig : slice) (x : BlockProposal) : BlockProposal :=
  mkBlockProposal (bp_PartitionID x) (bp_ShardID x) (bp_NodeID x) (bp_UnicityCertificate x)
    (bp_Technical x) (bp_ProposedRoot x) sig.

(** ** certification/block_certification_request.go *)

Record BlockCertificationRequest := mkBCR {
  bcr_PartitionID : Z;
  bcr_ShardID : ShardID;
  bcr_NodeID : string;
  bcr_InputRecord : option InputRecord;
  bcr_BlockSize : Z;
  bcr_StateSize : Z;
  bcr_Signature : slice;
}.

Definition bcr_set_Signature (sig : slice) (x : BlockCertificationRequest) : BlockCertificationRequest :=
  mkBCR (bcr_PartitionID x) (bcr_ShardID x) (bcr_NodeID x) (bcr_InputRecord x)
    (bcr_BlockSize x) (bcr_StateSize x) sig.

(** ** certification/certification_response.go *)

Record CertificationResponse := mkCR {
  cr_Partition : Z;
  cr_Shard : ShardID;
  cr_Technical : TechnicalRecord;
  cr_UC : UnicityCertificate;
}.

(** ** handshake/handhake.go *)

Record Handshake := mkHandshake {
  hs_PartitionID : Z;
  hs_ShardID : ShardID;
  hs_NodeID : string;
}.

(** ** replication/ledger_replication.go *)

Record LedgerReplicationRequest := mkReplReq {
  req_UUID : UUID;
  req_PartitionID : Z;
  req_ShardID : ShardID;
  req_NodeID : string;
  req_BeginBlockNumber : Z;
  req_EndBlockNumber : Z;
}.

(** [Status] is an [int]: a value received from the network may be none of the constants. *)
Definition Status : Type := Z.
Definition StatusOk : Status := 0.
Definition InvalidRequestParameters : Status := 1.
Definition WrongShard : Status := 2.
Definition BlocksNotFound : Status := 3.
Definition Unknown : Status := 4.
Definition Busy : Status := 5.

(** [Blocks] is a slice of pointers: it may be nil, and so may its elements. *)
Record LedgerReplicationResponse := mkReplResp {
  resp_UUID : UUID;
  resp_Status : Status;
  resp_Message : string;
  resp_Blocks : option (list (option Block));
  resp_FirstBlockNumber : Z;
  resp_LastBlockNumber : Z;
}.
End messages.

(** [abhash.New(alg).Write(x).Sum()] and [types.Cbor.Marshal(x)] for the messages. *)
Class MsgLib {BT : BftTypes} := {
  abhash_TechnicalRecord : Z → TechnicalRecord → result slice;
  abhash_BlockProposal : Z → BlockProposal → result slice;
  Cbor_Marshal_BCR : BlockCertificationRequest → result slice;
}.

Definition SHA256 : Z := 5.

Section operations.
Context {BT : BftTypes} {BL : BftLib} {ML : MsgLib}.

(** ** Technical records *)

Definition TR_IsValid (tr : TechnicalRecord) : result unit :=
  if tr_Round tr =? 0 then Fail (ErrNew "round is unassigned")
  else if String.eqb (tr_Leader tr) "" then Fail (ErrNew "leader is unassigned")
  else if slice_len (tr_StatHash tr) =? 0 then Fail (ErrNew "stat hash is unassigned")
  else if slice_len (tr_FeeHash tr) =? 0 then Fail (ErrNew "fee hash is unassigned")
  else Ok tt.

Definition TR_Hash (tr : TechnicalRecord) : result slice := abhash_TechnicalRecord SHA256 tr.

Definition HashMatches (tr : TechnicalRecord) (trh : slice) : result unit :=
  h ← wrap "calculating hash" (TR_Hash tr);
  if negb (bytes_Equal trh h) then Fail (ErrNew "hash mismatch") else mret tt.

(** ** Block proposals *)

Definition ErrBlockProposalIsNil : error := ErrNew "block proposal is nil".
Definition ErrShardConfIsNil : error := ErrNew "shard conf is nil".
Definition ErrTrustBaseIsNil : error := ErrNew "trust base is nil".
Definition ErrSignerIsNil : error := ErrNew "signer is nil".
Definition ErrNodeVerifierIsNil : error := ErrNew "node signature verifier is nil".
Definition ErrInvalidPartitionID : error := ErrNew "invalid partition identifier".
Definition ErrInvalidShardID : error := ErrNew "invalid shard identifier".
Definition errBlockProposerIDMissing : error := ErrNew "block proposer id is missing".

(** The hash covers every field but the signature. *)
Definition BP_Hash (alg : Z) (x : BlockProposal) : result slice :=
  wrap "failed to calculate block proposal hash"
    (abhash_BlockProposal alg (bp_set_Signature nil_slice x)).

Definition BP_Sign (alg : Z) (signer : option Signer) (x : BlockProposal) : result BlockProposal :=
  match signer with
  | None => Fail ErrSignerIsNil
  | Some k =>
      hash ← BP_Hash alg x;
      sig ← SignHash k hash;
      mret (bp_set_Signature sig x)
  end.

Definition BP_Verify (alg : Z) (v : option Verifier) (x : BlockProposal) : result unit :=
  match v with
  | None => Fail ErrNodeVerifierIsNil
  | Some v => hash ← BP_Hash alg x; VerifyHash v (bp_Signature x) hash
  end.

(** [x.UnicityCertificate.TRHash]: a nil certificate does not get past [UC_Verify]. *)
Definition bp_TRHash (x : BlockProposal) : slice :=
  match bp_UnicityCertificate x with Some u => uc_TRHash u | None => nil_slice end.

Definition BP_IsValid (x : option BlockProposal) (trustBase : option TrustBase)
    (shardConf : option PartitionDescriptionRecord) (hashAlg : Z) : result unit :=
  match x with
  | None => Fail ErrBlockProposalIsNil
  | Some x =>
  match shardConf with
  | None => Fail ErrShardConfIsNil
  | Some conf =>
  match trustBase with
  | None => Fail ErrTrustBaseIsNil
  | Some tb =>
      fail_if (negb (pdr_PartitionID conf =? bp_PartitionID x))
        (ErrWrap "expected another partition" ErrInvalidPartitionID);;
      fail_if (negb (ShardID_Equal (pdr_ShardID conf) (bp_ShardID x)))
        (ErrWrap "expected another shard" ErrInvalidShardID);;
      fail_if (String.eqb (bp_NodeID x) "") errBlockProposerIDMissing;;
      match PDR_FindValidator conf (peer_String (bp_NodeID x)) with
      | None => Fail (ErrNew "block proposal from unknown validator")
      | Some proposer =>
          sigVerifier ← wrap "failed to get block proposer signature verifier"
            (NodeInfo_SigVerifier proposer);
          UC_Verify (bp_UnicityCertificate x) tb hashAlg (pdr_PartitionID conf)
            (pdr_ShardID conf) nil_slice;;
          wrap "invalid TechnicalRecord" (TR_IsValid (bp_Technical x));;
          wrap "comparing TechnicalRecord hash to UC.TRHash"
            (HashMatches (bp_Technical x) (bp_TRHash x));;
          BP_Verify hashAlg (Some sigVerifier) x
      end
  end end end.

(** ** Block certification requests *)

Definition ErrBlockCertificationRequestIsNil : error :=
  ErrNew "block certification request is nil".
Definition errVerifierIsNil : error := ErrNew "verifier is nil".
Definition errEmptyNodeID : error := ErrNew "node identifier is empty".

Definition IRRound (x : option BlockCertificationRequest) : Z :=
  match x ≫= bcr_InputRecord with Some ir => ir_RoundNumber ir | None => 0 end.

Definition IRPreviousHash (x : option BlockCertificationRequest) : slice :=
  match x ≫= bcr_InputRecord with Some ir => ir_PreviousHash ir | None => nil_slice end.

Definition BCR_Bytes (x : BlockCertificationRequest) : result slice :=
  Cbor_Marshal_BCR (bcr_set_Signature nil_slice x).

Definition BCR_IsValid (x : option BlockCertificationRequest) (v : option Verifier) : result unit :=
  match x with
  | None => Fail ErrBlockCertificationRequestIsNil
  | Some x =>
  match v with
  | None => Fail errVerifierIsNil
  | Some v =>
      fail_if (bcr_PartitionID x =? 0) ErrInvalidPartitionID;;
      fail_if (String.eqb (bcr_NodeID x) "") errEmptyNodeID;;
      wrap "invalid input record" (InputRecord_IsValid (bcr_InputRecord x));;
      bs ← wrap "failed to marshal block certification request" (BCR_Bytes x);
      wrap "signature verification" (VerifyBytes v (bcr_Signature x) bs)
  end end.

Definition BCR_Sign (signer : option Signer) (x : BlockCertificationRequest)
    : result BlockCertificationRequest :=
  match signer with
  | None => Fail (ErrNew "signer is nil")
  | Some k =>
      bs ← wrap "failed to marshal block certification request" (BCR_Bytes x);
      sig ← wrap "sign error" (SignBytes k bs);
      mret (bcr_set_Signature sig x)
  end.

(** ** Certification responses *)

Definition CR_IsValid (cr : option CertificationResponse) : result unit :=
  match cr with
  | None => Fail (ErrNew "nil CertificationResponse")
  | Some cr =>
      fail_if (cr_Partition cr =? 0) (ErrNew "partition ID is unassigned");;
      match uc_UnicityTreeCertificate (cr_UC cr) with
      | None => Fail (ErrNew "UnicityTreeCertificate is unassigned")
      | Some utc =>
          fail_if (negb (utc_Partition utc =? cr_Partition cr))
            (ErrNew "partition doesn't match UnicityTreeCertificate partition");;
          wrap "invalid TechnicalRecord" (TR_IsValid (cr_Technical cr));;
          wrap "comparing TechnicalRecord hash to UC.TRHash"
            (HashMatches (cr_Technical cr) (uc_TRHash (cr_UC cr)))
      end
  end.

Definition uc_set_TRHash (h : slice) (u : UnicityCertificate) : UnicityCertificate :=
  mkUC (uc_Version u) (uc_InputRecord u) h (uc_ShardConfHash u) (uc_ShardTreeCertificate u)
    (uc_UnicityTreeCertificate u) (uc_UnicitySeal u).

Definition SetTechnicalRecord (tr : TechnicalRecord) (cr : CertificationResponse)
    : result CertificationResponse :=
  h ← wrap "calculating TR hash" (TR_Hash tr);
  mret (mkCR (cr_Partition cr) (cr_Shard cr) tr (uc_set_TRHash h (cr_UC cr))).

(** ** Handshake *)

Definition ErrHandshakeIsNil : error := ErrNew "handshake is nil".
Definition ErrMissingNodeID : error := ErrNew "missing node identifier".

Definition Handshake_IsValid (h : option Handshake) : result unit :=
  match h with
  | None => Fail ErrHandshakeIsNil
  | Some h =>
      if hs_PartitionID h =? 0 then Fail ErrInvalidPartitionID
      else if String.eqb (hs_NodeID h) "" then Fail ErrMissingNodeID
      else Ok tt
  end.

(** ** Ledger replication *)

Definition ErrLedgerReplicationRespIsNil : error := ErrNew "ledger replication response is nil".
Definition ErrLedgerResponseBlocksIsNil : error := ErrNew "ledger response blocks is nil".
Definition ErrLedgerReplicationReqIsNil : error := ErrNew "ledger replication requests is nil".
Definition ErrNodeIDIsMissing : error := ErrNew "node identifier is missing".

Definition Resp_IsValid (r : option LedgerReplicationResponse) : result unit :=
  match r with
  | None => Fail ErrLedgerReplicationRespIsNil
  | Some r =>
      if (resp_Status r =? StatusOk) && bool_decide (resp_Blocks r = None)
      then Fail ErrLedgerResponseBlocksIsNil
      else Ok tt
  end.

Definition Req_IsValid (r : option LedgerReplicationRequest) : result unit :=
  match r with
  | None => Fail ErrLedgerReplicationReqIsNil
  | Some r =>
      if req_PartitionID r =? 0 then Fail ErrInvalidPartitionID
      else if String.eqb (req_NodeID r) "" then Fail ErrNodeIDIsMissing
      else if negb (req_EndBlockNumber r =? 0) && (req_EndBlockNumber r <? req_BeginBlockNumber r)
      then Fail (ErrNew "invalid block request range")
      else Ok tt
  end.

Definition Status_String (s : Status) : string :=
  if s =? StatusOk then "OK"
  else if s =? BlocksNotFound then "Blocks Not Found"
  else if s =? InvalidRequestParameters then "Invalid Request Parameters"
  else if s =? WrongShard then "Wrong Partition or Shard Identifier"
  else if s =? Unknown then "Unknown"
  else if s =? Busy then "Busy"
  else "Unknown Status Code".
End operations.
