(* ===== verification/Wire.v ===== *)
(** * Message framing (network/cbor.go)

    A message on a stream is its CBOR encoding behind the length of the encoding as a uvarint.
    The CBOR codec belongs to a library: marshalling and decoding are parameters. *)

From Stdlib Require Import ZArith Zbitwise Lia Strings.Byte String.
From stdpp Require Import base list strings option.
From S2P Require Import Prelude GoBase.

(** ** encoding/binary: uvarints *)

(** [binary.PutUvarint]: seven bits a byte, the lowest first, the top bit set on all but the
    last byte.  A [uint64] takes at most ten bytes. *)
Fixpoint uvarint (fuel : nat) (x : Z) : list byte :=
  match fuel with
  | O => []
  | S fuel =>
      if x <? 128 then [byte_of_Z x]
      else byte_of_Z (x mod 128 + 128) :: uvarint fuel (x / 128)
  end.

Definition MaxVarintLen64 : nat := 10.

(** Writing past the end of the buffer panics. *)
Definition PutUvarint (buflen : nat) (x : Z) : option (list byte) :=
  let bs := uvarint MaxVarintLen64 x in
  if Nat.leb (length bs) buflen then Some bs else None.

Definition io_EOF : error := ErrNew "EOF".
Definition io_ErrUnexpectedEOF : error := ErrNew "unexpected EOF".
Definition errOverflow : error := ErrNew "binary: varint overflows a 64-bit integer".

(** A reader: the bytes it has, and the error it returns after them. *)
Record reader := mkReader { r_bytes : list byte; r_end : error }.

(** The loop of [binary.ReadUvarint]: [i] bytes read, the value [x] so far, the shift [7 * i];
    [rerr] is the error at the end of the bytes [r]. *)
Fixpoint read_uvarint (fuel : nat) (i : nat) (x : Z) (rerr : error) (r : list byte) : result (Z * list byte) :=
  match fuel with
  | O => Fail errOverflow
  | S fuel =>
      match r with
      | [] => Fail (if Nat.ltb 0 i && bool_decide (rerr = io_EOF) then io_ErrUnexpectedEOF else rerr)
      | b :: r =>
          let b := Z_of_byte b in
          if b <? 128 then
            if Nat.eqb i 9 && (1 <? b) then Fail errOverflow
            else Ok (Z.lor x (Z.shiftl b (7 * Z.of_nat i)), r)
          else read_uvarint fuel (S i) (Z.lor x (Z.shiftl (Z.land b 127) (7 * Z.of_nat i))) rerr r
      end
  end.

Definition ReadUvarint (r : reader) : result (Z * reader) :=
  '(x, rest) ← read_uvarint MaxVarintLen64 0 0 (r_end r) (r_bytes r);
  mret (x, mkReader rest (r_end r)).

(** [io.LimitReader]: the next [n] bytes; the end of the limit is the end of the file. *)
Definition LimitReader (r : reader) (n : Z) : reader :=
  if n <=? Z.of_nat (length (r_bytes r)) then mkReader (take (Z.to_nat n) (r_bytes r)) io_EOF
  else r.

(** What is left of [r] when [unread] is unread of its first [n] bytes. *)
Definition after_limit (r : reader) (n : Z) (unread : list byte) : reader :=
  mkReader (unread ++ drop (Z.to_nat n) (r_bytes r)) (r_end r).

(** ** serializeMsg, deserializeMsg *)

Section codec.
(** [types.Cbor.Marshal], and [types.Cbor.Decode], which reads one value from a reader and
    leaves some of its bytes. *)
Context {A B : Type} (Marshal : A → result (list byte)) (Decode : reader → result (B * list byte)).

Definition serializeMsg (msg : A) : outcome (list byte) :=
  match Marshal msg with
  | Fail e => Throw (ErrWrap "marshaling as CBOR" e)
  | Ok data =>
      match PutUvarint 8 (Z.of_nat (length data)) with
      | None => Panic
      | Some lengthBytes => Ret (lengthBytes ++ data)
      end
  end.

Definition maxMsgSize : Z := 16 * 1024 * 1024.

(** The message, and the reader after it: the inner [bufio.NewReader] is the reader given,
    which is one already. *)
Definition deserializeMsg (r : reader) : result (B * reader) :=
  '(length64, src) ← wrap "reading data length" (ReadUvarint r);
  if length64 =? 0 then Fail (ErrNew "unexpected data length zero")
  else if maxMsgSize <? length64 then Fail (ErrNew "message size exceeds maximum")
  else
    '(msg, unread) ← wrap "decoding message data" (Decode (LimitReader src length64));
    mret (msg, after_limit src length64 unread).
End codec.

(** ** Properties *)

Lemma byte_low x : 0 <= x < 256 → Z_of_byte (byte_of_Z x) = x.
Proof. intros. rewrite Z_of_byte_of_Z. by apply Z.mod_small. Qed.


Lemma lor_shift x y k : 0 <= k → 0 <= x < 2 ^ k → Z.lor x (Z.shiftl y k) = x + y * 2 ^ k.
Proof.
  intros Hk Hx. rewrite <-Z.shiftl_mul_pow2 by done. rewrite <-(Zbitwise.Z.add_lor_land x (Z.shiftl y k)).
  replace (Z.land x (Z.shiftl y k)) with 0; [lia|]. symmetry. apply Z.bits_inj'. intros m Hm.
  rewrite Z.land_spec, Z.bits_0. destruct (decide (m < k)).
  - rewrite Z.shiftl_spec_low by done. apply andb_false_r.
  - rewrite <-(Z.mod_small x (2 ^ k)) by done. by rewrite Z.mod_pow2_bits_high by lia.
Qed.

Lemma read_uvarint_uvarint fuel i acc x rerr rest :
  (i + fuel = 10)%nat → (0 < fuel)%nat → 0 <= acc < 2 ^ (7 * Z.of_nat i) → 0 <= x < 2 ^ (64 - 7 * Z.of_nat i) →
  read_uvarint fuel i acc rerr (uvarint fuel x ++ rest) = Ok (acc + x * 2 ^ (7 * Z.of_nat i), rest).
Proof.
  revert i acc x. induction fuel as [|fuel IH]; intros i acc x Hf Hpos Hacc Hx; [lia|]. cbn [uvarint].
  destruct (Z.ltb_spec x 128); cbn [app read_uvarint].
  - rewrite byte_low by lia. destruct (Z.ltb_spec x 128); [|lia].
    assert (Nat.eqb i 9 && (1 <? x) = false) as ->.
    { destruct (Nat.eqb_spec i 9) as [->|]; [|done]. simpl. apply Z.ltb_ge. change (2 ^ (64 - 7 * Z.of_nat 9)) with 2 in Hx. lia. }
    by rewrite lor_shift by lia.
  - pose proof (Z.mod_pos_bound x 128 ltac:(lia)). rewrite byte_low by lia.
    destruct (Z.ltb_spec (x mod 128 + 128) 128); [lia|].
    assert (Z.land (x mod 128 + 128) 127 = x mod 128) as ->.
    { change 127 with (Z.ones 7). rewrite Z.land_ones by lia. change (2 ^ 7) with 128.
      rewrite Z.add_mod_idemp_l by lia. by rewrite <-(Z.mul_1_l 128) at 1; rewrite Z.mod_add by lia. }
    rewrite lor_shift by lia.
    assert (i <> 9)%nat as Hi9.
    { intros ->. change (2 ^ (64 - 7 * Z.of_nat 9)) with 2 in Hx. lia. }
    assert (2 ^ (7 * Z.of_nat (S i)) = 128 * 2 ^ (7 * Z.of_nat i)) as Hp.
    { replace (7 * Z.of_nat (S i)) with (7 + 7 * Z.of_nat i) by lia. rewrite Z.pow_add_r by lia. done. }
    pose proof (Z.pow_pos_nonneg 2 (7 * Z.of_nat i) ltac:(lia) ltac:(lia)).
    rewrite IH; [|lia|lia| |].
    + f_equal. f_equal. rewrite Hp. rewrite (Z.div_mod x 128) at 3 by lia. ring.
    + rewrite Hp. nia.
    + split; [apply Z.div_pos; lia|]. apply Z.div_lt_upper_bound; [lia|].
      replace (64 - 7 * Z.of_nat i) with (7 + (64 - 7 * Z.of_nat (S i))) in Hx by lia.
      rewrite Z.pow_add_r in Hx by lia. lia.
Qed.

Lemma uvarint_length fuel k x : 0 <= x < 2 ^ (7 * Z.of_nat (S k)) → (length (uvarint fuel x) <= S k)%nat.
Proof.
  revert fuel x. induction k as [|k IH]; intros [|fuel] x Hx; cbn [uvarint length]; try lia.
  - change (2 ^ (7 * Z.of_nat 1)) with 128 in Hx. destruct (Z.ltb_spec x 128); simpl; lia.
  - destruct (Z.ltb_spec x 128); cbn [length]; [lia|]. apply le_n_S, IH. split; [apply Z.div_pos; lia|].
    apply Z.div_lt_upper_bound; [lia|].
    replace (7 * Z.of_nat (S (S k))) with (7 + 7 * Z.of_nat (S k)) in Hx by lia. rewrite Z.pow_add_r in Hx by lia. lia.
Qed.

(** An eight-byte buffer is enough for the length of any slice that fits in memory. *)
Lemma PutUvarint_8 x : 0 <= x < 2 ^ 56 → PutUvarint 8 x = Some (uvarint MaxVarintLen64 x).
Proof.
  intros Hx. unfold PutUvarint. pose proof (uvarint_length MaxVarintLen64 7 x) as Hl.
  change (2 ^ (7 * Z.of_nat 8)) with (2 ^ 56) in Hl.
  destruct (Nat.leb_spec (length (uvarint MaxVarintLen64 x)) 8); [done|]. specialize (Hl Hx). lia.
Qed.

Lemma ReadUvarint_PutUvarint n x bs rest rerr :
  0 <= x < 2 ^ 64 → PutUvarint n x = Some bs →
  ReadUvarint (mkReader (bs ++ rest) rerr) = Ok (x, mkReader rest rerr).
Proof.
  intros Hx. unfold PutUvarint. case_match; [|done]. intros Heq.
  assert (bs = uvarint MaxVarintLen64 x) as -> by congruence. unfold ReadUvarint. cbn [r_bytes r_end].
  rewrite read_uvarint_uvarint; [simpl; do 3 f_equal; lia|done|unfold MaxVarintLen64; lia|simpl; lia|simpl; lia].
Qed.

(** A number that was read is not negative, and at least one byte was used for it. *)
Lemma read_uvarint_ok fuel i x rerr r n src :
  0 <= x → read_uvarint fuel i x rerr r = Ok (n, src) →
  0 <= n ∧ ∃ used, used ≠ [] ∧ r = used ++ src.
Proof.
  revert i x r. induction fuel as [|fuel IH]; intros i x r Hx; simpl; [done|]. destruct r as [|b r]; [done|].
  pose proof (Z_of_byte_range b). case_match.
  - case_match; [done|]. intros [= <- <-]. split; [|by exists [b]].
    apply Z.lor_nonneg. split; [done|]. apply Z.shiftl_nonneg. lia.
  - intros Hr. apply IH in Hr as (Hn & used & _ & ->).
    + split; [done|]. by exists (b :: used).
    + apply Z.lor_nonneg. split; [done|]. apply Z.shiftl_nonneg, Z.land_nonneg. by right.
Qed.

Lemma ReadUvarint_ok r n src :
  ReadUvarint r = Ok (n, src) →
  0 <= n ∧ r_end src = r_end r ∧ ∃ used, used ≠ [] ∧ r_bytes r = used ++ r_bytes src.
Proof.
  unfold ReadUvarint. destruct (read_uvarint _ _ _ _ _) as [[x rest]|] eqn:Hr; [|done]. intros [= <- <-].
  apply read_uvarint_ok in Hr as [? ?]; [done|lia].
Qed.

(** The end of an empty reader is reported as it is. *)
Lemma ReadUvarint_end rerr : ReadUvarint (mkReader [] rerr) = Fail rerr.
Proof. done. Qed.

Section roundtrip.
Context {A B : Type} (Marshal : A → result (list byte)) (Decode : reader → result (B * list byte)).

(** Framing loses nothing: a message whose encoding is not empty and fits the limit is
    serialized, and reading it back from a stream, whatever follows it there, gives what the
    codec decodes from the encoding and leaves the stream right after the message. *)
Lemma message_roundtrip msg data msg' rest rerr :
  Marshal msg = Ok data → Decode (mkReader data io_EOF) = Ok (msg', []) →
  0 < Z.of_nat (length data) <= maxMsgSize →
  ∃ bs, serializeMsg Marshal msg = Ret bs ∧
    deserializeMsg Decode (mkReader (bs ++ rest) rerr) = Ok (msg', mkReader rest rerr).
Proof.
  intros Hm Hd Hlen. unfold serializeMsg. rewrite Hm.
  assert (0 <= Z.of_nat (length data) < 2 ^ 56) as H56 by (unfold maxMsgSize in Hlen; lia).
  rewrite (PutUvarint_8 _ H56). eexists. split; [done|]. unfold deserializeMsg.
  rewrite <-app_assoc, (ReadUvarint_PutUvarint 8 (Z.of_nat (length data))) by (lia || by apply PutUvarint_8). simpl.
  destruct (Z.eqb_spec (Z.of_nat (length data)) 0); [lia|].
  destruct (Z.ltb_spec maxMsgSize (Z.of_nat (length data))); [lia|].
  assert (LimitReader (mkReader (data ++ rest) rerr) (Z.of_nat (length data)) = mkReader data io_EOF) as ->.
  { unfold LimitReader. simpl. rewrite length_app, Nat2Z.id, take_app_length.
    destruct (Z.leb_spec (Z.of_nat (length data)) (Z.of_nat (length data + length rest))); [done|lia]. }
  rewrite Hd. simpl. unfold after_limit. simpl. by rewrite Nat2Z.id, drop_app_length.
Qed.

(** A message that was read used at least one byte, and the end of the stream is the same. *)
Lemma deserialize_shorter r msg r' :
  (∀ lr m unread, Decode lr = Ok (m, unread) → (length unread <= length (r_bytes lr))%nat) →
  deserializeMsg Decode r = Ok (msg, r') →
  (length (r_bytes r') < length (r_bytes r))%nat ∧ r_end r' = r_end r.
Proof.
  intros Hdec. unfold deserializeMsg. destruct (ReadUvarint r) as [[n src]|] eqn:Hr; [|done]. simpl.
  apply ReadUvarint_ok in Hr as (Hn & He & used & Hne & ->). case_match; [done|]. case_match; [done|].
  destruct (Decode _) as [[m unread]|] eqn:Hd; [|done]. simpl. intros [= <- <-]. split; [|done].
  apply Hdec in Hd. unfold after_limit. simpl. rewrite !length_app, length_drop.
  destruct used; [done|]. simpl. unfold LimitReader in Hd. case_match; simpl in Hd.
  - rewrite length_take in Hd. lia.
  - lia.
Qed.

(** What [io.LimitReader] lets through. *)
Lemma LimitReader_bounded src n :
  0 <= n → r_bytes (LimitReader src n) `prefix_of` r_bytes src ∧
  Z.of_nat (length (r_bytes (LimitReader src n))) <= n.
Proof.
  intros Hn. unfold LimitReader. destruct (Z.leb_spec n (Z.of_nat (length (r_bytes src)))); simpl; [|by split; [|lia]].
  split; [apply prefix_take|]. rewrite length_take. lia.
Qed.

(** C29: The decoder never sees more than 16 MB, whatever bytes arrive and however the call ends.
    First, the result does not depend on what the decoder does with more than the limit: two
    decoders that agree on all readers of at most the limit give the same result, error or
    not. Second, a frame that declares a length of zero or of more than the limit is refused with
    the same error whatever the decoder is. Third, a message that is returned was
    decoded from the bytes that follow the declared length in the stream, at most that many. *)
Theorem deserialize_bounded r :
  (∀ Decode', (∀ lr, Z.of_nat (length (r_bytes lr)) <= maxMsgSize → Decode' lr = Decode lr) →
    deserializeMsg Decode' r = deserializeMsg Decode r) ∧
  (∀ n src, ReadUvarint r = Ok (n, src) → n = 0 ∨ maxMsgSize < n →
    ∃ e, ∀ Decode' : reader → result (B * list byte), deserializeMsg Decode' r = Fail e) ∧
  (∀ msg r', deserializeMsg Decode r = Ok (msg, r') →
    ∃ n src unread, ReadUvarint r = Ok (n, src) ∧ 0 < n <= maxMsgSize ∧
      Decode (LimitReader src n) = Ok (msg, unread) ∧ r' = after_limit src n unread ∧
      r_bytes (LimitReader src n) `prefix_of` r_bytes src ∧
      Z.of_nat (length (r_bytes (LimitReader src n))) <= n).
Proof.
  unfold deserializeMsg. destruct (ReadUvarint r) as [[n src]|] eqn:Hr; [|done]. simpl.
  apply ReadUvarint_ok in Hr as Hn. destruct Hn as [Hn _].
  destruct (LimitReader_bounded src n ltac:(lia)) as [Hpre Hlen].
  destruct (Z.eqb_spec n 0); [by split_and!; [|by eauto|]|]. destruct (Z.ltb_spec maxMsgSize n); [by split_and!; [|by eauto|]|].
  split_and!.
  - intros Decode' Hd. rewrite Hd by lia. done.
  - intros ? ? [= <- _]. lia.
  - intros msg r'. destruct (Decode _) as [[m unread]|] eqn:Hd; [|done]. simpl. intros [= <- <-].
    exists n, src, unread. split_and!; try done; lia.
Qed.
End roundtrip.
