(* ===== verification/IpcClient.v ===== *)
(** * The JSON-RPC client of the PoW node (pow/ipc_client.go)

    An implementation of the [Client] interface: one HTTP exchange over a Unix socket for
    every RPC.  The HTTP client (with its 5 second timeout) is an operation of the world, the
    JSON codec a parameter. *)

From Stdlib Require Import ZArith Lia Strings.Byte String.
From stdpp Require Import base list strings option gmap.
From S2P Require Import Prelude GoBase PowClient Wire.

(** ** Requests and responses *)

(** The parameters the client sends: a hash or a height. *)
Inductive rpc_param := PString (s : string) | PUint64 (n : Z).

Record jsonRpcRequest := mkRequest {
  rq_JSONRPC : string;
  rq_Method : string;
  rq_Params : list rpc_param;
  rq_ID : Z;
}.

(** [Result] is raw JSON; [Error], of any type, is kept as text. *)
Record jsonRpcResponse := mkResponse {
  rs_Result : list byte;
  rs_Error : option string;
  rs_ID : Z;
}.

(** [http.Response]: the status code and the body, as what can be read from it. *)
Record http_response := mkHttpResponse {
  http_StatusCode : Z;
  http_Body : option reader;
}.

Definition StatusOK_http : Z := 200.

Class JsonLib := {
  json_Marshal_request : jsonRpcRequest → result (list byte);
  json_Unmarshal_response : list byte → result jsonRpcResponse;
  json_Unmarshal_string : list byte → result string;
  json_Unmarshal_header : list byte → result BlockHeader;
  json_Unmarshal_tips : list byte → result (list ChainTip);
}.

(** The heights of a decoded header or tip are [uint64]. *)
Class JsonTypes {JL : JsonLib} : Prop := {
  header_u64 bs b : json_Unmarshal_header bs = Ok b → is_u64 (bh_Height b);
  tips_u64 bs ts :
    json_Unmarshal_tips bs = Ok ts → Forall (fun t => is_u64 (ct_Height t) ∧ is_u64 (ct_BranchLen t)) ts;
}.

(** [httpClient.Do] of a POST request with the given payload. *)
Class HttpEnv (W : Type) := {
  http_Do : list byte → W → result http_response * W;
}.

Section client.
Context {W : Type} {HE : HttpEnv W} {JL : JsonLib}.

Record IPCClient := mkIPCClient { socketPath : string; nextID : Z }.

Definition NewIPCClient (path : string) : IPCClient := mkIPCClient path 0.

Definition IpcM (A : Type) : Type := M (IPCClient * W) A.

(** [nextID.Add(1)] on an [int64]. *)
Definition next_id : IpcM Z := fun '(c, w) =>
  let id := i64 (nextID c + 1) in (Ret id, (mkIPCClient (socketPath c) id, w)).

Definition http_call (payload : list byte) : IpcM http_response := fun '(c, w) =>
  match http_Do payload w with
  | (Ok r, w') => (Ret r, (c, w'))
  | (Fail e, w') => (Throw e, (c, w'))
  end.

Definition maxResponseSize : Z := 5 * 1024 * 1024.

(** [io.ReadAll(http.MaxBytesReader(nil, body, 5*1024*1024))] *)
Definition read_body (body : reader) : result (list byte) :=
  if maxResponseSize <? Z.of_nat (length (r_bytes body)) then Fail (ErrNew "http: request body too large")
  else if bool_decide (r_end body = io_EOF) then Ok (r_bytes body)
  else Fail (r_end body).

(** [call] with a pointer to a variable of type [A] for the result: what it holds afterwards, if
    no error is returned; [zero] is its initial value, [Unmarshal] is [json.Unmarshal] into it.
    The request has a constant method and URL, so creating it does not fail. *)
Definition call {A} (zero : A) (Unmarshal : list byte → result A) (method : string)
    (params : list rpc_param) : IpcM A :=
  reqID ← next_id;
  payload ← wrapM "failed to marshal request"
    (lift (json_Marshal_request (mkRequest "2.0" method params reqID)));
  resp ← wrapM "rpc call failed" (http_call payload);
  unless (http_StatusCode resp =? StatusOK_http) (ErrNew "unexpected http status");;
  match http_Body resp with
  | None => mret zero
  | Some body =>
      bodyBytes ← wrapM "failed to read response body" (lift (read_body body));
      rpcResp ← wrapM "failed to decode response" (lift (json_Unmarshal_response bodyBytes));
      match rs_Error rpcResp with
      | Some _ => throw (ErrNew "rpc error")
      | None => wrapM "failed to unmarshal result" (lift (Unmarshal (rs_Result rpcResp)))
      end
  end.

Definition zero_header : BlockHeader := mkBlockHeader "" 0 0 0 "" 0 0 0 "" "0" "" "" "".

Definition ipc_GetBlockHeaderByHash (hash : string) : IpcM BlockHeader :=
  wrapM "failed to invoke getblockheader"
    (call zero_header json_Unmarshal_header "getblockheader" [PString hash]).

Definition ipc_GetTip : IpcM BlockHeader :=
  hash ← wrapM "failed to get best block hash" (call ""%string json_Unmarshal_string "getbestblockhash" []);
  wrapM "failed to get tip block header" (ipc_GetBlockHeaderByHash hash).

Definition ipc_GetChainTips : IpcM (list ChainTip) :=
  call [] json_Unmarshal_tips "getchaintips" [].

Definition ipc_GetBlockHeaderByHeight (height : Z) : IpcM BlockHeader :=
  hash ← wrapM "failed to get block hash for height"
    (call ""%string json_Unmarshal_string "getblockhash" [PUint64 height]);
  ipc_GetBlockHeaderByHash hash.

(** A method that does not panic, as a function that returns a value or an error. *)
Definition as_result {A} (m : IpcM A) (s : IPCClient * W) : result A * (IPCClient * W) :=
  match m s with
  | (Ret a, s') => (Ok a, s')
  | (Throw e, s') => (Fail e, s')
  | (Panic, s') => (Fail (ErrNew "panic"), s')
  end.

(** The client and the world it talks to. *)
#[global] Instance IPCClient_Client : Client (IPCClient * W) := {|
  GetTip := as_result ipc_GetTip;
  GetBlockHeaderByHash h := as_result (ipc_GetBlockHeaderByHash h);
  GetBlockHeaderByHeight n := as_result (ipc_GetBlockHeaderByHeight n);
  GetChainTips := as_result ipc_GetChainTips;
|}.
End client.

(** ** A node that answers *)

Section correctness.
Context {W : Type} {HE : HttpEnv W} {JL : JsonLib}.
Implicit Types (c : IPCClient) (w : W).
#[local] Abbreviation IpcM := (IpcM (W:=W)).

(** What a PoW node knows. *)
Record PowChain := mkPowChain {
  ch_best : string;
  ch_header : string → option BlockHeader;
  ch_hash_at : Z → option string;
  ch_tips : list ChainTip;
}.

Inductive rpc_value := VHash (h : string) | VHeader (b : BlockHeader) | VTips (l : list ChainTip).

(** The value a call asks for; none when the node has no such block or no such method. *)
Definition answer (ch : PowChain) (method : string) (params : list rpc_param) : option rpc_value :=
  match params with
  | [] =>
      if String.eqb method "getbestblockhash" then Some (VHash (ch_best ch))
      else if String.eqb method "getchaintips" then Some (VTips (ch_tips ch))
      else None
  | [PString h] => if String.eqb method "getblockheader" then VHeader <$> ch_header ch h else None
  | [PUint64 n] => if String.eqb method "getblockhash" then VHash <$> ch_hash_at ch n else None
  | _ => None
  end.

Definition encodes (raw : list byte) (v : rpc_value) : Prop :=
  match v with
  | VHash h => json_Unmarshal_string raw = Ok h
  | VHeader b => json_Unmarshal_header raw = Ok b
  | VTips l => json_Unmarshal_tips raw = Ok l
  end.

(** The node behind the socket answers every request from the chain it has at that time
    ([chain_of]), within the size limit, with an RPC error when it has no answer; its chain
    may change with every exchange. *)
Definition serves (chain_of : W → PowChain) : Prop := ∀ method params id w,
  ∃ payload bytes raw err i w',
    json_Marshal_request (mkRequest "2.0" method params id) = Ok payload ∧
    http_Do payload w = (Ok (mkHttpResponse StatusOK_http (Some (mkReader bytes io_EOF))), w') ∧
    Z.of_nat (length bytes) <= maxResponseSize ∧
    json_Unmarshal_response bytes = Ok (mkResponse raw err i) ∧
    match answer (chain_of w) method params with
    | Some v => err = None ∧ encodes raw v
    | None => is_Some err
    end.

(** The result of a call is the given value, or an error when there is none. *)
Definition agrees {A} (r : result A) (o : option A) : Prop :=
  match o with Some a => r = Ok a | None => ∃ e, r = Fail e end.

Definition outcome_agrees {A} (o : outcome A) (x : option A) : Prop :=
  match x with Some a => o = Ret a | None => ∃ e, o = Throw e end.

Lemma outcome_agrees_wrap {A} msg (m : IpcM A) s o s' x :
  m s = (o, s') → outcome_agrees o x → ∃ o', wrapM msg m s = (o', s') ∧ outcome_agrees o' x.
Proof.
  intros Hm Ho. unfold wrapM. rewrite Hm. destruct x; simpl in Ho.
  - subst o. by eexists.
  - destruct Ho as [e ->]. eexists. split; [done|by eexists].
Qed.

Lemma as_result_agrees {A} (m : IpcM A) s o s' x :
  m s = (o, s') → outcome_agrees o x → ∃ r, as_result m s = (r, s') ∧ agrees r x.
Proof.
  intros Hm Ho. unfold as_result. rewrite Hm. destruct x; simpl in Ho.
  - subst o. by eexists.
  - destruct Ho as [e ->]. eexists. split; [done|by eexists].
Qed.

(** [w'] is the world after an exchange in [w]. *)
Definition exchanged w w' : Prop := ∃ payload r, http_Do payload w = (r, w').

Lemma read_body_ok bytes :
  Z.of_nat (length bytes) <= maxResponseSize → read_body (mkReader bytes io_EOF) = Ok bytes.
Proof.
  intros Hl. unfold read_body. simpl. destruct (Z.ltb_spec maxResponseSize (Z.of_nat (length bytes))); [lia|done].
Qed.

Lemma call_serves {A} chain_of (zero : A) (U : list byte → result A) (proj : rpc_value → option A) method params c w :
  serves chain_of →
  (∀ raw v, answer (chain_of w) method params = Some v → encodes raw v → ∃ a, proj v = Some a ∧ U raw = Ok a) →
  ∃ o c' w', call zero U method params (c, w) = (o, (c', w')) ∧ exchanged w w' ∧
    outcome_agrees o (answer (chain_of w) method params ≫= proj).
Proof.
  intros Hs HU. set (id := i64 (nextID c + 1)).
  destruct (Hs method params id w) as (payload & bytes & raw & err & i & w' & Hm & Hh & Hl & Hr & Ha).
  assert (call zero U method params (c, w) =
    (match err with Some _ => Throw (ErrNew "rpc error")
      | None => match U raw with Ok a => Ret a | Fail e => Throw (ErrWrap "failed to unmarshal result" e) end end,
     (mkIPCClient (socketPath c) id, w'))) as ->.
  { unfold call, next_id, http_call, wrapM, lift, unless, mbind, M_bind. fold id. rewrite Hm, Hh. cbn -[read_body].
    rewrite read_body_ok by done. rewrite Hr. cbn. destruct err; [done|]. by destruct (U raw). }
  eexists _, _, _. split; [done|]. split; [by exists payload; eexists|].
  destruct (answer _ _ _) as [v|] eqn:Hv; simpl.
  - destruct Ha as [-> He]. destruct (HU raw v eq_refl He) as (a & -> & ->). done.
  - destruct Ha as [x ->]. by eexists.
Qed.

Lemma header_serves chain_of h c w :
  serves chain_of →
  ∃ o c' w', ipc_GetBlockHeaderByHash h (c, w) = (o, (c', w')) ∧ exchanged w w' ∧
    outcome_agrees o (ch_header (chain_of w) h).
Proof.
  intros Hs.
  destruct (call_serves chain_of zero_header json_Unmarshal_header
    (fun v => match v with VHeader b => Some b | _ => None end) "getblockheader" [PString h] c w Hs)
    as (o & c' & w' & Hc & Hx & Ho).
  { intros raw v Hv He. simpl in Hv. destruct (ch_header _ h); simplify_eq/=. eauto. }
  destruct (outcome_agrees_wrap "failed to invoke getblockheader" _ _ _ _ _ Hc Ho) as (o' & Hw & Ho').
  exists o', c', w'. split; [done|]. split; [done|]. simpl in Ho'. by destruct (ch_header _ h).
Qed.

Lemma hash_serves chain_of method params (hash : option string) c w :
  serves chain_of → answer (chain_of w) method params = VHash <$> hash →
  ∃ o c' w', call ""%string json_Unmarshal_string method params (c, w) = (o, (c', w')) ∧ exchanged w w' ∧
    outcome_agrees o hash.
Proof.
  intros Hs Ha.
  destruct (call_serves chain_of ""%string json_Unmarshal_string
    (fun v => match v with VHash x => Some x | _ => None end) method params c w Hs)
    as (o & c1 & w1 & Hc & Hx & Ho).
  { intros raw v Hv He. rewrite Ha in Hv. destruct hash; simplify_eq/=. eauto. }
  exists o, c1, w1. rewrite Ha in Ho. by destruct hash.
Qed.

(** A hash, then the header of that hash. *)
Lemma header_of_hash chain_of (m : M (IPCClient * W) string) (k : string → M (IPCClient * W) BlockHeader) hash c w o1 c1 w1 :
  (∀ h s o s' x, ipc_GetBlockHeaderByHash h s = (o, s') → outcome_agrees o x →
    ∃ o', k h s = (o', s') ∧ outcome_agrees o' x) →
  serves chain_of → m (c, w) = (o1, (c1, w1)) → outcome_agrees o1 hash →
  ∃ r s, as_result (m ≫= k) (c, w) = (r, s) ∧ agrees r (hash ≫= ch_header (chain_of w1)).
Proof.
  intros Hk Hs Hm Ho1. unfold as_result, mbind, M_bind. rewrite Hm. destruct hash as [h|]; simpl in Ho1.
  - subst o1. destruct (header_serves chain_of h c1 w1 Hs) as (o2 & c2 & w2 & Hh & _ & Ho2).
    destruct (Hk _ _ _ _ _ Hh Ho2) as (o3 & Hk3 & Ho3).
    destruct (as_result_agrees (k h) _ _ _ _ Hk3 Ho3) as (r & Hr & Hag). eexists _, _. split; [exact Hr|done].
  - destruct Ho1 as [e ->]. eexists _, _. split; [done|by eexists].
Qed.

(** The IPC client implements the [Client] interface for a PoW node that answers. Every
    method returns what the node has, and an error exactly when it has no such block: a header
    by hash and the tips from the chain of the moment; the tip and a header by height in
    two exchanges, the header of the hash the first one gave, as the node knows it after it. *)
Lemma ipc_client_correct chain_of c w :
  serves chain_of →
  (∃ w1, exchanged w w1 ∧ agrees (GetTip (c, w)).1 (ch_header (chain_of w1) (ch_best (chain_of w)))) ∧
  (∀ h, agrees (GetBlockHeaderByHash h (c, w)).1 (ch_header (chain_of w) h)) ∧
  (∀ n, ∃ w1, exchanged w w1 ∧
    agrees (GetBlockHeaderByHeight n (c, w)).1 (ch_hash_at (chain_of w) n ≫= ch_header (chain_of w1))) ∧
  (GetChainTips (c, w)).1 = Ok (ch_tips (chain_of w)).
Proof.
  intros Hs. split_and!.
  - destruct (hash_serves chain_of "getbestblockhash" [] (Some (ch_best (chain_of w))) c w Hs eq_refl)
      as (o & c1 & w1 & Hc & Hx & Ho).
    destruct (outcome_agrees_wrap "failed to get best block hash" _ _ _ _ _ Hc Ho) as (o' & Hw & Ho').
    exists w1. split; [done|].
    destruct (header_of_hash chain_of _ (fun h => wrapM "failed to get tip block header" (ipc_GetBlockHeaderByHash h))
      _ _ _ _ _ _ (fun h => outcome_agrees_wrap _ _) Hs Hw Ho') as (r & s & Hr & Hag).
    assert (GetTip (c, w) = (r, s)) as -> by exact Hr. done.
  - intros h. destruct (header_serves chain_of h c w Hs) as (o & c' & w' & Hh & _ & Ho).
    destruct (as_result_agrees _ _ _ _ _ Hh Ho) as (r & Hr & Hag). simpl. by rewrite Hr.
  - intros n. destruct (hash_serves chain_of "getblockhash" [PUint64 n] (ch_hash_at (chain_of w) n) c w Hs eq_refl)
      as (o & c1 & w1 & Hc & Hx & Ho).
    destruct (outcome_agrees_wrap "failed to get block hash for height" _ _ _ _ _ Hc Ho) as (o' & Hw & Ho').
    exists w1. split; [done|].
    destruct (header_of_hash chain_of _ (fun h => ipc_GetBlockHeaderByHash h) _ _ _ _ _ _
      (fun h s o s' x Hh Hx => ex_intro _ o (conj Hh Hx)) Hs Hw Ho') as (r & s & Hr & Hag).
    assert (GetBlockHeaderByHeight n (c, w) = (r, s)) as -> by exact Hr. done.
  - destruct (call_serves chain_of [] json_Unmarshal_tips
      (fun v => match v with VTips l => Some l | _ => None end) "getchaintips" [] c w Hs)
      as (o & c' & w' & Hc & _ & Ho).
    { intros raw v Hv He. simpl in Hv. simplify_eq/=. eauto. }
    simpl in Ho. subst o. simpl. unfold as_result, ipc_GetChainTips. by rewrite Hc.
Qed.

(** Heights and branch lengths that come out of the client are [uint64]. *)
Lemma call_ret_inv {A} (zero : A) (U : list byte → result A) method params s a s' :
  call zero U method params s = (Ret a, s') → a = zero ∨ ∃ raw, U raw = Ok a.
Proof.
  unfold call, mbind, M_bind, wrapM, unless, lift, throw, mret, M_ret.
  destruct s as [c w]. intros H.
  repeat (case_match; simplify_eq/=; eauto).
Qed.

Lemma as_result_ok {A} (m : IpcM A) s a s' : as_result m s = (Ok a, s') → m s = (Ret a, s').
Proof. unfold as_result. intros. by repeat (case_match; simplify_eq). Qed.

Lemma wrapM_ret_inv {A} msg (m : IpcM A) s a s' : wrapM msg m s = (Ret a, s') → m s = (Ret a, s').
Proof. unfold wrapM. intros. by repeat (case_match; simplify_eq). Qed.

Lemma header_ret_u64 {JT : JsonTypes} h s b s' :
  ipc_GetBlockHeaderByHash h s = (Ret b, s') → is_u64 (bh_Height b).
Proof.
  intros Hr. apply wrapM_ret_inv, call_ret_inv in Hr as [->|(raw & Hraw)]; [|by eapply header_u64].
  unfold is_u64, maxUint64. simpl. lia.
Qed.

#[global] Instance IPCClient_ClientTypes {JT : JsonTypes} : ClientTypes (IPCClient * W).
Proof.
  split; simpl.
  - intros s b s' Hr. apply as_result_ok, bind_ret_inv in Hr as (h & s1 & _ & Hr).
    by apply wrapM_ret_inv, header_ret_u64 in Hr.
  - intros h s b s' Hr. by apply as_result_ok, header_ret_u64 in Hr.
  - intros n s b s' Hr. apply as_result_ok, bind_ret_inv in Hr as (h & s1 & _ & Hr). by apply header_ret_u64 in Hr.
  - intros s ts s' Hr. apply as_result_ok, call_ret_inv in Hr as [->|(raw & Hraw)]; [constructor|].
    by eapply tips_u64.
Qed.
End correctness.
