(* ===== verification/GadgetOverIpc.v ===== *)
(** * The gadget on a PoW node

    The transaction system, the IPC client and a PoW node that answers, together: what a leader
    proposes and a follower accepts in terms of the node's chain alone.  The RPCs, their JSON
    and the client are gone from the statements. *)

From Stdlib Require Import ZArith Lia Strings.Byte String.
From stdpp Require Import base list strings option gmap.
From S2P Require Import Prelude GoBase BftTypes Summary PowClient TxInterface TxSystem TxTheorems Wire IpcClient.

Section composition.
Context {BT : BftTypes} {BL : BftLib}.
Context {W : Type} {HE : HttpEnv W} {JL : JsonLib} {JT : JsonTypes}.
Context (chain_of : W → PowChain) (ch : PowChain).
Implicit Types (s : FGPTxSystem) (c : IPCClient) (w : W) (st : IPCClient * W).

(** The node answers, and its chain does not change during the call. *)
Context (Hserves : serves chain_of) (Hstable : ∀ w, chain_of w = ch).

Lemma agrees_ok {A} (r : result A) (o : option A) a : agrees r o → r = Ok a ↔ o = Some a.
Proof. destruct o; simpl; [naive_solver|]. intros [e ->]. naive_solver. Qed.

(** Each method of the client, on the chain. *)
Lemma GetTip_chain st tip : (GetTip st).1 = Ok tip ↔ ch_header ch (ch_best ch) = Some tip.
Proof.
  destruct st as [c w]. destruct (ipc_client_correct chain_of c w Hserves) as ((w1 & _ & Hag) & _).
  rewrite !Hstable in Hag. by apply agrees_ok.
Qed.
Lemma ByHash_chain h st b : (GetBlockHeaderByHash h st).1 = Ok b ↔ ch_header ch h = Some b.
Proof.
  destruct st as [c w]. destruct (ipc_client_correct chain_of c w Hserves) as (_ & Hag & _).
  specialize (Hag h). rewrite Hstable in Hag. by apply agrees_ok.
Qed.
Lemma ByHeight_chain n st b : (GetBlockHeaderByHeight n st).1 = Ok b ↔ ch_hash_at ch n ≫= ch_header ch = Some b.
Proof.
  destruct st as [c w]. destruct (ipc_client_correct chain_of c w Hserves) as (_ & _ & Hag & _).
  destruct (Hag n) as (w1 & _ & Hag1). rewrite !Hstable in Hag1. by apply agrees_ok.
Qed.
Lemma Tips_chain st : (GetChainTips st).1 = Ok (ch_tips ch).
Proof.
  destruct st as [c w]. destruct (ipc_client_correct chain_of c w Hserves) as (_ & _ & _ & Ht).
  by rewrite Hstable in Ht.
Qed.

(** The height of the last certified block in the chain. *)
Definition certified_height s : option Z :=
  match committedStateHash s with
  | nil_slice => Some 0
  | Bytes _ => bh_Height <$> ch_header ch (hex_EncodeToString (committedStateHash s))
  end.

Lemma last_certified_chain s st hFG st' : last_certified s st hFG st' → certified_height s = Some hFG.
Proof.
  unfold last_certified, certified_height. destruct (committedStateHash s) eqn:E; [by intros [-> _]|].
  intros (b & Hb & ->). apply (f_equal fst), ByHash_chain in Hb. simpl in Hb. by rewrite Hb.
Qed.

Lemma certified_height_view s st hFG : certified_height s = Some hFG → ∃ st', last_certified s st hFG st'.
Proof.
  unfold last_certified, certified_height. destruct (committedStateHash s) eqn:E.
  - intros [= <-]. by exists st.
  - intros Hb. apply fmap_Some in Hb as (b & Hb & ->).
    pose proof (proj2 (ByHash_chain _ st _) Hb) as Hr. eexists _, b. split; [|done]. by apply pair_fst.
Qed.

(** C20: What a leader proposes on a PoW node that answers from one chain: [root] is proposed
    exactly when it is the decoded hash of the block [dFG] confirmations deep in the chain,
    that block is above the last certified one, and no other branch competes at its
    height. *)
Theorem leader_over_ipc r s c w root :
  tx_wf s →
  (∃ sm s' st, fgp_LeaderPropose r (s, (c, w)) = (Ret sm, (s', st)) ∧ Root sm = root) ↔
  ∃ tip hFG hash cand,
    ch_header ch (ch_best ch) = Some tip ∧ certified_height s = Some hFG ∧
    ch_hash_at ch (bh_Height tip - (dFG s - 1)) = Some hash ∧ ch_header ch hash = Some cand ∧
    leader_accepts s tip hFG (ch_tips ch) ∧ hex_DecodeString (bh_Hash cand) = Ok root.
Proof.
  intros Hwf. split.
  - intros (sm & s' & st & Hrun & Hroot). pose proof (LeaderPropose_wp r s (c, w) Hwf) as Hwp.
    apply (wp_ret_inv _ _ _ _ _ _ Hwp) in Hrun as (tip & hFG & cand & tips & root' & Hv & Ha & Hhex & _ & ->).
    destruct Hv as (st1 & st2 & st3 & Htip & Hcert & Hcand & Htips). simpl in Hroot. subst root'.
    apply (f_equal fst) in Htip, Hcand, Htips. rewrite Tips_chain in Htips. simpl in Htips. simplify_eq.
    apply ByHeight_chain, bind_Some in Hcand as (hash & Hh & Hb).
    exists tip, hFG, hash, cand. split_and!; try done; [by eapply GetTip_chain|by eapply last_certified_chain].
  - intros (tip & hFG & hash & cand & Htip & Hcert & Hh & Hb & Ha & Hhex).
    pose proof (proj2 (GetTip_chain (c, w) tip) Htip) as Ht.
    destruct (certified_height_view s (GetTip (c, w)).2 hFG Hcert) as (st2 & Hlast).
    assert (ch_hash_at ch (bh_Height tip - (dFG s - 1)) ≫= ch_header ch = Some cand) as Hc by (rewrite Hh; done).
    apply (ByHeight_chain _ st2) in Hc.
    eexists _, _, _. split.
    + eapply LeaderPropose_complete; [done| |done|done].
      eexists _, st2, _. split_and!; [by apply pair_fst|done|by apply pair_fst|apply pair_fst, Tips_chain].
    + done.
Qed.

(** What a follower accepts on such a node: exactly the certified root again, and the hashes
    of blocks in the active chain with at least [dFG] confirmations under the best block. *)
Theorem follower_over_ipc r s c w root :
  tx_wf s →
  (∃ sm s' st, fgp_FollowerVerify r root (s, (c, w)) = (Ret sm, (s', st))) ↔
  root ≡ committedStateHash s ∨
  ∃ block tip,
    ch_header ch (hex_EncodeToString root) = Some block ∧ ch_header ch (ch_best ch) = Some tip ∧
    0 < bh_Confirmations block ∧ bh_Height block + dFG s <= bh_Height tip + 1.
Proof.
  intros Hwf. split.
  - intros (sm & s' & st & Hrun). pose proof (FollowerVerify_wp r root s (c, w) Hwf) as Hwp.
    apply (wp_ret_inv _ _ _ _ _ _ Hwp) in Hrun as (h & Hv & _). simpl in Hv.
    destruct Hv as [|block tip st1 st' _ Hb Ht]; [by left|]. right. exists block, tip.
    apply (f_equal fst) in Hb, Ht. apply ByHash_chain in Hb. apply GetTip_chain in Ht. done.
  - intros H. destruct (bytes_Equal root (committedStateHash s)) eqn:Heq.
    + apply bytes_Equal_spec in Heq. eexists _, _, _. eapply FollowerVerify_complete; [done|]. by apply view_noop.
    + apply bytes_Equal_false in Heq. destruct H as [?|(block & tip & Hb & Ht & Hconf & Hdeep)]; [done|].
      apply (ByHash_chain _ (c, w)) in Hb. apply (GetTip_chain (GetBlockHeaderByHash (hex_EncodeToString root) (c, w)).2) in Ht.
      eexists _, _, _. eapply FollowerVerify_complete; [done|].
      by eapply view_block; [done|apply pair_fst|apply pair_fst|..].
Qed.
End composition.
