(* ===== verification/MessageTheorems.v ===== *)
(** * Properties of the protocol messages

    Signing and verification fit together, validation accepts exactly the messages it should,
    and what the node itself sends is what its peers accept. *)

From Stdlib Require Import ZArith Lia Strings.Byte String.
From stdpp Require Import base list strings option gmap.
From S2P Require Import Prelude GoBase BftTypes Messages.

Section theorems.
Context {BT : BftTypes} {BL : BftLib} {ML : MsgLib}.

(** [v] verifies what [k] signs. *)
Definition verifies_hash (k : Signer) (v : Verifier) : Prop :=
  ∀ h sig, SignHash k h = Ok sig → VerifyHash v sig h = Ok tt.
Definition verifies_bytes (k : Signer) (v : Verifier) : Prop :=
  ∀ bs sig, SignBytes k bs = Ok sig → VerifyBytes v sig bs = Ok tt.

(** The signature does not cover itself. *)
Lemma BP_Hash_signature alg sig x : BP_Hash alg (bp_set_Signature sig x) = BP_Hash alg x.
Proof. done. Qed.

Lemma BCR_Bytes_signature sig x : BCR_Bytes (bcr_set_Signature sig x) = BCR_Bytes x.
Proof. done. Qed.

Lemma BP_Sign_spec alg k x y :
  BP_Sign alg k x = Ok y →
  ∃ s h sig, k = Some s ∧ BP_Hash alg x = Ok h ∧ SignHash s h = Ok sig ∧ y = bp_set_Signature sig x.
Proof.
  destruct k as [s|]; [|done]. unfold BP_Sign. intros H.
  apply result_bind_ok in H as (h & Hh & H). apply result_bind_ok in H as (sig & Hs & [= <-]). by exists s, h, sig.
Qed.

Lemma BP_Sign_Verify alg s v x y :
  verifies_hash s v → BP_Sign alg (Some s) x = Ok y → BP_Verify alg (Some v) y = Ok tt.
Proof.
  intros Hk (s' & h & sig & [= <-] & Hh & Hs & ->)%BP_Sign_spec. simpl. rewrite BP_Hash_signature, Hh. by apply Hk.
Qed.

(** A signed certification request is valid: for a request with a partition, a node
    identifier and a valid input record, what [Sign] returns passes [IsValid] with the
    verifier of the signer's key, and signing changes nothing but the signature. *)
Theorem BCR_Sign_valid s v x y :
  verifies_bytes s v → bcr_PartitionID x ≠ 0 → bcr_NodeID x ≠ ""%string →
  InputRecord_IsValid (bcr_InputRecord x) = Ok tt →
  BCR_Sign (Some s) x = Ok y →
  BCR_IsValid (Some y) (Some v) = Ok tt ∧ ∃ sig, y = bcr_set_Signature sig x.
Proof.
  intros Hk Hp Hn Hir Hs. unfold BCR_Sign in Hs.
  destruct (BCR_Bytes x) as [bs|] eqn:Hb; [|done]. simpl in Hs.
  destruct (SignBytes s bs) as [sig|] eqn:Hsig; [|done]. injection Hs as <-. split; [|by exists sig].
  simpl. destruct (Z.eqb_spec (bcr_PartitionID x) 0); [done|].
  destruct (String.eqb_spec (bcr_NodeID x) ""); [done|]. simpl. rewrite Hir. simpl.
  rewrite BCR_Bytes_signature, Hb. simpl. by rewrite (Hk _ _ Hsig).
Qed.

(** A technical record whose fields are all assigned. *)
Record complete_record (tr : TechnicalRecord) : Prop := {
  cr_round : tr_Round tr ≠ 0;
  cr_leader : tr_Leader tr ≠ ""%string;
  cr_stat : slice_bytes (tr_StatHash tr) ≠ [];
  cr_fee : slice_bytes (tr_FeeHash tr) ≠ [];
}.

Lemma slice_len_0 s : slice_len s = 0 ↔ slice_bytes s = [].
Proof. unfold slice_len. destruct (slice_bytes s); simpl; split; (done || lia). Qed.

Lemma TR_IsValid_iff tr : TR_IsValid tr = Ok tt ↔ complete_record tr.
Proof.
  unfold TR_IsValid. destruct (Z.eqb_spec (tr_Round tr) 0), (String.eqb_spec (tr_Leader tr) ""),
    (Z.eqb_spec (slice_len (tr_StatHash tr)) 0) as [Hs|Hs], (Z.eqb_spec (slice_len (tr_FeeHash tr)) 0) as [Hf|Hf];
    rewrite slice_len_0 in Hs, Hf; split; try done; by intros [].
Qed.

Lemma HashMatches_iff tr trh :
  HashMatches tr trh = Ok tt ↔ ∃ h, abhash_TechnicalRecord SHA256 tr = Ok h ∧ slice_bytes trh = slice_bytes h.
Proof.
  unfold HashMatches, TR_Hash. destruct (abhash_TechnicalRecord SHA256 tr) as [h|]; simpl; [|naive_solver].
  destruct (bytes_Equal trh h) eqn:He; simpl; rewrite ?bytes_Equal_spec, ?bytes_Equal_false in He.
  - split; [by eauto|done].
  - split; [done|]. by intros (? & [= <-] & ?).
Qed.

Lemma BP_Verify_iff alg v x :
  BP_Verify alg (Some v) x = Ok tt ↔
  ∃ h, abhash_BlockProposal alg (bp_set_Signature nil_slice x) = Ok h ∧ VerifyHash v (bp_Signature x) h = Ok tt.
Proof.
  unfold BP_Verify, BP_Hash. destruct (abhash_BlockProposal _ _) as [h|]; simpl; [|naive_solver].
  split; [by eauto|]. by intros (? & [= <-] & ?).
Qed.

(** What a valid block proposal is: for the shard, by a validator of it whose key verifies the
    signature over the hash of all other fields, with a certificate that verifies and refers,
    by its hash, to the technical record, all of whose fields are assigned. *)
Record valid_proposal (x : BlockProposal) (tb : TrustBase) (conf : PartitionDescriptionRecord) (alg : Z) : Prop := {
  vp_partition : pdr_PartitionID conf = bp_PartitionID x;
  vp_shard : ShardID_Equal (pdr_ShardID conf) (bp_ShardID x) = true;
  vp_node : bp_NodeID x ≠ ""%string;
  vp_proposer : ∃ ni v h, PDR_FindValidator conf (peer_String (bp_NodeID x)) = Some ni ∧
    NodeInfo_SigVerifier ni = Ok v ∧
    abhash_BlockProposal alg (bp_set_Signature nil_slice x) = Ok h ∧ VerifyHash v (bp_Signature x) h = Ok tt;
  vp_uc : UC_Verify (bp_UnicityCertificate x) tb alg (pdr_PartitionID conf) (pdr_ShardID conf) nil_slice = Ok tt;
  vp_tr : complete_record (bp_Technical x);
  vp_trhash : ∃ h, abhash_TechnicalRecord SHA256 (bp_Technical x) = Ok h ∧
    slice_bytes (from_option uc_TRHash nil_slice (bp_UnicityCertificate x)) = slice_bytes h;
}.

Lemma BP_IsValid_iff x tb conf alg :
  BP_IsValid (Some x) (Some tb) (Some conf) alg = Ok tt ↔ valid_proposal x tb conf alg.
Proof.
  unfold BP_IsValid. split.
  - destruct (Z.eqb_spec (pdr_PartitionID conf) (bp_PartitionID x)) as [Hp|]; [|done]. simpl.
    destruct (ShardID_Equal _ _) eqn:Hs; [|done]. simpl.
    destruct (String.eqb_spec (bp_NodeID x) ""); [done|]. simpl.
    destruct (PDR_FindValidator _ _) as [ni|] eqn:Hf; [|done].
    destruct (NodeInfo_SigVerifier ni) as [v|] eqn:Hv; [|done]. simpl.
    destruct (UC_Verify _ _ _ _ _ _) as [[]|] eqn:Hu; [|done]. simpl.
    destruct (TR_IsValid _) as [[]|] eqn:Ht; [|done]. simpl. apply TR_IsValid_iff in Ht.
    destruct (HashMatches _ _) as [[]|] eqn:Hh; [|done]. simpl. apply HashMatches_iff in Hh.
    intros (h & Hhash & Hver)%BP_Verify_iff. split; try done. by exists ni, v, h.
  - intros [-> Hs Hn (ni & v & h & Hf & Hv & Hhash & Hver) Hu Ht Hh].
    rewrite Z.eqb_refl, Hs. simpl. destruct (String.eqb_spec (bp_NodeID x) ""); [done|]. simpl.
    rewrite Hf, Hv. simpl. rewrite Hu. simpl. apply TR_IsValid_iff in Ht as ->. simpl.
    apply HashMatches_iff in Hh. change (from_option uc_TRHash nil_slice (bp_UnicityCertificate x)) with (bp_TRHash x) in Hh.
    rewrite Hh. simpl. apply BP_Verify_iff. by eauto.
Qed.

(** C28: [BlockProposal.IsValid] accepts a proposal exactly if it is for the node's partition and
    shard, its author is a validator of the shard and the signature verifies with that
    validator's key over the hash of all other fields, its certificate verifies, the round,
    the leader and the two hashes of the technical record are assigned, and the SHA-256 hash of
    the record is the one in the certificate; nil arguments are never accepted. *)
Theorem BP_IsValid_correct x tb conf alg :
  BP_IsValid x tb conf alg = Ok tt ↔
  ∃ p t c, x = Some p ∧ tb = Some t ∧ conf = Some c ∧ valid_proposal p t c alg.
Proof.
  split.
  - destruct x as [p|], conf as [c|], tb as [t|]; try done. intros H%BP_IsValid_iff. by exists p, t, c.
  - intros (p & t & c & -> & -> & -> & H). by apply BP_IsValid_iff.
Qed.

(** A proposal a validator signs is accepted by its peers: if the author is a validator of
    the shard with the key that signs, the certificate verifies and the technical record is the
    one the certificate refers to, then what [Sign] returns passes [IsValid]. *)
Theorem BP_Sign_valid x y tb conf alg s v ni :
  verifies_hash s v →
  bp_PartitionID x = pdr_PartitionID conf → ShardID_Equal (pdr_ShardID conf) (bp_ShardID x) = true →
  bp_NodeID x ≠ ""%string →
  PDR_FindValidator conf (peer_String (bp_NodeID x)) = Some ni → NodeInfo_SigVerifier ni = Ok v →
  UC_Verify (bp_UnicityCertificate x) tb alg (pdr_PartitionID conf) (pdr_ShardID conf) nil_slice = Ok tt →
  TR_IsValid (bp_Technical x) = Ok tt → HashMatches (bp_Technical x) (bp_TRHash x) = Ok tt →
  BP_Sign alg (Some s) x = Ok y →
  BP_IsValid (Some y) (Some tb) (Some conf) alg = Ok tt.
Proof.
  intros Hk Hp Hsh Hn Hf Hv Hu Ht Hh Hsign. pose proof (BP_Sign_Verify _ _ _ _ _ Hk Hsign) as Hver.
  apply BP_Sign_spec in Hsign as (? & h & sig & _ & _ & _ & ->).
  apply BP_Verify_iff in Hver as (h' & Hh' & Hver). apply TR_IsValid_iff in Ht. apply HashMatches_iff in Hh.
  apply BP_IsValid_iff. split; try done. by exists ni, v, h'.
Qed.

(** A certification response filled in by [SetTechnicalRecord] is accepted: for a response
    with a partition and the matching unicity tree certificate, setting a complete technical
    record makes [IsValid] succeed, because the certificate then refers to that record; the
    rest of the response is unchanged. *)
Theorem SetTechnicalRecord_valid cr tr utc cr' :
  cr_Partition cr ≠ 0 → uc_UnicityTreeCertificate (cr_UC cr) = Some utc →
  utc_Partition utc = cr_Partition cr → TR_IsValid tr = Ok tt →
  SetTechnicalRecord tr cr = Ok cr' →
  CR_IsValid (Some cr') = Ok tt ∧ cr_Technical cr' = tr ∧
  cr_Partition cr' = cr_Partition cr ∧ cr_Shard cr' = cr_Shard cr ∧
  uc_InputRecord (cr_UC cr') = uc_InputRecord (cr_UC cr).
Proof.
  intros Hp Hutc Hpart Htr Hset. unfold SetTechnicalRecord in Hset.
  destruct (TR_Hash tr) as [h|] eqn:Hh; [|done]. injection Hset as <-. split; [|done].
  simpl. destruct (Z.eqb_spec (cr_Partition cr) 0); [done|]. simpl. rewrite Hutc, Hpart, Z.eqb_refl. simpl.
  rewrite Htr. simpl. unfold HashMatches. rewrite Hh. simpl. by rewrite bytes_Equal_refl.
Qed.
End theorems.
