(* ===== verification/KVStore.v ===== *)
(** * Key-value stores (bft-core keyvaluedb, used by the partition package)

    The interface of the bolt and in-memory databases the node keeps blocks and shard
    configurations in.  Keys are iterated in byte order.  An iterator is the list of entries
    it still has to visit; reading or writing an entry may fail. *)

From Stdlib Require Import ZArith Lia Strings.Byte String.
From stdpp Require Import base list strings option gmap sorting.
From S2P Require Import Prelude GoBase.

(** [D] is the database, [V] the type of the values stored in it. *)
Class KeyValueDB (D V : Type) := {
  db_Write : list byte → V → D → D * result unit;
  db_Read : list byte → D → result (option V);
  db_Delete : list byte → D → D * result unit;
  (** [Find key], [First]: the iterator positioned at the first key not below [key], at the
      first key; [Last]: the entry the iterator is positioned at, if it is valid *)
  db_Find : list byte → D → list (list byte * result V);
  db_First : D → list (list byte * result V);
  db_Last : D → option (list byte * result V);
}.

Definition key_le (a b : list byte) : Prop := bytes_ltb b a = false.

(** The entries an iterator visits, given the content of the database and the keys asked for:
    in ascending order, each such key once, with the value stored under it unless reading
    fails. *)
Definition iterates {V} (m : gmap (list byte) V) (P : list byte → Prop)
    (it : list (list byte * result V)) : Prop :=
  StronglySorted key_le it.*1 ∧ NoDup it.*1 ∧
  (∀ k, k ∈ it.*1 ↔ P k ∧ is_Some (m !! k)) ∧
  (∀ k v, (k, Ok v) ∈ it → m !! k = Some v).

(** The database as a finite map.  A failed write or delete changes nothing. *)
Class KeyValueDBLaws (D V : Type) {KV : KeyValueDB D V} := {
  db_map : D → gmap (list byte) V;
  Write_ok k v d d' u : db_Write k v d = (d', Ok u) → db_map d' = <[k := v]> (db_map d);
  Write_err k v d d' e : db_Write k v d = (d', Fail e) → db_map d' = db_map d;
  Read_ok k d o : db_Read k d = Ok o → o = db_map d !! k;
  Delete_ok k d d' u : db_Delete k d = (d', Ok u) → db_map d' = delete k (db_map d);
  Delete_err k d d' e : db_Delete k d = (d', Fail e) → db_map d' = db_map d;
  Find_spec k d : iterates (db_map d) (key_le k) (db_Find k d);
  First_spec d : iterates (db_map d) (fun _ => True) (db_First d);
  Last_spec d :
    match db_Last d with
    | None => db_map d = ∅
    | Some (k, r) =>
        is_Some (db_map d !! k) ∧ (∀ v, r = Ok v → db_map d !! k = Some v) ∧
        ∀ k', is_Some (db_map d !! k') → key_le k' k
    end;
}.

(** ** The in-memory database (memorydb) *)

Section memdb.
Context {V : Type}.

Definition MemDB : Type := gmap (list byte) V.

Definition entry_le (a b : list byte * result V) : Prop := key_le a.1 b.1.
#[local] Instance entry_le_dec a b : Decision (entry_le a b).
Proof. unfold entry_le, key_le. apply _. Defined.

Lemma key_le_trans a b c : key_le a b → key_le b c → key_le a c.
Proof.
  unfold key_le. intros H1 H2. apply not_true_iff_false. intros H.
  destruct (bytes_ltb a b) eqn:E.
  - by rewrite (bytes_ltb_trans c a b) in H2.
  - rewrite (bytes_ltb_total a b E H1) in H. congruence.
Qed.

Lemma key_le_total a b : key_le a b ∨ key_le b a.
Proof.
  unfold key_le. destruct (bytes_ltb b a) eqn:E; [|by left]. right.
  apply not_true_iff_false. intros E'. pose proof (bytes_ltb_trans _ _ _ E E') as H.
  by rewrite bytes_ltb_irrefl in H.
Qed.

#[local] Instance entry_le_trans : Transitive entry_le.
Proof. intros a b c. apply key_le_trans. Qed.
#[local] Instance entry_le_total : Total entry_le.
Proof. intros a b. apply key_le_total. Qed.

Definition mem_entries (m : MemDB) : list (list byte * result V) :=
  merge_sort entry_le ((fun '(k, v) => (k, Ok v)) <$> map_to_list m).

Definition mem_from (k : list byte) (m : MemDB) : list (list byte * result V) :=
  List.filter (fun e => bytes_leb k e.1) (mem_entries m).

#[global] Instance MemDB_KeyValueDB : KeyValueDB MemDB V := {|
  db_Write k v m := (<[k := v]> m, Ok tt);
  db_Read k m := Ok (m !! k);
  db_Delete k m := (delete k m, Ok tt);
  db_Find := mem_from;
  db_First := mem_entries;
  db_Last m := last (mem_entries m);
|}.

Lemma mem_entries_perm m :
  mem_entries m ≡ₚ ((fun '(k, v) => (k, Ok v)) <$> map_to_list m).
Proof. apply merge_sort_Permutation. Qed.

Lemma mem_entries_keys m : (mem_entries m).*1 ≡ₚ (map_to_list m).*1.
Proof.
  rewrite mem_entries_perm, <-list_fmap_compose.
  apply reflexive_eq, list_fmap_ext. by intros ? [].
Qed.

Lemma mem_entries_sorted m : StronglySorted key_le (mem_entries m).*1.
Proof.
  assert (StronglySorted entry_le (mem_entries m)) as H by apply (StronglySorted_merge_sort _).
  induction H as [|e l Hl IH Hf]; constructor; [done|]. by apply Forall_fmap.
Qed.

Lemma mem_entries_lookup m k v : (k, Ok v) ∈ mem_entries m → m !! k = Some v.
Proof.
  rewrite mem_entries_perm, list_elem_of_fmap. intros ([k' v'] & [= -> ->] & H).
  by apply elem_of_map_to_list.
Qed.

Lemma mem_entries_iterates m : iterates m (fun _ => True) (mem_entries m).
Proof.
  split_and!.
  - apply mem_entries_sorted.
  - rewrite mem_entries_keys. apply NoDup_fst_map_to_list.
  - intros k. rewrite mem_entries_keys, list_elem_of_fmap. split.
    + intros ([k' v] & -> & H%elem_of_map_to_list). simpl. rewrite H. eauto.
    + intros [_ [v Hv]]. exists (k, v). split; [done|]. by apply elem_of_map_to_list.
  - apply mem_entries_lookup.
Qed.

(** Skipping the entries below a key keeps the order and drops nothing else. *)
Lemma iterates_filter (m : gmap (list byte) V) (p : list byte → bool) it :
  iterates m (fun _ => True) it →
  iterates m (fun k => p k = true) (List.filter (fun e => p e.1) it).
Proof.
  intros (Hs & Hnd & Hdom & Hv).
  assert (∀ k, k ∈ (List.filter (fun e => p e.1) it).*1 ↔ k ∈ it.*1 ∧ p k = true) as Hk.
  { intros k. rewrite !list_elem_of_fmap. split.
    - intros (e & -> & He). apply list_elem_of_In, List.filter_In in He as [He ?].
      split; [|done]. exists e. by rewrite list_elem_of_In.
    - intros [(e & -> & He) Hp]. exists e. by rewrite list_elem_of_In, List.filter_In, <-list_elem_of_In. }
  split_and!.
  - clear Hnd Hdom Hv Hk. induction it as [|[k r] it IH]; simpl in *; [constructor|].
    inversion Hs as [|? ? Hs' Hf]; subst. destruct (p k); simpl; [|by apply IH].
    constructor; [by apply IH|]. clear -Hf. induction it as [|[k' r'] it IH]; simpl in *; [constructor|].
    inversion Hf; subst. destruct (p k'); simpl; [constructor|]; auto.
  - clear Hs Hdom Hv Hk. induction it as [|[k r] it IH]; simpl in *; [constructor|].
    apply NoDup_cons in Hnd as [Hn Hnd]. destruct (p k); simpl; [|by apply IH].
    constructor; [|by apply IH]. intros H. apply Hn. apply list_elem_of_fmap in H as (e & -> & He).
    apply list_elem_of_In, List.filter_In in He as [He _]. apply list_elem_of_fmap.
    exists e. by rewrite list_elem_of_In.
  - intros k. rewrite Hk, Hdom. naive_solver.
  - intros k v. rewrite list_elem_of_In, List.filter_In, <-list_elem_of_In. naive_solver.
Qed.

#[global] Instance MemDB_Laws : KeyValueDBLaws MemDB V.
Proof.
  refine {| db_map := fun m : MemDB => m |}; simpl.
  - by intros ? ? ? ? ? [= <-].
  - done.
  - by intros ? ? ? [= <-].
  - by intros ? ? ? ? [= <-].
  - done.
  - intros k m. destruct (iterates_filter m (bytes_leb k) _ (mem_entries_iterates m)) as (?&?&Hd&?).
    split_and!; try done. intros k'. rewrite Hd. unfold bytes_leb, key_le.
    by rewrite negb_true_iff.
  - apply mem_entries_iterates.
  - intros m. destruct (mem_entries_iterates m) as (Hs & _ & Hdom & Hv).
    destruct (last (mem_entries m)) as [[k r]|] eqn:Hl.
    + apply last_Some in Hl as [l Hl]. rewrite Hl in *. split_and!.
      * apply Hdom. rewrite fmap_app. set_solver.
      * intros v ->. apply Hv. set_solver.
      * intros k' Hk'. assert (k' ∈ (l ++ [(k, r)]).*1) as Hin by (apply Hdom; eauto).
        rewrite fmap_app in Hin, Hs. apply elem_of_app in Hin as [Hin|Hin].
        -- eapply StronglySorted_app_1_elem_of; [exact Hs|done|set_solver].
        -- apply list_elem_of_singleton in Hin as ->. unfold key_le. simpl. apply bytes_ltb_irrefl.
    + apply last_None in Hl. rewrite Hl in Hdom. apply map_eq. intros k. rewrite lookup_empty.
      destruct (m !! k) eqn:E; [|done]. exfalso. assert (k ∈ ([] : list (list byte * result V)).*1) by (apply Hdom; eauto).
      set_solver.
Defined.
End memdb.
Arguments MemDB : clear implicits.

(** ** A database that stops

    After a number of writes and deletes every further one fails, as if the process had died:
    what a call leaves in such a database is what the database held at that moment. *)

Section crash.
Context {D V : Type} {KV : KeyValueDB D V} {KVL : KeyValueDBLaws D V}.

Record CrashDB := mkCrashDB { writes_left : nat; crash_db : D }.

Definition before_crash (f : D → D * result unit) (c : CrashDB) : CrashDB * result unit :=
  match writes_left c with
  | O => (c, Fail (ErrNew "stopped"))
  | S more => let '(d, r) := f (crash_db c) in (mkCrashDB more d, r)
  end.

#[global] Instance CrashDB_KeyValueDB : KeyValueDB CrashDB V := {|
  db_Write k v := before_crash (db_Write k v);
  db_Read k c := db_Read k (crash_db c);
  db_Delete k := before_crash (db_Delete k);
  db_Find k c := db_Find k (crash_db c);
  db_First c := db_First (crash_db c);
  db_Last c := db_Last (crash_db c);
|}.

Lemma before_crash_inv f c c' r :
  before_crash f c = (c', r) → (c' = c ∧ ∃ e, r = Fail e) ∨ f (crash_db c) = (crash_db c', r).
Proof.
  unfold before_crash. destruct (writes_left c); [intros [= <- <-]; left; eauto|].
  destruct (f (crash_db c)) as [d x] eqn:Hf. intros [= <- <-]. by right.
Qed.

#[global] Instance CrashDB_Laws : KeyValueDBLaws CrashDB V.
Proof.
  refine {| db_map := fun c : CrashDB => db_map (crash_db c) |}; simpl.
  - intros k v c c' u [[_ [e [=]]]|H]%before_crash_inv. by eapply Write_ok.
  - intros k v c c' e [[-> _]|H]%before_crash_inv; [done|by eapply Write_err].
  - intros k c o. apply Read_ok.
  - intros k c c' u [[_ [e [=]]]|H]%before_crash_inv. by eapply Delete_ok.
  - intros k c c' e [[-> _]|H]%before_crash_inv; [done|by eapply Delete_err].
  - intros k c. apply Find_spec.
  - intros c. apply First_spec.
  - intros c. apply Last_spec.
Defined.

(** Nothing is written any more. *)
Lemma crashed_write k v c : writes_left c = 0%nat → (db_Write k v c).1 = c.
Proof. simpl. unfold before_crash. by intros ->. Qed.
Lemma crashed_delete k c : writes_left c = 0%nat → (db_Delete k c).1 = c.
Proof. simpl. unfold before_crash. by intros ->. Qed.
End crash.
Arguments CrashDB : clear implicits.
