(* ===== verification/ShardConfStore.v ===== *)
(** * The shard configuration store (partition/shard_conf_store.go)

    Shard configurations by epoch, in a key-value database with a cache in front.  The methods
    hold the store's lock while they use the cache, so each is one step on the struct. *)

From Stdlib Require Import ZArith Lia Strings.Byte String.
From stdpp Require Import base list strings option gmap sorting.
From S2P Require Import Prelude GoBase BftTypes KVStore.

Section store.
Context {BT : BftTypes} {BL : BftLib}.
Context {D : Type} {KV : KeyValueDB D PartitionDescriptionRecord}.

Record ShardConfStore := mkShardConfStore {
  scs_db : D;
  scs_cache : gmap Z PartitionDescriptionRecord;
}.

Definition epochToKey (epoch : Z) : list byte := be_PutUint64 epoch.

(** The loop of [verifyDb]; every configuration is compared with the first one. *)
Fixpoint verify_loop {S} (prevShardConf : option PartitionDescriptionRecord)
    (dbIt : list (list byte * result PartitionDescriptionRecord)) : M S unit :=
  match dbIt with
  | [] => mret tt
  | (key, value) :: dbIt =>
      epoch ← deref (be_Uint64 key);
      shardConf ← wrapM "failed to read shard conf for epoch" (lift value);
      let prev := default shardConf prevShardConf in
      unless (pdr_NetworkID prev =? pdr_NetworkID shardConf)
        (ErrNew "inconsistent network id in shard conf for epoch");;
      unless (pdr_PartitionTypeID prev =? pdr_PartitionTypeID shardConf)
        (ErrNew "inconsistent partition type id in shard conf for epoch");;
      unless (pdr_PartitionID prev =? pdr_PartitionID shardConf)
        (ErrNew "inconsistent partition id in shard conf for epoch");;
      unless (ShardID_Equal (pdr_ShardID prev) (pdr_ShardID shardConf))
        (ErrNew "inconsistent shard id in shard conf for epoch");;
      verify_loop (Some prev) dbIt
  end.

Definition verifyDb : M D unit :=
  it ← gets db_First;
  verify_loop None it.

Definition NewShardConfStore (db : D) : outcome ShardConfStore :=
  match wrapM "failed to verify shard conf store" verifyDb db with
  | (Ret _, db) => Ret (mkShardConfStore db ∅)
  | (Throw e, _) => Throw e
  | (Panic, _) => Panic
  end.

Definition load (epoch : Z) : M ShardConfStore PartitionDescriptionRecord :=
  db ← gets scs_db;
  found ← wrapM "reading shard conf" (lift (db_Read (epochToKey epoch) db));
  match found with
  | Some v => mret v
  | None => throw (ErrNew "shard conf not found")
  end.

Definition scs_write (epoch : Z) (conf : PartitionDescriptionRecord) : M ShardConfStore unit := fun s =>
  match db_Write (epochToKey epoch) conf (scs_db s) with
  | (db, Ok _) => (Ret tt, mkShardConfStore db (scs_cache s))
  | (db, Fail e) => (Throw e, mkShardConfStore db (scs_cache s))
  end.

Definition Store (shardConf : PartitionDescriptionRecord) : M ShardConfStore unit :=
  prevShardConf ← (if 0 <? pdr_Epoch shardConf then
      let prevEpoch := u64_sub (pdr_Epoch shardConf) 1 in
      c ← wrapM "failed to load shard conf for previous epoch" (load prevEpoch);
      mret (Some c)
    else mret None);
  wrapM "failed to verify shard conf for epoch" (lift (PDR_Verify shardConf prevShardConf));;
  wrapM "saving shard conf for epoch" (scs_write (pdr_Epoch shardConf) shardConf).

Definition Get (epoch : Z) : M ShardConfStore PartitionDescriptionRecord :=
  cache ← gets scs_cache;
  match cache !! epoch with
  | Some shardConf => mret shardConf
  | None =>
      shardConf ← load epoch;
      modify (fun s => mkShardConfStore (scs_db s) (<[epoch := shardConf]> (scs_cache s)));;
      mret shardConf
  end.

Definition GetFirst : M ShardConfStore PartitionDescriptionRecord :=
  dbIt ← gets (fun s => db_First (scs_db s));
  match dbIt with
  | [] => throw (ErrNew "empty shard conf db")
  | (key, _) :: _ => epoch ← deref (be_Uint64 key); Get epoch
  end.
End store.
Arguments ShardConfStore {BT} D.

(** ** Properties *)

Section properties.
Context {BT : BftTypes} {BL : BftLib}.
Context {D : Type} {KV : KeyValueDB D PartitionDescriptionRecord}.
Context {KVL : KeyValueDBLaws D PartitionDescriptionRecord}.
Implicit Types (s : ShardConfStore D) (c : PartitionDescriptionRecord).

(** The four identifiers a store may not mix. *)
Definition same_shard c1 c2 : Prop :=
  pdr_NetworkID c1 = pdr_NetworkID c2 ∧ pdr_PartitionTypeID c1 = pdr_PartitionTypeID c2 ∧
  pdr_PartitionID c1 = pdr_PartitionID c2 ∧ ShardID_Equal (pdr_ShardID c1) (pdr_ShardID c2) = true.

Definition stored s (epoch : Z) : option PartitionDescriptionRecord :=
  db_map (scs_db s) !! epochToKey epoch.

(** The cache never shows anything but what the database holds. *)
Definition coherent s : Prop := ∀ e c, scs_cache s !! e = Some c → stored s e = Some c.

(** Every key of the database is the key of an epoch. *)
Definition epoch_keys s : Prop :=
  ∀ k, is_Some (db_map (scs_db s) !! k) → ∃ e, is_u64 e ∧ k = epochToKey e.

Lemma load_wp epoch s :
  wp (load epoch) (fun c s' => s' = s ∧ stored s epoch = Some c) (fun _ s' => s' = s) s.
Proof.
  unfold load, stored. wp_norm. destruct (db_Read _ _) as [o|] eqn:Hr; [|done].
  apply Read_ok in Hr. destruct o; wp_norm; auto.
Qed.

Lemma Get_wp epoch s :
  coherent s →
  wp (Get epoch)
    (fun c s' => stored s epoch = Some c ∧ scs_db s' = scs_db s ∧
       scs_cache s' !! epoch = Some c ∧ coherent s')
    (fun _ s' => s' = s) s.
Proof.
  intros Hc. unfold Get. wp_norm. destruct (scs_cache s !! epoch) as [c|] eqn:He; wp_norm.
  { auto. }
  eapply wp_mono; [apply load_wp| |done]. intros c s' [-> Hs]. wp_norm. simpl.
  split_and!; [done|done|by rewrite lookup_insert_eq|].
  intros e c'. simpl. rewrite lookup_insert. case_decide; [|by apply Hc].
  subst. intros [= ->]. done.
Qed.

(** The configuration of the epoch before [c]'s, as the store has it. *)
Definition previous_conf s c (prev : option PartitionDescriptionRecord) : Prop :=
  if 0 <? pdr_Epoch c then ∃ p, prev = Some p ∧ stored s (u64_sub (pdr_Epoch c) 1) = Some p
  else prev = None.

Definition store_ok s c (s' : ShardConfStore D) : Prop :=
  db_map (scs_db s') = <[epochToKey (pdr_Epoch c) := c]> (db_map (scs_db s)) ∧
  scs_cache s' = scs_cache s ∧
  ∃ prev, previous_conf s c prev ∧ PDR_Verify c prev = Ok tt.

Definition store_unchanged s (s' : ShardConfStore D) : Prop :=
  db_map (scs_db s') = db_map (scs_db s) ∧ scs_cache s' = scs_cache s.

Lemma Store_rest_wp c s prev :
  previous_conf s c prev →
  wp (wrapM "failed to verify shard conf for epoch" (lift (PDR_Verify c prev));;
      wrapM "saving shard conf for epoch" (scs_write (pdr_Epoch c) c))
    (fun _ => store_ok s c) (fun _ => store_unchanged s) s.
Proof.
  intros Hprev. wp_norm. destruct (PDR_Verify c prev) as [[]|] eqn:Hv; [|done]. wp_norm.
  unfold wp, scs_write, store_ok, store_unchanged.
  destruct (db_Write _ c (scs_db s)) as [d' [u|]] eqn:Hw; simpl.
  - apply Write_ok in Hw. eauto.
  - apply Write_err in Hw. eauto.
Qed.

Lemma Store_wp c s : wp (Store c) (fun _ => store_ok s c) (fun _ => store_unchanged s) s.
Proof.
  pose proof (Store_rest_wp c s) as Hrest. unfold previous_conf in Hrest at 1.
  unfold Store. rewrite wp_bind. destruct (0 <? pdr_Epoch c).
  - rewrite wp_bind, wp_wrapM. eapply wp_mono; [apply load_wp| |by intros ? ? ->].
    intros p s' [-> Hp]. rewrite wp_ret. apply Hrest. eauto.
  - rewrite wp_ret. by apply Hrest.
Qed.

(** [Get], by what the cache and the database have for the epoch. *)
Lemma Get_run epoch s :
  Get epoch s =
  match scs_cache s !! epoch with
  | Some c => (Ret c, s)
  | None =>
      match db_Read (epochToKey epoch) (scs_db s) with
      | Ok (Some c) => (Ret c, mkShardConfStore (scs_db s) (<[epoch := c]> (scs_cache s)))
      | Ok None => (Throw (ErrNew "shard conf not found"), s)
      | Fail e => (Throw (ErrWrap "reading shard conf" e), s)
      end
  end.
Proof.
  unfold Get, load, wrapM, lift, mbind, M_bind, gets. destruct (scs_cache s !! epoch) as [c|]; [done|].
  by destruct (db_Read _ _) as [[c|]|e].
Qed.

(** A write under the key of one epoch does not touch the others. *)
Lemma stored_insert s s1 c :
  is_u64 (pdr_Epoch c) → db_map (scs_db s1) = <[epochToKey (pdr_Epoch c) := c]> (db_map (scs_db s)) →
  stored s1 (pdr_Epoch c) = Some c ∧ ∀ e, is_u64 e → e ≠ pdr_Epoch c → stored s1 e = stored s e.
Proof.
  intros Hu Hdb. unfold stored. rewrite Hdb, lookup_insert_eq. split; [done|].
  intros e He Hne. rewrite lookup_insert_ne; [done|].
  intros Heq. apply Hne. apply (f_equal be_Uint64) in Heq. unfold epochToKey in Heq.
  rewrite !be_Uint64_PutUint64 in Heq by done. congruence.
Qed.

(** C30: Storing a configuration and reading it back, for every outcome. A [Store] that fails
    changes nothing. One that succeeds has verified the configuration against the previous
    epoch's and put it in the database, with the other epochs as they were. A [Get] of the epoch
    then returns the new configuration (or an error, if the database cannot be read), unless
    the epoch had been read before: the cache is not updated, so it returns the
    configuration of then, whatever was stored. *)
Theorem Store_Get c s o s1 :
  is_u64 (pdr_Epoch c) → Store c s = (o, s1) →
  match o with
  | Ret _ =>
      (∃ prev, previous_conf s c prev ∧ PDR_Verify c prev = Ok tt) ∧
      stored s1 (pdr_Epoch c) = Some c ∧
      (∀ e, is_u64 e → e ≠ pdr_Epoch c → stored s1 e = stored s e) ∧
      match scs_cache s !! pdr_Epoch c with
      | Some old => (Get (pdr_Epoch c) s1).1 = Ret old
      | None =>
          (Get (pdr_Epoch c) s1).1 = Ret c ∨
          ∃ e e', db_Read (epochToKey (pdr_Epoch c)) (scs_db s1) = Fail e ∧ (Get (pdr_Epoch c) s1).1 = Throw e'
      end
  | Throw _ => store_unchanged s s1
  | Panic => False
  end.
Proof.
  intros Hu Hst. pose proof (wp_outcome _ _ _ _ _ _ (Store_wp c s) Hst) as H. destruct o as [[]| |]; try done.
  destruct H as (Hdb & Hcache & Hprev). destruct (stored_insert s s1 c Hu Hdb) as [Hnew Hother].
  split_and!; try done. rewrite Get_run, Hcache. destruct (scs_cache s !! pdr_Epoch c) as [old|]; [done|].
  destruct (db_Read _ (scs_db s1)) as [r|e] eqn:Hr; [|by eauto].
  apply Read_ok in Hr. unfold stored in Hnew. rewrite Hnew in Hr. subst r. by left.
Qed.

(** The stores that come from [NewShardConfStore] by calls of the methods, where no epoch that
    has been read is stored again. *)
Inductive scs_reach : ShardConfStore D → Prop :=
  | scs_new db s : NewShardConfStore db = Ret s → scs_reach s
  | scs_get e s o s' : scs_reach s → is_u64 e → Get e s = (o, s') → scs_reach s'
  | scs_first s o s' : scs_reach s → GetFirst s = (o, s') → scs_reach s'
  | scs_store c s o s' :
      scs_reach s → is_u64 (pdr_Epoch c) → scs_cache s !! pdr_Epoch c = None → Store c s = (o, s') → scs_reach s'.

Definition cache_ok s : Prop := coherent s ∧ ∀ e, is_Some (scs_cache s !! e) → is_u64 e.

Lemma cache_ok_Get e s o s' : is_u64 e → Get e s = (o, s') → cache_ok s → cache_ok s'.
Proof.
  intros He. rewrite Get_run. destruct (scs_cache s !! e) as [c|] eqn:Hc; [by intros [= _ <-]|].
  destruct (db_Read _ _) as [[c|]|x] eqn:Hr; [|by intros [= _ <-]|by intros [= _ <-]].
  apply Read_ok in Hr. intros [= _ <-] [Hco Hu]. split.
  - intros e' c'. simpl. rewrite lookup_insert. case_decide; [|by apply Hco]. subst. by intros [= <-].
  - intros e'. simpl. rewrite lookup_insert. case_decide; [by subst|apply Hu].
Qed.

Lemma cache_ok_GetFirst s o s' : GetFirst s = (o, s') → cache_ok s → cache_ok s'.
Proof.
  unfold GetFirst, mbind, M_bind, gets, deref. destruct (db_First (scs_db s)) as [|[k r] it]; [by intros [= _ <-]|].
  destruct (be_Uint64 k) as [e|] eqn:He; [|by intros [= _ <-]]. apply cache_ok_Get. by eapply be_Uint64_u64.
Qed.

Lemma cache_ok_Store c s o s' :
  is_u64 (pdr_Epoch c) → scs_cache s !! pdr_Epoch c = None → Store c s = (o, s') → cache_ok s → cache_ok s'.
Proof.
  intros He Hn Hst [Hco Hu]. pose proof (wp_outcome _ _ _ _ _ _ (Store_wp c s) Hst) as H.
  destruct o as [[]|err|]; [|destruct H as [Hdb Hcache]|done].
  - destruct H as (Hdb & Hcache & _). destruct (stored_insert s s' c He Hdb) as [_ Hother]. split; [|by rewrite Hcache].
    intros e c'. rewrite Hcache. intros Hc'. rewrite Hother; [by apply Hco|by eauto|]. intros ->. congruence.
  - split; [|by rewrite Hcache]. intros e c'. rewrite Hcache. unfold stored. rewrite Hdb. apply Hco.
Qed.

Lemma epochToKey_le a b : is_u64 a → is_u64 b → key_le (epochToKey a) (epochToKey b) ↔ a <= b.
Proof.
  intros. unfold key_le, epochToKey. rewrite be_PutUint64_ltb by done. rewrite Z.ltb_ge. lia.
Qed.

Lemma GetFirst_wp s :
  coherent s → epoch_keys s →
  wp GetFirst (fun c s' => scs_db s' = scs_db s ∧ coherent s' ∧ ∃ e, stored s e = Some c) (fun _ s' => s' = s) s.
Proof.
  intros Hc Hk. unfold GetFirst. wp_norm. destruct (First_spec (scs_db s)) as (_ & _ & Hdom & _).
  destruct (db_First (scs_db s)) as [|[k r] it]; wp_norm; [done|].
  destruct (Hk k) as (e & He & ->); [apply Hdom; set_solver|].
  unfold epochToKey. rewrite be_Uint64_PutUint64 by done.
  eapply wp_mono; [by apply Get_wp| |done]. naive_solver.
Qed.

(** [GetFirst] returns the configuration of the smallest epoch in the database: big-endian
    keys sort as the epochs they encode, and decode back to them. *)
Theorem GetFirst_smallest s c s' :
  coherent s → epoch_keys s → GetFirst s = (Ret c, s') →
  ∃ e, is_u64 e ∧ stored s e = Some c ∧
    ∀ e', is_u64 e' → is_Some (stored s e') → e <= e'.
Proof.
  intros Hc Hk Hg. unfold GetFirst, mbind, M_bind, gets in Hg.
  destruct (First_spec (scs_db s)) as (Hsort & _ & Hdom & _).
  destruct (db_First (scs_db s)) as [|[k r] it]; [done|].
  destruct (Hk k) as (e & He & ->); [apply Hdom; set_solver|].
  unfold deref, epochToKey in Hg. rewrite be_Uint64_PutUint64 in Hg by done.
  pose proof (wp_outcome _ _ _ _ _ _ (Get_wp e s Hc) Hg) as (Hs & _).
  exists e. split_and!; [done|done|]. intros e' He' Hs'.
  assert (epochToKey e' ∈ ((epochToKey e, r) :: it).*1) as Hin by (apply Hdom; eauto).
  simpl in Hin, Hsort. inversion Hsort as [|? ? _ Hall]; subst.
  apply elem_of_cons in Hin as [Heq|Hin].
  - apply (f_equal be_Uint64) in Heq. unfold epochToKey in Heq.
    rewrite !be_Uint64_PutUint64 in Heq by done. simplify_eq. lia.
  - rewrite Forall_forall in Hall. by apply epochToKey_le, Hall.
Qed.

Lemma verify_loop_wp {S} ref (it : list (list byte * result PartitionDescriptionRecord)) (st : S) :
  Forall (fun k => is_Some (be_Uint64 k)) it.*1 →
  wp (verify_loop ref it)
    (fun _ st' => st' = st ∧ ∃ confs, it.*2 = Ok <$> confs ∧
       ∀ r, ref ∪ head confs = Some r → Forall (same_shard r) confs)
    (fun _ st' => st' = st) st.
Proof.
  revert ref. induction it as [|[key value] it IH]; intros ref Hk; simpl; wp_norm.
  { split; [done|]. exists []. by split. }
  inversion Hk as [|? ? [e He] Hk']; subst. rewrite He. wp_norm.
  destruct value as [c|]; wp_norm; [|done].
  set (prev := default c ref).
  do 4 (wp_case; wp_norm; [|done]). rewrite !Z.eqb_eq in *.
  eapply wp_mono; [by apply (IH (Some prev))| |done].
  intros _ ? (-> & confs & Hc & Hall). split; [done|]. exists (c :: confs).
  split; [exact (f_equal (cons (Ok c)) Hc)|]. intros r Hr.
  assert (r = prev) as -> by (unfold prev; destruct ref; by injection Hr as <-).
  constructor; [by split_and!|]. apply Hall. by destruct confs.
Qed.

(** Verifying a database does not change it, and the store starts with an empty cache. *)
Lemma verify_loop_state {S} prev it (s : S) : (verify_loop prev it s).2 = s.
Proof.
  revert prev s. induction it as [|[k v] it IH]; intros prev s; [done|]. cbn [verify_loop].
  unfold mbind, M_bind. destruct (be_Uint64 k) as [e|]; [|done]. destruct v as [c|]; [|done]. cbn.
  unfold unless. destruct (pdr_NetworkID _ =? _); [|done]. destruct (pdr_PartitionTypeID _ =? _); [|done].
  destruct (pdr_PartitionID _ =? _); [|done]. destruct (ShardID_Equal _ _); [|done]. apply IH.
Qed.

Lemma NewShardConfStore_new db st : NewShardConfStore db = Ret st → st = mkShardConfStore db ∅.
Proof.
  unfold NewShardConfStore, verifyDb, wrapM, mbind, M_bind, gets.
  pose proof (verify_loop_state None (db_First db) db) as Hs.
  destruct (verify_loop None (db_First db) db) as [[] d]; simpl in *; try done. subst d. by intros [= <-].
Qed.

Lemma scs_reach_ok s : scs_reach s → cache_ok s.
Proof.
  induction 1 as [db s Hn|e s o s' _ IH He Hg|s o s' _ IH Hg|c s o s' _ IH He Hn Hs].
  - apply NewShardConfStore_new in Hn as ->. split; intros e; simpl; [intros c|]; rewrite lookup_empty; [done|by intros []].
  - by eapply cache_ok_Get.
  - by eapply cache_ok_GetFirst.
  - by eapply cache_ok_Store.
Qed.

(** C31: The cache is invisible. For every store that comes from [NewShardConfStore] by any calls
    of its methods, where no epoch that has been read is stored again (the run command stores
    its configuration files before it reads any), [Get] returns what a read of the database
    would: the configuration if it reads one, an error if there is none; if the read fails,
    an error, or the stored configuration if the epoch has been read before. It does not change the
    database, and once it has succeeded it gives the same answer again. *)
Theorem Get_coherent epoch s o s' :
  scs_reach s → Get epoch s = (o, s') →
  scs_db s' = scs_db s ∧ (∀ c, o = Ret c → Get epoch s' = (Ret c, s')) ∧
  match db_Read (epochToKey epoch) (scs_db s) with
  | Ok (Some c) => o = Ret c
  | Ok None => o = Throw (ErrNew "shard conf not found")
  | Fail e => o = Throw (ErrWrap "reading shard conf" e) ∨ ∃ c, o = Ret c ∧ stored s epoch = Some c
  end.
Proof.
  intros [Hco _]%scs_reach_ok. rewrite Get_run. destruct (scs_cache s !! epoch) as [c|] eqn:Hc.
  - intros [= <- <-]. split_and!; [done|intros ? [= <-]; by rewrite Get_run, Hc|]. apply Hco in Hc as Hs.
    destruct (db_Read _ _) as [r|] eqn:Hr; [|by eauto]. apply Read_ok in Hr. unfold stored in Hs. rewrite Hs in Hr. by subst r.
  - destruct (db_Read _ _) as [[c|]|e]; intros [= <- <-]; split_and!; try done; [|by left].
    intros ? [= <-]. by rewrite Get_run; simpl; rewrite lookup_insert_eq.
Qed.

Lemma verifyDb_wp db :
  epoch_keys (mkShardConfStore db ∅) →
  wp (wrapM "failed to verify shard conf store" verifyDb)
    (fun _ d => d = db ∧ ∃ confs, (db_First db).*2 = Ok <$> confs ∧
       ∀ r, None ∪ head confs = Some r → Forall (same_shard r) confs) (fun _ _ => True) db.
Proof.
  intros Hk. destruct (First_spec db) as (_ & _ & Hdom & Hval).
  assert (Forall (fun k => is_Some (be_Uint64 k)) (db_First db).*1) as Hkeys.
  { apply Forall_forall. intros k [_ Hs]%Hdom. destruct (Hk _ Hs) as (e & He & ->).
    unfold epochToKey. rewrite be_Uint64_PutUint64; eauto. }
  unfold verifyDb. rewrite wp_wrapM, wp_bind, wp_gets.
  eapply wp_mono; [by apply verify_loop_wp|by auto|done].
Qed.

Lemma NewShardConfStore_no_panic db : epoch_keys (mkShardConfStore db ∅) → NewShardConfStore db ≠ Panic.
Proof.
  intros Hwp%verifyDb_wp. unfold NewShardConfStore, wp in *.
  by destruct (wrapM _ verifyDb db) as [[] d].
Qed.

(** A store is only created over a database of one shard: when [NewShardConfStore] accepts
    a database, every configuration in it can be read and has the same network, partition
    type, partition and shard identifiers as one of them; it starts with an empty cache. *)
Theorem NewShardConfStore_consistent db st :
  (∀ k, is_Some (db_map db !! k) → ∃ e, is_u64 e ∧ k = epochToKey e) →
  NewShardConfStore db = Ret st →
  st = mkShardConfStore db ∅ ∧ coherent st ∧
  (db_map db = ∅ ∨ ∃ r, ∀ k c, db_map db !! k = Some c → same_shard r c).
Proof.
  intros Hk Hn. unfold NewShardConfStore in Hn.
  destruct (First_spec db) as (_ & _ & Hdom & Hval).
  pose proof (verifyDb_wp db Hk) as Hwp. unfold wp in Hwp. destruct (wrapM _ verifyDb db) as [[] d]; try done.
  destruct Hwp as (-> & confs & Hc & Hall). injection Hn as <-.
  split_and!; [done|intros e c; simpl; by rewrite lookup_empty|].
  destruct confs as [|r confs].
  - left. apply map_eq. intros k. rewrite lookup_empty. destruct (db_map db !! k) eqn:E; [|done].
    assert (k ∈ (db_First db).*1) as Hin by (apply Hdom; eauto).
    destruct (db_First db) as [|[]]; [by apply elem_of_nil in Hin|discriminate Hc].
  - right. exists r. intros k c Hlk. specialize (Hall r eq_refl).
    assert (k ∈ (db_First db).*1) as Hin by (apply Hdom; eauto).
    apply list_elem_of_fmap in Hin as ([k' v] & -> & Hin).
    assert (v ∈ (db_First db).*2) as Hv by (apply list_elem_of_fmap; eexists (_, _); eauto).
    rewrite Hc in Hv. apply list_elem_of_fmap in Hv as (c' & -> & Hc').
    apply Hval in Hin. simpl in *. simplify_eq. rewrite Forall_forall in Hall. by apply Hall.
Qed.
End properties.
