(* ===== verification/Selector.v ===== *)
(** * Choosing root nodes (partition/root_node_selector.go) *)

From Stdlib Require Import ZArith Lia Strings.Byte String.
From stdpp Require Import base list strings option gmap list_misc.
From S2P Require Import Prelude GoBase BftTypes Messages.

Definition defaultHandshakeNodes : Z := 3.
Definition defaultNofRootNodes : Z := 2.

(** [math/rand]: a number in [[0, n)]. *)
Class Rand (W : Type) := {
  rand_Intn : Z → W → Z * W;
  rand_Intn_range n w : 0 < n → 0 <= (rand_Intn n w).1 < n;
}.

Section random.
Context {W : Type} {R : Rand W}.

(** [l[i], l[j] = l[j], l[i]] *)
Definition swap (i j : nat) (l : list PeerID) : list PeerID :=
  match l !! i, l !! j with
  | Some x, Some y => <[i := y]> (<[j := x]> l)
  | _, _ => l
  end.

(** [rand.Shuffle(i+1, swap)]: exchange element [i] with a random one not after it, for [i]
    down to 1. *)
Fixpoint shuffle (i : nat) (l : list PeerID) (w : W) : list PeerID * W :=
  match i with
  | O => (l, w)
  | S i' =>
      let '(j, w) := rand_Intn (Z.of_nat i + 1) w in
      shuffle i' (swap i (Z.to_nat j) l) w
  end.

Definition randomNodeSelector (nodes : list PeerID) (upToNodes : Z) : M W (list PeerID) := fun w =>
  let nodeCnt := Z.of_nat (length nodes) in
  if nodeCnt <? 1 then (Throw (ErrNew "node list is empty"), w)
  else if upToNodes =? 0 then
    (Throw (ErrNew "invalid parameter, number of nodes to select is 0"), w)
  else if nodeCnt <=? upToNodes then (Ret nodes, w)
  else
    let '(rNodes, w) := shuffle (length nodes - 1) nodes w in
    (* [rNodes[:upToNodes]] panics on a negative bound *)
    if upToNodes <? 0 then (Panic, w) else (Ret (take (Z.to_nat upToNodes) rNodes), w).

Lemma swap_perm i j l : swap i j l ≡ₚ l.
Proof.
  unfold swap. destruct (l !! i) as [x|] eqn:Hi; [|done]. destruct (l !! j) as [y|] eqn:Hj; [|done].
  destruct (decide (i = j)) as [->|Hne].
  - simplify_eq. rewrite list_insert_insert_eq, list_insert_id; done.
  - apply Permutation_insert_swap; done.
Qed.

Lemma shuffle_perm i l w : (shuffle i l w).1 ≡ₚ l.
Proof.
  revert l w. induction i as [|i IH]; intros l w; [done|]. cbn [shuffle].
  destruct (rand_Intn _ w) as [j w']. by rewrite IH, swap_perm.
Qed.

(** A selection never panics for a number of nodes that is not negative. *)
Lemma randomNodeSelector_total nodes upTo w :
  0 <= upTo → wp (randomNodeSelector nodes upTo) (fun _ _ => True) (fun _ _ => True) w.
Proof.
  intros Hu. unfold wp, randomNodeSelector.
  destruct (_ <? 1); [done|]. destruct (upTo =? 0); [done|]. destruct (_ <=? upTo); [done|].
  destruct (shuffle _ nodes w). by destruct (Z.ltb_spec upTo 0); [lia|].
Qed.

(** A random selection of a positive number of nodes returns that many of the given nodes
    (all of them when fewer are given), each as often as it was given at most: it is a part
    of a permutation of the list. *)
Theorem randomNodeSelector_subset nodes upTo w :
  nodes ≠ [] → 0 < upTo →
  ∃ sel rest w', randomNodeSelector nodes upTo w = (Ret sel, w') ∧
    sel ++ rest ≡ₚ nodes ∧ Z.of_nat (length sel) = Z.min upTo (Z.of_nat (length nodes)).
Proof.
  intros Hne Hpos. unfold randomNodeSelector.
  destruct (Z.ltb_spec (Z.of_nat (length nodes)) 1) as [|_]; [destruct nodes; simpl in *; [done|lia]|].
  destruct (Z.eqb_spec upTo 0); [lia|].
  destruct (Z.leb_spec (Z.of_nat (length nodes)) upTo).
  - exists nodes, [], w. rewrite app_nil_r. split_and!; [done|done|lia].
  - pose proof (shuffle_perm (length nodes - 1) nodes w) as Hp.
    destruct (shuffle _ nodes w) as [l w']. simpl in Hp.
    destruct (Z.ltb_spec upTo 0); [lia|].
    exists (take (Z.to_nat upTo) l), (drop (Z.to_nat upTo) l), w'. rewrite take_drop.
    split_and!; [done|done|]. rewrite length_take. apply Permutation_length in Hp. lia.
Qed.
End random.

Section root.
Context {BT : BftTypes} {BL : BftLib}.

(** The [for] loop; [None] when the fuel runs out or an index is out of range. *)
Fixpoint select_loop (fuel : nat) (nodes : list PeerID) (index idx : nat) (upToNodes : Z)
    (chosen : list PeerID) : option (list PeerID) :=
  match fuel with
  | O => None
  | S fuel =>
      node ← nodes !! idx;
      let chosen := chosen ++ [node] in
      let idx := S idx in
      let idx := if Nat.leb (length nodes) idx then O else idx in
      if Nat.eqb idx index || (Z.of_nat (length chosen) =? upToNodes) then Some chosen
      else select_loop fuel nodes index idx upToNodes chosen
  end.

(** The loop ends before it comes back to its start index a second time: [length nodes]
    iterations are enough. *)
Definition rootNodesSelector (luc : option UnicityCertificate) (nodes : list PeerID) (upToNodes : Z)
    : outcome (list PeerID) :=
  match luc with
  | None => Throw (ErrNew "UC is nil")
  | Some u =>
      let nodeCnt := Z.of_nat (length nodes) in
      if nodeCnt <? 1 then Throw (ErrNew "root node list is empty")
      else if upToNodes =? 0 then
        Throw (ErrNew "invalid parameter, number of nodes to select is 0")
      else if nodeCnt <=? upToNodes then Ret nodes
      else
        match UC_Hash u SHA256 with
        | Fail e => Throw (ErrWrap "failed to hash UC" e)
        | Ok lucHash =>
            let index := Z.to_nat (be_decode (slice_bytes lucHash) mod nodeCnt) in
            match select_loop (length nodes) nodes index index upToNodes [] with
            | Some chosen => Ret chosen
            | None => Panic
            end
        end
  end.

Lemma rotate_nat_add_mod n i len :
  (0 < len)%nat → rotate_nat_add n i len = ((n + i) mod len)%nat.
Proof. intros. unfold rotate_nat_add. rewrite <-Nat2Z.inj_add, <-Nat2Z.inj_mod by lia. lia. Qed.

(** The state of the loop after [k] iterations: [k] nodes of the rotated list are chosen. *)
Lemma select_loop_spec fuel nodes index upTo k :
  (index < length nodes)%nat → (k < length nodes)%nat → (k + fuel = length nodes)%nat →
  (upTo <= 0 ∨ Z.of_nat k < upTo) →
  select_loop fuel nodes index ((index + k) mod length nodes) upTo (take k (rotate index nodes)) =
  Some (if upTo <=? 0 then rotate index nodes else take (Z.to_nat upTo) (rotate index nodes)).
Proof.
  intros Hi. revert k. induction fuel as [|fuel IH]; intros k Hk Hf Hu; [lia|]. cbn [select_loop].
  assert (length nodes ≠ 0%nat) as Hn by lia.
  pose proof (Nat.mod_upper_bound (index + k) (length nodes) Hn) as Hb.
  destruct (lookup_lt_is_Some_2 nodes ((index + k) mod length nodes) Hb) as [x Hx].
  rewrite Hx. simpl.
  assert (rotate index nodes !! k = Some x) as Hr.
  { rewrite lookup_rotate_r by done. by rewrite rotate_nat_add_mod by lia. }
  rewrite <-(take_S_r _ _ _ Hr).
  assert ((if Nat.leb (length nodes) (S ((index + k) mod length nodes)) then O
           else S ((index + k) mod length nodes)) = ((index + S k) mod length nodes)%nat) as ->.
  { replace (index + S k)%nat with (S (index + k)) by lia.
    rewrite <-(Nat.Div0.add_mod_idemp_r 1 (index + k)).
    destruct (Nat.leb_spec (length nodes) (S ((index + k) mod length nodes))).
    - replace (1 + (index + k) mod length nodes)%nat with (length nodes) by lia.
      by rewrite Nat.Div0.mod_same.
    - rewrite (Nat.mod_small (1 + (index + k) mod length nodes)) by lia. lia. }
  rewrite length_take, length_rotate, Nat.min_l by lia.
  destruct (Nat.eqb_spec ((index + S k) mod length nodes) index) as [Heq|Hne]; cbn [orb].
  - assert (S k = length nodes) as Hk'.
    { destruct (decide (S k = length nodes)) as [|Hlt]; [done|]. exfalso.
      destruct (decide (index + S k < length nodes)%nat).
      - rewrite Nat.mod_small in Heq; lia.
      - rewrite (Nat.Div0.mod_eq _ _) in Heq.
        assert ((index + S k) / length nodes = 1)%nat as Hd
          by (symmetry; apply (Nat.div_unique _ _ _ (index + S k - length nodes)%nat); lia).
        rewrite Hd in Heq. lia. }
    rewrite take_ge by (rewrite length_rotate; lia). f_equal.
    destruct (Z.leb_spec upTo 0); [done|]. rewrite take_ge; [done|]. rewrite length_rotate. lia.
  - destruct (Z.eqb_spec (Z.of_nat (S k)) upTo) as [Hu'|Hu'].
    + subst upTo. destruct (Z.leb_spec (Z.of_nat (S k)) 0); [lia|]. by rewrite Nat2Z.id.
    + apply IH; [|lia|lia].
      destruct (decide (S k = length nodes)) as [Hlast|]; [|lia]. exfalso. apply Hne.
      rewrite Hlast. replace (index + length nodes)%nat with (index + 1 * length nodes)%nat by lia.
      rewrite Nat.Div0.mod_add. by apply Nat.mod_small.
Qed.

(** The loop does not run out of its fuel or of the list. *)
Lemma rootNodesSelector_total luc nodes upTo :
  0 < upTo → rootNodesSelector luc nodes upTo ≠ Panic.
Proof.
  intros Hpos. unfold rootNodesSelector. destruct luc as [u|]; [|done].
  destruct (Z.ltb_spec (Z.of_nat (length nodes)) 1); [done|].
  destruct (upTo =? 0); [done|]. destruct (_ <=? upTo) eqn:Hu; [done|].
  destruct (UC_Hash u SHA256) as [h|]; [|done]. set (index := Z.to_nat _).
  assert (index < length nodes)%nat as Hi.
  { unfold index. pose proof (Z.mod_pos_bound (be_decode (slice_bytes h)) (Z.of_nat (length nodes))). lia. }
  pose proof (select_loop_spec (length nodes) nodes index upTo 0 Hi) as Hs.
  rewrite Nat.add_0_r, Nat.mod_small in Hs by done. rewrite take_0 in Hs. by rewrite Hs by lia.
Qed.

(** C35: The root nodes a certification request goes to are consecutive nodes of the list, taken
    cyclically from a position determined by the hash of the latest certificate: the loop
    ends, stays in range, and returns the first [upTo] nodes of the rotated list (the whole
    list, in its own order, when there are not more than [upTo]). *)
Theorem rootNodesSelector_rotation u nodes upTo h :
  nodes ≠ [] → 0 < upTo → UC_Hash u SHA256 = Ok h →
  rootNodesSelector (Some u) nodes upTo =
  Ret (if Z.of_nat (length nodes) <=? upTo then nodes
       else take (Z.to_nat upTo)
         (rotate (Z.to_nat (be_decode (slice_bytes h) mod Z.of_nat (length nodes))) nodes)).
Proof.
  intros Hne Hpos Hh. unfold rootNodesSelector.
  assert (0 < length nodes)%nat as Hl by (destruct nodes; simpl; [done|lia]).
  destruct (Z.ltb_spec (Z.of_nat (length nodes)) 1); [lia|].
  destruct (Z.eqb_spec upTo 0); [lia|].
  destruct (Z.leb_spec (Z.of_nat (length nodes)) upTo); [done|]. rewrite Hh.
  set (index := Z.to_nat _).
  assert (index < length nodes)%nat as Hi.
  { unfold index. pose proof (Z.mod_pos_bound (be_decode (slice_bytes h)) (Z.of_nat (length nodes))). lia. }
  pose proof (select_loop_spec (length nodes) nodes index upTo 0 Hi Hl) as Hs.
  rewrite Nat.add_0_r, Nat.mod_small in Hs by done. rewrite take_0 in Hs. rewrite Hs by lia.
  by destruct (Z.leb_spec upTo 0); [lia|].
Qed.
End root.
