(* ===== verification/Node.v ===== *)
(** * The partition node: state

    partition/state.go, status.go and the [Node] struct of node.go, with the messages it sends
    and receives.

    The main loop handles one event at a time, so a handler is a function on the [Node]; what
    it does before it returns an error, or before a nil pointer dereference, stays done ([M] of
    the prelude).  The network, the clock, random choices, the trust base store and the
    cancellation of a context belong to the world [W].  Log lines are left out, except for the
    pointers their arguments dereference. *)

From Stdlib Require Import ZArith Lia Strings.Byte String.
From stdpp Require Import base list strings option gmap.
From S2P Require Import Prelude GoBase BftTypes Summary TxInterface Messages KVStore ShardConfStore Selector.

(** ** Data *)

Inductive status := initializing | normal | recovering.
#[global] Instance status_eq_dec : EqDecision status.
Proof. solve_decision. Defined.

(** The [String] method; the type has no other values in the program. *)
Definition status_String (s : status) : string :=
  match s with
  | initializing => "initializing"
  | normal => "normal"
  | recovering => "recovering"
  end.

(** A message handed to [network.Send]. *)
Inductive Message {BT : BftTypes} :=
  | MsgHandshake (h : Handshake)
  | MsgBlockProposal (p : BlockProposal)
  | MsgCertificationRequest (r : BlockCertificationRequest)
  | MsgReplicationRequest (r : LedgerReplicationRequest)
  | MsgReplicationResponse (r : LedgerReplicationResponse).

(** A message taken from the received channel: a pointer to one of the protocol's structs, or
    something else. *)
Inductive Received {BT : BftTypes} :=
  | RcvCertificationResponse (cr : option CertificationResponse)
  | RcvBlockProposal (p : option BlockProposal)
  | RcvReplicationRequest (r : option LedgerReplicationRequest)
  | RcvReplicationResponse (r : option LedgerReplicationResponse)
  | RcvBlock (b : option Block)
  | RcvOther.

(** The world outside the process. *)
Class NodeEnv {BT : BftTypes} (W : Type) := {
  net_Send : Message → list PeerID → W → result unit * W;
  time_Now : W → Z * W;
  uuid_New : W → UUID * W;
  util_ShuffleSliceCopy : list PeerID → W → list PeerID * W;
  trustBase_GetByEpoch : Z → W → result TrustBase * W;
  ctx_Done : W → bool * W;
  env_Rand :: Rand W;
}.

Section data.
Context {BT : BftTypes}.

Record ledgerReplicationConfig := mkReplicationConfig {
  maxFetchBlocks : Z;
  maxReturnBlocks : Z;
  maxWorkers : Z;
  replicationTimeout : Z;
}.

(** The part of [NodeConf] the node uses after it has been set up. *)
Record NodeConf := mkNodeConf {
  conf_signer : option Signer;
  conf_hashAlgorithm : Z;
  conf_ucValidator : option UnicityCertificate → option PartitionDescriptionRecord → TrustBase → result unit;
  conf_bpValidator : option BlockProposal → option PartitionDescriptionRecord → TrustBase → result unit;
  conf_t1Timeout : Z;
  conf_replicationConfig : ledgerReplicationConfig;
}.

Record ConsensusState := mkConsensusState {
  cs_status : status;
  fuc : option UnicityCertificate;
  luc : option UnicityCertificate;
  ltr : option TechnicalRecord;
  leader : PeerID;
  pendingBlockProposal : option Block;
  recoveryLastProp : option BlockProposal;
}.

(** The goroutine [startT1Timer] starts: it waits for the timeout, then sends the event; both
    waits end when its context is cancelled. *)
Inductive timer_phase := TWaiting | TSending | TDone.
Record timer_goroutine := mkTimerGoroutine {
  tg_phase : timer_phase;
  tg_cancelled : bool;
}.

(** [timer_cancel] is the goroutine whose context [cancel] cancels; [timer_event] tells
    whether the one-place channel is full. *)
Record roundTimer := mkRoundTimer {
  timer_isRunning : bool;
  timer_cancel : option nat;
  timer_event : bool;
  timer_goroutines : list timer_goroutine;
}.
End data.

(** [T] is the transaction system, [W] the world, [D] the block store, [DC] the database of
    the shard configurations.  [nd_sent] records the calls of [network.Send], latest first. *)
Record Node {BT : BftTypes} {T W D DC : Type} := mkNode {
  nd_conf : NodeConf;
  nd_transactionSystem : T;
  nd_state : ConsensusState;
  nd_lastLedgerReqTime : Z;
  nd_replicationCh : list LedgerReplicationRequest;
  nd_blockStore : D;
  nd_shardConfStore : ShardConfStore DC;
  nd_peerID : PeerID;
  nd_timer : roundTimer;
  nd_epochChangeEvent : bool;
  nd_shardConf : PartitionDescriptionRecord;
  nd_world : W;
  nd_sent : list (Message * list PeerID);
}.
Arguments Node {BT} T W D DC.

Section setters.
Context {BT : BftTypes} {T W D DC : Type}.
Implicit Type n : Node T W D DC.

Definition set_tx (t : T) n : Node T W D DC :=
  mkNode BT T W D DC (nd_conf n) t (nd_state n) (nd_lastLedgerReqTime n) (nd_replicationCh n)
    (nd_blockStore n) (nd_shardConfStore n) (nd_peerID n) (nd_timer n) (nd_epochChangeEvent n)
    (nd_shardConf n) (nd_world n) (nd_sent n).
Definition set_state (s : ConsensusState) n : Node T W D DC :=
  mkNode BT T W D DC (nd_conf n) (nd_transactionSystem n) s (nd_lastLedgerReqTime n)
    (nd_replicationCh n) (nd_blockStore n) (nd_shardConfStore n) (nd_peerID n) (nd_timer n)
    (nd_epochChangeEvent n) (nd_shardConf n) (nd_world n) (nd_sent n).
Definition set_lastLedgerReqTime (z : Z) n : Node T W D DC :=
  mkNode BT T W D DC (nd_conf n) (nd_transactionSystem n) (nd_state n) z (nd_replicationCh n)
    (nd_blockStore n) (nd_shardConfStore n) (nd_peerID n) (nd_timer n) (nd_epochChangeEvent n)
    (nd_shardConf n) (nd_world n) (nd_sent n).
Definition set_replicationCh (q : list LedgerReplicationRequest) n : Node T W D DC :=
  mkNode BT T W D DC (nd_conf n) (nd_transactionSystem n) (nd_state n) (nd_lastLedgerReqTime n) q
    (nd_blockStore n) (nd_shardConfStore n) (nd_peerID n) (nd_timer n) (nd_epochChangeEvent n)
    (nd_shardConf n) (nd_world n) (nd_sent n).
Definition set_blockStore (d : D) n : Node T W D DC :=
  mkNode BT T W D DC (nd_conf n) (nd_transactionSystem n) (nd_state n) (nd_lastLedgerReqTime n)
    (nd_replicationCh n) d (nd_shardConfStore n) (nd_peerID n) (nd_timer n)
    (nd_epochChangeEvent n) (nd_shardConf n) (nd_world n) (nd_sent n).
Definition set_shardConfStore (s : ShardConfStore DC) n : Node T W D DC :=
  mkNode BT T W D DC (nd_conf n) (nd_transactionSystem n) (nd_state n) (nd_lastLedgerReqTime n)
    (nd_replicationCh n) (nd_blockStore n) s (nd_peerID n) (nd_timer n) (nd_epochChangeEvent n)
    (nd_shardConf n) (nd_world n) (nd_sent n).
Definition set_timer (t : roundTimer) n : Node T W D DC :=
  mkNode BT T W D DC (nd_conf n) (nd_transactionSystem n) (nd_state n) (nd_lastLedgerReqTime n)
    (nd_replicationCh n) (nd_blockStore n) (nd_shardConfStore n) (nd_peerID n) t
    (nd_epochChangeEvent n) (nd_shardConf n) (nd_world n) (nd_sent n).
Definition set_epochChangeEvent (b : bool) n : Node T W D DC :=
  mkNode BT T W D DC (nd_conf n) (nd_transactionSystem n) (nd_state n) (nd_lastLedgerReqTime n)
    (nd_replicationCh n) (nd_blockStore n) (nd_shardConfStore n) (nd_peerID n) (nd_timer n) b
    (nd_shardConf n) (nd_world n) (nd_sent n).
Definition set_shardConf (c : PartitionDescriptionRecord) n : Node T W D DC :=
  mkNode BT T W D DC (nd_conf n) (nd_transactionSystem n) (nd_state n) (nd_lastLedgerReqTime n)
    (nd_replicationCh n) (nd_blockStore n) (nd_shardConfStore n) (nd_peerID n) (nd_timer n)
    (nd_epochChangeEvent n) c (nd_world n) (nd_sent n).
Definition set_world (w : W) n : Node T W D DC :=
  mkNode BT T W D DC (nd_conf n) (nd_transactionSystem n) (nd_state n) (nd_lastLedgerReqTime n)
    (nd_replicationCh n) (nd_blockStore n) (nd_shardConfStore n) (nd_peerID n) (nd_timer n)
    (nd_epochChangeEvent n) (nd_shardConf n) w (nd_sent n).
Definition add_sent (m : Message) (to : list PeerID) n : Node T W D DC :=
  mkNode BT T W D DC (nd_conf n) (nd_transactionSystem n) (nd_state n) (nd_lastLedgerReqTime n)
    (nd_replicationCh n) (nd_blockStore n) (nd_shardConfStore n) (nd_peerID n) (nd_timer n)
    (nd_epochChangeEvent n) (nd_shardConf n) (nd_world n) ((m, to) :: nd_sent n).
End setters.

Section cs_setters.
Context {BT : BftTypes}.
Implicit Type s : ConsensusState.
Definition cs_set_status (x : status) s : ConsensusState :=
  mkConsensusState x (fuc s) (luc s) (ltr s) (leader s) (pendingBlockProposal s) (recoveryLastProp s).
Definition cs_set_ucs (f l : option UnicityCertificate) s : ConsensusState :=
  mkConsensusState (cs_status s) f l (ltr s) (leader s) (pendingBlockProposal s) (recoveryLastProp s).
Definition cs_set_luc (u : option UnicityCertificate) (t : option TechnicalRecord) (l : PeerID) s : ConsensusState :=
  mkConsensusState (cs_status s) (fuc s) u t l (pendingBlockProposal s) (recoveryLastProp s).
Definition cs_set_pending (b : option Block) s : ConsensusState :=
  mkConsensusState (cs_status s) (fuc s) (luc s) (ltr s) (leader s) b (recoveryLastProp s).
Definition cs_set_recoveryLastProp (p : option BlockProposal) s : ConsensusState :=
  mkConsensusState (cs_status s) (fuc s) (luc s) (ltr s) (leader s) (pendingBlockProposal s) p.
End cs_setters.
