(* ===== verification/Network.v ===== *)
(** * The validator network (network/libp2p_network.go, network/validator_network.go)

    Messages between nodes: which protocol carries which type, sending, and the handlers of
    incoming streams, which put what they decode into the received channel the main loop of
    the node reads.  libp2p's streams are operations of the world; the CBOR codec is a
    parameter. *)

From Stdlib Require Import ZArith Lia Strings.Byte String.
From stdpp Require Import base list strings option gmap countable.
From S2P Require Import Prelude GoBase BftTypes Summary TxInterface Messages Wire KVStore ShardConfStore Selector Node.

(** ** Types of Go values, as [reflect.TypeOf] gives them *)

Inductive StructName :=
  | SHandshake
  | SBlockProposal
  | SCertificationRequest
  | SCertificationResponse
  | SReplicationRequest
  | SReplicationResponse
  | SOther (name : string).

(** [TNamed] stands for the types that are neither structs nor pointers. *)
Inductive GoType :=
  | TStruct (s : StructName)
  | TPointer (elem : GoType)
  | TNamed (name : string).

#[global] Instance StructName_eq_dec : EqDecision StructName.
Proof. solve_decision. Defined.
#[global] Instance GoType_eq_dec : EqDecision GoType.
Proof. solve_decision. Defined.

#[global] Instance StructName_countable : Countable StructName.
Proof.
  refine (inj_countable'
    (fun s => match s with
      | SHandshake => inl 0%nat | SBlockProposal => inl 1%nat | SCertificationRequest => inl 2%nat
      | SCertificationResponse => inl 3%nat | SReplicationRequest => inl 4%nat
      | SReplicationResponse => inl 5%nat | SOther n => inr n end)
    (fun c => match c with
      | inl 0%nat => SHandshake | inl 1%nat => SBlockProposal | inl 2%nat => SCertificationRequest
      | inl 3%nat => SCertificationResponse | inl 4%nat => SReplicationRequest
      | inl _ => SReplicationResponse | inr n => SOther n end) _).
  by intros [].
Defined.

(** A type is the number of its pointers and what they lead to. *)
Fixpoint type_code (t : GoType) : nat * (StructName + string) :=
  match t with
  | TStruct s => (0%nat, inl s)
  | TNamed n => (0%nat, inr n)
  | TPointer t => (S (type_code t).1, (type_code t).2)
  end.
Fixpoint code_type (depth : nat) (base : StructName + string) : GoType :=
  match depth with
  | O => match base with inl s => TStruct s | inr n => TNamed n end
  | S depth => TPointer (code_type depth base)
  end.
Lemma code_type_code t : code_type (type_code t).1 (type_code t).2 = t.
Proof. induction t as [s|t IH|n]; simpl; [done|by rewrite IH|done]. Qed.
#[global] Instance GoType_countable : Countable GoType :=
  inj_countable' type_code (fun c => code_type c.1 c.2) code_type_code.

Section network.
Context {BT : BftTypes}.

(** The dynamic type of a message the node sends: a handshake is sent by value. *)
Definition TypeOf (msg : Message) : GoType :=
  match msg with
  | MsgHandshake _ => TStruct SHandshake
  | MsgBlockProposal _ => TPointer (TStruct SBlockProposal)
  | MsgCertificationRequest _ => TPointer (TStruct SCertificationRequest)
  | MsgReplicationRequest _ => TPointer (TStruct SReplicationRequest)
  | MsgReplicationResponse _ => TPointer (TStruct SReplicationResponse)
  end.

(** The same value, taken from the received channel. *)
Definition loop_back (msg : Message) : Received :=
  match msg with
  | MsgBlockProposal p => RcvBlockProposal (Some p)
  | MsgReplicationRequest r => RcvReplicationRequest (Some r)
  | MsgReplicationResponse r => RcvReplicationResponse (Some r)
  | MsgHandshake _ | MsgCertificationRequest _ => RcvOther
  end.

(** [types.Cbor.Marshal] of a message, and [types.Cbor.Decode] into a struct. *)
Class NetCodec := {
  Cbor_Marshal_Message : Message → result (list byte);
  Cbor_Decode_CertificationResponse : reader → result (CertificationResponse * list byte);
  Cbor_Decode_BlockProposal : reader → result (BlockProposal * list byte);
  Cbor_Decode_ReplicationRequest : reader → result (LedgerReplicationRequest * list byte);
  Cbor_Decode_ReplicationResponse : reader → result (LedgerReplicationResponse * list byte);
  Cbor_Decode_other : StructName → reader → result (unit * list byte);
}.

(** The struct a message is. *)
Definition struct_of (msg : Message) : StructName :=
  match msg with
  | MsgHandshake _ => SHandshake
  | MsgBlockProposal _ => SBlockProposal
  | MsgCertificationRequest _ => SCertificationRequest
  | MsgReplicationRequest _ => SReplicationRequest
  | MsgReplicationResponse _ => SReplicationResponse
  end.

(** [types.Cbor.Decode] into the struct [ctor] has allocated: the message is a pointer to it. *)
Definition decode_into {NC : NetCodec} (s : StructName) (r : reader) : result (Received * list byte) :=
  match s with
  | SCertificationResponse =>
      '(m, rest) ← Cbor_Decode_CertificationResponse r; mret (RcvCertificationResponse (Some m), rest)
  | SBlockProposal => '(m, rest) ← Cbor_Decode_BlockProposal r; mret (RcvBlockProposal (Some m), rest)
  | SReplicationRequest =>
      '(m, rest) ← Cbor_Decode_ReplicationRequest r; mret (RcvReplicationRequest (Some m), rest)
  | SReplicationResponse =>
      '(m, rest) ← Cbor_Decode_ReplicationResponse r; mret (RcvReplicationResponse (Some m), rest)
  | _ => '(_, rest) ← Cbor_Decode_other s r; mret (RcvOther, rest)
  end.

(** The codec reads from its reader only, and decodes what it has encoded. *)
Class NetCodecLaws {NC : NetCodec} : Prop := {
  Decode_reads s lr m unread :
    decode_into s lr = Ok (m, unread) → (length unread <= length (r_bytes lr))%nat;
  Decode_Marshal msg data :
    Cbor_Marshal_Message msg = Ok data →
    decode_into (struct_of msg) (mkReader data io_EOF) = Ok (loop_back msg, []);
}.

(** ** Descriptions of protocols *)

Record SendProtocolDescription := mkSendProtocol {
  spd_ProtocolID : string;
  spd_MsgType : option GoType;
  spd_Timeout : Z;
}.

Record sendProtocolData := mkSendProtocolData {
  sp_protocolID : string;
  sp_timeout : Z;
}.

(** What a constructor returns: nil, or a value of a type (a pointer may be nil). *)
Inductive ctor_value := CtorNil | CtorValue (t : GoType) (isNil : bool).

(** [H] is the type of stream handlers that do not come from this package. *)
Context {H : Type}.

Record ReceiveProtocolDescription := mkReceiveProtocol {
  rpd_ProtocolID : string;
  rpd_TypeFn : option ctor_value;
  rpd_Handler : option H;
}.

(** A handler of the host: a given one, or [streamHandlerForProtocol(protocolID, ctor)], where
    [ctor] allocates a struct. *)
Inductive stream_handler :=
  | GivenHandler (h : H)
  | MessageHandler (protocolID : string) (s : StructName).

(** A goroutine [sendAsync] has started. *)
Record spawned_send := mkSpawned {
  sd_protocolID : string;
  sd_timeout : Z;
  sd_data : list byte;
  sd_receiver : PeerID;
}.

(** The struct, with the handlers of the host it registers its protocols at.  The channel has
    [net_capacity] places; [net_spawned] lists the goroutines started, in order. *)
Record LibP2PNetwork := mkNetwork {
  net_self : PeerID;
  net_mux : gmap string stream_handler;
  net_sendProtocols : gmap GoType sendProtocolData;
  net_receivedMsgs : list Received;
  net_capacity : Z;
  net_spawned : list spawned_send;
}.

Definition net_set_mux (m : gmap string stream_handler) (n : LibP2PNetwork) : LibP2PNetwork :=
  mkNetwork (net_self n) m (net_sendProtocols n) (net_receivedMsgs n) (net_capacity n) (net_spawned n).
Definition net_set_sendProtocols (m : gmap GoType sendProtocolData) (n : LibP2PNetwork) : LibP2PNetwork :=
  mkNetwork (net_self n) (net_mux n) m (net_receivedMsgs n) (net_capacity n) (net_spawned n).
Definition net_push (r : Received) (n : LibP2PNetwork) : LibP2PNetwork :=
  mkNetwork (net_self n) (net_mux n) (net_sendProtocols n) (net_receivedMsgs n ++ [r])
    (net_capacity n) (net_spawned n).
Definition net_spawn (s : spawned_send) (n : LibP2PNetwork) : LibP2PNetwork :=
  mkNetwork (net_self n) (net_mux n) (net_sendProtocols n) (net_receivedMsgs n) (net_capacity n)
    (net_spawned n ++ [s]).

Definition NetM (A : Type) : Type := M LibP2PNetwork A.

(** The peer is its identifier and the handlers of its host. *)
Definition NewLibP2PNetwork (self : option (PeerID * gmap string stream_handler)) (capacity : Z)
    : result LibP2PNetwork :=
  match self with
  | None => Fail (ErrNew "peer is nil")
  | Some (id, mux) => mret (mkNetwork id mux ∅ [] capacity [])
  end.

(** ** Sending *)

Context {NC : NetCodec}.

(** The message is dropped when the channel is full. *)
Definition receivedMsg (msg : Received) : NetM unit :=
  n ← gets id;
  if Z.of_nat (length (net_receivedMsgs n)) <? net_capacity n then modify (net_push msg)
  else throw (ErrNew "dropping message because of slow consumer").

Fixpoint send_to_all (protocol : sendProtocolData) (msg : Message) (data : list byte)
    (receivers : list PeerID) : NetM unit :=
  match receivers with
  | [] => mret tt
  | receiver :: receivers =>
      self ← gets net_self;
      (if String.eqb receiver self then try (receivedMsg (loop_back msg));; mret tt
       else modify (net_spawn (mkSpawned (sp_protocolID protocol) (sp_timeout protocol) data receiver)));;
      send_to_all protocol msg data receivers
  end.

Definition sendAsync (protocol : sendProtocolData) (msg : Message) (receivers : list PeerID) : NetM unit :=
  data ← wrapM "serializing message" (fun n => (serializeMsg Cbor_Marshal_Message msg, n));
  send_to_all protocol msg data receivers.

Definition LibP2PNetwork_Send (msg : Message) (receivers : list PeerID) : NetM unit :=
  match receivers with
  | [] => mret tt
  | _ =>
      protocols ← gets net_sendProtocols;
      match protocols !! TypeOf msg with
      | None => throw (ErrNew "no protocol registered for messages of type")
      | Some p => wrapM "sending message" (sendAsync p msg receivers)
      end
  end.

(** *** Streams *)

Class StreamEnv (W : Type) := {
  Stream : Type;
  NewStream : PeerID → string → W → result Stream * W;
  SetWriteDeadline : Stream → Z → W → result unit * W;
  Stream_Write : Stream → list byte → W → result unit * W;
  Stream_Close : Stream → W → result unit * W;
}.

Definition stream_op {W A} (call : W → result A * W) : M W A := fun w =>
  match call w with
  | (Ok a, w') => (Ret a, w')
  | (Fail e, w') => (Throw e, w')
  end.

(** [Peer.CreateStream] of peer.go. *)
Definition CreateStream {W} {SE : StreamEnv W} (peerID : PeerID) (protocolID : string) : M W Stream :=
  stream_op (NewStream peerID protocolID).

(** The body of a goroutine of [sendAsync]; [deadline] is that of its context. *)
Definition sendMsg {W} {SE : StreamEnv W} (protocolID : string) (data : list byte)
    (receiverID : PeerID) (deadline : option Z) : M W unit :=
  s ← wrapM "open p2p stream" (CreateStream receiverID protocolID);
  r ← try (
    match deadline with
    | Some d => wrapM "error setting write deadline" (stream_op (SetWriteDeadline s d))
    | None => mret tt
    end;;
    wrapM "writing data to p2p stream" (stream_op (Stream_Write s data)));
  c ← try (stream_op (Stream_Close s));
  match r, c with
  | r, Ok _ => lift r
  | Ok _, Fail closeErr => throw (ErrWrap "closing p2p stream" closeErr)
  | Fail err, Fail closeErr => throw (ErrJoin err (ErrWrap "closing p2p stream" closeErr))
  end.

(** The loop of [SendMsgs]: the messages still in the queue, the error to return, the stream
    to close. *)
Fixpoint send_queue {W} {SE : StreamEnv W} (n : LibP2PNetwork) (receiver : PeerID)
    (messages : list Message) (stream : option Stream) (resErr : option error)
    : M W (list Message * option error * option Stream) :=
  match messages with
  | [] => mret ([], resErr, stream)
  | msg :: messages =>
      (* the stream is created with the first message *)
      opened ← match stream with
        | Some s => mret (Ok s)
        | None =>
            match net_sendProtocols n !! TypeOf msg with
            | None => mret (Fail (ErrNew "no protocol registered for messages of type"))
            | Some p => try (wrapM "opening p2p stream" (CreateStream receiver (sp_protocolID p)))
            end
        end;
      match opened with
      | Fail e => mret (messages, Some e, None)
      | Ok s =>
          match serializeMsg Cbor_Marshal_Message msg with
          | Panic => panic
          | Throw e => send_queue n receiver messages (Some s) (Some (errors_Join resErr (ErrWrap "serializing message" e)))
          | Ret data =>
              w ← try (stream_op (Stream_Write s data));
              match w with
              | Fail e => mret (messages, Some (errors_Join resErr (ErrWrap "stream write error" e)), Some s)
              | Ok _ => send_queue n receiver messages (Some s) resErr
              end
          end
      end
  end.

(** The messages left in the queue and the error returned; the error of [Close] is dropped. *)
Definition SendMsgs {W} {SE : StreamEnv W} (n : LibP2PNetwork) (messages : list Message) (receiver : PeerID)
    : M W (list Message * option error) :=
  '(rest, resErr, stream) ← send_queue n receiver messages None None;
  match stream with
  | Some s => try (stream_op (Stream_Close s));; mret (rest, resErr)
  | None => mret (rest, resErr)
  end.

(** ** Receiving *)

(** A receive from [ReceivedChannel()]: the first message, if there is one. *)
Definition ReceivedChannel_take : NetM (option Received) :=
  n ← gets id;
  match net_receivedMsgs n with
  | [] => mret None
  | m :: ms =>
      modify (fun n => mkNetwork (net_self n) (net_mux n) (net_sendProtocols n) ms (net_capacity n) (net_spawned n));;
      mret (Some m)
  end.

Inductive stream_end := StreamClosed | StreamReset.

(** The loop of the handler; [None] when the fuel runs out. *)
Fixpoint read_messages (fuel : nat) (s : StructName) (r : reader) : NetM (option stream_end) :=
  match fuel with
  | O => mret None
  | S fuel =>
      match deserializeMsg (decode_into s) r with
      | Fail err => mret (Some (if errors_Is err io_EOF then StreamClosed else StreamReset))
      | Ok (msg, r) =>
          x ← try (receivedMsg msg);
          match x with
          | Fail _ => mret (Some StreamReset)
          | Ok _ => read_messages fuel s r
          end
      end
  end.

(** The handler on a stream: [deadline] is what setting the read deadline returns, [r] what
    can be read until the stream ends or the deadline passes. *)
Definition streamHandlerForProtocol (s : StructName) (deadline : result unit) (r : reader)
    : NetM (option stream_end) :=
  match deadline with
  | Fail _ => mret (Some StreamReset)
  | Ok _ => read_messages (S (length (r_bytes r))) s r
  end.

(** ** Registration *)

Definition RegisterProtocolHandler (protocolID : string) (h : stream_handler) : NetM unit :=
  modify (fun n => net_set_mux (<[protocolID := h]> (net_mux n)) n).

Definition registerReceiveProtocol (protoc : ReceiveProtocolDescription) : NetM unit :=
  let id := rpd_ProtocolID protoc in
  unless (negb (String.eqb id "")) (ErrNew "protocol ID must be assigned");;
  mux ← gets net_mux;
  unless (negb (bool_decide (is_Some (mux !! id)))) (ErrNew "protocol is already registered");;
  match rpd_Handler protoc with
  | Some h => RegisterProtocolHandler id (GivenHandler h)
  | None =>
      match rpd_TypeFn protoc with
      | None => throw (ErrNew "data struct constructor or handler must be assigned")
      | Some CtorNil => throw (ErrNew "data struct constructor returns nil")
      | Some (CtorValue (TPointer (TStruct s)) isNil) =>
          unless (negb isNil) (ErrNew "data struct constructor returns uninitialized pointer");;
          RegisterProtocolHandler id (MessageHandler id s)
      | Some (CtorValue _ _) => throw (ErrNew "data struct constructor must return pointer to struct")
      end
  end.

Fixpoint register_all {P} (register : P → NetM unit) (protocols : list P) : NetM unit :=
  match protocols with
  | [] => mret tt
  | p :: protocols =>
      wrapM "registering protocol" (register p);;
      register_all register protocols
  end.

Definition RegisterReceiveProtocols (protocols : list ReceiveProtocolDescription) : NetM unit :=
  match protocols with
  | [] => throw (ErrNew "at least one protocol description must be given")
  | _ => register_all registerReceiveProtocol protocols
  end.

Definition registerSendProtocol (protocol : SendProtocolDescription) : NetM unit :=
  unless (negb (String.eqb (spd_ProtocolID protocol) "")) (ErrNew "protocol ID must be assigned");;
  unless (negb (spd_Timeout protocol <? 0)) (ErrNew "negative duration is not allowed for timeout");;
  match spd_MsgType protocol with
  | None => throw (ErrNew "message data type must be assigned")
  | Some (TStruct s) =>
      let typ := TStruct s in
      protocols ← gets net_sendProtocols;
      unless (negb (bool_decide (is_Some (protocols !! typ))))
        (ErrNew "data type has been already registered for protocol");;
      let spx := mkSendProtocolData (spd_ProtocolID protocol) (spd_Timeout protocol) in
      modify (net_set_sendProtocols (<[TPointer typ := spx]> (<[typ := spx]> protocols)))
  | Some _ => throw (ErrNew "message data type must be struct")
  end.

Definition RegisterSendProtocols (protocols : list SendProtocolDescription) : NetM unit :=
  match protocols with
  | [] => throw (ErrNew "at least one protocol description must be given")
  | _ => register_all registerSendProtocol protocols
  end.

(** ** validator_network.go *)

Definition ProtocolBlockProposal : string := "/ab/block-proposal/0.0.1".
Definition ProtocolLedgerReplicationReq : string := "/ab/replication-req/0.0.1".
Definition ProtocolLedgerReplicationResp : string := "/ab/replication-resp/0.0.1".
Definition ProtocolHandshake : string := "/ab/handshake/0.0.1".
Definition ProtocolBlockCertification : string := "/ab/block-certification/0.0.1".
Definition ProtocolUnicityCertificates : string := "/ab/certificates/0.0.1".

Record ValidatorNetworkOptions := mkNetworkOptions {
  ReceivedChannelCapacity : Z;
  BlockCertificationTimeout : Z;
  BlockProposalTimeout : Z;
  LedgerReplicationRequestTimeout : Z;
  LedgerReplicationResponseTimeout : Z;
  HandshakeTimeout : Z;
}.

Definition DefaultValidatorNetworkOptions : ValidatorNetworkOptions :=
  let ms := 1000000 in
  mkNetworkOptions 1000 (300 * ms) (300 * ms) (300 * ms) (300 * ms) (300 * ms).

Definition sendProtocolDescriptions (opts : ValidatorNetworkOptions) : list SendProtocolDescription :=
  [ mkSendProtocol ProtocolLedgerReplicationReq (Some (TStruct SReplicationRequest)) (LedgerReplicationRequestTimeout opts);
    mkSendProtocol ProtocolLedgerReplicationResp (Some (TStruct SReplicationResponse)) (LedgerReplicationResponseTimeout opts);
    mkSendProtocol ProtocolBlockProposal (Some (TStruct SBlockProposal)) (BlockProposalTimeout opts);
    mkSendProtocol ProtocolBlockCertification (Some (TStruct SCertificationRequest)) (BlockCertificationTimeout opts);
    mkSendProtocol ProtocolHandshake (Some (TStruct SHandshake)) (HandshakeTimeout opts) ].

(** [func() any { return &T{} }] *)
Definition receive_struct (protocolID : string) (s : StructName) : ReceiveProtocolDescription :=
  mkReceiveProtocol protocolID (Some (CtorValue (TPointer (TStruct s)) false)) None.

Definition receiveProtocolDescriptions : list ReceiveProtocolDescription :=
  [ receive_struct ProtocolLedgerReplicationReq SReplicationRequest;
    receive_struct ProtocolLedgerReplicationResp SReplicationResponse ].

(** Nil instead of a network when there is an error. *)
Definition NewLibP2PValidatorNetwork (self : option (PeerID * gmap string stream_handler))
    (opts : ValidatorNetworkOptions) : outcome LibP2PNetwork :=
  match NewLibP2PNetwork self (ReceivedChannelCapacity opts) with
  | Fail e => Throw e
  | Ok base =>
      match (wrapM "registering send protocols" (RegisterSendProtocols (sendProtocolDescriptions opts));;
             wrapM "registering receive protocols" (RegisterReceiveProtocols receiveProtocolDescriptions)) base with
      | (Ret _, n) => Ret n
      | (Throw e, _) => Throw e
      | (Panic, _) => Panic
      end
  end.

Definition RegisterValidatorProtocols : NetM unit :=
  RegisterReceiveProtocols
    [ receive_struct ProtocolBlockProposal SBlockProposal;
      receive_struct ProtocolUnicityCertificates SCertificationResponse ].
End network.
Arguments stream_handler H : clear implicits.
Arguments LibP2PNetwork {BT} H.
Arguments NetM {BT} H A.
