(* ===== verification/Peer.v ===== *)
(** * The network peer (network/peer.go)

    The configuration of a peer, the host it is created with, and the connection to the
    bootstrap peers.  Keys, addresses and identifiers belong to libp2p; creating a host,
    dialling and the DHT are operations of the world. *)

From Stdlib Require Import ZArith Lia Strings.Byte String.
From stdpp Require Import base list strings option gmap.
From S2P Require Import Prelude GoBase BftTypes Summary TxInterface Messages Wire KVStore ShardConfStore Selector Node Network.

(** ** Keys and addresses *)

Class PeerLib {BT : BftTypes} := {
  PrivKey : Type;
  PubKey : Type;
  Multiaddr : Type;
  AddrInfo : Type;
  UnmarshalSecp256k1PrivateKey : slice → result PrivKey;
  UnmarshalSecp256k1PublicKey : slice → result PubKey;
  PrivKey_Raw : PrivKey → result slice;
  PubKey_Raw : PubKey → result slice;
  GetPublic : PrivKey → PubKey;
  IDFromPrivateKey : PrivKey → result PeerID;
  IDFromPublicKey : PubKey → result PeerID;
  NewMultiaddr : string → result Multiaddr;
  AddrInfoFromString : string → result AddrInfo;
  AddrInfo_ID : AddrInfo → PeerID;
  NewInMemorySecp256K1SignerFromKey : slice → result Signer;
}.

(** The identifier of a private key is that of its public key, and not empty; keys are read
    back from their raw bytes. *)
Class PeerLibLaws {BT : BftTypes} (PL : PeerLib) : Prop := {
  IDFromPrivateKey_public k : IDFromPrivateKey k = IDFromPublicKey (GetPublic k);
  IDFromPublicKey_nonempty p id : IDFromPublicKey p = Ok id → id ≠ ""%string;
  Unmarshal_PubKey_Raw p bs : PubKey_Raw p = Ok bs → UnmarshalSecp256k1PublicKey bs = Ok p;
  Unmarshal_PrivKey_Raw k bs : PrivKey_Raw k = Ok bs → UnmarshalSecp256k1PrivateKey bs = Ok k;
}.

Section peer.
Context {BT : BftTypes} {BL : BftLib} {PL : PeerLib}.

(** ** Configuration *)

Record PeerKeyPair := mkPeerKeyPair { kp_PublicKey : slice; kp_PrivateKey : slice }.
Record BootstrapConnectRetry := mkRetry { retry_Count : Z; retry_Delay : Z }.

Record PeerConfiguration := mkPeerConfiguration {
  pc_ID : PeerID;
  pc_Address : string;
  pc_AnnounceAddrs : list Multiaddr;
  pc_KeyPair : option PeerKeyPair;
  pc_BootstrapPeers : list AddrInfo;
  pc_BootstrapConnectRetry : option BootstrapConnectRetry;
}.

Definition defaultBootstrapConnectRetry : Z := 0.
Definition defaultBootstrapConnectRetryDelay : Z := 1.

Definition NodeIDFromPublicKeyBytes (pubKey : slice) : result PeerID :=
  pub ← UnmarshalSecp256k1PublicKey pubKey;
  IDFromPublicKey pub.

(** A loop that converts every element or returns the first error. *)
Fixpoint convert_all {A B} (msg : string) (f : A → result B) (l : list A) : result (list B) :=
  match l with
  | [] => mret []
  | a :: l => b ← wrap msg (f a); bs ← convert_all msg f l; mret (b :: bs)
  end.

Definition NewPeerConfiguration (addr : string) (announceAddrs : list string) (keyPair : option PeerKeyPair)
    (bootstrapPeers : list AddrInfo) (retry : option BootstrapConnectRetry) : result PeerConfiguration :=
  match keyPair with
  | None => Fail (ErrNew "missing key pair")
  | Some kp =>
      peerID ← wrap "invalid key pair" (NodeIDFromPublicKeyBytes (kp_PublicKey kp));
      announceMultiAddrs ← convert_all "failed to convert announce address to libp2p multiaddress format"
        NewMultiaddr announceAddrs;
      mret (mkPeerConfiguration peerID addr announceMultiAddrs keyPair bootstrapPeers
        (Some (default (mkRetry defaultBootstrapConnectRetry defaultBootstrapConnectRetryDelay) retry)))
  end.

(** The keys of the host [NewPeer] creates. *)
Definition readKeyPair (conf : PeerConfiguration) : result (PrivKey * PubKey) :=
  match pc_KeyPair conf with
  | None => Fail (ErrNew "missing peer key")
  | Some kp =>
      privateKey ← wrap "invalid private key" (UnmarshalSecp256k1PrivateKey (kp_PrivateKey kp));
      publicKey ← wrap "invalid public key" (UnmarshalSecp256k1PublicKey (kp_PublicKey kp));
      mret (privateKey, publicKey)
  end.

(** ** The peer *)

(** What creating a host, dialling and the DHT do; [H] is the type of the handlers the host
    registers itself. *)
Class PeerEnv (H W : Type) := {
  (** [pstoremem.NewPeerstore] *)
  NewPeerstore : W → result unit * W;
  (** [libp2p.New] with the listen address, the identity and the addresses to announce, up to
      the routing of the new host: the handlers the host has; and the rest of it *)
  libp2p_New : string → PrivKey → list Multiaddr → W → result (gmap string (stream_handler H)) * W;
  host_Start : W → result unit * W;
  (** [dht.New] with the protocol prefix and the bootstrap peers, in server mode *)
  dht_New : string → list AddrInfo → W → result unit * W;
  dht_Advertise : string → W → result Z * W;
  dht_FindPeers : string → W → result (list AddrInfo) * W;
  host_Addrs : W → list Multiaddr;
  dht_Bootstrap : W → result unit * W;
  dht_Close : W → result unit * W;
  host_Close : W → result unit * W;
  (** [Peerstore().AddAddrs] *)
  peerstore_AddAddrs : AddrInfo → W → W;
  host_Connect : AddrInfo → W → result unit * W;
  (** [select] between [time.After] and [ctx.Done()]: whether the context ended first *)
  wait_or_done : Z → W → bool * W;
}.

Context {H W : Type} {PE : PeerEnv H W}.

(** The host is its identifier and its handlers. *)
Record Peer := mkPeer {
  peer_ID : PeerID;
  peer_mux : gmap string (stream_handler H);
  peer_conf : PeerConfiguration;
}.

Definition ErrPeerConfigurationIsNil : error := ErrNew "peer configuration is nil".
Definition defaultAddress : string := "/ip4/0.0.0.0/tcp/0".

Definition env {A} (call : W → result A * W) : M W A := fun w =>
  match call w with
  | (Ok a, w') => (Ret a, w')
  | (Fail e, w') => (Throw e, w')
  end.

Definition dhtProtocolPrefix : string := "/ab/dht/0.1.0".

Definition newPeerStore : M W unit := env NewPeerstore.

(** The callbacks of the routing table are wrapped in ones that log and call them. *)
Definition newDHT (bootstrapPeers : list AddrInfo) : M W unit :=
  wrapM "creating DHT" (env (dht_New dhtProtocolPrefix bootstrapPeers)).

(** [libp2p.New] calls the constructor of the routing, which creates the DHT.  The identifier
    of a host is that of its identity. *)
Definition NewPeer (conf : option PeerConfiguration) : M W Peer :=
  match conf with
  | None => throw ErrPeerConfigurationIsNil
  | Some conf =>
      '(privateKey, _) ← lift (readKeyPair conf);
      let address := if String.eqb (pc_Address conf) "" then defaultAddress else pc_Address conf in
      newPeerStore;;
      mux ← env (libp2p_New address privateKey (pc_AnnounceAddrs conf));
      newDHT (pc_BootstrapPeers conf);;
      env host_Start;;
      id ← lift (IDFromPrivateKey privateKey);
      wrapM "bootstrapping DHT" (env dht_Bootstrap);;
      mret (mkPeer id mux conf)
  end.

Fixpoint bootstrapPeers (bootnodes : list AddrInfo) (self : PeerID) : list AddrInfo :=
  match bootnodes with
  | [] => []
  | bootnode :: bootnodes =>
      if String.eqb (AddrInfo_ID bootnode) self then bootstrapPeers bootnodes self
      else bootnode :: bootstrapPeers bootnodes self
  end.

Fixpoint isBootnode (peerID : PeerID) (bootNodes : list AddrInfo) : bool :=
  match bootNodes with
  | [] => false
  | peerAddr :: bootNodes => String.eqb peerID (AddrInfo_ID peerAddr) || isBootnode peerID bootNodes
  end.

(** How a goroutine of [BootstrapConnect] ends. *)
Inductive dial_end := Connected | DialFailed (e : error) | DialCancelled.

(** The retry loop; [countdown] retries are left. *)
Fixpoint dial (countdown : nat) (delay : Z) (peerAddr : AddrInfo) : M W dial_end :=
  r ← try (env (host_Connect peerAddr));
  match r with
  | Ok _ => mret Connected
  | Fail err =>
      match countdown with
      | O => mret (DialFailed err)
      | S countdown =>
          done ← (fun w => let '(b, w') := wait_or_done delay w in (Ret b, w'));
          if (done : bool) then mret DialCancelled else dial countdown delay peerAddr
      end
  end.

Definition maxInt : Z := 2 ^ 63 - 1.

(** The number of retries: all there are when the count is negative, none for a bootnode. *)
Definition retries (bootnode : bool) (retry : BootstrapConnectRetry) : Z :=
  if bootnode then 0 else if retry_Count retry <? 0 then maxInt else retry_Count retry.

Definition retry_delay (retry : BootstrapConnectRetry) : Z := i64 (retry_Delay retry * 1000000000).

Definition dial_peer (bootnode : bool) (retry : option BootstrapConnectRetry) (peerAddr : AddrInfo) : M W dial_end :=
  modify (peerstore_AddAddrs peerAddr);;
  retry ← deref retry;
  dial (Z.to_nat (retries bootnode retry)) (retry_delay retry) peerAddr.

(** The goroutines run at the same time; here they run one after the other on the world, which
    may answer each of them in any way. *)
Fixpoint dial_all (bootnode : bool) (retry : option BootstrapConnectRetry) (peers : list AddrInfo)
    : M W (list dial_end) :=
  match peers with
  | [] => mret []
  | p :: peers =>
      e ← dial_peer bootnode retry p;
      es ← dial_all bootnode retry peers;
      mret (e :: es)
  end.

(** The errors in the channel. *)
Fixpoint dial_errors (ends : list dial_end) : list error :=
  match ends with
  | [] => []
  | DialFailed e :: ends => e :: dial_errors ends
  | _ :: ends => dial_errors ends
  end.

Definition join_all (errs : list error) : option error :=
  foldl (fun all e => Some (errors_Join all e)) None errs.

Definition BootstrapConnect (p : Peer) : M W unit :=
  let bootPeers := bootstrapPeers (pc_BootstrapPeers (peer_conf p)) (peer_ID p) in
  match bootPeers with
  | [] => mret tt
  | _ =>
      let bootnode := isBootnode (peer_ID p) (pc_BootstrapPeers (peer_conf p)) in
      ends ← dial_all bootnode (pc_BootstrapConnectRetry (peer_conf p)) bootPeers;
      let errs := dial_errors ends in
      if Nat.eqb (length errs) (length bootPeers) then
        match join_all errs with
        | Some allErr =>
            if bootnode then mret tt else throw (ErrWrap "failed to bootstrap" allErr)
        | None => if bootnode then mret tt else throw (ErrNew "failed to bootstrap")
        end
      else env dht_Bootstrap
  end.

(** A short form of the identifier. *)
Definition Peer_String (p : Peer) : string :=
  let id := peer_String (peer_ID p) in
  if Z.of_nat (String.length id) <=? 10 then append "NodeID:" id
  else append "NodeID:" (append (substring 0 2 id) (append "*" (substring (String.length id - 6) 6 id))).

Definition Peer_RegisterProtocolHandler (protocolID : string) (h : stream_handler H) (p : Peer) : Peer :=
  mkPeer (peer_ID p) (<[protocolID := h]> (peer_mux p)) (peer_conf p).
Definition Peer_RemoveProtocolHandler (protocolID : string) (p : Peer) : Peer :=
  mkPeer (peer_ID p) (delete protocolID (peer_mux p)) (peer_conf p).

Definition Peer_MultiAddresses : M W (list Multiaddr) := gets host_Addrs.
Definition Peer_Configuration (p : Peer) : PeerConfiguration := peer_conf p.

Definition Peer_Advertise (topic : string) : M W unit := env (dht_Advertise topic);; mret tt.
Definition Peer_Discover (topic : string) : M W (list AddrInfo) := env (dht_FindPeers topic).

Definition Peer_Close : M W unit :=
  r1 ← try (env dht_Close);
  r2 ← try (env host_Close);
  let err := match r1 with Ok _ => None | Fail e => Some (ErrWrap "closing the DHT" e) end in
  match r2 with
  | Ok _ => match err with None => mret tt | Some e => throw e end
  | Fail e => throw (errors_Join err (ErrWrap "closing the host" e))
  end.
End peer.
