(* ===== verification/NodeOps.v ===== *)
(** * The partition node: elementary operations

    partition/validators.go, state_helpers.go, store_helpers.go, consensus_helpers.go, round.go
    (the timer) and the accessors of node.go. *)

From Stdlib Require Import ZArith Lia Strings.Byte String.
From stdpp Require Import base list strings option gmap.
From S2P Require Import Prelude GoBase BftTypes Summary TxInterface Messages KVStore ShardConfStore Selector Node.

(** ** Default validators (validators.go) *)

Section validators.
Context {BT : BftTypes} {BL : BftLib} {ML : MsgLib}.

Definition DefaultUnicityCertificateValidator_Validate (hashAlg : Z)
    (uc : option UnicityCertificate) (shardConf : option PartitionDescriptionRecord)
    (trustBase : TrustBase) : result unit :=
  match shardConf with
  | None => Fail (ErrNew "shard conf is nil")
  | Some conf =>
      shardConfHash ←
        (if bool_decide (is_Some uc) && (GetShardEpoch uc =? pdr_Epoch conf) then
           wrap "failed to calculate shard conf hash" (PDR_Hash conf hashAlg)
         else mret nil_slice);
      UC_Verify uc trustBase hashAlg (pdr_PartitionID conf) (pdr_ShardID conf) shardConfHash
  end.

Definition DefaultBlockProposalValidator_Validate (hashAlg : Z)
    (bp : option BlockProposal) (shardConf : option PartitionDescriptionRecord)
    (trustBase : TrustBase) : result unit :=
  BP_IsValid bp (Some trustBase) shardConf hashAlg.
End validators.

Section ops.
Context {BT : BftTypes} {BL : BftLib} {ML : MsgLib}.
Context {T W D DC : Type} {TS : TransactionSystem T W} {NE : NodeEnv W}.
Context {KVB : KeyValueDB D Block} {KVC : KeyValueDB DC PartitionDescriptionRecord}.

Definition NodeM (A : Type) : Type := M (Node T W D DC) A.

(** ** Calls of the node's parts *)

(** A method of the transaction system. *)
Definition tx {A} (m : M (T * W) A) : NodeM A := fun n =>
  let '(o, (t, w)) := m (nd_transactionSystem n, nd_world n) in (o, set_world w (set_tx t n)).

(** A query of the world. *)
Definition world {A} (call : W → A * W) : NodeM A := fun n =>
  let '(a, w) := call (nd_world n) in (Ret a, set_world w n).

(** A method of the shard configuration store. *)
Definition confStore {A} (m : M (ShardConfStore DC) A) : NodeM A := fun n =>
  let '(o, s) := m (nd_shardConfStore n) in (o, set_shardConfStore s n).

(** An update of the block store. *)
Definition blockDB (call : D → D * result unit) : NodeM unit := fun n =>
  let '(d, r) := call (nd_blockStore n) in lift r (set_blockStore d n).

Definition get_state {A} (f : ConsensusState → A) : NodeM A := gets (fun n => f (nd_state n)).
Definition set_cs (f : ConsensusState → ConsensusState) : NodeM unit :=
  modify (fun n => set_state (f (nd_state n)) n).

Definition of_outcome {A} (o : outcome A) : NodeM A := fun n => (o, n).

(** [n.network.Send(ctx, msg, receivers...)] *)
Definition Send (msg : Message) (receivers : list PeerID) : NodeM unit :=
  modify (add_sent msg receivers);;
  r ← world (net_Send msg receivers);
  lift r.

(** ** State helpers (state_helpers.go) *)

Definition latestUC : NodeM (option UnicityCertificate) := get_state luc.
Definition latestTR : NodeM (option TechnicalRecord) := get_state ltr.
Definition committedUC : NodeM (option UnicityCertificate) :=
  gets (fun n => CommittedUC (nd_transactionSystem n)).

Definition currentEpoch : NodeM Z :=
  tr ← latestTR;
  match tr with
  | Some tr => mret (tr_Epoch tr)
  | None =>
      uc ← latestUC;
      match uc with
      | Some u => ir ← deref (uc_InputRecord u); mret (ir_Epoch ir)
      | None => mret 0
      end
  end.

Definition currentRoundNumber : NodeM Z :=
  tr ← latestTR;
  match tr with
  | Some tr => mret (tr_Round tr)
  | None => uc ← latestUC; mret (u64_add (GetRoundNumber uc) 1)
  end.

(** ** Accessors (node.go) *)

Definition NetworkID : NodeM Z := gets (fun n => pdr_NetworkID (nd_shardConf n)).
Definition PartitionTypeID : NodeM Z := gets (fun n => pdr_PartitionTypeID (nd_shardConf n)).
Definition PartitionID : NodeM Z := gets (fun n => pdr_PartitionID (nd_shardConf n)).
Definition ShardID_of_node : NodeM ShardID := gets (fun n => pdr_ShardID (nd_shardConf n)).

(** An identifier that cannot be decoded leaves its place in the slice empty. *)
Definition validator_id (v : NodeInfo) : PeerID :=
  match peer_Decode (ni_NodeID v) with Ok id => id | Fail _ => ""%string end.

Definition Validators : NodeM (list PeerID) :=
  gets (fun n => validator_id <$> pdr_Validators (nd_shardConf n)).

Fixpoint decode_ids (validators : list NodeInfo) : result (list PeerID) :=
  match validators with
  | [] => mret []
  | v :: validators =>
      id ← wrap "failed to decode root validator ID" (peer_Decode (ni_NodeID v));
      ids ← decode_ids validators;
      mret (id :: ids)
  end.

Definition trustBase (epoch : Z) : NodeM TrustBase :=
  r ← world (trustBase_GetByEpoch epoch); lift r.

Definition RootValidators : NodeM (list PeerID) :=
  uc ← latestUC;
  tb ← wrapM "failed to load trust base for epoch" (trustBase (GetRootEpoch uc));
  lift (decode_ids (RootNodes tb)).

Definition FilterValidatorNodes (exclude : PeerID) : NodeM (list PeerID) :=
  vs ← Validators;
  mret (List.filter (fun v => negb (String.eqb v exclude)) vs).

(** [printUC]: only the dereference of the input record matters. *)
Definition printUC (uc : option UnicityCertificate) : NodeM unit :=
  match uc with
  | None => mret tt
  | Some u => deref (uc_InputRecord u);; mret tt
  end.

(** ** Block store helpers (store_helpers.go) *)

Definition proposalKey : Z := 0.

Definition storeBlock (roundNo : list byte) (b : Block) : NodeM unit := blockDB (db_Write roundNo b).
Definition deleteBlock (roundNo : list byte) : NodeM unit := blockDB (db_Delete roundNo).

Definition storePendingProposal (pr : Block) : NodeM unit :=
  wrapM "persist error" (blockDB (db_Write (Uint32ToBytes proposalKey) pr)).

(** The error is logged and dropped. *)
Definition deletePendingProposal : NodeM unit :=
  try (blockDB (db_Delete (Uint32ToBytes proposalKey)));; mret tt.

Definition resetProposal : NodeM unit := set_cs (cs_set_pending None).

(** [Some b] when found. *)
Definition loadPendingProposal : NodeM (option Block) :=
  d ← gets nd_blockStore;
  lift (db_Read (Uint32ToBytes proposalKey) d).

(** ** Consensus helpers (consensus_helpers.go) *)

Definition handshake_msg (n : Node T W D DC) : Message :=
  MsgHandshake (mkHandshake (pdr_PartitionID (nd_shardConf n)) (pdr_ShardID (nd_shardConf n))
    (peer_String (nd_peerID n))).

Definition worldM {A} (m : M W A) : NodeM A := fun n =>
  let '(o, w) := m (nd_world n) in (o, set_world w n).

(** Every error is logged and dropped. *)
Definition sendHandshake : NodeM unit :=
  try (
    rootValidators ← RootValidators;
    rootIDs ← worldM (randomNodeSelector rootValidators defaultHandshakeNodes);
    msg ← gets handshake_msg;
    Send msg rootIDs);;
  mret tt.

Definition revertState : NodeM unit :=
  modify (fun n => set_tx (Revert (nd_transactionSystem n)) n).

Definition finalizeBlock (b : Block) (uc : UnicityCertificate) : NodeM unit :=
  let blockNumber := GetRoundNumber (Some uc) in
  let roundNoInBytes := Uint64ToBytes blockNumber in
  st ← get_state cs_status;
  let isInitializing := bool_decide (st = initializing) in
  (* persist the block before committing to the transaction system *)
  (if negb isInitializing then wrapM "db write failed" (storeBlock roundNoInBytes b)
   else mret tt);;
  r ← try (tx (Commit uc));
  match r with
  | Ok _ => mret tt
  | Fail err =>
      let err := ErrWrap "unable to finalize block" err in
      if negb isInitializing then
        r2 ← try (deleteBlock roundNoInBytes);
        match r2 with
        | Ok _ => throw err
        | Fail err2 => throw (ErrJoin err (ErrWrap "unable to delete block from store" err2))
        end
      else throw err
  end.

(** ** Rounds and the T1 timer (round.go) *)

Definition startNewRound : NodeM unit :=
  resetProposal;;
  deletePendingProposal.

Definition upd_timer (f : roundTimer → roundTimer) : NodeM unit :=
  modify (fun n => set_timer (f (nd_timer n)) n).

(** Cancel the context of goroutine [g]. *)
Definition cancel_goroutine (g : nat) (l : list timer_goroutine) : list timer_goroutine :=
  alter (fun t => mkTimerGoroutine (tg_phase t) true) g l.

Definition timer_stop (t : roundTimer) : roundTimer :=
  match timer_cancel t with
  | Some g =>
      mkRoundTimer false None (timer_event t) (cancel_goroutine g (timer_goroutines t))
  | None => mkRoundTimer false None (timer_event t) (timer_goroutines t)
  end.

(** Start a goroutine with a fresh context. *)
Definition timer_start (t : roundTimer) : roundTimer :=
  let t := timer_stop t in
  mkRoundTimer true (Some (length (timer_goroutines t))) (timer_event t)
    (timer_goroutines t ++ [mkTimerGoroutine TWaiting false]).

(** What the goroutine does: its timeout passes; it sends the event, once there is room in the
    channel; or it sees that its context is cancelled.  When a timeout or send and the
    cancellation are both possible, [select] may take either. *)
Inductive timer_action := TimeoutPasses | SendsEvent | SeesCancel.

Definition timer_act (g : nat) (a : timer_action) (t : roundTimer) : option roundTimer :=
  tg ← timer_goroutines t !! g;
  let set_phase p := <[g := mkTimerGoroutine p (tg_cancelled tg)]> (timer_goroutines t) in
  match a, tg_phase tg with
  | TimeoutPasses, TWaiting => Some (mkRoundTimer false (timer_cancel t) (timer_event t) (set_phase TSending))
  | SendsEvent, TSending =>
      if timer_event t then None
      else Some (mkRoundTimer (timer_isRunning t) (timer_cancel t) true (set_phase TDone))
  | SeesCancel, TWaiting | SeesCancel, TSending =>
      if tg_cancelled tg
      then Some (mkRoundTimer (timer_isRunning t) (timer_cancel t) (timer_event t) (set_phase TDone))
      else None
  | _, _ => None
  end.

Definition stopT1Timer : NodeM unit := upd_timer timer_stop.
Definition startT1Timer : NodeM unit := upd_timer timer_start.

Definition ensureT1TimerState : NodeM unit :=
  n ← gets id;
  let isLeader := String.eqb (leader (nd_state n)) (nd_peerID n) in
  let shouldBeRunning := isLeader && negb (bool_decide (cs_status (nd_state n) = recovering)) in
  let isRunning := timer_isRunning (nd_timer n) in
  if shouldBeRunning && negb isRunning then startT1Timer
  else if negb shouldBeRunning && isRunning then stopT1Timer
  else mret tt.
End ops.
