(* ===== verification/Configuration.v ===== *)
(** * Configuration of a node (partition/configuration.go)

    [NewNodeConf] with its options, the keys, and the configuration of the peer. *)

From Stdlib Require Import ZArith Lia Strings.Byte String.
From stdpp Require Import base list strings option gmap.
From S2P Require Import Prelude GoBase BftTypes Summary TxInterface Messages KVStore ShardConfStore Selector Node Network Peer NodeOps.

Section configuration.
Context {BT : BftTypes} {BL : BftLib} {ML : MsgLib} {PL : PeerLib}.

Record Key := mkKey { Algorithm : string; PrivateKey : slice }.
Record KeyConf := mkKeyConf { SigKey : Key; AuthKey : Key }.

Definition KeyAlgorithmSecp256k1 : string := "secp256k1".

(** *** Methods of [KeyConf] *)

Definition KeyConf_NodeID (c : KeyConf) : result PeerID :=
  authPrivKey ← wrap "invalid authentication key" (UnmarshalSecp256k1PrivateKey (PrivateKey (AuthKey c)));
  IDFromPrivateKey authPrivKey.

Definition KeyConf_Signer (c : KeyConf) : result Signer :=
  wrap "invalid signing key" (NewInMemorySecp256K1SignerFromKey (PrivateKey (SigKey c))).

Definition KeyConf_AuthKeyPair (c : KeyConf) : result PeerKeyPair :=
  if negb (String.eqb (Algorithm (AuthKey c)) KeyAlgorithmSecp256k1) then
    Fail (ErrNew "unsupported authentication key algorithm")
  else
    authPrivKey ← wrap "failed to unmarshal authentication key"
      (UnmarshalSecp256k1PrivateKey (PrivateKey (AuthKey c)));
    authPrivKeyBytes ← PrivKey_Raw authPrivKey;
    authPubKeyBytes ← PubKey_Raw (GetPublic authPrivKey);
    mret (mkPeerKeyPair authPubKeyBytes authPrivKeyBytes).

(** ** NodeConf *)

(** [D], [DC] and [N] are the types of the block database, of the database of the shard
    configurations and of the networks that may be given; [new_memorydb] is an empty in-memory
    database.  The trust base store is part of the world of the node; here it only may be nil. *)
Context {D DC N TBS : Type} {KVC : KeyValueDB DC PartitionDescriptionRecord}.

Record proofIndexConfig := mkProofIndexConfig { pi_db : D; pi_historyLen : Z }.

(** The struct; [nc_conf] holds the fields the running node uses. *)
Record FullNodeConf := mkFullNodeConf {
  nc_keyConf : KeyConf;
  nc_shardConfStore : ShardConfStore DC;
  nc_trustBaseStore : TBS;
  nc_address : string;
  nc_announceAddresses : list string;
  nc_bootstrapAddresses : list string;
  nc_bootstrapConnectRetry : option BootstrapConnectRetry;
  nc_validatorNetwork : option N;
  nc_blockDB : D;
  nc_proofIndexConfig : proofIndexConfig;
  nc_conf : NodeConf;
  nc_shardConf : PartitionDescriptionRecord;
}.

Definition nc_set_conf (f : NodeConf → NodeConf) (c : FullNodeConf) : FullNodeConf :=
  mkFullNodeConf (nc_keyConf c) (nc_shardConfStore c) (nc_trustBaseStore c) (nc_address c)
    (nc_announceAddresses c) (nc_bootstrapAddresses c) (nc_bootstrapConnectRetry c)
    (nc_validatorNetwork c) (nc_blockDB c) (nc_proofIndexConfig c) (f (nc_conf c)) (nc_shardConf c).

Definition NodeOption : Type := FullNodeConf → FullNodeConf.

Definition WithAddress (address : string) : NodeOption := fun c =>
  mkFullNodeConf (nc_keyConf c) (nc_shardConfStore c) (nc_trustBaseStore c) address
    (nc_announceAddresses c) (nc_bootstrapAddresses c) (nc_bootstrapConnectRetry c)
    (nc_validatorNetwork c) (nc_blockDB c) (nc_proofIndexConfig c) (nc_conf c) (nc_shardConf c).
Definition WithAnnounceAddresses (announceAddresses : list string) : NodeOption := fun c =>
  mkFullNodeConf (nc_keyConf c) (nc_shardConfStore c) (nc_trustBaseStore c) (nc_address c)
    announceAddresses (nc_bootstrapAddresses c) (nc_bootstrapConnectRetry c)
    (nc_validatorNetwork c) (nc_blockDB c) (nc_proofIndexConfig c) (nc_conf c) (nc_shardConf c).
Definition WithBootstrapAddresses (bootstrapAddresses : list string) : NodeOption := fun c =>
  mkFullNodeConf (nc_keyConf c) (nc_shardConfStore c) (nc_trustBaseStore c) (nc_address c)
    (nc_announceAddresses c) bootstrapAddresses (nc_bootstrapConnectRetry c)
    (nc_validatorNetwork c) (nc_blockDB c) (nc_proofIndexConfig c) (nc_conf c) (nc_shardConf c).
Definition WithBootstrapConnectRetry (retry : option BootstrapConnectRetry) : NodeOption := fun c =>
  mkFullNodeConf (nc_keyConf c) (nc_shardConfStore c) (nc_trustBaseStore c) (nc_address c)
    (nc_announceAddresses c) (nc_bootstrapAddresses c) retry
    (nc_validatorNetwork c) (nc_blockDB c) (nc_proofIndexConfig c) (nc_conf c) (nc_shardConf c).
Definition WithValidatorNetwork (validatorNetwork : option N) : NodeOption := fun c =>
  mkFullNodeConf (nc_keyConf c) (nc_shardConfStore c) (nc_trustBaseStore c) (nc_address c)
    (nc_announceAddresses c) (nc_bootstrapAddresses c) (nc_bootstrapConnectRetry c)
    validatorNetwork (nc_blockDB c) (nc_proofIndexConfig c) (nc_conf c) (nc_shardConf c).
Definition WithBlockDB (blockDB : D) : NodeOption := fun c =>
  mkFullNodeConf (nc_keyConf c) (nc_shardConfStore c) (nc_trustBaseStore c) (nc_address c)
    (nc_announceAddresses c) (nc_bootstrapAddresses c) (nc_bootstrapConnectRetry c)
    (nc_validatorNetwork c) blockDB (nc_proofIndexConfig c) (nc_conf c) (nc_shardConf c).

Definition WithReplicationParams (maxFetchBlocks maxReturnBlocks maxWorkers timeout : Z) : NodeOption :=
  nc_set_conf (fun c => mkNodeConf (conf_signer c) (conf_hashAlgorithm c) (conf_ucValidator c)
    (conf_bpValidator c) (conf_t1Timeout c)
    (mkReplicationConfig maxFetchBlocks maxReturnBlocks maxWorkers timeout)).
Definition WithUnicityCertificateValidator
    (v : option UnicityCertificate → option PartitionDescriptionRecord → TrustBase → result unit) : NodeOption :=
  nc_set_conf (fun c => mkNodeConf (conf_signer c) (conf_hashAlgorithm c) v
    (conf_bpValidator c) (conf_t1Timeout c) (conf_replicationConfig c)).
Definition WithBlockProposalValidator
    (v : option BlockProposal → option PartitionDescriptionRecord → TrustBase → result unit) : NodeOption :=
  nc_set_conf (fun c => mkNodeConf (conf_signer c) (conf_hashAlgorithm c) (conf_ucValidator c)
    v (conf_t1Timeout c) (conf_replicationConfig c)).
Definition WithT1Timeout (t1Timeout : Z) : NodeOption :=
  nc_set_conf (fun c => mkNodeConf (conf_signer c) (conf_hashAlgorithm c) (conf_ucValidator c)
    (conf_bpValidator c) t1Timeout (conf_replicationConfig c)).

Definition millisecond : Z := 1000000.
Definition DefaultT1Timeout : Z := 8640000.
Definition DefaultReplicationMaxBlocks : Z := 1000.
Definition DefaultReplicationMaxWorkers : Z := 10.
Definition DefaultLedgerReplicationTimeout : Z := 1500 * millisecond.

Definition ErrKeyConfIsNil : error := ErrNew "key configuration is nil".
Definition ErrShardConfStoreIsNil : error := ErrNew "shard conf store is nil".
Definition ErrTrustBaseStoreIsNil : error := ErrNew "trust base store is nil".

Definition default_conf (signer : Signer) : NodeConf :=
  let hashAlg := SHA256 in
  mkNodeConf (Some signer) hashAlg
    (DefaultUnicityCertificateValidator_Validate hashAlg) (DefaultBlockProposalValidator_Validate hashAlg)
    (DefaultT1Timeout * millisecond)
    (mkReplicationConfig DefaultReplicationMaxBlocks DefaultReplicationMaxBlocks
      DefaultReplicationMaxWorkers DefaultLedgerReplicationTimeout).

(** The store given is used, and its cache filled, while the configuration is built. *)
Definition NewNodeConf (new_memorydb : D) (keyConf : option KeyConf) (shardConfStore : option (ShardConfStore DC))
    (trustBaseStore : option TBS) (nodeOptions : list NodeOption) : outcome FullNodeConf :=
  match keyConf, shardConfStore, trustBaseStore with
  | None, _, _ => Throw ErrKeyConfIsNil
  | _, None, _ => Throw ErrShardConfStoreIsNil
  | _, _, None => Throw ErrTrustBaseStoreIsNil
  | Some keys, Some scs, Some tbs =>
      match GetFirst scs with
      | (Throw e, _) => Throw e
      | (Panic, _) => Panic
      | (Ret shardConf, scs) =>
          match KeyConf_Signer keys with
          | Fail e => Throw e
          | Ok signer =>
              let c := mkFullNodeConf keys scs tbs "" [] [] None None new_memorydb
                (mkProofIndexConfig new_memorydb 20) (default_conf signer) shardConf in
              let c := foldl (fun c option => option c) c nodeOptions in
              if maxWorkers (conf_replicationConfig (nc_conf c)) <? 1 then
                Throw (ErrNew "replication max workers must be at least 1")
              else Ret c
          end
      end
  end.

Definition NodeConf_ShardConf (c : FullNodeConf) : PartitionDescriptionRecord := nc_shardConf c.
Definition NodeConf_TrustBaseStore (c : FullNodeConf) : TBS := nc_trustBaseStore c.
Definition NodeConf_HashAlgorithm (c : FullNodeConf) : Z := conf_hashAlgorithm (nc_conf c).
Definition NodeConf_BlockDB (c : FullNodeConf) : D := nc_blockDB c.

Definition PeerConf (c : FullNodeConf) : result PeerConfiguration :=
  authKeyPair ← wrap "invalid authentication key" (KeyConf_AuthKeyPair (nc_keyConf c));
  bootNodes ← convert_all "invalid bootstrap address" AddrInfoFromString (nc_bootstrapAddresses c);
  NewPeerConfiguration (nc_address c) (nc_announceAddresses c) (Some authKeyPair) bootNodes
    (nc_bootstrapConnectRetry c).
End configuration.
Arguments proofIndexConfig D : clear implicits.
Arguments FullNodeConf {BT} D DC N TBS.
Arguments NodeOption {BT} D DC N TBS.
