(* ===== verification/Handlers.v ===== *)
(** * The partition node: handlers

    proposal_producer.go, round.go ([handleT1TimeoutEvent]), recovery.go, certificate_handler.go,
    block_processor.go, proposal_handler.go, and the dispatcher and loop of node.go. *)

From Stdlib Require Import ZArith Lia Strings.Byte String.
From stdpp Require Import base list strings option gmap.
From S2P Require Import Prelude GoBase BftTypes Summary TxInterface Messages KVStore ShardConfStore Selector Node NodeOps.

Definition ErrNodeDoesNotHaveLatestBlock : error :=
  ErrNew "recovery needed, node does not have the latest block".

Definition second : Z := 1000000000.

Section handlers.
Context {BT : BftTypes} {BL : BftLib} {ML : MsgLib}.
Context {T W D DC : Type} {TS : TransactionSystem T W} {NE : NodeEnv W}.
Context {KVB : KeyValueDB D Block} {KVC : KeyValueDB DC PartitionDescriptionRecord}.
#[local] Abbreviation NodeM := (NodeM (T:=T) (W:=W) (D:=D) (DC:=DC)).

(** ** proposal_producer.go *)

Definition sendBlockProposal (proposedRoot : slice) : NodeM unit :=
  tr ← latestTR;
  match tr with
  | None => throw (ErrNew "missing LTR")
  | Some tr =>
      n ← gets id;
      let nodeID := nd_peerID n in
      let prop := mkBlockProposal (pdr_PartitionID (nd_shardConf n)) (pdr_ShardID (nd_shardConf n))
        nodeID (luc (nd_state n)) tr proposedRoot nil_slice in
      prop ← wrapM "block proposal sign failed"
        (lift (BP_Sign (conf_hashAlgorithm (nd_conf n)) (conf_signer (nd_conf n)) prop));
      receivers ← FilterValidatorNodes nodeID;
      Send (MsgBlockProposal prop) receivers
  end.

(** The certificate the pending block carries until it is certified. *)
Definition pending_uc (round epoch timestamp : Z) (prevHash : slice) (st : Summary) : UnicityCertificate :=
  mkUC 1
    (Some (mkIR 1 round epoch prevHash (Root st) (SummaryValue st) timestamp nil_slice
      (SumOfEarnedFees st) (ETHash st)))
    nil_slice nil_slice ShardTreeCertificate_zero None None.

Definition sendCertificationRequest (blockAuthor : string) (st : Summary) : NodeM unit :=
  luc ← latestUC;
  round ← currentRoundNumber;
  epoch ← currentEpoch;
  u ← deref luc;
  seal ← deref (uc_UnicitySeal u);
  let uc := pending_uc round epoch (seal_Timestamp seal) (GetStateHash luc) st in
  ucBytes ← wrapM "failed to marshal unicity certificate" (lift (Cbor_Marshal_UC uc));
  n ← gets id;
  committed ← committedUC;
  let pid := pdr_PartitionID (nd_shardConf n) in
  let sid := pdr_ShardID (nd_shardConf n) in
  let pendingProposal := mkBlock
    (Some (mkHeader 1 pid sid blockAuthor (GetBlockHash committed))) (Some []) ucBytes in
  let '(pendingProposal, r) := Block_CalculateBlockHash pendingProposal (conf_hashAlgorithm (nd_conf n)) in
  ir ← wrapM "calculating block hash" (lift r);
  stored ← try (storePendingProposal pendingProposal);
  match stored with
  | Fail e => revertState;; throw (ErrWrap "failed to store pending block proposal" e)
  | Ok _ =>
      set_cs (cs_set_pending (Some pendingProposal));;
      blockSize ← wrapM "calculating block size" (lift (Block_Size pendingProposal));
      let req := mkBCR pid sid (peer_String (nd_peerID n)) (Some ir) blockSize 0 nil_slice in
      req ← wrapM "failed to sign certification request" (lift (BCR_Sign (conf_signer (nd_conf n)) req));
      rootValidators ← wrapM "failed to get current root validators" RootValidators;
      rootIDs ← wrapM "selecting root nodes"
        (of_outcome (rootNodesSelector luc rootValidators defaultNofRootNodes));
      Send (MsgCertificationRequest req) rootIDs
  end.

(** ** handleT1TimeoutEvent (round.go): errors are logged and the state reverted. *)

Definition handleT1TimeoutEvent : NodeM unit :=
  n ← gets id;
  if bool_decide (cs_status (nd_state n) = recovering) then mret tt
  else if negb (String.eqb (leader (nd_state n)) (nd_peerID n)) then mret tt
  else
    round ← currentRoundNumber;
    r ← try (tx (LeaderPropose round));
    match r with
    | Fail _ => revertState
    | Ok stateSummary =>
        r ← try (sendBlockProposal (Root stateSummary));
        match r with
        | Fail _ => revertState
        | Ok _ =>
            r ← try (sendCertificationRequest (peer_String (nd_peerID n)) stateSummary);
            match r with
            | Fail _ => revertState
            | Ok _ => mret tt
            end
        end
    end.

(** ** Recovery (recovery.go) *)

(** The loop over the shuffled peers: stop at the first one the request could be sent to. *)
Fixpoint try_peers (msg : Message) (self : PeerID) (peers : list PeerID) : NodeM unit :=
  match peers with
  | [] => mret tt
  | p :: peers =>
      if String.eqb self p then try_peers msg self peers
      else
        r ← try (Send msg [p]);
        match r with
        | Fail _ => try_peers msg self peers
        | Ok _ => now ← world time_Now; modify (set_lastLedgerReqTime now)
        end
  end.

Definition sendLedgerReplicationRequest : NodeM unit :=
  committed ← committedUC;
  let startingBlockNr := u64_add (GetRoundNumber committed) 1 in
  uuid ← world uuid_New;
  n ← gets id;
  let req := mkReplReq uuid (pdr_PartitionID (nd_shardConf n)) (pdr_ShardID (nd_shardConf n))
    (peer_String (nd_peerID n)) startingBlockNr
    (u64_add startingBlockNr (maxFetchBlocks (conf_replicationConfig (nd_conf n)))) in
  peers ← Validators;
  match peers with
  | [] => mret tt
  | _ =>
      shuffled ← world (util_ShuffleSliceCopy peers);
      try_peers (MsgReplicationRequest req) (nd_peerID n) shuffled
  end.

Definition startRecovery : NodeM unit :=
  st ← get_state cs_status;
  if bool_decide (st = recovering) then mret tt
  else
    set_cs (cs_set_status recovering);;
    revertState;;
    resetProposal;;
    sendLedgerReplicationRequest.

Definition stopRecovery : NodeM unit := set_cs (cs_set_status normal).

Definition isRecoveryComplete : NodeM bool :=
  c ← committedUC;
  l ← latestUC;
  mret (GetRoundNumber c =? GetRoundNumber l).

Definition sendLedgerReplicationResponse (msg : LedgerReplicationResponse) (toId : string) : NodeM unit :=
  recoveringNodeID ← wrapM "decoding peer id" (lift (peer_Decode toId));
  wrapM "sending replication response" (Send (MsgReplicationResponse msg) [recoveringNodeID]).

(** A response without blocks. *)
Definition error_response (lr : LedgerReplicationRequest) (s : Status) (text : string) : LedgerReplicationResponse :=
  mkReplResp (req_UUID lr) s text None 0 0.

Definition handleLedgerReplicationRequest (lr : option LedgerReplicationRequest) : NodeM unit :=
  (* the log line reads the request before it is checked *)
  lr ← deref lr;
  wrapM "invalid request" (lift (Req_IsValid (Some lr)));;
  n ← gets id;
  let conf := nd_shardConf n in
  if negb (req_PartitionID lr =? pdr_PartitionID conf) || negb (ShardID_Equal (req_ShardID lr) (pdr_ShardID conf)) then
    sendLedgerReplicationResponse (error_response lr WrongShard "Wrong partition/shard") (req_NodeID lr)
  else
    let startBlock := req_BeginBlockNumber lr in
    if startBlock <=? GetRoundNumber (fuc (nd_state n)) then
      sendLedgerReplicationResponse
        (error_response lr BlocksNotFound "Node does not have block, first block") (req_NodeID lr)
    else
      latest ← committedUC;
      if GetRoundNumber latest <? startBlock then
        sendLedgerReplicationResponse
          (error_response lr BlocksNotFound "Node does not have block, latest block") (req_NodeID lr)
      else if Z.of_nat (length (nd_replicationCh n)) <? maxWorkers (conf_replicationConfig (nd_conf n)) then
        modify (set_replicationCh (nd_replicationCh n ++ [lr]))
      else
        sendLedgerReplicationResponse
          (error_response lr Busy "Too many concurrent replication requests") (req_NodeID lr).

(** What the loop of [processReplicationRequest] has gathered. *)
Record fetched := mkFetched {
  f_blocks : list (option Block);
  f_first : Z;
  f_last : Z;
  f_cnt : Z;
}.

(** The loop over the database iterator; [None] when the context was cancelled. *)
Fixpoint fetch_blocks (maxReturn endBlock : Z) (dbIt : list (list byte * result Block)) (f : fetched)
    : NodeM (option fetched) :=
  match dbIt with
  | [] => mret (Some f)
  | (key, value) :: dbIt =>
      cancelled ← world ctx_Done;
      if (cancelled : bool) then mret None
      else
        let roundNo := BytesToUint64 key in
        match value with
        | Fail _ => mret (Some f)
        | Ok bl =>
            let f := mkFetched (f_blocks f ++ [Some bl])
              (if f_first f =? 0 then roundNo else f_first f) roundNo (u64_add (f_cnt f) 1) in
            if (maxReturn <=? f_cnt f) || ((endBlock <=? roundNo) && (0 <? endBlock)) then mret (Some f)
            else fetch_blocks maxReturn endBlock dbIt f
        end
  end.

Definition processReplicationRequest (lr : LedgerReplicationRequest) : NodeM unit :=
  dbIt ← gets (fun n => db_Find (Uint64ToBytes (req_BeginBlockNumber lr)) (nd_blockStore n));
  maxReturn ← gets (fun n => maxReturnBlocks (conf_replicationConfig (nd_conf n)));
  f ← fetch_blocks maxReturn (req_EndBlockNumber lr) dbIt (mkFetched [] 0 0 0);
  match f with
  | None => mret tt
  | Some f =>
      try (sendLedgerReplicationResponse
        (mkReplResp (req_UUID lr) StatusOk "" (Some (f_blocks f)) (f_first f) (f_last f)) (req_NodeID lr));;
      mret tt
  end.

(** One iteration of [replicationLoop]: a worker takes a request from the channel. *)
Definition replicationLoop_iteration : NodeM unit :=
  q ← gets nd_replicationCh;
  match q with
  | [] => mret tt
  | lr :: q => modify (set_replicationCh q);; processReplicationRequest lr
  end.

(** ** certificate_handler.go *)

Definition updateLUC (uc : option UnicityCertificate) (tr : option TechnicalRecord) : NodeM unit :=
  match uc with
  | None => throw (ErrNew "unicity certificate is nil")
  | Some u =>
  tb ← wrapM "failed to load trust base for UC validation" (trustBase (GetRootEpoch uc));
  n ← gets id;
  wrapM "certificate invalid" (lift (conf_ucValidator (nd_conf n) uc (Some (nd_shardConf n)) tb));;
  l ← latestUC;
  st ← get_state cs_status;
  if bool_decide (st = recovering) && (GetRootRoundNumber uc <? GetRootRoundNumber l) then mret tt
  else
    (if bool_decide (st = initializing) then mret tt else printUC l;; printUC uc);;
    match l with
    | None => mret tt
    | Some l =>
        match CheckNonEquivocatingCertificates l u with
        | Ok _ => mret tt
        | Fail e => deref (uc_InputRecord u);; throw (ErrWrap "equivocating certificate" e)
        end
    end;;
    ltr ← latestTR;
    if IsDuplicate u l && bool_decide (is_Some ltr) then mret tt
    else
      prevEpoch ← currentEpoch;
      match tr with
      | Some t =>
          leaderPeerID ← wrapM "decoding leader peerID" (lift (peer_Decode (tr_Leader t)));
          set_cs (fun s => cs_set_luc (luc s) (Some t) leaderPeerID s)
      | None => set_cs (fun s => cs_set_luc (luc s) None ""%string s)
      end;;
      set_cs (fun s => cs_set_luc uc (Node.ltr s) (leader s) s);;
      newEpoch ← currentEpoch;
      confEpoch ← gets (fun n => pdr_Epoch (nd_shardConf n));
      if negb (prevEpoch =? newEpoch) || negb (confEpoch =? newEpoch)
      then modify (set_epochChangeEvent true)
      else mret tt
  end.

Definition blk_set_UC (bs : slice) (b : Block) : Block :=
  mkBlock (blk_Header b) (blk_Transactions b) bs.

(** The part of [handleUnicityCertificate] for a new certificate that continues the committed
    one, when no proposal is pending. *)
Definition certify_without_proposal (u : UnicityCertificate) : NodeM unit :=
  if IsInitial u then startNewRound
  else
    t ← gets nd_transactionSystem;
    match StateSummary t with
    | Fail e => startRecovery;; throw (ErrWrap "recovery needed, failed to get transaction system state" e)
    | Ok state =>
        if negb (bytes_Equal (GetStateHash (Some u)) (Root state)) then
          startRecovery;; throw ErrNodeDoesNotHaveLatestBlock
        else if negb (bytes_Equal (GetETHash (Some u)) (ETHash state)) then
          startRecovery;; throw ErrNodeDoesNotHaveLatestBlock
        else startNewRound
    end.

(** The same, when the proposal [b] is pending. *)
Definition certify_proposal (b : Block) (u : UnicityCertificate) : NodeM unit :=
  match Block_InputRecord b with
  | Fail _ => startRecovery;; throw ErrNodeDoesNotHaveLatestBlock
  | Ok proposedIR =>
      match AssertEqualIR proposedIR (uc_InputRecord u) with
      | Fail _ => startRecovery;; throw ErrNodeDoesNotHaveLatestBlock
      | Ok _ =>
          match Cbor_Marshal_UC u with
          | Fail e =>
              set_cs (cs_set_pending (Some (blk_set_UC nil_slice b)));;
              throw (ErrWrap "failed to marshal unicity certificate" e)
          | Ok ucBytes =>
              set_cs (cs_set_pending (Some (blk_set_UC ucBytes b)));;
              r ← try (finalizeBlock (blk_set_UC ucBytes b) u);
              match r with
              | Fail e => startRecovery;; throw (ErrWrap "block finalize failed" e)
              | Ok _ => startNewRound
              end
          end
      end
  end.

(** What a node that is not recovering does with a valid certificate, given the one it had
    before. *)
Definition act_on_uc (wasInitializing : bool) (prevLUC : option UnicityCertificate)
    (u : UnicityCertificate) : NodeM unit :=
  if IsDuplicate u prevLUC then
    if wasInitializing then startNewRound else mret tt
  else
    rep ← wrapM "failed to check for repeat UC" (lift (IsRepeat u prevLUC));
    if (rep : bool) then revertState;; startNewRound
    else
      committed ← committedUC;
      if negb (IsSuccessor u committed) then
        startRecovery;; throw ErrNodeDoesNotHaveLatestBlock
      else
        pending ← get_state pendingBlockProposal;
        match pending with
        | None => certify_without_proposal u
        | Some b => certify_proposal b u
        end.

Definition handleUnicityCertificate (uc : option UnicityCertificate) (tr : option TechnicalRecord) : NodeM unit :=
  prevLUC ← latestUC;
  wrapM "failed to update LUC" (updateLUC uc tr);;
  st ← get_state cs_status;
  if bool_decide (st = recovering) then mret tt
  else
    let wasInitializing := bool_decide (st = initializing) in
    (if wasInitializing then set_cs (cs_set_status normal) else mret tt);;
    u ← deref uc;
    act_on_uc wasInitializing prevLUC u.

Definition handleCertificationResponse (cr : option CertificationResponse) : NodeM unit :=
  wrapM "invalid CertificationResponse" (lift (CR_IsValid cr));;
  cr ← deref cr;
  pid ← PartitionID;
  sid ← ShardID_of_node;
  if negb (cr_Partition cr =? pid) || negb (ShardID_Equal (cr_Shard cr) sid) then
    throw (ErrNew "got CertificationResponse for a wrong shard")
  else handleUnicityCertificate (Some (cr_UC cr)) (Some (cr_Technical cr)).

(** ** block_processor.go *)

Definition getUCv1 (b : option Block) : result UnicityCertificate :=
  match b with
  | None => Fail (ErrNew "block is nil")
  | Some b =>
      if slice_is_nil (blk_UnicityCertificate b) then Fail (ErrNew "block unicity certificate is nil")
      else Cbor_Unmarshal_UC (blk_UnicityCertificate b)
  end.

(** The execution of a block that follows the committed one, and its commit. *)
Definition apply_block (b : Block) (blockUC : UnicityCertificate) (ir : InputRecord) : NodeM unit :=
  r ← try (tx (FollowerVerify (GetRoundNumber (Some blockUC)) (ir_Hash ir)));
  match r with
  | Fail e => revertState;; throw (ErrWrap "failed to verify block" e)
  | Ok newState =>
      match EqualsIR newState (Some ir) with
      | Fail e => revertState;; throw (ErrWrap "failed to verify block state" e)
      | Ok _ =>
          r ← try (finalizeBlock b blockUC);
          match r with
          | Fail e => revertState;; throw (ErrWrap "failed to finalize block" e)
          | Ok _ => mret tt
          end
      end
  end.

Definition handleBlock (b : option Block) : NodeM unit :=
  committed ← committedUC;
  blockUC ← wrapM "failed to extract UC from block" (lift (getUCv1 b));
  b ← deref b;
  algo ← gets (fun n => conf_hashAlgorithm (nd_conf n));
  wrapM "invalid block for round" (lift (Block_IsValid b algo nil_slice));;
  wrapM "failed to update LUC" (updateLUC (Some blockUC) None);;
  if GetRoundNumber (Some blockUC) <=? GetRoundNumber committed then mret tt
  else if negb (IsSuccessor blockUC committed) then
    st ← get_state cs_status;
    (if bool_decide (st = initializing) then mret tt else startRecovery);;
    throw (ErrNew "missing blocks between rounds")
  else
    header ← deref (blk_Header b);
    unless (bytes_Equal (hdr_PreviousBlockHash header) (GetBlockHash committed)) (ErrNew "invalid block");;
    t ← gets nd_transactionSystem;
    state ← wrapM "error reading current state" (lift (StateSummary t));
    match committed with
    | None => mret tt
    | Some _ =>
        ir ← deref (uc_InputRecord blockUC);
        unless (bytes_Equal (ir_PreviousHash ir) (Root state)) (ErrNew "block does not extend current state")
    end;;
    ir ← deref (uc_InputRecord blockUC);
    apply_block b blockUC ir.

(** ** proposal_handler.go *)

Definition handleBlockProposal (prop : option BlockProposal) : NodeM unit :=
  st ← get_state cs_status;
  if bool_decide (st = recovering) then
    set_cs (cs_set_recoveryLastProp prop);;
    throw (ErrNew "node is in recovery status")
  else
  match prop with
  | None => throw ErrBlockProposalIsNil
  | Some p =>
      let uc := bp_UnicityCertificate p in
      tb ← wrapM "failed to load trust base for block proposal validation" (trustBase (GetRootEpoch uc));
      n ← gets id;
      wrapM "block proposal validation failed"
        (lift (conf_bpValidator (nd_conf n) prop (Some (nd_shardConf n)) tb));;
      u ← deref uc;
      deref (uc_InputRecord u);;
      luc ← latestUC;
      unless (negb (GetRootRoundNumber uc <? GetRootRoundNumber luc)) (ErrNew "stale block proposal");;
      (if GetRootRoundNumber luc <? GetRootRoundNumber uc then
         wrapM "block proposal UC handling failed" (handleUnicityCertificate uc (Some (bp_Technical p)))
       else mret tt);;
      expectedLeader ← get_state leader;
      unless (negb (String.eqb expectedLeader "" || negb (String.eqb (bp_NodeID p) expectedLeader)))
        (ErrNew "expecting another leader");;
      t ← gets nd_transactionSystem;
      txState ← wrapM "transaction system state error" (lift (StateSummary t));
      unless (negb (negb (IsInitial u) && negb (bytes_Equal (GetStateHash uc) (Root txState))))
        (ErrNew "transaction system start state mismatch error");;
      round ← currentRoundNumber;
      r ← try (tx (FollowerVerify round (bp_ProposedRoot p)));
      match r with
      | Fail e => revertState;; throw (ErrWrap "follower failed to verify proposed block" e)
      | Ok stateSummary =>
          wrapM "certification request send failed"
            (sendCertificationRequest (peer_String (bp_NodeID p)) stateSummary)
      end
  end.

(** ** handleLedgerReplicationResponse (recovery.go) *)

Fixpoint handle_blocks (blocks : list (option Block)) : NodeM unit :=
  match blocks with
  | [] => mret tt
  | b :: blocks => handleBlock b;; handle_blocks blocks
  end.

Definition handleLedgerReplicationResponse (lr : option LedgerReplicationResponse) : NodeM unit :=
  wrapM "invalid ledger replication response" (lift (Resp_IsValid lr));;
  st ← get_state cs_status;
  if negb (bool_decide (st = recovering)) then mret tt
  else
    lr ← deref lr;
    if negb (resp_Status lr =? StatusOk) then
      complete ← isRecoveryComplete;
      (if (complete : bool) then stopRecovery else mret tt);;
      throw (ErrNew "received error response")
    else
      committed ← committedUC;
      if resp_FirstBlockNumber lr <=? GetRoundNumber committed then mret tt
      else
        handle_blocks (default [] (resp_Blocks lr));;
        complete ← isRecoveryComplete;
        if negb complete then sendLedgerReplicationRequest
        else
          stopRecovery;;
          startNewRound;;
          prop ← get_state recoveryLastProp;
          match prop with
          | None => mret tt
          | Some _ =>
              try (handleBlockProposal prop);;
              set_cs (cs_set_recoveryLastProp None)
          end.

(** ** node.go *)

Definition handleMessage (msg : Received) : NodeM unit :=
  match msg with
  | RcvCertificationResponse cr => handleCertificationResponse cr
  | RcvBlockProposal p => handleBlockProposal p
  | RcvReplicationRequest r => handleLedgerReplicationRequest r
  | RcvReplicationResponse r => handleLedgerReplicationResponse r
  | RcvBlock _ | RcvOther => throw (ErrNew "unknown message")
  end.

(** Errors are logged; the node goes on with the old configuration. *)
Definition handleEpochChangeEvent : NodeM unit :=
  newEpoch ← currentEpoch;
  r ← try (confStore (Get newEpoch));
  match r with
  | Fail _ => mret tt
  | Ok shardConf =>
      modify (set_shardConf shardConf);;
      try (tx (UpdateConfig shardConf));; mret tt
  end.

(** [time.Since(t) > d] *)
Definition elapsed (t d : Z) : NodeM bool :=
  now ← world time_Now; mret (d <? duration_between now t).

Definition handleMonitoring (lastUCReceived lastBlockReceived : Z) : NodeM unit :=
  st ← get_state cs_status;
  (if bool_decide (st = initializing) then
     late ← elapsed lastUCReceived (5 * second);
     if (late : bool) then sendHandshake else mret tt
   else
     t2 ← gets (fun n => pdr_T2Timeout (nd_shardConf n));
     late ← elapsed lastUCReceived (i64 (t2 + second));
     if (late : bool) then sendHandshake else mret tt);;
  st ← get_state cs_status;
  if bool_decide (st = recovering) then
    n ← gets id;
    late ← elapsed (nd_lastLedgerReqTime n) (replicationTimeout (conf_replicationConfig (nd_conf n)));
    if (late : bool) then sendLedgerReplicationRequest else mret tt
  else mret tt.

(** What the [select] of the loop can take: a cancelled context, a message (or the closing of
    the channel), the T1 event, the epoch change event, a tick. *)
Inductive loop_event :=
  | EvDone
  | EvMessage (m : option Received)
  | EvT1
  | EvEpochChange
  | EvTick.

(** A channel can be received from only when something is in it. *)
Definition enabled (ev : loop_event) (n : Node T W D DC) : bool :=
  match ev with
  | EvT1 => timer_event (nd_timer n)
  | EvEpochChange => nd_epochChangeEvent n
  | _ => true
  end.

(** One iteration of [loop]; the loop ends with the error thrown.  The last two times a
    certificate and a block were received are its local variables. *)
Definition loop_iteration (ev : loop_event) (last : Z * Z) : NodeM (Z * Z) :=
  last ← match ev with
    | EvDone => throw (ErrNew "context canceled")
    | EvMessage None => throw (ErrNew "network received channel is closed")
    | EvMessage (Some m) =>
        r ← try (handleMessage m);
        match r, m with
        | Ok _, RcvCertificationResponse _ => now ← world time_Now; mret (now, last.2)
        | Ok _, RcvBlock _ => now ← world time_Now; mret (last.1, now)
        | _, _ => mret last
        end
    | EvT1 =>
        upd_timer (fun t => mkRoundTimer (timer_isRunning t) (timer_cancel t) false (timer_goroutines t));;
        handleT1TimeoutEvent;; mret last
    | EvEpochChange =>
        modify (set_epochChangeEvent false);;
        handleEpochChangeEvent;; mret last
    | EvTick => handleMonitoring last.1 last.2;; mret last
    end;
  ensureT1TimerState;;
  mret last.
End handlers.
