(* ===== verification/NodeInit.v ===== *)
(** * Start of a partition node (partition/node_init.go)

    The state a node starts with: the shard configuration and the transaction system are
    restored from the last block of the store, then the pending proposal, if it extends the
    committed state; then the peer and the network.  *)

From Stdlib Require Import ZArith Lia Strings.Byte String.
From stdpp Require Import base list strings option gmap.
From S2P Require Import Prelude GoBase BftTypes Summary TxInterface Messages Wire KVStore ShardConfStore Selector Node Network Peer NodeOps Configuration Handlers.

Section init.
Context {BT : BftTypes} {BL : BftLib} {ML : MsgLib}.
Context {T W D DC : Type} {TS : TransactionSystem T W} {NE : NodeEnv W}.
Context {KVB : KeyValueDB D Block} {KVC : KeyValueDB DC PartitionDescriptionRecord}.
#[local] Abbreviation NodeM := (NodeM (T:=T) (W:=W) (D:=D) (DC:=DC)).

Definition restoreBlockProposal : NodeM unit :=
  r ← try loadPendingProposal;
  match r with
  | Fail _ | Ok None => mret tt
  | Ok (Some pr) =>
      match getUCv1 (Some pr) with
      | Fail _ => mret tt
      | Ok uc =>
          committed ← committedUC;
          if negb (bytes_Equal (GetStateHash committed) (GetPreviousStateHash (Some uc))) then mret tt
          else
            ir ← deref (uc_InputRecord uc);
            r ← try (tx (FollowerVerify (GetRoundNumber (Some uc)) (ir_Hash ir)));
            match r with
            | Fail _ => revertState
            | Ok state =>
                match EqualsIR state (Some ir) with
                | Fail _ => revertState
                | Ok _ => set_cs (cs_set_pending (Some pr))
                end
            end
      end
  end.

(** The first half of [initState]: restore from the last entry of the store. *)
Definition restore_last_block : NodeM unit :=
  dbIt ← gets (fun n => db_Last (nd_blockStore n));
  match dbIt with
  | None => mret tt
  | Some (_, value) =>
      b ← wrapM "failed to read latest block from db" (lift value);
      uc ← wrapM "failed to extract UC from latest block" (lift (getUCv1 (Some b)));
      shardConf ← wrapM "failed to load shard conf for epoch" (confStore (Get (GetShardEpoch (Some uc))));
      modify (set_shardConf shardConf);;
      wrapM "failed to update transaction system config" (tx (UpdateConfig shardConf));;
      wrapM "failed to restore transaction system state" (tx (RestoreState uc))
  end.

Definition initState : NodeM unit :=
  restore_last_block;;
  committed ← committedUC;
  set_cs (cs_set_ucs committed committed);;
  restoreBlockProposal.

(** The struct [NewNode] builds.  The peer identifier is set when the network is initialized,
    the shard configuration is replaced at once by the first one of the store. *)
Definition new_node (conf : NodeConf) (txSystem : T) (blockDB : D) (scs : ShardConfStore DC)
    (id : PeerID) (zero : PartitionDescriptionRecord) (w : W) : Node T W D DC :=
  mkNode BT T W D DC conf txSystem
    (mkConsensusState initializing None None None ""%string None None)
    0 [] blockDB scs id (mkRoundTimer false None false []) false zero w [].

(** The part of [NewNode] that works on the struct. *)
Definition NewNode_init : NodeM unit :=
  shardConf ← wrapM "failed to load initial shard conf" (confStore GetFirst);
  modify (set_shardConf shardConf);;
  wrapM "node state initialization failed" initState.

(** The network of a node: the one its configuration gives, or the validator network. *)
Definition initNetwork {PL : PeerLib} {H N : Type} {PE : PeerEnv H W} (given : option N) (peerConf : PeerConfiguration)
    : M W (Peer (H:=H) * (N + LibP2PNetwork H)) :=
  peer ← NewPeer (Some peerConf);
  match given with
  | Some net => mret (peer, inl net)
  | None =>
      net ← (fun w => (NewLibP2PValidatorNetwork (Some (peer_ID peer, peer_mux peer)) DefaultValidatorNetworkOptions, w));
      BootstrapConnect peer;;
      mret (peer, inr net)
  end.

(** The node, with its peer and network. *)
Definition NewNode {PL : PeerLib} {H N TBS : Type} {PE : PeerEnv H W} (c : FullNodeConf D DC N TBS) (txSystem : T)
    (zero : PartitionDescriptionRecord) (w : W) : outcome (Node T W D DC * Peer (H:=H) * (N + LibP2PNetwork H)) :=
  match PeerConf c with
  | Fail e => Throw (ErrWrap "failed to create peer configuration" e)
  | Ok peerConf =>
      match NewNode_init (new_node (nc_conf c) txSystem (nc_blockDB c) (nc_shardConfStore c)
        (pc_ID peerConf) zero w) with
      | (Ret _, n) =>
          match wrapM "node network initialization failed" (initNetwork (nc_validatorNetwork c) peerConf) (nd_world n) with
          | (Ret (peer, net), w) => Ret (set_world w n, peer, net)
          | (Throw e, _) => Throw e
          | (Panic, _) => Panic
          end
      | (Throw e, _) => Throw e
      | (Panic, _) => Panic
      end
  end.
End init.
