(* ===== verification/Run.v ===== *)
(** * The command line (cmd/main.go, cmd/run.go, cmd/block.go, cmd/pow.go)

    The set-up of the logger.  [runNode]: how a node is put together from its files and
    databases.  [Files] is what the
    file system holds when the command starts, the databases among it; the IPC client is part
    of the world of the node.  The databases stay open until the command ends.  Then the block
    viewer and the wrappers of the PoW client. *)

From Stdlib Require Import ZArith Lia Strings.Byte String.
From stdpp Require Import base list strings option gmap.
From S2P Require Import Prelude GoPath GoBase BftTypes Logger Summary PowClient TxInterface TxSystem Messages Wire IpcClient KVStore ShardConfStore Selector Node Network Peer NodeOps Configuration Handlers NodeInit.

Record cliFlags := mkFlags {
  PowSocketPath : string;
  HomeDir : string;
  CfgFile : string;
  LogCfgFile : string;
  KeyConfFile : string;
  ShardConfFiles : list string;
  TrustBaseFiles : list string;
  flag_Address : string;
  AnnounceAddresses : list string;
  BootstrapAddresses : list string;
  BootstrapConnectRetryCount : Z;
  BootstrapConnectRetryDelay : Z;
  BlockDBFile : string;
  ShardConfDBFile : string;
  TrustBaseDBFile : string;
  LedgerReplicationMaxBlocksFetch : Z;
  LedgerReplicationMaxBlocks : Z;
  LedgerReplicationMaxWorkers : Z;
  LedgerReplicationTimeoutMs : Z;
  T1TimeoutMs : Z;
}.

(** The values of the flags of the run command that are not set; [home] is the home directory
    of the user, [homeDir], [cfgFile] and [logCfgFile] are flags of the root command. *)
Definition run_defaults (home homeDir cfgFile logCfgFile : string) : cliFlags :=
  mkFlags (filepath_Join [home; ".unicity"; "node.sock"]) homeDir cfgFile logCfgFile
    "" [] [] "/ip4/127.0.0.1/tcp/26652" [] [] 10 1 "" "" ""
    1000 1000 10 1500 DefaultT1Timeout.

Definition pathWithDefault (f : cliFlags) (path defaultFileName : string) : string :=
  if String.eqb path "" then filepath_Join [HomeDir f; defaultFileName] else path.

Definition shardConfDBFileName : string := "shard.db".
Definition blockDBFileName : string := "blocks.db".

(** [util.ReadJsonFile] is part of [Files]. *)
Definition loadConf {A} (ReadJsonFile : string → result A) (path : string) : result A :=
  wrap "failed to load" (ReadJsonFile path).

Definition initDB {A} (boltdb_New : string → result A) (f : cliFlags) (path defaultFileName : string) : result A :=
  wrap "failed to init" (boltdb_New (pathWithDefault f path defaultFileName)).

(** ** The logger *)

Section init_logger.
Context {BT : BftTypes} {BL : BftLib} {Time : Type}.
Context (time_IsZero : Time → bool) (time_Format : string → Time → string) (value_String : Value (Time:=Time) → string).
Context (reflect_TypeString : any → string) (json_Marshal : any → result string) (is_terminal : Writer → bool).
Context (MkdirAll OpenFile : string → result unit).

Definition defaultLoggerConfigFile : string := "logger-config.yaml".
Definition flagNameLogOutputFile : string := "log-file".
Definition flagNameLogLevel : string := "log-level".
Definition flagNameLogFormat : string := "log-format".

Definition empty_LogConfiguration : LogConfiguration := mkLogConfiguration "" "" "" "" "" None None.

(** [open] is [os.Open] with the result of decoding the file as YAML; [flag] is the value of a
    flag that was set. *)
Definition initLogger (open : string → result (result LogConfiguration)) (FileExists : string → bool)
    (flag : string → option string) (f : cliFlags) : result (Handler (Time:=Time)) :=
  let loggerCfgFile :=
    if filepath_IsAbs (LogCfgFile f) then LogCfgFile f else filepath_Join [HomeDir f; LogCfgFile f] in
  let loggerCfgFile := filepath_Clean loggerCfgFile in
  cfg ← match open loggerCfgFile with
    | Fail err =>
        let defaultLoggerCfg := filepath_Join [HomeDir f; defaultLoggerConfigFile] in
        if negb (String.eqb loggerCfgFile defaultLoggerCfg) && negb (FileExists loggerCfgFile)
        then Fail (ErrWrap "opening logger configuration file" err)
        else Ok empty_LogConfiguration
    | Ok decoded => wrap "decoding logger configuration" decoded
    end;
  let cfg := mkLogConfiguration
    (default (cfg_Level cfg) (flag flagNameLogLevel))
    (default (cfg_Format cfg) (flag flagNameLogFormat))
    (default (cfg_OutputPath cfg) (flag flagNameLogOutputFile))
    (cfg_TimeFormat cfg) (cfg_PeerIDFormat cfg) (cfg_ShowGoroutineID cfg) (cfg_ConsoleSupportsColor cfg) in
  logger_New time_IsZero time_Format value_String reflect_TypeString json_Marshal is_terminal MkdirAll OpenFile cfg.
End init_logger.

(** ** The node *)

(** [debug.ReadBuildInfo] (internal/debug/build_info.go); [info] are the settings recorded in
    the binary. *)
Definition ReadBuildInfo (info : option (list (string * string))) : string :=
  match info with
  | None => ""
  | Some settings =>
      String.concat " " ((fun '(k, v) => append k (append "=" v)) <$> filter (fun s => String.prefix "vcs." s.1 = true) settings)
  end.

(** The store of trust bases. *)
Class TrustBaseLib (TB TBD TBS : Type) := {
  NewTrustBaseStore : TBD → result TBS;
  TrustBaseStore_Store : TB → TBS → TBS * result unit;
  ErrAlreadyExists : error;
}.

Section run.
Context {BT : BftTypes} {BL : BftLib} {ML : MsgLib} {PL : PeerLib}.
Context {H W0 D DC N TB TBD TBS : Type}.
Context {HE : HttpEnv W0} {JL : JsonLib}.
#[local] Abbreviation W := (IPCClient * W0)%type.
Context {NE : NodeEnv W} {PE : PeerEnv H W} {TBL : TrustBaseLib TB TBD TBS}.
Context {KVB : KeyValueDB D Block} {KVC : KeyValueDB DC PartitionDescriptionRecord}.

Record Files := mkFiles {
  FileExists : string → bool;
  read_KeyConf : string → result KeyConf;
  read_ShardConf : string → result PartitionDescriptionRecord;
  read_TrustBase : string → result TB;
  open_shardConfDB : string → result DC;
  open_trustBaseDB : string → result TBD;
  open_blockDB : string → result D;
}.

(** The configurations of the files given, or the one of the default file. *)
Definition load_all {A} (msg : string) (ReadJsonFile : string → result A) (files : list string) (defaultPath : string)
    : result (list A) :=
  match files with
  | [] => c ← wrap msg (loadConf ReadJsonFile defaultPath); mret [c]
  | _ => convert_all msg (loadConf ReadJsonFile) files
  end.

Fixpoint store_shardConfs (shardConfs : list PartitionDescriptionRecord) : M (ShardConfStore DC) unit :=
  match shardConfs with
  | [] => mret tt
  | c :: shardConfs => wrapM "failed to store shard configuration" (Store c);; store_shardConfs shardConfs
  end.

(** A trust base that is there already is not overwritten. *)
Fixpoint store_trustBases (trustBases : list TB) (s : TBS) : result TBS :=
  match trustBases with
  | [] => mret s
  | tb :: trustBases =>
      match TrustBaseStore_Store tb s with
      | (s, Ok _) => store_trustBases trustBases s
      | (s, Fail err) =>
          if errors_Is err ErrAlreadyExists then store_trustBases trustBases s
          else Fail (ErrWrap "failed to store trust base" err)
      end
  end.

(** Calls on values that are not part of the world. *)
Definition outcomeM {A} (o : outcome A) : M W A := fun w => (o, w).
Definition on {S A} (s : S) (m : M S A) : M W (A * S) := fun w =>
  match m s with
  | (Ret a, s') => (Ret (a, s'), w)
  | (Throw e, _) => (Throw e, w)
  | (Panic, _) => (Panic, w)
  end.

Definition node_options (f : cliFlags) (blockDB : D) : list (NodeOption D DC N TBS) :=
  [ WithAddress (flag_Address f);
    WithAnnounceAddresses (AnnounceAddresses f);
    WithBootstrapAddresses (BootstrapAddresses f);
    WithBootstrapConnectRetry (Some (mkRetry (BootstrapConnectRetryCount f) (BootstrapConnectRetryDelay f)));
    WithBlockDB blockDB;
    WithReplicationParams (LedgerReplicationMaxBlocksFetch f) (LedgerReplicationMaxBlocks f)
      (LedgerReplicationMaxWorkers f) (LedgerReplicationTimeoutMs f * millisecond);
    WithT1Timeout (T1TimeoutMs f * millisecond) ].

Definition create_node (c : FullNodeConf D DC N TBS) (txSystem : FGPTxSystem) (zero : PartitionDescriptionRecord)
    : M W (Node FGPTxSystem W D DC * Peer (H:=H) * (N + LibP2PNetwork H)) := fun w =>
  match NewNode c txSystem zero w with
  | Ret (n, peer, net) => (Ret (n, peer, net), nd_world n)
  | Throw e => (Throw e, w)
  | Panic => (Panic, w)
  end.

(** [runNode] up to the start of the node: the node, its peer and its network, which [Node.Run]
    then runs.  [log] is what [initLogger] returns. *)
Definition runNode {L} (log : result L) (fs : Files) (new_memorydb : D) (zero : PartitionDescriptionRecord)
    (f : cliFlags) : M W (Node FGPTxSystem W D DC * Peer (H:=H) * (N + LibP2PNetwork H)) :=
  wrapM "failed to init logger" (lift log);;
  let keyConfPath := pathWithDefault f (KeyConfFile f) "keys.json" in
  unless (FileExists fs keyConfPath) (ErrNew "keys file not found in");;
  keyConf ← match loadConf (read_KeyConf fs) keyConfPath with
    | Ok k => mret k
    | Fail _ => throw (ErrNew "failed to load key conf")
    end;
  wrapM "failed to calculate nodeID" (lift (KeyConf_NodeID keyConf));;
  (* shard configurations *)
  shardConfs ← lift (load_all "failed to load shard conf" (read_ShardConf fs) (ShardConfFiles f)
    (pathWithDefault f "" "shard-conf.json"));
  shardConfDB ← lift (initDB (open_shardConfDB fs) f (ShardConfDBFile f) shardConfDBFileName);
  scs ← outcomeM (NewShardConfStore shardConfDB);
  '(_, scs) ← on scs (store_shardConfs shardConfs);
  '(shardConf, scs) ← on scs GetFirst;
  (* trust bases *)
  trustBases ← lift (load_all "failed to load trust base" (read_TrustBase fs) (TrustBaseFiles f)
    (pathWithDefault f "" "trust-base.json"));
  trustBaseDB ← lift (initDB (open_trustBaseDB fs) f (TrustBaseDBFile f) "trustbase.db");
  tbs ← wrapM "failed to create trust base store" (lift (NewTrustBaseStore trustBaseDB));
  tbs ← lift (store_trustBases trustBases tbs);
  (* the node *)
  blockDB ← lift (initDB (open_blockDB fs) f (BlockDBFile f) blockDBFileName);
  nodeConf ← wrapM "failed to create node configuration"
    (outcomeM (NewNodeConf new_memorydb (Some keyConf) (Some scs) (Some tbs) (node_options f blockDB)));
  modify (fun '(_, w) => (NewIPCClient (PowSocketPath f), w));;
  txSystem ← wrapM "failed to create FGP tx system" (lift (NewFGPTxSystem shardConf));
  create_node nodeConf txSystem zero.

(** ** Node.Run (partition/node.go) up to its goroutines

    The main loop and the replication workers then run until the context ends; a network that
    was given registers its protocols in its own way ([register]). *)
Definition Node_Run {NC : NetCodec} (register : N → result N) (net : N + LibP2PNetwork H)
    : NodeM (T:=FGPTxSystem) (W:=W) (D:=D) (DC:=DC) (N + LibP2PNetwork H) :=
  net ← wrapM "failed to register validator protocols"
    match net with
    | inl net => net ← lift (register net); mret (inl net)
    | inr net =>
        match RegisterValidatorProtocols net with
        | (Ret _, net) => mret (inr net)
        | (Throw e, _) => throw e
        | (Panic, _) => panic
        end
    end;
  sendHandshake;;
  mret net.

(** ** The block viewer *)

Definition outputFormatJSON : string := "json".
Definition outputFormatCBOR : string := "cbor".

(** What is printed; [None] for a certificate that cannot be decoded. *)
Record BlockForJSON := mkBlockForJSON {
  bj_Header : option Header;
  bj_Transactions : option (list TransactionRecord);
  bj_UnicityCertificate : option UnicityCertificate;
}.

Definition block_for_JSON (b : Block) : BlockForJSON :=
  mkBlockForJSON (blk_Header b) (blk_Transactions b)
    (match Cbor_Unmarshal_UC (blk_UnicityCertificate b) with Ok uc => Some uc | Fail _ => None end).

Definition blockCmd (marshal_JSON : BlockForJSON → result string) (marshal_CBOR : Block → result string)
    (fs : Files) (f : cliFlags) (outputFormat : string) (arg : string) : result string :=
  round ← wrap "invalid round number" (ParseUint arg);
  blockDB ← wrap "error opening block database (db in use my another process?)"
    (open_blockDB fs (pathWithDefault f (BlockDBFile f) blockDBFileName));
  found ← wrap "failed to read block from db" (db_Read (Uint64ToBytes round) blockDB);
  match found with
  | None => Fail (ErrNew "block not found")
  | Some b =>
      if String.eqb outputFormat outputFormatCBOR then wrap "failed to marshal block to CBOR" (marshal_CBOR b)
      else if String.eqb outputFormat outputFormatJSON then
        wrap "failed to marshal block to JSON" (marshal_JSON (block_for_JSON b))
      else Fail (ErrNew "invalid output format")
  end.

(** ** Wrappers of the PoW client *)

Definition with_client {A} (f : cliFlags) (m : M W A) : M W A :=
  modify (fun '(_, w) => (NewIPCClient (PowSocketPath f), w));; m.

Definition powGetTipCmd (marshal : BlockHeader → result string) (f : cliFlags) : M W string :=
  tip ← with_client f (wrapM "failed to get PoW chain tip" ipc_GetTip);
  lift (marshal tip).
Definition powGetBlockHeaderByHashCmd (marshal : BlockHeader → result string) (f : cliFlags) (hash : string) : M W string :=
  block ← with_client f (wrapM "failed to get PoW block" (ipc_GetBlockHeaderByHash hash));
  lift (marshal block).
Definition powGetBlockHeaderByHeightCmd (marshal : BlockHeader → result string) (f : cliFlags) (heightStr : string) : M W string :=
  height ← wrapM "invalid height" (lift (ParseUint heightStr));
  block ← with_client f (wrapM "failed to get PoW block" (ipc_GetBlockHeaderByHeight height));
  lift (marshal block).
End run.
Arguments Files {BT} D DC TB TBD.
