(* ===== verification/CommandLine.v ===== *)
(** * Flags, environment, configuration file and exit code (cmd/main.go)

    [initializeConfig]: where the value of a flag comes from when it is not on the command
    line.  Viper and pflag are the classes [ViperLib] and [FlagLib]; what is relied on is that
    viper looks for a key in the environment before the configuration file, and that setting
    a flag sets that flag only.  Then [main]: what it makes of the command, whose arguments
    cobra has parsed, and of a quit signal. *)

From Stdlib Require Import ZArith Lia Strings.Ascii String.
From stdpp Require Import base list strings option gmap.
From S2P Require Import Prelude GoPath GoBase Logger Peer Run.

(** ** Viper and pflag *)

(** Values are given as text, the way they print. *)
Class ViperLib (V : Type) := {
  viper_New : V;
  SetConfigFile : string → V → V;
  ReadInConfig : V → V * result unit;
  is_ConfigFileNotFoundError : error → bool;
  SetEnvPrefix : string → V → V;
  AutomaticEnv : V → V;
  BindEnv : string → string → V → V * result unit;
  IsSet : string → V → bool;
  viper_Get : string → V → string;
}.

(** The flags of a command with the variables they are bound to, other than those of the flags
    home and config. *)
Class FlagLib (FS : Type) := {
  VisitAll_names : FS → list string;
  flag_Changed : string → FS → bool;
  FlagSet_Set : string → string → FS → FS * result unit;
}.

(** The environment of the process. *)
Record OS := mkOS {
  Getenv : string → string;
  Stat : string → result unit;
  UserHomeDir : result string;
}.

(** ** The names of environment variables *)

Definition envPrefix : string := "FGP".
Definition defaultConfigFile : string := "config.props".
Definition defaultDir : string := ".fgp".
Definition keyHome : string := "home".
Definition keyConfig : string := "config".

Fixpoint has_dash (s : string) : bool :=
  match s with EmptyString => false | String c s => Ascii.eqb c "-" || has_dash s end.

(** [strings.ReplaceAll(s, "-", "_")]. *)
Fixpoint dash_to_underscore (s : string) : string :=
  match s with
  | EmptyString => EmptyString
  | String c s => String (if Ascii.eqb c "-" then "_" else c)%char (dash_to_underscore s)
  end.

Definition env_name (suffix : string) : string := append envPrefix (append "_" suffix).
Definition env_of_flag (name : string) : string := env_name (ToUpper (dash_to_underscore name)).

(** ** Operations *)

(** Both the panic and the path of [defaultHomeDir]. *)
Definition defaultHomeDir {S} (os : OS) : M S string :=
  match UserHomeDir os with Ok dir => mret (filepath_Join [dir; defaultDir]) | Fail _ => panic end.

Section initialize.
Context {V FS : Type} {VI : ViperLib V} {FI : FlagLib FS}.

(** The command when its arguments are parsed; [cmd_HomeDir] and [cmd_CfgFile] are the fields
    [HomeDir] and [CfgFile] of [cliFlags]. *)
Record Command := mkCommand {
  cmd_HomeDir : string;
  cmd_CfgFile : string;
  cmd_Flags : FS;
}.

Definition set_HomeDir (x : string) (c : Command) : Command := mkCommand x (cmd_CfgFile c) (cmd_Flags c).
Definition set_CfgFile (x : string) (c : Command) : Command := mkCommand (cmd_HomeDir c) x (cmd_Flags c).
Definition set_Flags (x : FS) (c : Command) : Command := mkCommand (cmd_HomeDir c) (cmd_CfgFile c) x.

(** The function that [VisitAll] calls for each flag, with the errors collected so far. *)
Definition visit_flag (st : V * FS * list error) (name : string) : V * FS * list error :=
  let '(v, fs, errs) := st in
  if String.eqb name keyHome || String.eqb name keyConfig then st
  else
    let '(v, bound) := if has_dash name then BindEnv name (env_of_flag name) v else (v, Ok tt) in
    match bound with
    | Fail err => (v, fs, errs ++ [ErrWrap "binding env to flag" err])
    | Ok _ =>
        if negb (flag_Changed name fs) && IsSet name v then
          match FlagSet_Set name (viper_Get name v) fs with
          | (fs, Ok _) => (v, fs, errs)
          | (fs, Fail err) => (v, fs, errs ++ [ErrWrap "setting flag value" err])
          end
        else (v, fs, errs)
    end.

Definition bind_flags (v : V) : M Command unit :=
  fs ← gets cmd_Flags;
  let '(v, fs, bindFlagErr) := foldl visit_flag (v, fs, []) (VisitAll_names fs) in
  modify (set_Flags fs);;
  match join_all bindFlagErr with Some err => throw err | None => mret tt end.

Definition initializeConfig (os : OS) : M Command unit :=
  let v := viper_New in
  homeDir ← gets cmd_HomeDir;
  (if String.eqb homeDir "" then
    let homeDir := Getenv os (ToUpper (append envPrefix (append "_" keyHome))) in
    homeDir ← (if String.eqb homeDir "" then defaultHomeDir os else mret homeDir);
    modify (set_HomeDir homeDir)
  else mret tt);;
  cfgFile ← gets cmd_CfgFile;
  (if String.eqb cfgFile "" then
    let cfgFile := Getenv os (ToUpper (append envPrefix (append "_" keyConfig))) in
    modify (set_CfgFile (if String.eqb cfgFile "" then defaultConfigFile else cfgFile))
  else mret tt);;
  homeDir ← gets cmd_HomeDir;
  cfgFile ← gets cmd_CfgFile;
  (if filepath_IsAbs cfgFile then mret tt else modify (set_CfgFile (filepath_Join [homeDir; cfgFile])));;
  cfgFile ← gets cmd_CfgFile;
  let v := match Stat os cfgFile with Ok _ => SetConfigFile cfgFile v | Fail _ => v end in
  let '(v, read) := ReadInConfig v in
  match read with
  | Fail err => if is_ConfigFileNotFoundError err then mret tt else throw err
  | Ok _ => mret tt
  end;;
  bind_flags (AutomaticEnv (SetEnvPrefix envPrefix v)).

(** ** main *)

Definition PersistentPreRunE (os : OS) : M Command unit :=
  wrapM "failed to initialize configuration" (initializeConfig os).

(** The flags of the run command have their defaults when it has been created. *)
Definition newRunCmd {S} (os : OS) (homeDir cfgFile : string) : M S cliFlags :=
  match UserHomeDir os with
  | Ok home => mret (run_defaults home homeDir cfgFile defaultLoggerConfigFile)
  | Fail _ => panic
  end.

(** Cobra finds the command of the arguments and parses its flags ([parsed]), then runs
    [PersistentPreRunE] and the [RunE] of the command, which sees the flags as they are then. *)
Definition ExecuteContext (os : OS) (parsed : result Command) (RunE : Command → outcome unit) : outcome unit :=
  match parsed with
  | Fail err => Throw err
  | Ok cmd =>
      match PersistentPreRunE os cmd with
      | (Ret _, cmd) => RunE cmd
      | (Throw err, _) => Throw err
      | (Panic, _) => Panic
      end
  end.
End initialize.
Arguments Command : clear implicits.

Definition errQuitSignal : error := ErrNew "received quit signal".

(** The cause the root context is cancelled with when the signal [sig] arrives. *)
Definition quitSignalContext (sig : string) : error := ErrWrap sig errQuitSignal.

(** [cause] is [context.Cause] of the root context, nil while it is not cancelled. *)
Definition cancelledByQuitSignal (cause : option error) : bool :=
  match cause with Some err => errors_Is err errQuitSignal | None => false end.

(** The exit code, for what the command returned. *)
Definition exit_code (err cause : option error) : Z :=
  if bool_decide (is_Some err) && negb (cancelledByQuitSignal cause) then 1 else 0.

(** The home directory of the user is in the help texts and the defaults of the flags; [cause] is
    that of the root context when the command has ended. *)
Definition main {V FS} {VI : ViperLib V} {FI : FlagLib FS} (os : OS) (parsed : result (Command FS))
    (RunE : Command FS → outcome unit) (cause : option error) : outcome Z :=
  match (defaultHomeDir os;; newRunCmd os "" "") tt with
  | (Ret _, _) =>
      match ExecuteContext (V:=V) os parsed RunE with
      | Ret _ => Ret (exit_code None cause)
      | Throw err => Ret (exit_code (Some err) cause)
      | Panic => Panic
      end
  | _ => Panic
  end.

#[global] Arguments visit_flag : simpl never.

(** ** What is relied on *)

(** Keys that viper takes as they are: it ignores case and splits at dots. *)
Definition plain_key (k : string) : bool :=
  forallb (fun c => ascii_between "a" "z" c || ascii_between "0" "9" c || Ascii.eqb c "-")%char (list_ascii_of_string k).

(** The first text that is not empty. *)
Definition nonempty (s : string) : option string := if String.eqb s "" then None else Some s.
Definition first_set (texts : list string) : option string := head (omap nonempty texts).

(** Where viper looks for a key: in the variable of the automatic environment, then in the
    variables bound to the key, then in the configuration file.  An empty variable counts as
    not set. *)
Record View := mkView {
  vw_prefix : string;
  vw_auto : bool;
  vw_bound : string → list string;
  vw_file : string → option string;
}.

Definition view_get (os : OS) (w : View) (k : string) : option string :=
  let auto := if vw_auto w then [ToUpper (append (vw_prefix w) (append "_" k))] else [] in
  match first_set (Getenv os <$> auto ++ vw_bound w k) with
  | Some s => Some s
  | None => vw_file w k
  end.

Class ViperLaws (os : OS) (V : Type) {VI : ViperLib V} := {
  viper_view : V → View;
  bound_New k : vw_bound (viper_view viper_New) k = [];
  bound_SetConfigFile p v k : vw_bound (viper_view (SetConfigFile p v)) k = vw_bound (viper_view v) k;
  bound_ReadInConfig v k : vw_bound (viper_view (ReadInConfig v).1) k = vw_bound (viper_view v) k;
  view_SetEnvPrefix p v :
    viper_view (SetEnvPrefix p v) = mkView p (vw_auto (viper_view v)) (vw_bound (viper_view v)) (vw_file (viper_view v));
  view_AutomaticEnv v :
    viper_view (AutomaticEnv v) = mkView (vw_prefix (viper_view v)) true (vw_bound (viper_view v)) (vw_file (viper_view v));
  view_BindEnv k e v v' u : plain_key k = true → BindEnv k e v = (v', Ok u) →
    vw_prefix (viper_view v') = vw_prefix (viper_view v) ∧ vw_auto (viper_view v') = vw_auto (viper_view v) ∧
    vw_file (viper_view v') = vw_file (viper_view v) ∧
    ∀ k', plain_key k' = true →
      vw_bound (viper_view v') k' = vw_bound (viper_view v) k' ++ (if String.eqb k' k then [e] else []);
  IsSet_view k v : plain_key k = true → IsSet k v = match view_get os (viper_view v) k with Some _ => true | None => false end;
  Get_view k v s : plain_key k = true → view_get os (viper_view v) k = Some s → viper_Get k v = s;
}.

(** [T] are the values of flags; a flag that is set for the first time loses its default. *)
Class FlagLaws (FS T : Type) {FI : FlagLib FS} := {
  flag_value : string → FS → T;
  flag_parse : string → string → option T;
  names_NoDup fs : NoDup (VisitAll_names fs);
  Set_value n s fs fs' u : flag_Changed n fs = false → FlagSet_Set n s fs = (fs', Ok u) →
    flag_parse n s = Some (flag_value n fs');
  Set_other n s fs n' : n' ≠ n →
    flag_value n' (FlagSet_Set n s fs).1 = flag_value n' fs ∧ flag_Changed n' (FlagSet_Set n s fs).1 = flag_Changed n' fs;
}.

(** ** Precedence *)

Section precedence.
Context {V FS T : Type} {VI : ViperLib V} {FI : FlagLib FS} (os : OS) {VL : ViperLaws os V} {FL : FlagLaws FS T}.
Implicit Types (v : V) (fs : FS) (name : string).

(** What the environment or else the configuration file says about a flag. *)
Definition flag_source (file : string → option string) name : option string :=
  match first_set (Getenv os <$> env_name (ToUpper name) :: (if has_dash name then [env_of_flag name] else [])) with
  | Some s => Some s
  | None => file name
  end.

Definition special name : bool := String.eqb name keyHome || String.eqb name keyConfig.

(** The flag [name] of [fs'] got its value from the first that has one of: the command line,
    the environment, the configuration file, the default. *)
Definition takes_precedence file fs fs' name : Prop :=
  match (if special name || flag_Changed name fs then None else flag_source file name) with
  | None => flag_value name fs' = flag_value name fs
  | Some s => flag_parse name s = Some (flag_value name fs')
  end.

(** The viper the flags are visited with. *)
Record ready (file : string → option string) (names : list string) v : Prop := {
  rd_prefix : vw_prefix (viper_view v) = envPrefix;
  rd_auto : vw_auto (viper_view v) = true;
  rd_file : vw_file (viper_view v) = file;
  rd_bound k : k ∈ names → vw_bound (viper_view v) k = [];
}.

Lemma visit_flag_errs v fs errs name v' fs' errs' :
  visit_flag (v, fs, errs) name = (v', fs', errs') → errs `prefix_of` errs'.
Proof.
  unfold visit_flag. intros H. repeat case_match; simplify_eq; try done; by apply prefix_app_r.
Qed.

Lemma foldl_visit_errs names v fs errs v' fs' errs' :
  foldl visit_flag (v, fs, errs) names = (v', fs', errs') → errs `prefix_of` errs'.
Proof.
  revert v fs errs. induction names as [|name names IH]; intros v fs errs; simpl; [by intros [= _ _ ->]|].
  destruct (visit_flag (v, fs, errs) name) as [[v1 fs1] errs1] eqn:H1. intros H. transitivity errs1; [by eapply visit_flag_errs|exact (IH _ _ _ H)].
Qed.

(** Getting a value, after the variable of the flag is bound. *)
Lemma view_get_ready file name v bound :
  vw_prefix (viper_view v) = envPrefix → vw_auto (viper_view v) = true → vw_file (viper_view v) = file →
  vw_bound (viper_view v) name = bound → bound = (if has_dash name then [env_of_flag name] else []) →
  view_get os (viper_view v) name = flag_source file name.
Proof. unfold view_get, flag_source. by intros -> -> -> -> ->. Qed.

(** One flag. *)
Lemma visit_flag_spec file name names v fs v' fs' :
  Forall (fun k => plain_key k = true) (name :: names) → name ∉ names → ready file (name :: names) v →
  visit_flag (v, fs, []) name = (v', fs', []) →
  ready file names v' ∧ takes_precedence file fs fs' name ∧
  ∀ n, n ≠ name → flag_value n fs' = flag_value n fs ∧ flag_Changed n fs' = flag_Changed n fs.
Proof.
  intros [Hp Hps]%Forall_cons Hn [Hpre Hau Hfi Hbo]. unfold visit_flag, takes_precedence. fold (special name).
  destruct (special name); simpl.
  { intros [= <- <-]. split_and!; [split; try done; set_solver|done|done]. }
  destruct (if has_dash name then _ else _) as [v1 [[]|e]] eqn:Hb; [|done].
  assert (ready file names v1 ∧ view_get os (viper_view v1) name = flag_source file name) as [Hr Hg].
  { rewrite Forall_forall in Hps. destruct (has_dash name) eqn:Hd.
    - destruct (view_BindEnv _ _ _ _ _ Hp Hb) as (E1 & E2 & E3 & E4). split.
      + split; try congruence. intros k Hk. rewrite E4 by auto. rewrite Hbo by set_solver.
        destruct (String.eqb_spec k name) as [->|]; done.
      + eapply view_get_ready; try congruence; [done|]. rewrite E4, Hbo by set_solver. by rewrite String.eqb_refl, Hd.
    - simplify_eq. split; [split; try done; set_solver|].
      apply (view_get_ready _ _ _ []); try done; [apply Hbo; set_solver|by rewrite Hd]. }
  rewrite IsSet_view, Hg by done. destruct (flag_Changed name fs) eqn:Hch; simpl; [by intros [= <- <-]|].
  destruct (flag_source file name) as [s|] eqn:Hs; [|by intros [= <- <-]].
  rewrite (Get_view _ _ s) by done.
  destruct (FlagSet_Set name s fs) as [fs1 [[]|]] eqn:Hset; [|done]. intros [= <- <-].
  split_and!; [done|by eapply Set_value|]. intros n Hne. pose proof (Set_other name s fs n Hne) as Ho. by rewrite Hset in Ho.
Qed.

(** All flags. *)
Lemma visit_all_spec file names v fs v' fs' :
  Forall (fun k => plain_key k = true) names → NoDup names → ready file names v →
  foldl visit_flag (v, fs, []) names = (v', fs', []) →
  (∀ n, n ∈ names → takes_precedence file fs fs' n) ∧ ∀ n, n ∉ names → flag_value n fs' = flag_value n fs.
Proof.
  revert v fs. induction names as [|name names IH]; intros v fs Hp Hnd Hr; simpl.
  { intros [= _ <-]. split; [set_solver|done]. }
  apply NoDup_cons in Hnd as [Hn Hnd].
  destruct (visit_flag (v, fs, []) name) as [[v1 fs1] errs1] eqn:H1. intros H.
  pose proof (foldl_visit_errs _ _ _ _ _ _ _ H) as ->%prefix_nil_inv.
  destruct (visit_flag_spec _ _ _ _ _ _ _ Hp Hn Hr H1) as (Hr1 & Hpr & Ho).
  apply Forall_cons in Hp as [_ Hp]. destruct (IH v1 fs1 Hp Hnd Hr1 H) as [Hin Hout]. split.
  - intros n [->|Hi]%elem_of_cons.
    + unfold takes_precedence in *. rewrite (Hout name Hn). done.
    + specialize (Hin n Hi). destruct (Ho n) as [Ev Ec]; [by intros ->|]. unfold takes_precedence in *. by rewrite Ec, Ev in Hin.
  - intros n [? ?]%not_elem_of_cons. rewrite Hout by done. by apply Ho.
Qed.

Lemma join_all_nil (errs : list error) : join_all errs = None → errs = [].
Proof.
  unfold join_all. assert (∀ o, foldl (fun all e => Some (errors_Join all e)) o errs = None → o = None ∧ errs = []) as H.
  { induction errs as [|e errs IH]; intros o; simpl; [done|]. by intros [[=] _]%IH. }
  by intros [_ ?]%H.
Qed.

(** The directory and the file that count. *)
Definition home_of (c : Command FS) dir : string :=
  default (filepath_Join [dir; defaultDir]) (first_set [cmd_HomeDir c; Getenv os (env_name "HOME")]).
Definition config_of (c : Command FS) dir : string :=
  let path := default defaultConfigFile (first_set [cmd_CfgFile c; Getenv os (env_name "CONFIG")]) in
  if filepath_IsAbs path then path else filepath_Join [home_of c dir; path].

(** What viper reads, if there is such a file. *)
Definition read_config (path : string) : V :=
  (ReadInConfig match Stat os path with Ok _ => SetConfigFile path viper_New | Fail _ => viper_New end).1.

Lemma ready_config path names :
  ready (vw_file (viper_view (read_config path))) names (AutomaticEnv (SetEnvPrefix envPrefix (read_config path))).
Proof.
  split; rewrite view_AutomaticEnv, view_SetEnvPrefix; try done. intros k _. simpl. unfold read_config.
  rewrite bound_ReadInConfig. destruct (Stat os path); rewrite ?bound_SetConfigFile; apply bound_New.
Qed.

(** Only the flags of the command change. *)
Lemma bind_flags_wp path (c : Command FS) :
  Forall (fun k => plain_key k = true) (VisitAll_names (cmd_Flags c)) →
  wp (bind_flags (AutomaticEnv (SetEnvPrefix envPrefix (read_config path))))
    (fun _ c' => cmd_HomeDir c' = cmd_HomeDir c ∧ cmd_CfgFile c' = cmd_CfgFile c ∧
      ∀ name, name ∈ VisitAll_names (cmd_Flags c) →
        takes_precedence (vw_file (viper_view (read_config path))) (cmd_Flags c) (cmd_Flags c') name)
    (fun _ _ => True) c.
Proof.
  intros Hp. unfold bind_flags. wp_norm.
  destruct (foldl visit_flag _ _) as [[v' fs'] errs] eqn:Hf. wp_norm.
  destruct (join_all errs) eqn:Hj; [done|]. apply join_all_nil in Hj as ->. wp_norm. split_and!; [done..|].
  eapply visit_all_spec; [exact Hp|apply names_NoDup|apply ready_config|exact Hf].
Qed.

Lemma first_set_cons s l : first_set (s :: l) = if String.eqb s "" then first_set l else Some s.
Proof. unfold first_set, nonempty. simpl. by destruct (String.eqb s ""). Qed.

(** C36: The value of a flag comes from the first of these that has one: the command line, the
    environment, the configuration file, the default.  The same holds for the home directory and
    the path of the configuration file, which come from the command line, the environment or the
    defaults, and a relative path is one in the home directory.  No flag is left with a value
    that does not parse, and nothing panics when the user has a home directory. *)
Theorem initializeConfig_precedence (c : Command FS) dir :
  UserHomeDir os = Ok dir → Forall (fun k => plain_key k = true) (VisitAll_names (cmd_Flags c)) →
  match initializeConfig (V:=V) os c with
  | (Ret _, c') =>
      cmd_HomeDir c' = home_of c dir ∧ cmd_CfgFile c' = config_of c dir ∧
      ∀ name, name ∈ VisitAll_names (cmd_Flags c) →
        takes_precedence (vw_file (viper_view (read_config (config_of c dir)))) (cmd_Flags c) (cmd_Flags c') name
  | (Throw _, _) => True
  | (Panic, _) => False
  end.
Proof.
  intros Hd Hp.
  enough (wp (initializeConfig (V:=V) os) (fun _ c' =>
    cmd_HomeDir c' = home_of c dir ∧ cmd_CfgFile c' = config_of c dir ∧
      ∀ name, name ∈ VisitAll_names (cmd_Flags c) →
        takes_precedence (vw_file (viper_view (read_config (config_of c dir)))) (cmd_Flags c) (cmd_Flags c') name)
    (fun _ _ => True) c) as H.
  { unfold wp in H. by destruct (initializeConfig os c) as [[]]. }
  unfold initializeConfig. change (ToUpper (append envPrefix (append "_" keyHome))) with (env_name "HOME").
  change (ToUpper (append envPrefix (append "_" keyConfig))) with (env_name "CONFIG"). wp_norm.
  eapply (wp_mono _ (fun _ c' => c' = set_HomeDir (home_of c dir) c) _ (fun _ _ => False)); [|intros [] ? ->|done].
  { unfold home_of, defaultHomeDir. rewrite !first_set_cons, Hd. destruct c as [h ? ?]. cbn [cmd_HomeDir].
    destruct (String.eqb_spec h ""); wp_norm; [|done]. by destruct (String.eqb (Getenv os _) ""); wp_norm. }
  wp_norm. set (path := default defaultConfigFile (first_set [cmd_CfgFile c; Getenv os (env_name "CONFIG")])).
  eapply (wp_mono _ (fun _ c' => c' = set_CfgFile path (set_HomeDir (home_of c dir) c)) _ (fun _ _ => False)); [|intros [] ? ->|done].
  { unfold path. rewrite !first_set_cons. destruct c as [? cf ?]. cbn [cmd_CfgFile set_HomeDir].
    destruct (String.eqb_spec cf ""); wp_norm; [|done]. by destruct (String.eqb (Getenv os _) ""). }
  wp_norm. simpl.
  eapply (wp_mono _ (fun _ c' => c' = mkCommand (home_of c dir) (config_of c dir) (cmd_Flags c)) _ (fun _ _ => False)); [|intros [] ? ->|done].
  { unfold config_of. fold path. by destruct (filepath_IsAbs path); wp_norm. }
  wp_norm. simpl.
  pose proof (bind_flags_wp (config_of c dir) (mkCommand (home_of c dir) (config_of c dir) (cmd_Flags c)) Hp) as Hb.
  simpl in Hb. unfold read_config in *.
  destruct (ReadInConfig _) as [v [[]|err]]; simpl in *; wp_norm; [done|].
  destruct (is_ConfigFileNotFoundError err); wp_norm; done.
Qed.
End precedence.
