(* ===== verification/NodeInvariant.v ===== *)
(** * The invariant of the partition node

    What every handler keeps: the blocks the node has committed are in its store, linked from
    the first certificate to the committed one; the latest certificate is complete and not
    older than the committed one; a leader is known only together with its technical record.
    [good n n'] says that [n'] satisfies the invariant and extends [n]: committed blocks are
    neither lost nor replaced and the latest certificate does not go back. *)

From Stdlib Require Import ZArith Lia Strings.Byte String.
From stdpp Require Import base list strings option gmap.
From S2P Require Import Prelude GoBase BftTypes Summary TxInterface Messages KVStore ShardConfStore Selector Node NodeOps Handlers.

(** ** Chains of stored blocks *)

Section chain.
Context {BT : BftTypes} {BL : BftLib} {AL : AccessorLaws BL} {OL : OrderLaws BL} {KL : KeyLaws BL}.
Implicit Types (m : gmap (list byte) Block) (f c : option UnicityCertificate).

Definition block_at m (r : Z) : option Block := m !! Uint64ToBytes r.

(** The committed rounds lie below a successor's. *)
Lemma successor_next u p :
  IsSuccessor u p = true →
  GetRoundNumber p <= GetRoundNumber (Some u) <= GetRoundNumber p + 1 ∧
  ∀ r, is_Some p → r <= GetRoundNumber p → r ≠ GetRoundNumber (Some u).
Proof.
  intros [->|[-> ->]]%IsSuccessor_round; [|rewrite GetRoundNumber_nil]; (split; [lia|]); intros r Hp Hr; [lia|].
  by destruct Hp.
Qed.

(** [chain m f c]: the blocks certified after [f] up to [c] are stored in [m], each under its
    round, and each certificate succeeds the one before. *)
Inductive chain m : option UnicityCertificate → option UnicityCertificate → Prop :=
  | chain_refl f : chain m f f
  | chain_step f c b u :
      chain m f c → IsSuccessor u c = true →
      block_at m (GetRoundNumber (Some u)) = Some b → getUCv1 (Some b) = Ok u →
      chain m f (Some u).

Lemma chain_rounds m f c : chain m f c → GetRoundNumber f <= GetRoundNumber c.
Proof.
  induction 1 as [|f c b u _ IH Hs _ _]; [lia|]. apply successor_next in Hs as [? _]. lia.
Qed.

(** A chain only depends on the blocks of its rounds. *)
Lemma chain_ext m m' f c :
  chain m f c →
  (∀ r, is_u64 r → is_Some c → r <= GetRoundNumber c → block_at m' r = block_at m r) →
  chain m' f c.
Proof.
  induction 1 as [|f c b u Hc IH Hs Hb Hu]; intros Hext; [constructor|].
  pose proof (successor_next _ _ Hs) as [Hr _].
  eapply chain_step; [|exact Hs| |exact Hu].
  - apply IH. intros r ? ? ?. apply Hext; [done|done|lia].
  - rewrite Hext; [done|apply GetRoundNumber_u64|done|lia].
Qed.

Lemma chain_trans m f g c : chain m f g → chain m g c → chain m f c.
Proof.
  intros Hf Hc. revert Hf. induction Hc as [|g c b u _ IH Hs Hb Hu]; intros Hf; [done|].
  by eapply chain_step; [apply IH| | |].
Qed.

(** Every round of a chain has its block, and the block carries the certificate of the round. *)
Lemma chain_block m f c r :
  chain m f c → GetRoundNumber f < r <= GetRoundNumber c →
  ∃ b u, block_at m r = Some b ∧ getUCv1 (Some b) = Ok u ∧ GetRoundNumber (Some u) = r.
Proof.
  induction 1 as [|f c b u Hc IH Hs Hb Hu]; intros Hr; [lia|].
  pose proof (successor_next _ _ Hs) as [Hn _].
  destruct (decide (r = GetRoundNumber (Some u))) as [->|]; [by eauto|]. apply IH. lia.
Qed.

(** The certified round is the next one: writing its block keeps the chain. *)
Lemma chain_extend m f c b u :
  chain m f c → IsSuccessor u c = true → getUCv1 (Some b) = Ok u →
  chain (<[Uint64ToBytes (GetRoundNumber (Some u)) := b]> m) f (Some u).
Proof.
  intros Hc Hs Hu. eapply chain_step; [|exact Hs| |exact Hu].
  - eapply chain_ext; [exact Hc|]. intros r Hr Hc' Hle. unfold block_at.
    rewrite lookup_insert_ne; [done|]. intros Heq.
    apply (f_equal BytesToUint64) in Heq.
    rewrite !BytesToUint64_ToBytes in Heq by (done || apply GetRoundNumber_u64).
    by apply (proj2 (successor_next _ _ Hs) r).
  - unfold block_at. by rewrite lookup_insert_eq.
Qed.

Lemma Uint64ToBytes_inj a b : is_u64 a → is_u64 b → Uint64ToBytes a = Uint64ToBytes b → a = b.
Proof.
  intros Ha Hb Heq. apply (f_equal BytesToUint64) in Heq.
  by rewrite !BytesToUint64_ToBytes in Heq.
Qed.

Lemma key_le_round a b : is_u64 a → is_u64 b → key_le (Uint64ToBytes a) (Uint64ToBytes b) → a <= b.
Proof. unfold key_le. intros Ha Hb. rewrite Uint64ToBytes_ltb by done. rewrite Z.ltb_ge. lia. Qed.

(** The key of the pending proposal is no round's. *)
Lemma proposalKey_ne r : Uint64ToBytes r ≠ Uint32ToBytes proposalKey.
Proof.
  intros Heq. apply (f_equal length) in Heq.
  rewrite Uint64ToBytes_length, Uint32ToBytes_length in Heq. lia.
Qed.
End chain.

(** ** Rules for the node's primitives *)

Section rules.
Context {BT : BftTypes} {BL : BftLib} {ML : MsgLib}.
Context {T W D DC : Type} {TS : TransactionSystem T W} {NE : NodeEnv W}.
Context {KVB : KeyValueDB D Block} {KVC : KeyValueDB DC PartitionDescriptionRecord}.
Implicit Types (n : Node T W D DC).

Lemma wp_tx {A} (m : M (T * W) A) Q E n :
  wp (tx m) Q E n ↔
  wp m (fun a s => Q a (set_world s.2 (set_tx s.1 n))) (fun e s => E e (set_world s.2 (set_tx s.1 n)))
    (nd_transactionSystem n, nd_world n).
Proof. unfold wp, tx. destruct (m _) as [[] []]; done. Qed.

Lemma wp_world {A} (f : W → A * W) Q E n :
  wp (world f) Q E n ↔ Q (f (nd_world n)).1 (set_world (f (nd_world n)).2 n).
Proof. unfold wp, world. by destruct (f _). Qed.

Lemma wp_worldM {A} (m : M W A) Q E n :
  wp (worldM m) Q E n ↔
  wp m (fun a w => Q a (set_world w n)) (fun e w => E e (set_world w n)) (nd_world n).
Proof. unfold wp, worldM. destruct (m _) as [[] ?]; done. Qed.

Lemma wp_confStore {A} (m : M (ShardConfStore DC) A) Q E n :
  wp (confStore m) Q E n ↔
  wp m (fun a s => Q a (set_shardConfStore s n)) (fun e s => E e (set_shardConfStore s n))
    (nd_shardConfStore n).
Proof. unfold wp, confStore. destruct (m _) as [[] ?]; done. Qed.

Lemma wp_blockDB f Q E n :
  wp (blockDB f) Q E n ↔
  let n' := set_blockStore (f (nd_blockStore n)).1 n in
  match (f (nd_blockStore n)).2 with Ok a => Q a n' | Fail e => E e n' end.
Proof. unfold wp, blockDB. destruct (f _) as [d []]; done. Qed.

Lemma wp_of_outcome {A} (o : outcome A) Q E n :
  wp (of_outcome o) Q E n ↔
  match o with Ret a => Q a n | Throw e => E e n | Panic => False end.
Proof. by destruct o. Qed.

Lemma wp_get_state {A} (f : ConsensusState → A) Q E n : wp (get_state f) Q E n ↔ Q (f (nd_state n)) n.
Proof. done. Qed.

Lemma wp_set_cs f Q E n : wp (set_cs f) Q E n ↔ Q tt (set_state (f (nd_state n)) n).
Proof. done. Qed.

Lemma wp_latestUC Q E n : wp latestUC Q E n ↔ Q (luc (nd_state n)) n.
Proof. done. Qed.

Lemma wp_latestTR Q E n : wp latestTR Q E n ↔ Q (ltr (nd_state n)) n.
Proof. done. Qed.

Lemma wp_committedUC Q E n : wp committedUC Q E n ↔ Q (CommittedUC (nd_transactionSystem n)) n.
Proof. done. Qed.

Lemma wp_revertState Q E n :
  wp revertState Q E n ↔ Q tt (set_tx (Revert (nd_transactionSystem n)) n).
Proof. done. Qed.

Lemma wp_resetProposal Q E n :
  wp resetProposal Q E n ↔ Q tt (set_state (cs_set_pending None (nd_state n)) n).
Proof. done. Qed.
End rules.

#[export] Hint Rewrite @wp_tx @wp_world @wp_worldM @wp_confStore @wp_blockDB @wp_of_outcome
  @wp_get_state @wp_set_cs @wp_latestUC @wp_latestTR @wp_committedUC @wp_revertState
  @wp_resetProposal : wp.

(** ** Genuine certificates *)

(** The shard whose nodes are considered. *)
Class Shard {BT : BftTypes} := { our_partition : Z; our_shard : ShardID }.

Section genuine.
Context {BT : BftTypes} {BL : BftLib} {W : Type} {NE : NodeEnv W} {SH : Shard}.

Definition of_shard (c : PartitionDescriptionRecord) : Prop :=
  pdr_PartitionID c = our_partition ∧ pdr_ShardID c = our_shard.

(** The trust bases are those the trust base store returns. *)
Definition trusted (tb : TrustBase) : Prop :=
  ∃ epoch w w', trustBase_GetByEpoch epoch w = (Ok tb, w').

(** A certificate of the shard that was verified against a trust base of the store. *)
Definition genuine (u : UnicityCertificate) : Prop :=
  ∃ tb alg sch x, trusted tb ∧ UC_Verify (Some u) tb alg our_partition our_shard sch = Ok x.

(** The parts of a certificate the node reads. *)
Definition complete_uc (u : UnicityCertificate) : Prop :=
  is_Some (uc_InputRecord u) ∧ is_Some (uc_UnicitySeal u).

Lemma genuine_complete {VL : VerifyLaws BL} u : genuine u → complete_uc u.
Proof. intros (tb & alg & sch & x & _ & Hv). by destruct (UC_Verify_parts _ _ _ _ _ _ _ Hv) as (? & [= <-] & ?). Qed.
End genuine.

(** ** The invariant *)

Section invariant.
Context {BT : BftTypes} {BL : BftLib} {SH : Shard}.
Context {T W D DC : Type} {TS : TransactionSystem T W} {NE : NodeEnv W}.
Context {KVB : KeyValueDB D Block} {KVBL : KeyValueDBLaws D Block}.
Context {KVC : KeyValueDB DC PartitionDescriptionRecord}.
Context {KVCL : KeyValueDBLaws DC PartitionDescriptionRecord}.
Implicit Types (n : Node T W D DC) (s : ConsensusState).

Definition blocks n : gmap (list byte) Block := db_map (nd_blockStore n).
Definition committed n : option UnicityCertificate := CommittedUC (nd_transactionSystem n).

(** What the validators promise: a certificate they accept for a configuration of the shard and
    a trust base of the store is genuine, and the one of a proposal is complete. *)
Record conf_ok (c : NodeConf) : Prop := {
  ucValidator_genuine uc conf tb x : of_shard conf → trusted tb →
    conf_ucValidator c uc (Some conf) tb = Ok x → ∃ u, uc = Some u ∧ genuine u;
  bpValidator_complete p conf tb x :
    conf_bpValidator c (Some p) conf tb = Ok x →
    ∃ u, bp_UnicityCertificate p = Some u ∧ complete_uc u;
}.

Record cs_ok s : Prop := {
  cs_luc_genuine u : luc s = Some u → genuine u;
  cs_leader_known : leader s ≠ ""%string → is_Some (ltr s);
  cs_ltr_luc : is_Some (ltr s) → is_Some (luc s);
  cs_recovering_pending : cs_status s = recovering → pendingBlockProposal s = None;
}.

Lemma cs_luc_complete {VL : VerifyLaws BL} s (H : cs_ok s) u : luc s = Some u → complete_uc u.
Proof. intros Hu. by apply genuine_complete, (cs_luc_genuine _ H). Qed.

(** The block store holds certified blocks under their rounds, and the pending proposal, which
    has an input record. *)
Definition has_record (b : Block) : Prop := ∀ u, getUCv1 (Some b) = Ok u → is_Some (uc_InputRecord u).
Definition certified_entry (k : list byte) (b : Block) : Prop :=
  ∃ u, getUCv1 (Some b) = Ok u ∧ genuine u ∧ k = Uint64ToBytes (GetRoundNumber (Some u)).
Definition blocks_ok (m : gmap (list byte) Block) : Prop :=
  map_Forall (fun k b => (k = Uint32ToBytes proposalKey ∧ has_record b) ∨ certified_entry k b) m.

(** The block of the committed round carries the committed certificate. *)
Definition top_stored (m : gmap (list byte) Block) (c : option UnicityCertificate) : Prop :=
  ∀ u, c = Some u → ∃ b, block_at m (GetRoundNumber c) = Some b ∧ getUCv1 (Some b) = Ok u.

(** No block is stored past the round after the committed one. *)
Definition bounded_by (m : gmap (list byte) Block) (c : option UnicityCertificate) : Prop :=
  ∀ r, is_u64 r → is_Some (block_at m r) → r <= GetRoundNumber c + 1.

(** The configurations of the node are those of its shard. *)
Definition confs_of_shard (s : ShardConfStore DC) : Prop := map_Forall (fun _ => of_shard) (db_map (scs_db s)).

(** A running timer has a goroutine that waits and is not cancelled; only the goroutine of the
    current context may be uncancelled. *)
Record timer_ok (t : roundTimer) : Prop := {
  timer_running : timer_isRunning t = true →
    ∃ g, timer_cancel t = Some g ∧ timer_goroutines t !! g = Some (mkTimerGoroutine TWaiting false);
  timer_current g tg : timer_goroutines t !! g = Some tg → tg_cancelled tg = false → timer_cancel t = Some g;
}.

Record Inv n : Prop := {
  inv_conf : conf_ok (nd_conf n);
  inv_cs : cs_ok (nd_state n);
  inv_chain : chain (blocks n) (fuc (nd_state n)) (committed n);
  inv_root : GetRootRoundNumber (committed n) <= GetRootRoundNumber (luc (nd_state n));
  inv_peer : nd_peerID n ≠ ""%string;
  inv_confStore : coherent (nd_shardConfStore n);
  inv_queue : Z.of_nat (length (nd_replicationCh n)) <= Z.max 0 (maxWorkers (conf_replicationConfig (nd_conf n)));
  inv_timer : timer_ok (nd_timer n);
  inv_blocks : blocks_ok (blocks n);
  inv_top : top_stored (blocks n) (committed n);
  inv_bound : bounded_by (blocks n) (committed n);
  inv_epochs : epoch_keys (nd_shardConfStore n);
  inv_shardConf : of_shard (nd_shardConf n);
  inv_confs : confs_of_shard (nd_shardConfStore n);
}.

(** The committed blocks of [n] are those of [n'], which may have more after them. *)
Record evolves n n' : Prop := {
  ev_conf : nd_conf n' = nd_conf n;
  ev_peer : nd_peerID n' = nd_peerID n;
  ev_fuc : fuc (nd_state n') = fuc (nd_state n);
  ev_root : GetRootRoundNumber (luc (nd_state n)) <= GetRootRoundNumber (luc (nd_state n'));
  ev_chain : chain (blocks n') (committed n) (committed n');
  ev_keep r : is_u64 r → is_Some (committed n) → r <= GetRoundNumber (committed n) →
    block_at (blocks n') r = block_at (blocks n) r;
}.

Definition good n n' : Prop := Inv n' ∧ evolves n n'.

(** A change the invariant does not see: the transaction system's uncertified state, the
    world, the messages sent, the entry of the pending proposal. *)
Record frame n n' : Prop := {
  fr_conf : nd_conf n' = nd_conf n;
  fr_state : nd_state n' = nd_state n;
  fr_blocks r : block_at (blocks n') r = block_at (blocks n) r;
  fr_committed : committed n' = committed n;
  fr_peer : nd_peerID n' = nd_peerID n;
  fr_confStore : nd_shardConfStore n' = nd_shardConfStore n;
  fr_queue : nd_replicationCh n' = nd_replicationCh n;
  fr_timer : timer_ok (nd_timer n) → timer_ok (nd_timer n');
  fr_entries : blocks_ok (blocks n) → blocks_ok (blocks n');
  fr_shardConf : of_shard (nd_shardConf n) → of_shard (nd_shardConf n');
}.

#[global] Instance frame_preorder : PreOrder frame.
Proof.
  split; [by intros n|]. intros n1 n2 n3 [] [].
  split; try congruence; auto.
Qed.
End invariant.

Section good.
Context {BT : BftTypes} {BL : BftLib} {AL : AccessorLaws BL} {OL : OrderLaws BL} {KL : KeyLaws BL} {SH : Shard}.
Context {T W D DC : Type} {TS : TransactionSystem T W} {NE : NodeEnv W}.
Context {KVB : KeyValueDB D Block} {KVBL : KeyValueDBLaws D Block}.
Context {KVC : KeyValueDB DC PartitionDescriptionRecord}.
Context {KVCL : KeyValueDBLaws DC PartitionDescriptionRecord}.
Implicit Types (n : Node T W D DC) (s : ConsensusState).

#[global] Instance evolves_preorder : PreOrder (evolves (T:=T) (W:=W) (D:=D) (DC:=DC)).
Proof.
  split.
  { intros n. split; try done; constructor. }
  intros n1 n2 n3 E12 E23.
  pose proof (chain_rounds _ _ _ (ev_chain _ _ E12)) as Hle.
  split.
  - by rewrite (ev_conf _ _ E23), (ev_conf _ _ E12).
  - by rewrite (ev_peer _ _ E23), (ev_peer _ _ E12).
  - by rewrite (ev_fuc _ _ E23), (ev_fuc _ _ E12).
  - etransitivity; [apply (ev_root _ _ E12)|apply E23].
  - eapply chain_trans; [|apply E23]. eapply chain_ext; [apply E12|].
    intros r ? ? ?. by apply (ev_keep _ _ E23).
  - intros r ? Hc ?. rewrite (ev_keep _ _ E23); [by apply E12|done| |lia].
    destruct (ev_chain _ _ E12); [done|by eexists].
Qed.

Lemma good_refl n : Inv n → good n n.
Proof. by split. Qed.

Lemma good_inv n n' : good n n' → Inv n'.
Proof. by intros []. Qed.

Lemma good_trans n1 n2 n3 : good n1 n2 → good n2 n3 → good n1 n3.
Proof. intros [_ ?] [? ?]. split; [done|by etransitivity]. Qed.

Lemma top_stored_ext (m m' : gmap (list byte) Block) c :
  top_stored m c → (∀ u, c = Some u → block_at m' (GetRoundNumber c) = block_at m (GetRoundNumber c)) →
  top_stored m' c.
Proof. intros Ht Hext u Hu. rewrite (Hext u Hu). by apply Ht. Qed.

Lemma bounded_by_ext (m m' : gmap (list byte) Block) c :
  bounded_by m c → (∀ r, block_at m' r = block_at m r) → bounded_by m' c.
Proof. intros Hb Hext r Hr. rewrite Hext. by apply Hb. Qed.

Lemma frame_good n n' : Inv n → frame n n' → good n n'.
Proof.
  intros [] []. assert (chain (blocks n') (fuc (nd_state n)) (committed n)) as Hc
    by (eapply chain_ext; eauto).
  split; split; rewrite ?fr_conf0, ?fr_state0, ?fr_committed0, ?fr_peer0, ?fr_confStore0, ?fr_queue0; try done.
  - by auto.
  - by auto.
  - by eapply top_stored_ext.
  - by eapply bounded_by_ext.
  - by auto.
  - constructor.
Qed.

(** A change of the consensus state that keeps the certificates. *)
Lemma good_set_state n s :
  Inv n → cs_ok s → fuc s = fuc (nd_state n) →
  GetRootRoundNumber (luc (nd_state n)) <= GetRootRoundNumber (luc s) →
  good n (set_state s n).
Proof.
  intros [] Hs Hf Hl. split; split; simpl; rewrite ?Hf; try done; [etransitivity; eauto|constructor].
Qed.

(** ** The block store *)

Lemma blocks_ok_insert m u b :
  blocks_ok m → getUCv1 (Some b) = Ok u → genuine u →
  blocks_ok (<[Uint64ToBytes (GetRoundNumber (Some u)) := b]> m).
Proof. intros Hm Hu Hc. apply map_Forall_insert_2; [|done]. right. by exists u. Qed.

Lemma blocks_ok_insert_proposal m b :
  blocks_ok m → has_record b → blocks_ok (<[Uint32ToBytes proposalKey := b]> m).
Proof. intros Hm Hb. apply map_Forall_insert_2; [|done]. by left. Qed.

Lemma blocks_ok_delete m k : blocks_ok m → blocks_ok (delete k m).
Proof. apply map_Forall_delete. Qed.

Lemma blocks_ok_key m k :
  blocks_ok m → is_Some (m !! k) → k = Uint32ToBytes proposalKey ∨ ∃ r, is_u64 r ∧ k = Uint64ToBytes r.
Proof.
  intros Hm [b Hb]. destruct (Hm _ _ Hb) as [[? _]|(u & _ & _ & ->)]; [by left|]. right.
  eexists. split; [apply GetRoundNumber_u64|done].
Qed.

(** The block stored under a round carries a genuine certificate of that round. *)
Lemma blocks_ok_block m r b :
  blocks_ok m → is_u64 r → block_at m r = Some b →
  ∃ u, getUCv1 (Some b) = Ok u ∧ genuine u ∧ GetRoundNumber (Some u) = r.
Proof.
  intros Hm Hr Hb. destruct (Hm _ _ Hb) as [[Hk _]|(u & Hu & Hc & Hk)].
  - by apply proposalKey_ne in Hk.
  - exists u. split_and!; [done|done|]. symmetry. by apply Uint64ToBytes_inj; [|apply GetRoundNumber_u64|].
Qed.

(** A change of the store above the committed round. *)
Lemma good_above n n' :
  Inv n → nd_conf n' = nd_conf n → nd_state n' = nd_state n → committed n' = committed n →
  nd_peerID n' = nd_peerID n → nd_shardConfStore n' = nd_shardConfStore n →
  nd_replicationCh n' = nd_replicationCh n → nd_timer n' = nd_timer n → nd_shardConf n' = nd_shardConf n →
  blocks_ok (blocks n') →
  (∀ r, is_u64 r → is_Some (committed n) → r <= GetRoundNumber (committed n) →
    block_at (blocks n') r = block_at (blocks n) r) →
  bounded_by (blocks n') (committed n) →
  good n n'.
Proof.
  intros [] Hcf Hs Hc Hp Hst Hq Ht Hsh Hk Hb Hbd.
  assert (chain (blocks n') (fuc (nd_state n)) (committed n)) as Hch.
  { eapply chain_ext; [done|]. intros r ? ? ?. by apply Hb. }
  split; split; rewrite ?Hcf, ?Hs, ?Hc, ?Hp, ?Hst, ?Hq, ?Ht, ?Hsh; try done.
  - eapply top_stored_ext; [done|]. intros u Hu. apply Hb; [apply GetRoundNumber_u64|by rewrite Hu|done].
  - constructor.
Qed.

(** The commit of the next round, once its block is stored. *)
Lemma good_commit n n' b u :
  Inv n → nd_conf n' = nd_conf n → nd_state n' = nd_state n → committed n' = Some u →
  nd_peerID n' = nd_peerID n → nd_shardConfStore n' = nd_shardConfStore n →
  nd_replicationCh n' = nd_replicationCh n → nd_timer n' = nd_timer n → nd_shardConf n' = nd_shardConf n →
  blocks n' = <[Uint64ToBytes (GetRoundNumber (Some u)) := b]> (blocks n) →
  IsSuccessor u (committed n) = true → getUCv1 (Some b) = Ok u → genuine u →
  GetRootRoundNumber (Some u) <= GetRootRoundNumber (luc (nd_state n)) →
  good n n'.
Proof.
  intros [] Hcf Hs Hc Hp Hst Hq Ht Hsh Hb Hsucc Hu Hcu Hr.
  split; split; rewrite ?Hcf, ?Hs, ?Hc, ?Hp, ?Hst, ?Hq, ?Ht, ?Hsh, ?Hb; try done.
  - by eapply chain_extend.
  - by apply blocks_ok_insert.
  - intros ? [= <-]. exists b. unfold block_at. by rewrite lookup_insert_eq.
  - intros r Hru Hsome. destruct (decide (r = GetRoundNumber (Some u))) as [->|Hne]; [lia|].
    pose proof (successor_next _ _ Hsucc) as [Hnext _]. specialize (inv_bound0 r Hru).
    unfold block_at in *. rewrite lookup_insert_ne in Hsome; [|intros Heq%Uint64ToBytes_inj; [by apply Hne|apply GetRoundNumber_u64|done]].
    specialize (inv_bound0 Hsome). lia.
  - eapply chain_extend; [constructor|done|done].
  - intros r ? ? ?. unfold block_at. rewrite lookup_insert_ne; [done|].
    intros Heq%Uint64ToBytes_inj; [|apply GetRoundNumber_u64|done].
    by apply (proj2 (successor_next _ _ Hsucc) r).
Qed.

(** ** The timer *)

Lemma lookup_cancel_goroutine g g' l tg :
  cancel_goroutine g l !! g' = Some tg → tg_cancelled tg = false → g' ≠ g ∧ l !! g' = Some tg.
Proof.
  unfold cancel_goroutine. rewrite list_lookup_alter. case_decide as Hg; [|by auto].
  subst. destruct (l !! g'); simpl; [|done]. by intros [= <-].
Qed.

Lemma timer_stop_ok t : timer_ok t → timer_ok (timer_stop t) ∧ timer_isRunning (timer_stop t) = false ∧
  ∀ g tg, timer_goroutines (timer_stop t) !! g = Some tg → tg_cancelled tg = true.
Proof.
  intros [_ Hcur]. unfold timer_stop. destruct (timer_cancel t) as [c|] eqn:Hc; split_and!; try done.
  - split; simpl; [done|]. intros g tg Hg Hf.
    destruct (lookup_cancel_goroutine _ _ _ _ Hg Hf) as [Hne Hg']. specialize (Hcur _ _ Hg' Hf). congruence.
  - intros g tg Hg. simpl in Hg. destruct (tg_cancelled tg) eqn:Hf; [done|].
    destruct (lookup_cancel_goroutine _ _ _ _ Hg Hf) as [Hne Hg']. specialize (Hcur _ _ Hg' Hf). congruence.
  - intros g tg Hg. destruct (tg_cancelled tg) eqn:Hf; [done|]. specialize (Hcur _ _ Hg Hf). congruence.
Qed.

Lemma timer_start_ok t : timer_ok t → timer_ok (timer_start t).
Proof.
  intros (_ & _ & Hall)%timer_stop_ok. unfold timer_start. split; simpl.
  - intros _. eexists. split; [done|]. by rewrite lookup_app_r, Nat.sub_diag by lia.
  - intros g tg Hg Hf. apply lookup_app_Some in Hg as [Hg|[Hle Hg]].
    + rewrite (Hall _ _ Hg) in Hf. done.
    + apply list_lookup_singleton_Some in Hg as [? _]. f_equal. lia.
Qed.

Lemma timer_act_ok g a t t' : timer_ok t → timer_act g a t = Some t' → timer_ok t'.
Proof.
  intros [Hrun Hcur]. unfold timer_act. destruct (timer_goroutines t !! g) as [tg|] eqn:Hg; [|done]. simpl.
  assert (∀ p r ev, (r = true → timer_isRunning t = true ∧ (tg_cancelled tg = true ∨ tg_phase tg ≠ TWaiting)) →
    timer_ok (mkRoundTimer r (timer_cancel t) ev (<[g := mkTimerGoroutine p (tg_cancelled tg)]> (timer_goroutines t))))
    as Hok.
  { intros p r ev Hr. split; simpl.
    - intros [Hr' Hne]%Hr. destruct (Hrun Hr') as (g' & Hc & Hg'). exists g'. split; [done|].
      rewrite list_lookup_insert_ne; [done|]. intros ->. simplify_eq. simpl in *. naive_solver.
    - intros g' tg'. rewrite list_lookup_insert. case_decide as Hd.
      + destruct Hd as [<- _]. intros [= <-]. simpl. by eauto.
      + by eauto. }
  destruct a, (tg_phase tg) eqn:Hp; try done; repeat case_match; try done; intros [= <-];
    apply Hok; naive_solver.
Qed.
End good.
