(* ===== verification/NodeQuiet.v ===== *)
(** * Operations of the node the invariant does not see

    Sending messages, reading state, executing a round without committing it, and the entry of
    the pending proposal: each of these does not panic and leaves a node that differs in nothing
    the invariant speaks about ([frame]). *)

From Stdlib Require Import ZArith Lia Strings.Byte String.
From stdpp Require Import base list strings option gmap.
From S2P Require Import Prelude GoBase BftTypes Summary TxInterface Messages KVStore ShardConfStore Selector Node NodeOps Handlers NodeInvariant.

Section rules.
Context {BT : BftTypes} {BL : BftLib} {ML : MsgLib}.
Context {AL : AccessorLaws BL} {OL : OrderLaws BL} {KL : KeyLaws BL} {VL : VerifyLaws BL} {CL : CborLaws BL} {SH : Shard}.
Context {T W D DC : Type} {TS : TransactionSystem T W} {TSL : TransactionSystemLaws T W} {NE : NodeEnv W}.
Context {KVB : KeyValueDB D Block} {KVBL : KeyValueDBLaws D Block}.
Context {KVC : KeyValueDB DC PartitionDescriptionRecord}.
Context {KVCL : KeyValueDBLaws DC PartitionDescriptionRecord}.
Implicit Types (n : Node T W D DC) (s : ConsensusState).
#[local] Abbreviation NodeM := (NodeM (T:=T) (W:=W) (D:=D) (DC:=DC)).

Definition quiet {A} n (m : NodeM A) : Prop := wp m (fun _ => frame n) (fun _ => frame n) n.

Lemma quiet_bind {A B} n (m : NodeM A) (k : A → NodeM B) :
  quiet n m → (∀ a n', frame n n' → quiet n' (k a)) → quiet n (m ≫= k).
Proof.
  intros Hm Hk. unfold quiet. rewrite wp_bind. eapply wp_mono; [exact Hm| |done].
  intros a n' Hf. eapply wp_mono; [by apply Hk| |]; intros ? ? Hf'; exact (transitivity Hf Hf').
Qed.

Lemma quiet_ret {A} n (a : A) : quiet n (mret a).
Proof. unfold quiet. by rewrite wp_ret. Qed.
Lemma quiet_throw {A} n e : quiet n (throw (A:=A) e).
Proof. unfold quiet. by rewrite wp_throw. Qed.
Lemma quiet_gets {A} n (f : Node T W D DC → A) : quiet n (gets f).
Proof. unfold quiet. by rewrite wp_gets. Qed.
Lemma quiet_lift {A} n (r : result A) : quiet n (lift r).
Proof. unfold quiet. rewrite wp_lift. by destruct r. Qed.
Lemma quiet_unless n b e : quiet n (unless b e).
Proof. unfold quiet. rewrite wp_unless. by destruct b. Qed.
Lemma quiet_deref {A} n (p : option A) : is_Some p → quiet n (deref p).
Proof. intros [a ->]. unfold quiet. by rewrite wp_deref. Qed.
Lemma quiet_try {A} n (m : NodeM A) : quiet n m → quiet n (try m).
Proof. unfold quiet. by rewrite wp_try. Qed.
Lemma quiet_wrapM {A} n msg (m : NodeM A) : quiet n m → quiet n (wrapM msg m).
Proof. unfold quiet. by rewrite wp_wrapM. Qed.
Lemma quiet_world {A} n (f : W → A * W) : quiet n (world f).
Proof. unfold quiet. by rewrite wp_world. Qed.
Lemma quiet_modify n f : frame n (f n) → quiet n (modify f).
Proof. unfold quiet. by rewrite wp_modify. Qed.

Lemma frame_add_sent n msg to : frame n (add_sent msg to n).
Proof. by split. Qed.
Lemma frame_set_lastLedgerReqTime n z : frame n (set_lastLedgerReqTime z n).
Proof. by split. Qed.
Lemma frame_set_timer n t : (timer_ok (nd_timer n) → timer_ok t) → frame n (set_timer t n).
Proof. by split. Qed.
Lemma frame_set_epochChangeEvent n b : frame n (set_epochChangeEvent b n).
Proof. by split. Qed.
Lemma frame_set_shardConf n c : of_shard c → frame n (set_shardConf c n).
Proof. by split. Qed.
Lemma frame_set_tx_world n t w :
  CommittedUC t = CommittedUC (nd_transactionSystem n) → frame n (set_world w (set_tx t n)).
Proof. by split. Qed.

End rules.

#[export] Hint Resolve quiet_ret quiet_throw quiet_gets quiet_lift quiet_unless quiet_try quiet_wrapM
  quiet_world quiet_modify frame_add_sent frame_set_lastLedgerReqTime frame_set_timer
  frame_set_epochChangeEvent frame_set_shardConf : node.

(** Step through a program made of quiet parts. *)
Ltac quiet_step :=
  first
  [ solve [eauto with node]
  | apply quiet_bind; [|intros]
  | match goal with
    | |- quiet _ (match ?x with _ => _ end) => destruct x eqn:?
    | |- quiet _ (let '(_, _) := ?x in _) => destruct x eqn:?
    end ].
Ltac quiet := repeat quiet_step.

Section operations.
Context {BT : BftTypes} {BL : BftLib} {ML : MsgLib}.
Context {AL : AccessorLaws BL} {OL : OrderLaws BL} {KL : KeyLaws BL} {VL : VerifyLaws BL} {CL : CborLaws BL} {SH : Shard}.
Context {T W D DC : Type} {TS : TransactionSystem T W} {TSL : TransactionSystemLaws T W} {NE : NodeEnv W}.
Context {KVB : KeyValueDB D Block} {KVBL : KeyValueDBLaws D Block}.
Context {KVC : KeyValueDB DC PartitionDescriptionRecord}.
Context {KVCL : KeyValueDBLaws DC PartitionDescriptionRecord}.
Implicit Types (n : Node T W D DC) (s : ConsensusState).
#[local] Abbreviation NodeM := (NodeM (T:=T) (W:=W) (D:=D) (DC:=DC)).

(** A method of the transaction system that does not commit. *)
Lemma quiet_tx {A} n (m : M (T * W) A) :
  (∀ t w, wp m (fun _ => same_committed t) (fun _ => same_committed t) (t, w)) → quiet n (tx m).
Proof.
  intros Hm. unfold quiet. rewrite wp_tx.
  eapply wp_mono; [apply Hm| |]; intros ? [t w] Hc; by apply frame_set_tx_world.
Qed.

Lemma quiet_LeaderPropose n r : quiet n (tx (LeaderPropose r)).
Proof. apply quiet_tx. intros. apply LeaderPropose_committed. Qed.
Lemma quiet_FollowerVerify n r root : quiet n (tx (FollowerVerify r root)).
Proof. apply quiet_tx. intros. apply FollowerVerify_committed. Qed.
Lemma quiet_UpdateConfig n c : quiet n (tx (UpdateConfig c)).
Proof. apply quiet_tx. intros. apply UpdateConfig_committed. Qed.
Lemma quiet_revertState n : quiet n revertState.
Proof. apply quiet_modify. split; try done. apply CommittedUC_Revert. Qed.
Hint Resolve quiet_LeaderPropose quiet_FollowerVerify quiet_UpdateConfig quiet_revertState : node.

(** The entry of the pending proposal is not a block's. *)
Lemma block_at_insert_proposal (m : gmap (list byte) Block) b r :
  block_at (<[Uint32ToBytes proposalKey := b]> m) r = block_at m r.
Proof. unfold block_at. rewrite lookup_insert_ne; [done|]. intros H. by apply (proposalKey_ne r). Qed.
Lemma block_at_delete_proposal (m : gmap (list byte) Block) r :
  block_at (delete (Uint32ToBytes proposalKey) m) r = block_at m r.
Proof. unfold block_at. rewrite lookup_delete_ne; [done|]. intros H. by apply (proposalKey_ne r). Qed.

Lemma quiet_storePendingProposal n b : has_record b → quiet n (storePendingProposal b).
Proof.
  intros Hrec. unfold quiet, storePendingProposal. wp_norm.
  destruct (db_Write _ b _) as [d []] eqn:Hw; simpl; split; try done; unfold blocks; simpl.
  - intros r. rewrite (Write_ok _ _ _ _ _ Hw). apply block_at_insert_proposal.
  - rewrite (Write_ok _ _ _ _ _ Hw). intros Hst. by apply blocks_ok_insert_proposal.
  - by rewrite (Write_err _ _ _ _ _ Hw).
  - by rewrite (Write_err _ _ _ _ _ Hw).
Qed.

Lemma quiet_deletePendingProposal n : quiet n deletePendingProposal.
Proof.
  unfold quiet, deletePendingProposal. wp_norm.
  destruct (db_Delete _ _) as [d []] eqn:Hw; simpl; split; try done; unfold blocks; simpl.
  - intros r. rewrite (Delete_ok _ _ _ _ Hw). apply block_at_delete_proposal.
  - rewrite (Delete_ok _ _ _ _ Hw). apply blocks_ok_delete.
  - by rewrite (Delete_err _ _ _ _ Hw).
  - by rewrite (Delete_err _ _ _ _ Hw).
Qed.

Lemma quiet_Send n msg to : quiet n (Send msg to).
Proof. unfold Send. quiet. Qed.
Lemma quiet_trustBase n e : quiet n (trustBase e).
Proof. unfold trustBase. quiet. Qed.
Hint Resolve quiet_deletePendingProposal quiet_Send quiet_trustBase : node.

Lemma quiet_latestUC n : quiet n latestUC.
Proof. apply quiet_gets. Qed.
Lemma quiet_latestTR n : quiet n latestTR.
Proof. apply quiet_gets. Qed.
Lemma quiet_committedUC n : quiet n committedUC.
Proof. apply quiet_gets. Qed.
Hint Resolve quiet_latestUC quiet_latestTR quiet_committedUC : node.

Lemma quiet_RootValidators n : quiet n RootValidators.
Proof. unfold RootValidators. quiet. Qed.
Lemma quiet_Validators n : quiet n Validators.
Proof. apply quiet_gets. Qed.
Hint Resolve quiet_RootValidators quiet_Validators : node.
Lemma quiet_FilterValidatorNodes n x : quiet n (FilterValidatorNodes x).
Proof. unfold FilterValidatorNodes. quiet. Qed.
Lemma quiet_currentRoundNumber n : quiet n currentRoundNumber.
Proof. unfold currentRoundNumber. quiet. Qed.
Hint Resolve quiet_FilterValidatorNodes quiet_currentRoundNumber : node.

Lemma quiet_currentEpoch n : cs_ok (nd_state n) → quiet n currentEpoch.
Proof.
  intros Hcs. unfold quiet, currentEpoch. wp_norm. destruct (ltr (nd_state n)); wp_norm; [done|].
  destruct (luc (nd_state n)) as [u|] eqn:Hl; wp_norm; [|done].
  destruct (cs_luc_complete _ Hcs u Hl) as [[ir ->] _]. by wp_norm.
Qed.

Lemma quiet_printUC n uc : (∀ u, uc = Some u → complete_uc u) → quiet n (printUC uc).
Proof.
  intros Hc. unfold printUC. destruct uc as [u|]; quiet. apply quiet_deref. by apply Hc.
Qed.

Lemma quiet_of_outcome {A} n (o : outcome A) : o ≠ Panic → quiet n (of_outcome o).
Proof. unfold quiet. rewrite wp_of_outcome. by destruct o. Qed.

Lemma quiet_sendHandshake n : quiet n sendHandshake.
Proof.
  unfold sendHandshake. apply quiet_bind; [|intros; quiet]. apply quiet_try. quiet.
  unfold quiet. rewrite wp_worldM.
  eapply wp_mono; [apply randomNodeSelector_total; done| |]; by split.
Qed.

Lemma quiet_sendBlockProposal n root : quiet n (sendBlockProposal root).
Proof. unfold sendBlockProposal. quiet. Qed.

Lemma quiet_try_peers n msg self peers : quiet n (try_peers msg self peers).
Proof. revert n. induction peers as [|p peers IH]; intros n; simpl; quiet. Qed.

Lemma quiet_sendLedgerReplicationRequest n : quiet n sendLedgerReplicationRequest.
Proof. unfold sendLedgerReplicationRequest. quiet; apply quiet_try_peers. Qed.

Lemma quiet_sendLedgerReplicationResponse n msg to : quiet n (sendLedgerReplicationResponse msg to).
Proof. unfold sendLedgerReplicationResponse. quiet. Qed.
Hint Resolve quiet_sendHandshake quiet_sendBlockProposal quiet_sendLedgerReplicationRequest
  quiet_sendLedgerReplicationResponse : node.

Lemma quiet_fetch_blocks n mx e it f : quiet n (fetch_blocks mx e it f).
Proof. revert n f. induction it as [|[key value] it IH]; intros n f; cbn [fetch_blocks]; quiet. Qed.
Hint Resolve quiet_fetch_blocks : node.

Lemma quiet_processReplicationRequest n lr : quiet n (processReplicationRequest lr).
Proof. unfold processReplicationRequest. quiet. Qed.

Lemma quiet_startT1Timer n : quiet n startT1Timer.
Proof. apply quiet_modify, frame_set_timer. apply timer_start_ok. Qed.
Lemma quiet_stopT1Timer n : quiet n stopT1Timer.
Proof. apply quiet_modify, frame_set_timer. apply timer_stop_ok. Qed.
Hint Resolve quiet_startT1Timer quiet_stopT1Timer : node.

Lemma quiet_ensureT1TimerState n : quiet n ensureT1TimerState.
Proof. unfold ensureT1TimerState. quiet. Qed.

Lemma quiet_elapsed n t d : quiet n (elapsed t d).
Proof. unfold elapsed. quiet. Qed.
Hint Resolve quiet_elapsed : node.

Lemma quiet_handleMonitoring n a b : quiet n (handleMonitoring a b).
Proof. unfold handleMonitoring, get_state. quiet. Qed.
End operations.

#[export] Hint Resolve quiet_LeaderPropose quiet_FollowerVerify quiet_UpdateConfig
  quiet_revertState quiet_deletePendingProposal quiet_Send
  quiet_trustBase quiet_latestUC quiet_latestTR quiet_committedUC quiet_RootValidators
  quiet_Validators quiet_FilterValidatorNodes quiet_currentRoundNumber quiet_sendHandshake
  quiet_sendBlockProposal quiet_sendLedgerReplicationRequest quiet_sendLedgerReplicationResponse
  quiet_fetch_blocks quiet_elapsed quiet_processReplicationRequest quiet_ensureT1TimerState
  quiet_handleMonitoring : node.
