(* ===== verification/NodeSafety.v ===== *)
(** * Every handler keeps the invariant

    For each operation of the node: it does not panic, and whether it succeeds or returns an
    error, the node it leaves is [good].  The transaction system is any implementation of its
    interface's laws. *)

From Stdlib Require Import ZArith Lia Strings.Byte String.
From stdpp Require Import base list strings option gmap.
From S2P Require Import Prelude GoBase BftTypes Summary TxInterface Messages KVStore ShardConfStore Selector Node NodeOps Handlers NodeInvariant NodeQuiet.

Section rules.
Context {BT : BftTypes} {BL : BftLib} {ML : MsgLib}.
Context {AL : AccessorLaws BL} {OL : OrderLaws BL} {KL : KeyLaws BL} {VL : VerifyLaws BL} {CL : CborLaws BL} {SH : Shard}.
Context {T W D DC : Type} {TS : TransactionSystem T W} {TSL : TransactionSystemLaws T W} {NE : NodeEnv W}.
Context {KVB : KeyValueDB D Block} {KVBL : KeyValueDBLaws D Block}.
Context {KVC : KeyValueDB DC PartitionDescriptionRecord}.
Context {KVCL : KeyValueDBLaws DC PartitionDescriptionRecord}.
Implicit Types (n : Node T W D DC) (s : ConsensusState).
#[local] Abbreviation NodeM := (NodeM (T:=T) (W:=W) (D:=D) (DC:=DC)).

(** ** Operations that keep the invariant *)

Definition safe {A} n (m : NodeM A) (Q : A → Node T W D DC → Prop) : Prop :=
  wp m (fun a n' => good n n' ∧ Q a n') (fun _ => good n) n.

Lemma safe_bind {A B} n (m : NodeM A) (k : A → NodeM B) Q R :
  safe n m Q → (∀ a n', good n n' → Q a n' → safe n' (k a) R) → safe n (m ≫= k) R.
Proof.
  intros Hm Hk. unfold safe. rewrite wp_bind. eapply wp_mono; [exact Hm| |done].
  intros a n' [Hg HQ]. eapply wp_mono; [by apply Hk| |].
  - intros b n'' [Hg' HR]. split; [by eapply good_trans|done].
  - intros e n'' Hg'. by eapply good_trans.
Qed.

Lemma safe_mono {A} n (m : NodeM A) (Q R : A → Node T W D DC → Prop) :
  safe n m Q → (∀ a n', good n n' → Q a n' → R a n') → safe n m R.
Proof. intros Hm H. eapply wp_mono; [exact Hm|naive_solver|done]. Qed.

Lemma safe_quiet {A} n (m : NodeM A) : Inv n → quiet n m → safe n m (fun _ => frame n).
Proof.
  intros Hi Hq. eapply wp_mono; [exact Hq| |]; intros; [split; [|done]|]; by apply frame_good.
Qed.

Lemma safe_throw {A} n e Q : Inv n → safe n (throw (A:=A) e) Q.
Proof. intros. unfold safe. rewrite wp_throw. by apply good_refl. Qed.

Lemma safe_ret {A} n (a : A) (Q : A → Node T W D DC → Prop) : Inv n → Q a n → safe n (mret a) Q.
Proof. intros. unfold safe. rewrite wp_ret. split; [by apply good_refl|done]. Qed.

Lemma safe_wrapM {A} n msg (m : NodeM A) Q : safe n m Q → safe n (wrapM msg m) Q.
Proof. unfold safe. by rewrite wp_wrapM. Qed.

Lemma safe_try {A} n (m : NodeM A) Q :
  safe n m Q → safe n (try m) (fun r n' => ∀ a, r = Ok a → Q a n').
Proof.
  unfold safe. rewrite wp_try. intros Hm. eapply wp_mono; [exact Hm| |]; naive_solver.
Qed.

Lemma safe_get_state {A} n (f : ConsensusState → A) :
  Inv n → safe n (get_state f) (fun a n' => n' = n ∧ a = f (nd_state n)).
Proof. intros. unfold safe. rewrite wp_get_state. split; [by apply good_refl|done]. Qed.

Lemma safe_gets {A} n (f : Node T W D DC → A) :
  Inv n → safe n (gets f) (fun a n' => n' = n ∧ a = f n).
Proof. intros. unfold safe. rewrite wp_gets. split; [by apply good_refl|done]. Qed.

Lemma safe_set_cs n f :
  Inv n → cs_ok (f (nd_state n)) → fuc (f (nd_state n)) = fuc (nd_state n) →
  GetRootRoundNumber (luc (nd_state n)) <= GetRootRoundNumber (luc (f (nd_state n))) →
  safe n (set_cs f) (fun _ n' => n' = set_state (f (nd_state n)) n).
Proof. intros. unfold safe. rewrite wp_set_cs. split; [by apply good_set_state|done]. Qed.

(** The last step of a handler that is quiet and whose result nobody needs. *)
Definition any {A} : A → Node T W D DC → Prop := fun _ _ => True.

Lemma safe_quiet_any {A} n (m : NodeM A) : Inv n → quiet n m → safe n m any.
Proof. intros Hi Hq. eapply safe_mono; [by apply safe_quiet|done]. Qed.
End rules.

#[export] Hint Resolve good_inv good_refl inv_cs : node.

Section safety.
Context {BT : BftTypes} {BL : BftLib} {ML : MsgLib}.
Context {AL : AccessorLaws BL} {OL : OrderLaws BL} {KL : KeyLaws BL} {VL : VerifyLaws BL} {CL : CborLaws BL} {SH : Shard}.
Context {T W D DC : Type} {TS : TransactionSystem T W} {TSL : TransactionSystemLaws T W} {NE : NodeEnv W}.
Context {KVB : KeyValueDB D Block} {KVBL : KeyValueDBLaws D Block}.
Context {KVC : KeyValueDB DC PartitionDescriptionRecord}.
Context {KVCL : KeyValueDBLaws DC PartitionDescriptionRecord}.
Implicit Types (n : Node T W D DC) (s : ConsensusState).
#[local] Abbreviation NodeM := (NodeM (T:=T) (W:=W) (D:=D) (DC:=DC)).

(** *** The consensus state *)

Lemma cs_ok_pending s b : cs_ok s → (b = None ∨ cs_status s ≠ recovering) → cs_ok (cs_set_pending b s).
Proof. intros [] Hb. split; simpl; try done. intros. by destruct Hb. Qed.

Lemma cs_ok_recoveryLastProp s p : cs_ok s → cs_ok (cs_set_recoveryLastProp p s).
Proof. by intros []; split. Qed.

Lemma cs_ok_status s x : cs_ok s → x ≠ recovering → cs_ok (cs_set_status x s).
Proof. by intros []; split. Qed.

Lemma cs_ok_luc s u tr l :
  cs_ok s → genuine u → (l ≠ ""%string → is_Some tr) → cs_ok (cs_set_luc (Some u) tr l s).
Proof. intros [] Hu Hl. split; simpl; eauto. by intros ? [= <-]. Qed.

(** *** New rounds and recovery *)

Lemma safe_startNewRound n :
  Inv n →
  safe n startNewRound (fun _ n' =>
    committed n' = committed n ∧ nd_state n' = cs_set_pending None (nd_state n)).
Proof.
  intros Hi. unfold startNewRound, resetProposal. eapply safe_bind.
  { apply safe_set_cs; try done. apply cs_ok_pending; eauto with node. }
  intros _ n1 Hg ->. eapply safe_mono; [apply safe_quiet; eauto with node|].
  intros _ n2 _ [Hc Hs _ Hcom _ _ _ _ _ _]. by rewrite Hs, Hcom.
Qed.

(** Once recovery is started nothing uncertified is left. *)
Lemma safe_startRecovery n :
  Inv n →
  safe n startRecovery (fun _ n' =>
    committed n' = committed n ∧ luc (nd_state n') = luc (nd_state n) ∧
    cs_status (nd_state n') = recovering ∧ pendingBlockProposal (nd_state n') = None).
Proof.
  intros Hi. unfold startRecovery. eapply safe_bind; [by apply safe_get_state|].
  intros st n0 Hg [-> ->]. case_bool_decide as Hst.
  { apply safe_ret; [done|]. split_and!; try done. by apply cs_recovering_pending; [apply inv_cs|]. }
  set (n1 := set_state (cs_set_pending None (cs_set_status recovering (nd_state n)))
    (set_tx (Revert (nd_transactionSystem n)) n)).
  assert (good n n1) as Hg1.
  { eapply (good_trans _ (set_tx (Revert (nd_transactionSystem n)) n)).
    - apply frame_good; [done|]. split; try done. apply CommittedUC_Revert.
    - apply good_set_state; try done.
      + eapply good_inv, (frame_good n); [done|]. split; try done. apply CommittedUC_Revert.
      + destruct (inv_cs _ Hi). by split. }
  unfold safe. wp_norm.
  refine (wp_mono _ _ _ _ _ _ (quiet_sendLedgerReplicationRequest n1) _ _).
  - intros _ n2 Hf. split; [eapply good_trans; [done|]; apply frame_good; eauto with node|].
    destruct Hf as [_ -> _ Hcom _ _ _ _ _ _]. unfold n1 in Hcom. unfold committed in *. simpl in *.
    by rewrite Hcom, CommittedUC_Revert.
  - intros _ n2 Hf. eapply good_trans; [done|]. apply frame_good; eauto with node.
Qed.

Lemma safe_recover {A} n e (Q : A → Node T W D DC → Prop) : Inv n → safe n (startRecovery;; throw e) Q.
Proof.
  intros Hi. eapply safe_bind; [by apply safe_startRecovery|]. intros. apply safe_throw. eauto with node.
Qed.

Lemma safe_revert {A} n e (Q : A → Node T W D DC → Prop) : Inv n → safe n (revertState;; throw e) Q.
Proof.
  intros Hi. eapply safe_bind; [apply safe_quiet; eauto with node|]. intros. apply safe_throw. eauto with node.
Qed.

(** *** The latest certificate *)

Lemma safe_trustBase n epoch : Inv n → safe n (trustBase epoch) (fun tb n' => frame n n' ∧ trusted tb).
Proof.
  intros Hi. unfold safe, trustBase. wp_norm. destruct (trustBase_GetByEpoch epoch (nd_world n)) as [[tb|] w] eqn:Ht; simpl.
  - assert (frame n (set_world w n)) as Hf by done. split; [by apply frame_good|]. split; [done|]. by exists epoch, (nd_world n), w.
  - by apply frame_good.
Qed.

(** What a successful [updateLUC] leaves: a valid certificate, not newer than the latest one;
    it is the latest one unless it was a duplicate or, in recovery, an older one. *)
Record luc_updated n (u : UnicityCertificate) n' : Prop := {
  lu_genuine : genuine u;
  lu_status : cs_status (nd_state n') = cs_status (nd_state n);
  lu_pending : pendingBlockProposal (nd_state n') = pendingBlockProposal (nd_state n);
  lu_committed : committed n' = committed n;
  lu_root : GetRootRoundNumber (Some u) <= GetRootRoundNumber (luc (nd_state n'));
  lu_luc : luc (nd_state n') = Some u ∨
    luc (nd_state n') = luc (nd_state n) ∧
    (IsDuplicate u (luc (nd_state n)) = true ∧ is_Some (ltr (nd_state n)) ∨
     cs_status (nd_state n) = recovering);
}.

Lemma luc_updated_frame n n1 u n' : frame n n1 → luc_updated n1 u n' → luc_updated n u n'.
Proof.
  intros [_ Hs _ Hc _ _ _ _ _ _] [? H2 H3 H4 ? H6]. rewrite Hs in *.
  split; try done. by rewrite H4.
Qed.

Lemma root_check n u x :
  match luc (nd_state n) with
  | None => x = Ok tt
  | Some l => CheckNonEquivocatingCertificates l u = x
  end → x = Ok tt → GetRootRoundNumber (luc (nd_state n)) <= GetRootRoundNumber (Some u).
Proof.
  intros Hx ->. destruct (luc (nd_state n)); [by eapply CheckNonEquivocating_root|].
  rewrite GetRootRoundNumber_nil. pose proof (GetRootRoundNumber_u64 (Some u)) as []. lia.
Qed.

(** The assignments at the end of [updateLUC]. *)
Lemma safe_set_luc n u tr l :
  Inv n → genuine u → (l ≠ ""%string → is_Some tr) →
  GetRootRoundNumber (luc (nd_state n)) <= GetRootRoundNumber (Some u) →
  good n (set_state (cs_set_luc (Some u) tr l (nd_state n)) n) ∧
  luc_updated n u (set_state (cs_set_luc (Some u) tr l (nd_state n)) n).
Proof.
  intros Hi Hu Hl Hr. split.
  - apply good_set_state; try done. apply cs_ok_luc; eauto with node.
  - split; simpl; try done. by left.
Qed.

Lemma safe_epoch_change n prevEpoch :
  Inv n →
  safe n (newEpoch ← currentEpoch;
    confEpoch ← gets (fun n => pdr_Epoch (nd_shardConf n));
    if negb (prevEpoch =? newEpoch) || negb (confEpoch =? newEpoch)
    then modify (set_epochChangeEvent true) else mret tt) (fun _ => frame n).
Proof.
  intros Hi. apply safe_quiet; [done|]. pose proof (quiet_currentEpoch n (inv_cs _ Hi)). quiet.
Qed.

Lemma safe_assign_luc n u tr prevEpoch :
  Inv n → genuine u →
  GetRootRoundNumber (luc (nd_state n)) <= GetRootRoundNumber (Some u) →
  safe n
    (match tr with
     | Some t =>
         leaderPeerID ← wrapM "decoding leader peerID" (lift (peer_Decode (tr_Leader t)));
         set_cs (fun s => cs_set_luc (luc s) (Some t) leaderPeerID s)
     | None => set_cs (fun s => cs_set_luc (luc s) None ""%string s)
     end;;
     set_cs (fun s => cs_set_luc (Some u) (ltr s) (leader s) s);;
     newEpoch ← currentEpoch;
     confEpoch ← gets (fun n => pdr_Epoch (nd_shardConf n));
     if negb (prevEpoch =? newEpoch) || negb (confEpoch =? newEpoch)
     then modify (set_epochChangeEvent true) else mret tt) (fun _ => luc_updated n u).
Proof.
  intros Hi Hu Hr.
  assert (∀ tr l, (l ≠ ""%string → is_Some tr) →
    let n1 := set_state (cs_set_luc (Some u) tr l (nd_state n)) n in
    wp (newEpoch ← currentEpoch;
        confEpoch ← gets (fun n => pdr_Epoch (nd_shardConf n));
        if negb (prevEpoch =? newEpoch) || negb (confEpoch =? newEpoch)
        then modify (set_epochChangeEvent true) else mret tt)
      (fun _ n' => good n n' ∧ luc_updated n u n') (fun _ => good n) n1) as Hrest.
  { intros tr' l Hl n1. destruct (safe_set_luc n u tr' l Hi Hu Hl Hr) as [Hg Hlu].
    eapply wp_mono; [apply (safe_epoch_change n1 prevEpoch); by eapply good_inv| |].
    - intros ? n2 [Hg2 Hf]. split; [by eapply good_trans|].
      destruct Hf as [_ Hs _ Hc _ _ _ _ _ _]. destruct Hlu. split; rewrite ?Hs, ?Hc; done.
    - intros ? n2 Hg2. by eapply good_trans. }
  unfold safe. rewrite wp_bind. destruct tr as [t|].
  - rewrite wp_bind, wp_wrapM, wp_lift. destruct (peer_Decode (tr_Leader t)) as [l|]; [|by apply good_refl].
    rewrite wp_set_cs, wp_bind, wp_set_cs. apply (Hrest (Some t) l). eauto.
  - rewrite wp_set_cs, wp_bind, wp_set_cs. by apply (Hrest None ""%string).
Qed.

Lemma safe_updateLUC n uc tr :
  Inv n → safe n (updateLUC uc tr) (fun _ n' => ∃ u, uc = Some u ∧ luc_updated n u n').
Proof.
  intros Hi. unfold updateLUC. destruct uc as [u|]; [|by apply safe_throw].
  eapply safe_bind; [by apply safe_wrapM, safe_trustBase|]. intros tb n1 Hg1 [Hf1 Htb].
  assert (Inv n1) as Hi1 by eauto with node.
  eapply (safe_mono _ _ (fun _ => luc_updated n1 u));
    [|intros ? n' ? Hlu; exists u; split; [done|exact (luc_updated_frame _ _ _ _ Hf1 Hlu)]].
  eapply safe_bind; [by apply safe_gets|]. intros ? ? _ [-> ->]. unfold safe.
  rewrite wp_bind, wp_wrapM, wp_lift.
  destruct (conf_ucValidator _ _ _ _) as [x|] eqn:Hv; [|by apply good_refl].
  destruct (ucValidator_genuine _ (inv_conf _ Hi1) _ _ _ _ (inv_shardConf _ Hi1) Htb Hv) as (u' & [= <-] & Hu).
  rewrite wp_bind, wp_latestUC, wp_bind, wp_get_state.
  destruct (bool_decide (cs_status (nd_state n1) = recovering) && _) eqn:Hold.
  { apply andb_true_iff in Hold as [Hrec%bool_decide_eq_true Hlt%Z.ltb_lt].
    apply safe_ret; [done|]. split; try done; [lia|]. right. auto. }
  eapply (safe_bind _ _ _ (fun _ => frame n1)).
  { apply safe_quiet; [done|]. destruct (bool_decide (_ = initializing)); [quiet|].
    apply quiet_bind; [apply quiet_printUC; apply (cs_luc_complete _ (inv_cs _ Hi1))|].
    intros. apply quiet_printUC. intros ? [= <-]. by apply genuine_complete. }
  intros _ n2 Hg2 Hf2. assert (Inv n2) as Hi2 by eauto with node.
  eapply (safe_mono _ _ (fun _ => luc_updated n2 u)); [|intros ? n' ? Hlu; exact (luc_updated_frame _ _ _ _ Hf2 Hlu)].
  replace (luc (nd_state n1)) with (luc (nd_state n2)) by (by rewrite (fr_state _ _ Hf2)).
  eapply (safe_bind _ _ _ (fun _ n' => n' = n2 ∧
    GetRootRoundNumber (luc (nd_state n2)) <= GetRootRoundNumber (Some u))).
  { unfold safe. pose proof (root_check n2 u (Ok tt)) as Hroot.
    destruct (luc (nd_state n2)) as [l|]; wp_norm; [|by split; [apply good_refl|auto]].
    destruct (CheckNonEquivocatingCertificates l u) as [[]|]; wp_norm.
    - by split; [apply good_refl|auto].
    - destruct (genuine_complete _ Hu) as [[ir ->] _]. by apply good_refl. }
  intros _ ? _ [-> Hroot]. unfold safe. rewrite wp_bind, wp_latestTR.
  destruct (IsDuplicate u _ && bool_decide _) eqn:Hdup.
  { apply andb_true_iff in Hdup as [Hd Ht%bool_decide_eq_true]. apply safe_ret; [done|].
    split; try done; [by rewrite (IsDuplicate_root _ _ Hd)|]. right. auto. }
  eapply safe_bind; [apply safe_quiet; [done|apply quiet_currentEpoch; eauto with node]|].
  intros prevEpoch n3 Hg3 Hf3.
  eapply safe_mono; [apply (safe_assign_luc n3 u tr prevEpoch)|]; [by eauto with node|done| |].
  - by rewrite (fr_state _ _ Hf3).
  - intros ? n' ? Hlu. exact (luc_updated_frame _ _ _ _ Hf3 Hlu).
Qed.

(** *** Finalizing a block *)

Definition finalized n (b : Block) (u : UnicityCertificate) n' : Prop :=
  committed n' = Some u ∧ nd_state n' = nd_state n ∧
  block_at (blocks n') (GetRoundNumber (Some u)) = Some b.

(** After an error nothing is committed and the block is not left in the store, unless deleting
    it failed, which the error then says. *)
Definition finalize_failed n (u : UnicityCertificate) (e : error) n' : Prop :=
  committed n' = committed n ∧ nd_state n' = nd_state n ∧
  (block_at (blocks n') (GetRoundNumber (Some u)) = block_at (blocks n) (GetRoundNumber (Some u)) ∨
   block_at (blocks n') (GetRoundNumber (Some u)) = None ∨ ∃ e1 e2, e = ErrJoin e1 e2).

(** A node that differs only in the block of the round after the committed one. *)
Definition next_round_differs n u n1 : Prop :=
  nd_conf n1 = nd_conf n ∧ nd_state n1 = nd_state n ∧ committed n1 = committed n ∧
  nd_peerID n1 = nd_peerID n ∧ nd_shardConfStore n1 = nd_shardConfStore n ∧
  nd_replicationCh n1 = nd_replicationCh n ∧ nd_timer n1 = nd_timer n ∧ nd_shardConf n1 = nd_shardConf n ∧
  blocks_ok (blocks n1) ∧
  ∀ r, is_u64 r → r ≠ GetRoundNumber (Some u) → block_at (blocks n1) r = block_at (blocks n) r.

Lemma next_round_good n u n1 :
  Inv n → IsSuccessor u (committed n) = true → next_round_differs n u n1 → good n n1.
Proof.
  intros Hi Hs (? & ? & ? & ? & ? & ? & ? & ? & ? & Hb).
  pose proof (successor_next _ _ Hs) as [Hnext Hne].
  apply good_above; try done.
  - intros r Hr Hc Hle. apply Hb; [done|]. by apply Hne.
  - intros r Hr Hsome. destruct (decide (r = GetRoundNumber (Some u))) as [->|Hru]; [lia|].
    rewrite Hb in Hsome by done. by apply (inv_bound _ Hi).
Qed.

Lemma deleteBlock_wp n n1 u err :
  Inv n → IsSuccessor u (committed n) = true → next_round_differs n u n1 →
  wp (r2 ← try (deleteBlock (Uint64ToBytes (GetRoundNumber (Some u))));
      match r2 with
      | Ok _ => throw err
      | Fail err2 => throw (ErrJoin err (ErrWrap "unable to delete block from store" err2))
      end)
    (fun (_ : unit) _ => False) (fun e n' => good n n' ∧ finalize_failed n u e n') n1.
Proof.
  intros Hi Hs Hn. unfold deleteBlock. wp_norm.
  destruct (db_Delete _ _) as [d r] eqn:Hd. cbn [fst snd].
  assert (good n (set_blockStore d n1)) as Hg.
  { destruct Hn as (? & ? & ? & ? & ? & ? & ? & ? & Hk & Hb).
    apply (next_round_good n u); [done|done|]. unfold next_round_differs, blocks. simpl.
    destruct r as [x|]; [rewrite (Delete_ok _ _ _ _ Hd)|rewrite (Delete_err _ _ _ _ Hd)]; split_and!; try done.
    - by apply blocks_ok_delete.
    - intros r Hr Hne. rewrite <-Hb by done. unfold block_at. rewrite lookup_delete_ne; [done|].
      intros Heq%Uint64ToBytes_inj; [by apply Hne|apply GetRoundNumber_u64|done]. }
  destruct Hn as (_ & Hst & Hc & _). destruct r; wp_norm; (split; [done|]); split_and!; try done.
  - right. left. unfold blocks, block_at. simpl. by rewrite (Delete_ok _ _ _ _ Hd), lookup_delete_eq.
  - right. right. eauto.
Qed.

Lemma finalizeBlock_wp n b u :
  Inv n → cs_status (nd_state n) ≠ initializing →
  IsSuccessor u (committed n) = true → getUCv1 (Some b) = Ok u → genuine u →
  GetRootRoundNumber (Some u) <= GetRootRoundNumber (luc (nd_state n)) →
  wp (finalizeBlock b u) (fun _ n' => good n n' ∧ finalized n b u n')
    (fun e n' => good n n' ∧ finalize_failed n u e n') n.
Proof.
  intros Hi Hst Hs Hu Hcu Hr.
  unfold finalizeBlock, storeBlock. wp_norm. rewrite bool_decide_eq_false_2 by done. cbn [negb]. wp_norm.
  destruct (db_Write _ b (nd_blockStore n)) as [d []] eqn:Hw; cbn [fst snd].
  2: { apply Write_err in Hw. assert (blocks (set_blockStore d n) = blocks n) as Hb by done. split.
    - apply (next_round_good n u); [done|done|]. unfold next_round_differs. rewrite Hb.
      split_and!; try done. apply Hi.
    - split_and!; try done. left. by rewrite Hb. }
  apply Write_ok in Hw. wp_norm. cbn [fst snd].
  eapply wp_mono; [apply Commit_spec| |].
  - intros _ [t w] [Hc _]. simpl in *. wp_norm. split.
    + eapply good_commit; try done.
    + split_and!; try done. unfold blocks, block_at. simpl. by rewrite Hw, lookup_insert_eq.
  - intros e [t w] Hc. unfold same_committed in Hc. simpl in *.
    eapply wp_mono; [apply (deleteBlock_wp n); [done|done|]|done|done].
    unfold next_round_differs, blocks, block_at. simpl. rewrite Hw. split_and!; try done.
    + apply blocks_ok_insert; [apply Hi|done|done].
    + intros r Hr' Hne. rewrite lookup_insert_ne; [done|].
      intros Heq%Uint64ToBytes_inj; [by apply Hne|apply GetRoundNumber_u64|done].
Qed.

Lemma safe_finalizeBlock n b u :
  Inv n → cs_status (nd_state n) ≠ initializing →
  IsSuccessor u (committed n) = true → getUCv1 (Some b) = Ok u → genuine u →
  GetRootRoundNumber (Some u) <= GetRootRoundNumber (luc (nd_state n)) →
  safe n (finalizeBlock b u) (fun _ => finalized n b u).
Proof.
  intros. eapply wp_mono; [by apply finalizeBlock_wp|done|]. by intros ? ? [? _].
Qed.
End safety.
