(* ===== verification/HandlerSafety.v ===== *)
(** * The handlers keep the invariant

    The message handlers, the timer and epoch events, and one iteration of the loop. *)

From Stdlib Require Import ZArith Lia Strings.Byte String.
From stdpp Require Import base list strings option gmap.
From S2P Require Import Prelude GoBase BftTypes Summary TxInterface Messages KVStore ShardConfStore Selector Node NodeOps Handlers NodeInvariant NodeQuiet NodeSafety.

#[export] Hint Resolve safe_startNewRound safe_recover safe_revert safe_throw safe_quiet_any : node.

Section handlers.
Context {BT : BftTypes} {BL : BftLib} {ML : MsgLib}.
Context {AL : AccessorLaws BL} {OL : OrderLaws BL} {KL : KeyLaws BL} {VL : VerifyLaws BL} {CL : CborLaws BL} {SH : Shard}.
Context {T W D DC : Type} {TS : TransactionSystem T W} {TSL : TransactionSystemLaws T W} {NE : NodeEnv W}.
Context {KVB : KeyValueDB D Block} {KVBL : KeyValueDBLaws D Block}.
Context {KVC : KeyValueDB DC PartitionDescriptionRecord}.
Context {KVCL : KeyValueDBLaws DC PartitionDescriptionRecord}.
Implicit Types (n : Node T W D DC) (s : ConsensusState).
#[local] Abbreviation NodeM := (NodeM (T:=T) (W:=W) (D:=D) (DC:=DC)).

Lemma safe_any {A} n (m : NodeM A) Q : safe n m Q → safe n m any.
Proof. intros Hm. eapply safe_mono; [exact Hm|done]. Qed.

(** ** Certificates *)

Definition not_recovering n : Prop := cs_status (nd_state n) ≠ recovering.

Lemma safe_certify_without_proposal n u :
  Inv n → not_recovering n →
  safe n (certify_without_proposal u) (fun _ n' => not_recovering n' ∧ committed n' = committed n).
Proof.
  intros Hi Hr.
  assert (safe n startNewRound (fun _ n' => not_recovering n' ∧ committed n' = committed n)) as Hnew.
  { eapply safe_mono; [by apply safe_startNewRound|].
    intros ? n' _ [Hc Hs]. unfold not_recovering. by rewrite Hs. }
  unfold certify_without_proposal. destruct (IsInitial u); [done|].
  eapply safe_bind; [by apply safe_gets|]. intros ? ? _ [-> ->].
  destruct (StateSummary _) as [st|]; [|by apply safe_recover].
  do 2 (case_match; [by apply safe_recover|]). done.
Qed.

Lemma getUCv1_marshalled b u bs : Cbor_Marshal_UC u = Ok bs → getUCv1 (Some (blk_set_UC bs b)) = Ok u.
Proof.
  intros Hm. simpl. rewrite (Marshal_UC_not_nil _ _ Hm). by apply Unmarshal_Marshal_UC.
Qed.

(** The certificate [u] certifies the input record of the proposal [b], which is committed and
    stored with the certificate in it; no proposal is pending any more. *)
Definition certified (b : Block) (u : UnicityCertificate) n' : Prop :=
  committed n' = Some u ∧ pendingBlockProposal (nd_state n') = None ∧
  ∃ ir x bs, Block_InputRecord b = Ok ir ∧ AssertEqualIR ir (uc_InputRecord u) = Ok x ∧
    Cbor_Marshal_UC u = Ok bs ∧
    block_at (blocks n') (GetRoundNumber (Some u)) = Some (blk_set_UC bs b).

Lemma safe_certify_proposal n b u :
  Inv n → cs_status (nd_state n) = normal → luc (nd_state n) = Some u →
  IsSuccessor u (committed n) = true →
  safe n (certify_proposal b u) (fun _ n' => not_recovering n' ∧ certified b u n').
Proof.
  intros Hi Hst Hluc Hs. unfold certify_proposal.
  assert (∀ x, safe n (set_cs (cs_set_pending x))
    (fun _ n' => n' = set_state (cs_set_pending x (nd_state n)) n)) as Hset.
  { intros x. apply safe_set_cs; try done. apply cs_ok_pending; [apply Hi|]. right. by rewrite Hst. }
  destruct (Block_InputRecord b) as [ir|] eqn:Hir; [|by apply safe_recover].
  destruct (AssertEqualIR _ _) as [x|] eqn:Heq; [|by apply safe_recover].
  destruct (Cbor_Marshal_UC u) as [bs|] eqn:Hm.
  2: { eapply safe_bind; [apply Hset|]. intros. apply safe_throw. eauto with node. }
  eapply safe_bind; [apply Hset|]. intros ? n1 Hg ->. assert (Inv _) as Hi1 by exact (good_inv _ _ Hg).
  eapply safe_bind.
  { apply safe_try, safe_finalizeBlock; try done.
    - simpl. by rewrite Hst.
    - by apply getUCv1_marshalled.
    - by apply (cs_luc_genuine _ (inv_cs _ Hi)).
    - simpl. by rewrite Hluc. }
  intros r n2 Hg2 Hr. assert (Inv n2) as Hi2 by eauto with node.
  destruct r as [[]|]; [|by apply safe_recover].
  destruct (Hr tt eq_refl) as (Hc & Hs2 & Hb2).
  eapply safe_mono; [by apply safe_startNewRound|].
  intros ? n3 [_ Hev] [Hc3 Hs3]. unfold not_recovering, certified. rewrite Hc3, Hs3, Hs2. simpl.
  split; [by rewrite Hst|]. split_and!; [done|done|]. exists ir, x, bs. split_and!; try done.
  rewrite (ev_keep _ _ Hev); [done|apply GetRoundNumber_u64|by rewrite Hc|by rewrite Hc].
Qed.

(** What a successful [handleUnicityCertificate] does to a node that was not recovering: the
    latest certificate is not older than the given one, and either nothing is committed or the
    given certificate, which continues the committed one. *)
Definition uc_handled n (u : UnicityCertificate) n' : Prop :=
  not_recovering n → not_recovering n' ∧ (committed n' = committed n ∨
    IsSuccessor u (committed n) = true ∧ ∃ b, pendingBlockProposal (nd_state n) = Some b ∧ certified b u n').

Lemma safe_startNewRound_kept n :
  Inv n → not_recovering n →
  safe n startNewRound (fun _ n' => not_recovering n' ∧ committed n' = committed n).
Proof.
  intros Hi Hn. eapply safe_mono; [by apply safe_startNewRound|].
  intros ? ? _ [? Hs]. unfold not_recovering. by rewrite Hs.
Qed.

Lemma uc_handled_kept n u (m : NodeM unit) :
  safe n m (fun _ n' => not_recovering n' ∧ committed n' = committed n) →
  safe n m (fun _ => uc_handled n u).
Proof. intros Hm. eapply safe_mono; [exact Hm|]. intros ? n' _ [? ?] _. by auto. Qed.

Lemma uc_handled_eq n n1 u n' :
  not_recovering n1 → committed n1 = committed n →
  pendingBlockProposal (nd_state n1) = pendingBlockProposal (nd_state n) →
  uc_handled n1 u n' → uc_handled n u n'.
Proof. unfold uc_handled. intros Hn Hc Hp H _. rewrite <-Hc, <-Hp. auto. Qed.

Lemma safe_act_on_uc n wasInit prevLUC u :
  Inv n → cs_status (nd_state n) = normal →
  (IsDuplicate u prevLUC = false → luc (nd_state n) = Some u) →
  safe n (act_on_uc wasInit prevLUC u) (fun _ => uc_handled n u).
Proof.
  intros Hi Hst Hl. assert (not_recovering n) as Hn by (unfold not_recovering; by rewrite Hst).
  unfold act_on_uc. destruct (IsDuplicate u prevLUC).
  { apply uc_handled_kept. case_match; [by apply safe_startNewRound_kept|by apply safe_ret]. }
  eapply safe_bind; [apply safe_quiet; eauto with node|]. intros rep n1 Hg1 Hf1.
  assert (Inv n1) as Hi1 by eauto with node. pose proof (fr_state _ _ Hf1) as Hs1.
  assert (not_recovering n1) as Hn1 by (unfold not_recovering; by rewrite Hs1).
  eapply (safe_mono _ _ (fun _ => uc_handled n1 u));
    [|intros ? n' _; apply uc_handled_eq; [done|apply (fr_committed _ _ Hf1)|by rewrite Hs1]].
  destruct rep.
  { apply uc_handled_kept. eapply safe_bind; [apply safe_quiet; eauto with node|]. intros ? n2 Hg2 Hf2.
    eapply safe_mono; [apply safe_startNewRound_kept; [by eauto with node|]|].
    - unfold not_recovering. by rewrite (fr_state _ _ Hf2).
    - intros ? n3 _ [? ->]. by rewrite (fr_committed _ _ Hf2). }
  eapply safe_bind; [by apply safe_gets|]. intros ? ? _ [-> ->].
  destruct (IsSuccessor u _) eqn:Hsucc; [|by apply safe_recover]. cbn [negb].
  eapply safe_bind; [by apply safe_get_state|]. intros ? ? _ [-> ->].
  destruct (pendingBlockProposal (nd_state n1)) as [b|] eqn:Hp.
  - eapply safe_mono; [apply safe_certify_proposal; try done; rewrite Hs1; auto|].
    intros ? n2 _ [? ?] _. by eauto 8.
  - by apply uc_handled_kept, safe_certify_without_proposal.
Qed.

Lemma safe_handleUnicityCertificate n uc tr :
  Inv n →
  safe n (handleUnicityCertificate uc tr) (fun _ n' => ∃ u, uc = Some u ∧ uc_handled n u n').
Proof.
  intros Hi. unfold handleUnicityCertificate.
  eapply safe_bind; [by apply (safe_get_state n luc)|]. intros ? ? _ [-> ->].
  eapply safe_bind; [by apply safe_wrapM, safe_updateLUC|].
  intros ? n1 Hg1 (u & -> & [Hu Hst1 Hp1 Hc1 Hr1 Hl1]). assert (Inv n1) as Hi1 by eauto with node.
  eapply (safe_mono _ _ (fun _ n' => uc_handled n u n')); [|by eauto].
  eapply safe_bind; [by apply safe_get_state|]. intros ? ? _ [-> ->].
  destruct (decide (cs_status (nd_state n1) = recovering)) as [Hrec|Hrec].
  { rewrite bool_decide_eq_true_2 by done. apply safe_ret; [done|]. intros Hn. by rewrite Hst1 in Hrec. }
  rewrite (bool_decide_eq_false_2 (_ = recovering)) by done.
  eapply (safe_bind _ _ _ (fun _ n' => cs_status (nd_state n') = normal ∧ committed n' = committed n ∧
    luc (nd_state n') = luc (nd_state n1) ∧
    pendingBlockProposal (nd_state n') = pendingBlockProposal (nd_state n))).
  { case_bool_decide as Hini.
    - eapply safe_mono; [apply safe_set_cs; try done; apply cs_ok_status; [apply Hi1|done]|].
      by intros ? ? _ ->.
    - apply safe_ret; [done|]. by destruct (cs_status (nd_state n1)). }
  intros ? n2 Hg2 (Hs2 & Hc2 & Hl2 & Hp2). unfold safe at 1. rewrite wp_bind, wp_deref.
  eapply safe_mono; [apply (safe_act_on_uc n2)|]; [by eauto with node|done| |].
  - intros Hdup. rewrite Hl2. destruct Hl1 as [|[_ [[? _]|?]]]; [done|congruence|].
    by rewrite Hst1 in Hrec.
  - intros ? n3 _. apply uc_handled_eq; [|done|done]. unfold not_recovering. by rewrite Hs2.
Qed.

Lemma safe_handleCertificationResponse n cr : Inv n → safe n (handleCertificationResponse cr) any.
Proof.
  intros Hi. unfold handleCertificationResponse. unfold safe.
  rewrite wp_bind, wp_wrapM, wp_lift. destruct cr as [cr|]; [|by apply good_refl].
  destruct (CR_IsValid _); [|by apply good_refl]. wp_norm.
  unfold PartitionID, ShardID_of_node. wp_norm. case_match; [by apply safe_throw|].
  eapply safe_any, safe_handleUnicityCertificate. done.
Qed.

(** ** Blocks *)

(** A block handled without an error: it was not new, or it is committed now. *)
Definition block_handled n (u : UnicityCertificate) n' : Prop :=
  cs_status (nd_state n') = cs_status (nd_state n) ∧
  (GetRoundNumber (Some u) <= GetRoundNumber (committed n) ∧ committed n' = committed n ∨
   IsSuccessor u (committed n) = true ∧ committed n' = Some u).

Lemma safe_apply_block n b u ir :
  Inv n → cs_status (nd_state n) ≠ initializing →
  IsSuccessor u (committed n) = true → getUCv1 (Some b) = Ok u → genuine u →
  GetRootRoundNumber (Some u) <= GetRootRoundNumber (luc (nd_state n)) →
  safe n (apply_block b u ir) (fun _ n' => committed n' = Some u ∧ nd_state n' = nd_state n).
Proof.
  intros Hi Hst Hs Hu Hcu Hr. unfold apply_block.
  eapply safe_bind; [apply safe_quiet; eauto with node|]. intros r n1 Hg1 Hf1.
  assert (Inv n1) as Hi1 by eauto with node. pose proof (fr_state _ _ Hf1) as Hs1.
  destruct r as [newState|]; [|by apply safe_revert].
  destruct (EqualsIR newState (Some ir)); [|by apply safe_revert].
  eapply safe_bind.
  { apply safe_try, safe_finalizeBlock; rewrite ?Hs1; try done. by rewrite (fr_committed _ _ Hf1). }
  intros r n2 Hg2 Hr2. assert (Inv n2) as Hi2 by eauto with node.
  destruct r as [[]|]; [|by apply safe_revert].
  apply safe_ret; [done|]. destruct (Hr2 tt eq_refl) as (? & Hs2 & _). by rewrite Hs2.
Qed.

Lemma safe_missing_blocks n :
  Inv n →
  safe n (st ← get_state cs_status;
    (if bool_decide (st = initializing) then mret tt else startRecovery);;
    throw (A:=unit) (ErrNew "missing blocks between rounds")) (fun _ _ => False).
Proof.
  intros Hi. eapply safe_bind; [by apply safe_get_state|]. intros ? ? _ [-> ->].
  eapply (safe_bind _ _ _ any).
  - case_bool_decide; [by apply safe_ret|by eapply safe_any, safe_startRecovery].
  - intros. apply safe_throw. eauto with node.
Qed.

(** The checks between the validation of a block that follows the committed one and its
    execution. *)
Lemma safe_extend_block n b u c :
  Inv n → cs_status (nd_state n) ≠ initializing → is_Some (blk_Header b) → genuine u →
  IsSuccessor u (committed n) = true → getUCv1 (Some b) = Ok u →
  GetRootRoundNumber (Some u) <= GetRootRoundNumber (luc (nd_state n)) →
  safe n (header ← deref (blk_Header b);
    unless (bytes_Equal (hdr_PreviousBlockHash header) (GetBlockHash c)) (ErrNew "invalid block");;
    t ← gets nd_transactionSystem;
    state ← wrapM "error reading current state" (lift (StateSummary t));
    match c with
    | None => mret tt
    | Some _ =>
        ir ← deref (uc_InputRecord u);
        unless (bytes_Equal (ir_PreviousHash ir) (Root state)) (ErrNew "block does not extend current state")
    end;;
    ir ← deref (uc_InputRecord u);
    apply_block b u ir) (fun _ n' => committed n' = Some u ∧ nd_state n' = nd_state n).
Proof.
  intros Hi Hst [h Hh] Hcu Hs Hu Hr. destruct (genuine_complete _ Hcu) as [[ir Hir] _]. unfold safe.
  pose proof (safe_apply_block n b u ir Hi Hst Hs Hu Hcu Hr) as Happly.
  assert (good n n) as Hg by (by apply good_refl).
  wp_norm. rewrite Hh. wp_norm. destruct (bytes_Equal _ _); [|done]. wp_norm.
  destruct (StateSummary _) as [st|]; [|done]. wp_norm.
  rewrite Hir. destruct c; wp_norm; [|done]. destruct (bytes_Equal _ _); done.
Qed.

Lemma safe_handleBlock n b :
  Inv n → cs_status (nd_state n) ≠ initializing →
  safe n (handleBlock b) (fun _ n' => ∃ u, getUCv1 b = Ok u ∧ block_handled n u n').
Proof.
  intros Hi Hst. unfold handleBlock.
  eapply safe_bind; [by apply (safe_gets n (fun n => CommittedUC (nd_transactionSystem n)))|].
  intros ? ? _ [-> ->]. change (CommittedUC (nd_transactionSystem n)) with (committed n).
  destruct b as [b|]; [|by apply good_refl]. unfold safe at 1.
  rewrite wp_bind, wp_wrapM, wp_lift. destruct (getUCv1 (Some b)) as [u|] eqn:Hu; [|by apply good_refl].
  rewrite wp_bind, wp_deref, wp_bind, wp_gets, wp_bind, wp_wrapM, wp_lift.
  destruct (Block_IsValid b _ _) as [x|] eqn:Hv; [|by apply good_refl].
  apply Block_IsValid_header in Hv.
  eapply (safe_mono _ _ (fun _ n' => block_handled n u n')); [|by eauto].
  eapply safe_bind; [by apply safe_wrapM, safe_updateLUC|].
  intros ? n1 Hg1 (? & [= <-] & [Hcomp Hst1 Hp1 Hc1 Hr1 _]). assert (Inv n1) as Hi1 by eauto with node.
  rewrite <-Hst1 in Hst. destruct (Z.leb_spec (GetRoundNumber (Some u)) (GetRoundNumber (committed n))).
  { apply safe_ret; [done|]. split; [done|]. by left. }
  destruct (IsSuccessor u (committed n)) eqn:Hs; cbn [negb].
  2: { eapply safe_mono; [by apply safe_missing_blocks|done]. }
  eapply safe_mono; [apply safe_extend_block; try done; by rewrite Hc1|].
  intros ? n2 _ [Hc2 Hs2]. split; [by rewrite Hs2|]. by right.
Qed.

(** ** Proposals *)

Lemma calculated_has_record b alg b' ir : Block_CalculateBlockHash b alg = (b', Ok ir) → has_record b'.
Proof.
  intros Hc u Hu. unfold getUCv1 in Hu. case_match; [done|].
  by rewrite (CalculateBlockHash_record _ _ _ _ _ Hc Hu).
Qed.

Lemma safe_sendCertificationRequest n author st :
  Inv n → not_recovering n → is_Some (luc (nd_state n)) →
  safe n (sendCertificationRequest author st) any.
Proof.
  intros Hi Hn [u Hl]. destruct (cs_luc_complete _ (inv_cs _ Hi) u Hl) as [_ [sl Hsl]].
  unfold sendCertificationRequest, safe. rewrite wp_bind, wp_latestUC.
  eapply safe_bind; [apply safe_quiet; eauto with node|]. intros round n1 Hg1 Hf1.
  eapply safe_bind; [apply safe_quiet; [|apply quiet_currentEpoch]; eauto with node|]. intros epoch n2 Hg2 Hf2.
  rewrite Hl. unfold safe. rewrite wp_bind, wp_deref, wp_bind, wp_deref, Hsl.
  assert (Inv n2) as Hi2 by eauto with node.
  assert (not_recovering n2) as Hn2.
  { unfold not_recovering. by rewrite (fr_state _ _ Hf2), (fr_state _ _ Hf1). }
  eapply safe_bind; [apply safe_quiet; eauto with node|]. intros ucBytes n3 Hg3 Hf3.
  eapply safe_bind; [by apply safe_gets; eauto with node|]. intros ? ? _ [-> ->].
  eapply safe_bind; [by apply safe_gets; eauto with node|]. intros ? ? _ [-> ->].
  destruct (Block_CalculateBlockHash _ _) as [pending r] eqn:Hcalc.
  assert (Inv n3) as Hi3 by eauto with node.
  unfold safe at 1. rewrite wp_bind, wp_wrapM, wp_lift. destruct r as [ir|]; [|by apply good_refl].
  eapply safe_bind.
  { apply safe_quiet; [done|]. apply quiet_try, quiet_storePendingProposal. by eapply calculated_has_record. }
  intros stored n5 Hg5 Hf5.
  assert (Inv n5) as Hi5 by eauto with node.
  destruct stored; [|by apply safe_revert].
  eapply safe_bind.
  { apply safe_set_cs; try done. apply cs_ok_pending; [apply Hi5|]. right.
    by rewrite (fr_state _ _ Hf5), (fr_state _ _ Hf3). }
  intros ? n6 Hg6 _. apply safe_quiet_any; [by eauto with node|].
  pose proof (fun n l => quiet_of_outcome n _ (rootNodesSelector_total (Some u) l defaultNofRootNodes eq_refl)).
  quiet.
Qed.

Lemma safe_handleT1TimeoutEvent n : Inv n → safe n handleT1TimeoutEvent any.
Proof.
  intros Hi. unfold handleT1TimeoutEvent.
  eapply safe_bind; [by apply safe_gets|]. intros ? ? _ [-> ->]. unfold id.
  case_bool_decide as Hn; [by apply safe_ret|].
  destruct (String.eqb_spec (leader (nd_state n)) (nd_peerID n)) as [Hl|]; [|by apply safe_ret]. cbn [negb].
  assert (is_Some (luc (nd_state n))) as Hluc.
  { apply cs_ltr_luc, cs_leader_known; [apply Hi|apply Hi|]. rewrite Hl. apply Hi. }
  eapply safe_bind; [apply safe_quiet; eauto with node|]. intros round n1 Hg1 Hf1.
  eapply safe_bind; [apply safe_quiet; eauto with node|]. intros r n2 Hg2 Hf2.
  destruct r; [|by apply safe_quiet_any; eauto with node].
  eapply safe_bind; [apply safe_quiet; eauto with node|]. intros r n3 Hg3 Hf3.
  destruct r; [|by apply safe_quiet_any; eauto with node].
  assert (nd_state n3 = nd_state n) as Hs3
    by (by rewrite (fr_state _ _ Hf3), (fr_state _ _ Hf2), (fr_state _ _ Hf1)).
  eapply safe_bind.
  { apply safe_try, safe_sendCertificationRequest; [by eauto with node| |by rewrite Hs3].
    unfold not_recovering. by rewrite Hs3. }
  intros r n4 Hg4 _. destruct r; [apply safe_ret|apply safe_quiet_any]; by eauto with node.
Qed.

(** The end of [handleBlockProposal]: the author, the state it extends, its execution. *)
Lemma safe_verify_proposal n p u :
  Inv n → not_recovering n →
  safe n (expectedLeader ← get_state leader;
    unless (negb (String.eqb expectedLeader "" || negb (String.eqb (bp_NodeID p) expectedLeader)))
      (ErrNew "expecting another leader");;
    t ← gets nd_transactionSystem;
    txState ← wrapM "transaction system state error" (lift (StateSummary t));
    unless (negb (negb (IsInitial u) && negb (bytes_Equal (GetStateHash (Some u)) (Root txState))))
      (ErrNew "transaction system start state mismatch error");;
    round ← currentRoundNumber;
    r ← try (tx (FollowerVerify round (bp_ProposedRoot p)));
    match r with
    | Fail e => revertState;; throw (ErrWrap "follower failed to verify proposed block" e)
    | Ok stateSummary =>
        wrapM "certification request send failed"
          (sendCertificationRequest (peer_String (bp_NodeID p)) stateSummary)
    end) any.
Proof.
  intros Hi Hn. assert (good n n) as Hg by (by apply good_refl).
  eapply safe_bind; [by apply safe_get_state|]. intros ? ? _ [-> ->].
  unfold safe. rewrite wp_bind, wp_unless.
  destruct (String.eqb_spec (leader (nd_state n)) "") as [|Hl]; [done|].
  destruct (String.eqb _ _); [|done]. cbn [orb negb].
  assert (is_Some (luc (nd_state n))) as Hluc by (apply cs_ltr_luc, cs_leader_known; [apply Hi|apply Hi|done]).
  rewrite wp_bind, wp_gets, wp_bind, wp_wrapM, wp_lift.
  destruct (StateSummary _) as [txState|]; [|done]. rewrite wp_bind, wp_unless.
  destruct (negb (_ && _)); [|done].
  eapply safe_bind; [apply safe_quiet; eauto with node|]. intros round n1 Hg1 Hf1.
  eapply safe_bind; [apply safe_quiet; eauto with node|]. intros r n2 Hg2 Hf2.
  assert (nd_state n2 = nd_state n) as Hs2 by (by rewrite (fr_state _ _ Hf2), (fr_state _ _ Hf1)).
  destruct r; [|by apply safe_revert; eauto with node].
  apply safe_wrapM, safe_sendCertificationRequest; [by eauto with node| |by rewrite Hs2].
  unfold not_recovering. by rewrite Hs2.
Qed.

Lemma safe_handleBlockProposal n prop : Inv n → safe n (handleBlockProposal prop) any.
Proof.
  intros Hi. unfold handleBlockProposal.
  eapply safe_bind; [by apply safe_get_state|]. intros ? ? _ [-> ->].
  destruct (decide (cs_status (nd_state n) = recovering)) as [Hr|Hr].
  { rewrite bool_decide_eq_true_2 by done. eapply safe_bind.
    - apply safe_set_cs; try done. apply cs_ok_recoveryLastProp, Hi.
    - intros. apply safe_throw. eauto with node. }
  rewrite bool_decide_eq_false_2 by done.
  destruct prop as [p|]; [|by apply safe_throw].
  eapply safe_bind; [apply safe_quiet; eauto with node|]. intros tb n1 Hg1 Hf1.
  assert (Inv n1) as Hi1 by eauto with node.
  assert (not_recovering n1) as Hn1 by (unfold not_recovering; by rewrite (fr_state _ _ Hf1)).
  eapply safe_bind; [by apply safe_gets|]. intros ? ? _ [-> ->]. unfold id, safe.
  rewrite wp_bind, wp_wrapM, wp_lift.
  destruct (conf_bpValidator _ _ _ _) eqn:Hv; [|by apply good_refl].
  destruct (bpValidator_complete _ (inv_conf _ Hi1) _ _ _ _ Hv) as (u & Hu & [ir Hir] & _).
  rewrite Hu, wp_bind, wp_deref, wp_bind, wp_deref, Hir, wp_bind, wp_latestUC, wp_bind, wp_unless.
  case_match; [|by apply good_refl].
  eapply (safe_bind _ _ _ (fun _ => not_recovering)).
  - case_match; [|by apply safe_ret].
    eapply safe_mono; [by apply safe_wrapM, safe_handleUnicityCertificate|].
    intros ? n2 _ (u' & _ & Hh). by apply Hh.
  - intros ? n2 Hg2 Hn2. apply safe_verify_proposal; eauto with node.
Qed.

(** ** Replication *)

Lemma safe_handle_blocks n bs :
  Inv n → cs_status (nd_state n) = recovering →
  safe n (handle_blocks bs) (fun _ n' => cs_status (nd_state n') = recovering).
Proof.
  revert n. induction bs as [|b bs IH]; intros n Hi Hst; cbn [handle_blocks]; [by apply safe_ret|].
  eapply safe_bind; [apply safe_handleBlock; [done|by rewrite Hst]|].
  intros ? n1 Hg1 (u & _ & Hs & _). apply IH; [by eauto with node|]. by rewrite Hs.
Qed.

Lemma safe_stopRecovery n :
  Inv n → safe n stopRecovery (fun _ n' => n' = set_state (cs_set_status normal (nd_state n)) n).
Proof. intros Hi. apply safe_set_cs; try done. apply cs_ok_status; [apply Hi|done]. Qed.

Lemma quiet_isRecoveryComplete n : quiet n isRecoveryComplete.
Proof. unfold isRecoveryComplete. quiet. Qed.
Hint Resolve quiet_isRecoveryComplete : node.

Lemma safe_finish_recovery n :
  Inv n →
  safe n (stopRecovery;; startNewRound;;
    prop ← get_state recoveryLastProp;
    match prop with
    | None => mret tt
    | Some _ => try (handleBlockProposal prop);; set_cs (cs_set_recoveryLastProp None)
    end) any.
Proof.
  intros Hi. eapply safe_bind; [by apply safe_stopRecovery|]. intros ? n1 Hg1 _.
  eapply safe_bind; [apply safe_startNewRound; by eauto with node|]. intros ? n2 Hg2 _.
  assert (Inv n2) as Hi2 by eauto with node.
  eapply safe_bind; [by apply safe_get_state|]. intros ? ? _ [-> ->].
  case_match; [|by apply safe_ret].
  eapply safe_bind; [by apply safe_try, safe_handleBlockProposal|]. intros ? n3 Hg3 _.
  assert (Inv n3) as Hi3 by eauto with node.
  eapply safe_any, safe_set_cs; try done. apply cs_ok_recoveryLastProp, Hi3.
Qed.

Lemma safe_handleLedgerReplicationResponse n lr : Inv n → safe n (handleLedgerReplicationResponse lr) any.
Proof.
  intros Hi. unfold handleLedgerReplicationResponse.
  unfold safe. rewrite wp_bind, wp_wrapM, wp_lift.
  destruct lr as [lr|]; [|by apply good_refl]. destruct (Resp_IsValid _); [|by apply good_refl].
  eapply safe_bind; [by apply safe_get_state|]. intros ? ? _ [-> ->].
  destruct (decide (cs_status (nd_state n) = recovering)) as [Hr|Hr].
  2: { rewrite bool_decide_eq_false_2 by done. by apply safe_ret. }
  rewrite bool_decide_eq_true_2 by done. cbn [negb]. unfold safe. rewrite wp_bind, wp_deref.
  destruct (resp_Status lr =? StatusOk); cbn [negb].
  - eapply safe_bind; [apply safe_quiet; eauto with node|]. intros c n1 Hg1 Hf1.
    assert (Inv n1) as Hi1 by eauto with node. case_match; [by apply safe_ret|].
    eapply safe_bind; [apply safe_handle_blocks; [done|by rewrite (fr_state _ _ Hf1)]|].
    intros ? n2 Hg2 Hr2.
    eapply safe_bind; [apply safe_quiet; eauto with node|]. intros complete n3 Hg3 Hf3.
    destruct complete; cbn [negb]; [apply safe_finish_recovery|apply safe_quiet_any]; by eauto with node.
  - eapply safe_bind; [apply safe_quiet; eauto with node|]. intros complete n1 Hg1 Hf1.
    assert (Inv n1) as Hi1 by eauto with node.
    eapply (safe_bind _ _ _ any).
    + case_match; [by eapply safe_any, safe_stopRecovery|by apply safe_ret].
    + intros. apply safe_throw. eauto with node.
Qed.

Lemma good_set_queue n q :
  Inv n → Z.of_nat (length q) <= Z.max 0 (maxWorkers (conf_replicationConfig (nd_conf n))) →
  good n (set_replicationCh q n).
Proof. intros [] Hq. split; split; simpl; try done. constructor. Qed.

Lemma safe_handleLedgerReplicationRequest n lr :
  Inv n → is_Some lr → safe n (handleLedgerReplicationRequest lr) any.
Proof.
  intros Hi [r ->]. unfold handleLedgerReplicationRequest, safe.
  rewrite wp_bind, wp_deref. rewrite wp_bind, wp_wrapM, wp_lift.
  destruct (Req_IsValid _); [|by apply good_refl]. rewrite wp_bind, wp_gets. unfold id.
  assert (∀ msg to, safe n (sendLedgerReplicationResponse msg to) any) as Hsend
    by (intros; apply safe_quiet_any; eauto with node).
  case_match; [apply Hsend|]. case_match; [apply Hsend|]. rewrite wp_bind, wp_committedUC.
  case_match; [apply Hsend|]. case_match eqn:Hq; [|apply Hsend].
  rewrite wp_modify. split; [|done]. apply good_set_queue; [done|].
  apply Z.ltb_lt in Hq. rewrite length_app. simpl. lia.
Qed.

(** A worker's iteration. *)
Lemma safe_replicationLoop_iteration n : Inv n → safe n replicationLoop_iteration any.
Proof.
  intros Hi. unfold replicationLoop_iteration, safe. rewrite wp_bind, wp_gets.
  destruct (nd_replicationCh n) as [|lr q] eqn:Hq; [by apply safe_ret|].
  pose proof (inv_queue _ Hi) as Hlen. rewrite Hq in Hlen. simpl in Hlen.
  eapply (safe_bind _ _ _ any).
  - unfold safe. rewrite wp_modify. split; [|done]. apply good_set_queue; [done|lia].
  - intros ? n1 Hg _. apply safe_quiet_any; eauto with node.
Qed.

(** ** Events and the loop *)

Lemma safe_handleEpochChangeEvent n : Inv n → safe n handleEpochChangeEvent any.
Proof.
  intros Hi. unfold handleEpochChangeEvent.
  eapply safe_bind; [apply safe_quiet; [|apply quiet_currentEpoch]; eauto with node|].
  intros epoch n1 Hg1 Hf1. assert (Inv n1) as Hi1 by eauto with node.
  eapply (safe_bind _ _ _ (fun r _ => ∀ c, r = Ok c → of_shard c)).
  - unfold safe. rewrite wp_try, wp_confStore.
    eapply wp_mono; [apply Get_wp, Hi1| |].
    + intros c st (Hst & Hdb & _ & Hc). pose proof (inv_confs _ Hi1 _ _ Hst) as Hsh.
      split; [|by intros ? [= <-]]. destruct Hi1.
      split; split; simpl; try done; [unfold epoch_keys; by rewrite Hdb|unfold confs_of_shard; by rewrite Hdb|constructor].
    + intros e st ->. split; [|done]. destruct Hi1. split; split; simpl; try done. constructor.
  - intros r n2 Hg2 Hr. destruct r as [c|]; [|apply safe_ret; by eauto with node].
    specialize (Hr c eq_refl). apply safe_quiet_any; [by eauto with node|]. quiet.
Qed.

(** The messages the loop can take: any but a nil replication request, whose handler follows the
    pointer.  The handlers of the others check for nil.  What the network delivers is never nil
    at all, as NetworkTheorems.v shows. *)
Definition deliverable (msg : Received) : Prop := msg ≠ RcvReplicationRequest None.

Lemma safe_handleMessage n msg : Inv n → deliverable msg → safe n (handleMessage msg) any.
Proof.
  intros Hi Hd. destruct msg as [cr|p|r|r|b|]; simpl.
  - by apply safe_handleCertificationResponse.
  - by apply safe_handleBlockProposal.
  - apply safe_handleLedgerReplicationRequest; [done|]. destruct r; [done|by destruct Hd].
  - by apply safe_handleLedgerReplicationResponse.
  - by apply safe_throw.
  - by apply safe_throw.
Qed.

Definition deliverable_event (ev : loop_event) : Prop :=
  ∀ m, ev = EvMessage (Some m) → deliverable m.

Lemma safe_loop_iteration n ev last :
  Inv n → deliverable_event ev → safe n (loop_iteration ev last) any.
Proof.
  intros Hi Hd. unfold loop_iteration. eapply (safe_bind _ _ _ any).
  2: { intros l n1 Hg1 _. apply safe_quiet_any; [by eauto with node|]. quiet. }
  destruct ev as [|[m|]| | |]; try by apply safe_throw.
  - eapply safe_bind; [by apply safe_try, safe_handleMessage, Hd|]. intros r n1 Hg1 _.
    apply safe_quiet_any; [by eauto with node|]. destruct r, m; quiet.
  - eapply (safe_bind _ _ _ any); [apply safe_quiet_any; [done|]; apply quiet_modify, frame_set_timer; by intros [Hr Hc]; split|].
    intros ? n1 Hg1 _. eapply safe_bind; [apply safe_handleT1TimeoutEvent; by eauto with node|].
    intros. apply safe_ret; by eauto with node.
  - eapply (safe_bind _ _ _ any); [apply safe_quiet_any; [done|]; quiet|].
    intros ? n1 Hg1 _. eapply safe_bind; [apply safe_handleEpochChangeEvent; by eauto with node|].
    intros. apply safe_ret; by eauto with node.
  - apply safe_quiet_any; [done|]. quiet.
Qed.
End handlers.
