(* ===== verification/NetworkTheorems.v ===== *)
(** * Properties of the validator network

    The protocols a node registers carry every message it sends, and a peer's handler for a
    protocol decodes the type the sender sends with it; a handler always ends, delivers the
    messages of its stream in order, and never overfills the channel; and what the main loop
    finds in the channel are never nil pointers. *)

From Stdlib Require Import ZArith Lia Strings.Byte String.
From stdpp Require Import base list strings option gmap relations.
From S2P Require Import Prelude GoBase BftTypes Summary TxInterface Messages Wire KVStore ShardConfStore Selector Node Network NodeOps Handlers NodeInvariant NodeQuiet NodeSafety HandlerSafety.

Section theorems.
Context {BT : BftTypes} {H : Type} {NC : NetCodec} {NCL : NetCodecLaws}.
Implicit Types (n : LibP2PNetwork H).

(** ** The protocols *)

(** The protocol of a message, with its timeout. *)
Definition protocol_of (opts : ValidatorNetworkOptions) (msg : Message) : sendProtocolData :=
  match msg with
  | MsgHandshake _ => mkSendProtocolData ProtocolHandshake (HandshakeTimeout opts)
  | MsgBlockProposal _ => mkSendProtocolData ProtocolBlockProposal (BlockProposalTimeout opts)
  | MsgCertificationRequest _ => mkSendProtocolData ProtocolBlockCertification (BlockCertificationTimeout opts)
  | MsgReplicationRequest _ => mkSendProtocolData ProtocolLedgerReplicationReq (LedgerReplicationRequestTimeout opts)
  | MsgReplicationResponse _ => mkSendProtocolData ProtocolLedgerReplicationResp (LedgerReplicationResponseTimeout opts)
  end.

(** What a validator handles, and the struct each protocol carries. *)
Definition received_protocols : list (string * StructName) :=
  [ (ProtocolLedgerReplicationReq, SReplicationRequest);
    (ProtocolLedgerReplicationResp, SReplicationResponse);
    (ProtocolBlockProposal, SBlockProposal);
    (ProtocolUnicityCertificates, SCertificationResponse) ].

Definition valid_timeouts (opts : ValidatorNetworkOptions) : Prop :=
  0 <= BlockCertificationTimeout opts ∧ 0 <= BlockProposalTimeout opts ∧
  0 <= LedgerReplicationRequestTimeout opts ∧ 0 <= LedgerReplicationResponseTimeout opts ∧
  0 <= HandshakeTimeout opts.

(** A network all of whose protocols are registered. *)
Record ready (opts : ValidatorNetworkOptions) n : Prop := {
  ready_send msg : net_sendProtocols n !! TypeOf msg = Some (protocol_of opts msg);
  ready_receive id s : (id, s) ∈ received_protocols → net_mux n !! id = Some (MessageHandler id s);
}.

(** One registration of each kind. *)
Lemma registerSendProtocol_ok p s n :
  spd_ProtocolID p ≠ ""%string → 0 <= spd_Timeout p → spd_MsgType p = Some (TStruct s) →
  net_sendProtocols n !! TStruct s = None →
  wrapM "registering protocol" (registerSendProtocol p) n =
    (Ret tt, net_set_sendProtocols
      (<[TPointer (TStruct s) := mkSendProtocolData (spd_ProtocolID p) (spd_Timeout p)]>
        (<[TStruct s := mkSendProtocolData (spd_ProtocolID p) (spd_Timeout p)]> (net_sendProtocols n))) n).
Proof.
  intros Hid Ht Hm Hn. unfold wrapM, registerSendProtocol, unless.
  apply String.eqb_neq in Hid as ->. apply Z.ltb_ge in Ht as ->. rewrite Hm.
  unfold mbind, M_bind, gets. simpl. by rewrite Hn.
Qed.

Lemma registerReceiveProtocol_ok id s n :
  id ≠ ""%string → net_mux n !! id = None →
  wrapM "registering protocol" (registerReceiveProtocol (receive_struct id s)) n =
    (Ret tt, net_set_mux (<[id := MessageHandler id s]> (net_mux n)) n).
Proof.
  intros Hid Hn. unfold wrapM, registerReceiveProtocol, unless. simpl. apply String.eqb_neq in Hid as ->.
  unfold mbind, M_bind, gets. simpl. by rewrite Hn.
Qed.

Lemma register_all_cons {P} (register : P → NetM H unit) p ps n n' :
  wrapM "registering protocol" (register p) n = (Ret tt, n') →
  register_all register (p :: ps) n = register_all register ps n'.
Proof. intros Hp. simpl. unfold mbind at 1, M_bind at 1. by rewrite Hp. Qed.

(** The send protocols of a validator. *)
Definition send_table (opts : ValidatorNetworkOptions) : gmap GoType sendProtocolData :=
  foldl (fun m p => let spx := mkSendProtocolData (spd_ProtocolID p) (spd_Timeout p) in
      match spd_MsgType p with Some t => <[TPointer t := spx]> (<[t := spx]> m) | None => m end)
    ∅ (sendProtocolDescriptions opts).

Lemma RegisterSendProtocols_table opts n :
  valid_timeouts opts → net_sendProtocols n = ∅ →
  RegisterSendProtocols (sendProtocolDescriptions opts) n = (Ret tt, net_set_sendProtocols (send_table opts) n).
Proof.
  intros (H1 & H2 & H3 & H4 & H5) Hn. unfold RegisterSendProtocols. unfold sendProtocolDescriptions. cbv iota.
  destruct n as [self mux sp rcv cap spd]. simpl in Hn. subst sp.
  do 5 (erewrite register_all_cons; [|by apply registerSendProtocol_ok]; simpl net_sendProtocols).
  reflexivity.
Qed.

Lemma RegisterReceiveProtocols_two id1 s1 id2 s2 n :
  id1 ≠ ""%string → id2 ≠ ""%string → id1 ≠ id2 → net_mux n !! id1 = None → net_mux n !! id2 = None →
  RegisterReceiveProtocols [receive_struct id1 s1; receive_struct id2 s2] n =
    (Ret tt, net_set_mux (<[id2 := MessageHandler id2 s2]> (<[id1 := MessageHandler id1 s1]> (net_mux n))) n).
Proof.
  intros Hid1 Hid2 Hne H1 H2. unfold RegisterReceiveProtocols.
  erewrite register_all_cons; [|by apply registerReceiveProtocol_ok].
  erewrite register_all_cons; [|apply registerReceiveProtocol_ok; [done|simpl; by rewrite lookup_insert_ne]].
  reflexivity.
Qed.

(** A validator's network is complete. Built for a host that does not use its protocols yet,
    with timeouts that are not negative, it registers them all without an error; every message
    the node sends then has its protocol and timeout, every protocol a validator receives has
    a handler for the struct it carries, the host's other handlers are kept, and the channel
    is empty. *)
Theorem validator_network_ready opts (self : PeerID) (mux : gmap string (stream_handler H)) :
  valid_timeouts opts →
  (∀ id s, (id, s) ∈ received_protocols → mux !! id = None) →
  ∃ n n', NewLibP2PValidatorNetwork (Some (self, mux)) opts = Ret n ∧
    RegisterValidatorProtocols n = (Ret tt, n') ∧ ready opts n' ∧
    (∀ id h, mux !! id = Some h → net_mux n' !! id = Some h) ∧
    net_self n' = self ∧ net_receivedMsgs n' = [] ∧ net_capacity n' = ReceivedChannelCapacity opts.
Proof.
  intros Ht Hmux.
  assert (∀ id s, (id, s) ∈ received_protocols → mux !! id = None) as Hm by done.
  pose proof (Hm ProtocolLedgerReplicationReq SReplicationRequest ltac:(set_solver)) as Hreq.
  pose proof (Hm ProtocolLedgerReplicationResp SReplicationResponse ltac:(set_solver)) as Hresp.
  pose proof (Hm ProtocolBlockProposal SBlockProposal ltac:(set_solver)) as Hbp.
  pose proof (Hm ProtocolUnicityCertificates SCertificationResponse ltac:(set_solver)) as Hcr.
  unfold NewLibP2PValidatorNetwork, NewLibP2PNetwork, receiveProtocolDescriptions.
  cbn [mbind result_bind mret result_ret]. unfold mbind, M_bind, wrapM.
  rewrite RegisterSendProtocols_table by done. rewrite RegisterReceiveProtocols_two by done.
  eexists _, _. split; [reflexivity|]. split; [apply RegisterReceiveProtocols_two; try done; simpl|].
  { by rewrite !lookup_insert_ne. }
  { by rewrite !lookup_insert_ne. }
  split_and!; try done; simpl.
  - split; simpl; [by intros []|].
    intros id s Hin. unfold received_protocols in Hin. set_unfold. destruct_or! Hin; simplify_eq.
    all: repeat first [by rewrite lookup_insert_eq|rewrite lookup_insert_ne by done].
  - intros id h Hid. rewrite !lookup_insert_ne; [done|..]; intros <-; congruence.
Qed.

(** ** Sending *)

(** Room for one more message in the channel. *)
Definition has_room n : Prop := Z.of_nat (length (net_receivedMsgs n)) < net_capacity n.

Lemma receivedMsg_room msg n : has_room n → receivedMsg msg n = (Ret tt, net_push msg n).
Proof.
  intros Hr. unfold receivedMsg, mbind, M_bind, gets. simpl. apply Z.ltb_lt in Hr as ->. done.
Qed.
Lemma receivedMsg_full msg n :
  ¬ has_room n → receivedMsg msg n = (Throw (ErrNew "dropping message because of slow consumer"), n).
Proof.
  intros Hr. unfold receivedMsg, mbind, M_bind, gets. simpl.
  assert ((Z.of_nat (length (net_receivedMsgs n)) <? net_capacity n) = false) as -> by (apply Z.ltb_ge; unfold has_room in Hr; lia).
  done.
Qed.

#[local] Instance has_room_dec n : Decision (has_room n).
Proof. unfold has_room. apply _. Defined.

(** What sending to [receivers] does: one goroutine for every other peer, in order; a message to
    itself goes to the channel, if there is room. *)
Definition sent_to (p : sendProtocolData) (data : list byte) (msg : Message) (receiver : PeerID) n : LibP2PNetwork H :=
  if String.eqb receiver (net_self n) then
    if bool_decide (has_room n) then net_push (loop_back msg) n else n
  else net_spawn (mkSpawned (sp_protocolID p) (sp_timeout p) data receiver) n.

Lemma send_to_all_spec p msg data receivers n :
  send_to_all p msg data receivers n = (Ret tt, foldl (fun n r => sent_to p data msg r n) n receivers).
Proof.
  revert n. induction receivers as [|r rs IH]; intros n; [done|]. cbn [send_to_all foldl].
  unfold mbind at 1, M_bind at 1, gets. cbn. unfold mbind, M_bind. rewrite <-IH. unfold sent_to.
  destruct (String.eqb r (net_self n)); [|done]. unfold try.
  case_bool_decide; [by rewrite receivedMsg_room|by rewrite receivedMsg_full].
Qed.

(** The goroutines sending adds: those of the peers other than the node itself. *)
Lemma sent_to_all_spawned p data msg receivers n :
  net_spawned (foldl (fun n r => sent_to p data msg r n) n receivers) =
    net_spawned n ++ ((fun r => mkSpawned (sp_protocolID p) (sp_timeout p) data r) <$>
      List.filter (fun r => negb (String.eqb r (net_self n))) receivers) ∧
  net_self (foldl (fun n r => sent_to p data msg r n) n receivers) = net_self n.
Proof.
  revert n. induction receivers as [|r rs IH]; intros n; cbn [foldl List.filter]; [by rewrite app_nil_r|].
  destruct (IH (sent_to p data msg r n)) as [-> ->]. unfold sent_to.
  destruct (String.eqb r (net_self n)); simpl; [by case_bool_decide|].
  by rewrite <-app_assoc.
Qed.

Lemma sent_to_all_received p data msg receivers n :
  Forall (fun r => r ≠ net_self n) receivers →
  net_receivedMsgs (foldl (fun n r => sent_to p data msg r n) n receivers) = net_receivedMsgs n.
Proof.
  intros Hf. revert n Hf. induction receivers as [|r rs IH]; intros n Hf; [done|]. cbn [foldl].
  apply Forall_cons in Hf as [Hr Hf]. unfold sent_to at 2. apply String.eqb_neq in Hr as ->.
  by rewrite IH.
Qed.

Lemma network_Send_run opts msg r rs n :
  ready opts n →
  LibP2PNetwork_Send msg (r :: rs) n =
    match serializeMsg Cbor_Marshal_Message msg with
    | Ret data => (Ret tt, foldl (fun n r => sent_to (protocol_of opts msg) data msg r n) n (r :: rs))
    | Throw e => (Throw (ErrWrap "sending message" (ErrWrap "serializing message" e)), n)
    | Panic => (Panic, n)
    end.
Proof.
  intros Hr. unfold LibP2PNetwork_Send, mbind, M_bind, gets. rewrite (ready_send _ _ Hr).
  unfold sendAsync, mbind, M_bind, wrapM. destruct (serializeMsg _ msg); [|done|done].
  by rewrite send_to_all_spec.
Qed.

(** What [Send] does with a message to at least one peer: when the message can be encoded it
    succeeds, starts one goroutine for each peer other than the node itself, in order, with
    the encoded message and its protocol and timeout, and touches the channel only for
    a message to itself; otherwise it returns the error and does nothing. *)
Theorem Send_correct opts msg receivers n :
  ready opts n → receivers ≠ [] →
  match serializeMsg Cbor_Marshal_Message msg with
  | Ret data =>
      ∃ n', LibP2PNetwork_Send msg receivers n = (Ret tt, n') ∧
        net_spawned n' = net_spawned n ++
          ((fun r => mkSpawned (sp_protocolID (protocol_of opts msg)) (sp_timeout (protocol_of opts msg)) data r) <$>
            List.filter (fun r => negb (String.eqb r (net_self n))) receivers) ∧
        (net_self n ∉ receivers → net_receivedMsgs n' = net_receivedMsgs n)
  | Throw e =>
      LibP2PNetwork_Send msg receivers n = (Throw (ErrWrap "sending message" (ErrWrap "serializing message" e)), n)
  | Panic => LibP2PNetwork_Send msg receivers n = (Panic, n)
  end.
Proof.
  intros Hr Hne. destruct receivers as [|r rs]; [done|]. rewrite (network_Send_run opts) by done.
  destruct (serializeMsg _ msg) as [data|e|]; [|done|done]. eexists. split; [done|]. split; [apply sent_to_all_spawned|].
  intros Hs. apply sent_to_all_received. by apply Forall_forall; intros x Hx ->.
Qed.

(** ** Streams *)

(** The messages read from a stream one after the other, and what is left of it. *)
Inductive reads (s : StructName) : reader → list Received → reader → Prop :=
  | reads_nil r : reads s r [] r
  | reads_cons r m r1 ms r2 :
      deserializeMsg (decode_into s) r = Ok (m, r1) → reads s r1 ms r2 → reads s r (m :: ms) r2.

Definition push_all (ms : list Received) n : LibP2PNetwork H := foldl (fun n m => net_push m n) n ms.

Lemma push_all_received ms n :
  net_receivedMsgs (push_all ms n) = net_receivedMsgs n ++ ms ∧ net_capacity (push_all ms n) = net_capacity n.
Proof.
  revert n. induction ms as [|m ms IH]; intros n; simpl; [by rewrite app_nil_r|].
  destruct (IH (net_push m n)) as [-> ->]. simpl. by rewrite <-app_assoc.
Qed.

(** Why a handler stopped at [r], having left the network [n]. *)
Definition stopped (s : StructName) (e : stream_end) (r : reader) n : Prop :=
  match deserializeMsg (decode_into s) r with
  | Fail err => e = (if errors_Is err io_EOF then StreamClosed else StreamReset)
  | Ok _ => e = StreamReset ∧ ¬ has_room n
  end.

Lemma read_messages_spec fuel s r n :
  (length (r_bytes r) < fuel)%nat → Z.of_nat (length (net_receivedMsgs n)) <= net_capacity n →
  ∃ e ms r', read_messages fuel s r n = (Ret (Some e), push_all ms n) ∧
    reads s r ms r' ∧ stopped s e r' (push_all ms n) ∧
    Z.of_nat (length (net_receivedMsgs (push_all ms n))) <= net_capacity n.
Proof.
  revert r n. induction fuel as [|fuel IH]; intros r n Hf Hc; [lia|]. cbn [read_messages].
  destruct (deserializeMsg (decode_into s) r) as [[m r1]|err] eqn:Hd.
  - unfold mbind, M_bind, try. destruct (decide (has_room n)) as [Hr|Hr].
    + rewrite receivedMsg_room by done.
      destruct (IH r1 (net_push m n)) as (e & ms & r' & -> & Hreads & Hs & Hl).
      { apply (deserialize_shorter (decode_into s)) in Hd as [Hlt _]; [lia|apply Decode_reads]. }
      { unfold has_room in Hr. simpl. rewrite length_app. simpl. lia. }
      exists e, (m :: ms), r'. split_and!; [done|by econstructor|done|done].
    + rewrite receivedMsg_full by done. exists StreamReset, [], r. split_and!; [done|constructor| |done].
      unfold stopped. by rewrite Hd.
  - eexists _, [], r. split_and!; [done|constructor| |done]. unfold stopped. by rewrite Hd.
Qed.

(** C32: A stream handler always ends, whatever bytes arrive. It has put the messages of
    the stream into the channel, in order, without ever exceeding the channel's capacity; it
    closes the stream only at its end, and resets it when a message cannot be read or when the
    channel is full. *)
Theorem stream_handler_correct s r n :
  Z.of_nat (length (net_receivedMsgs n)) <= net_capacity n →
  ∃ e ms r', streamHandlerForProtocol s (Ok tt) r n = (Ret (Some e), push_all ms n) ∧
    reads s r ms r' ∧ stopped s e r' (push_all ms n) ∧
    net_receivedMsgs (push_all ms n) = net_receivedMsgs n ++ ms ∧
    Z.of_nat (length (net_receivedMsgs (push_all ms n))) <= net_capacity n.
Proof.
  intros Hc. unfold streamHandlerForProtocol.
  destruct (read_messages_spec (S (length (r_bytes r))) s r n) as (e & ms & r' & ? & ? & ? & ?); [lia|done|].
  exists e, ms, r'. split_and!; try done. apply push_all_received.
Qed.

(** ** From one node to another *)

(** The messages validators send each other. *)
Definition between_validators (msg : Message) : Prop :=
  match msg with
  | MsgBlockProposal _ | MsgReplicationRequest _ | MsgReplicationResponse _ => True
  | MsgHandshake _ | MsgCertificationRequest _ => False
  end.

Lemma protocol_received opts msg :
  between_validators msg → (sp_protocolID (protocol_of opts msg), struct_of msg) ∈ received_protocols.
Proof. destruct msg; simpl; intros Hm; try done; set_solver. Qed.

(** A stream that carries one message and ends. *)
Lemma handler_delivers msg data bs n :
  Cbor_Marshal_Message msg = Ok data → 0 < Z.of_nat (length data) <= maxMsgSize →
  serializeMsg Cbor_Marshal_Message msg = Ret bs → has_room n →
  streamHandlerForProtocol (struct_of msg) (Ok tt) (mkReader bs io_EOF) n =
    (Ret (Some StreamClosed), net_push (loop_back msg) n).
Proof.
  intros Hm Hl Hs Hr.
  destruct (message_roundtrip Cbor_Marshal_Message (decode_into (struct_of msg)) msg data (loop_back msg) [] io_EOF Hm
    (Decode_Marshal msg data Hm) Hl) as (bs' & Hs' & Hd).
  rewrite Hs in Hs'. injection Hs' as <-. rewrite app_nil_r in Hd.
  unfold streamHandlerForProtocol. cbn [r_bytes].
  destruct bs as [|b bs]; [done|]. cbn [length read_messages]. rewrite Hd.
  unfold mbind, M_bind, try. rewrite receivedMsg_room by done. done.
Qed.

(** C19: A message sent by one validator reaches the other unchanged: between two networks whose
    protocols are registered, [Send] starts a goroutine for the receiver; the receiver has a
    handler for its protocol; and that handler, run on the bytes the goroutine writes, puts
    exactly the message sent into the channel and closes the stream. *)
Theorem message_delivered opts opts' msg data nS nR :
  ready opts nS → ready opts' nR → between_validators msg → net_self nR ≠ net_self nS →
  Cbor_Marshal_Message msg = Ok data → 0 < Z.of_nat (length data) <= maxMsgSize → has_room nR →
  ∃ sp s, LibP2PNetwork_Send msg [net_self nR] nS = (Ret tt, net_spawn sp nS) ∧
    sd_receiver sp = net_self nR ∧
    net_mux nR !! sd_protocolID sp = Some (MessageHandler (sd_protocolID sp) s) ∧
    streamHandlerForProtocol s (Ok tt) (mkReader (sd_data sp) io_EOF) nR =
      (Ret (Some StreamClosed), net_push (loop_back msg) nR).
Proof.
  intros HS HR Hb Hne Hm Hl Hroom.
  destruct (message_roundtrip Cbor_Marshal_Message (decode_into (struct_of msg)) msg data (loop_back msg) [] io_EOF Hm
    (Decode_Marshal msg data Hm) Hl) as (bs & Hs & _).
  exists (mkSpawned (sp_protocolID (protocol_of opts msg)) (sp_timeout (protocol_of opts msg)) bs (net_self nR)), (struct_of msg).
  split_and!.
  - rewrite (network_Send_run opts) by done. rewrite Hs. cbn [foldl]. unfold sent_to.
    by apply String.eqb_neq in Hne as ->.
  - done.
  - apply (ready_receive _ _ HR), protocol_received, Hb.
  - by apply (handler_delivers msg data).
Qed.

(** ** What the main loop finds in the channel *)

(** The steps of a network in use: the node sends, a stream arrives for one of its handlers, the
    main loop takes a message. *)
Inductive net_step : LibP2PNetwork H → LibP2PNetwork H → Prop :=
  | net_step_send msg receivers n : net_step n (LibP2PNetwork_Send msg receivers n).2
  | net_step_stream id s deadline r n :
      net_mux n !! id = Some (MessageHandler id s) → net_step n (streamHandlerForProtocol s deadline r n).2
  | net_step_take n : net_step n (ReceivedChannel_take n).2.

(** A message that is not a nil pointer of any of the types the node receives. *)
Definition not_nil (m : Received) : Prop :=
  match m with
  | RcvCertificationResponse None | RcvBlockProposal None | RcvReplicationRequest None
  | RcvReplicationResponse None | RcvBlock None => False
  | _ => True
  end.

Lemma not_nil_deliverable m : not_nil m → deliverable_event (EvMessage (Some m)).
Proof. intros Hm m' [= <-] ->. done. Qed.

Record channel_ok (c : Z) n : Prop := {
  channel_not_nil : Forall not_nil (net_receivedMsgs n);
  channel_bounded : Z.of_nat (length (net_receivedMsgs n)) <= c;
  channel_capacity : net_capacity n = c;
}.

Lemma channel_push c m n : not_nil m → has_room n → channel_ok c n → channel_ok c (net_push m n).
Proof.
  intros Hm Hr [Hd Hb Hc]. split; simpl.
  - apply Forall_app. by split; [|constructor].
  - unfold has_room in Hr. rewrite length_app. simpl. lia.
  - done.
Qed.

Lemma channel_receivedMsg c m n : not_nil m → channel_ok c n → channel_ok c (receivedMsg m n).2.
Proof.
  intros Hm Hn. destruct (decide (has_room n)).
  - rewrite receivedMsg_room by done. by apply channel_push.
  - by rewrite receivedMsg_full.
Qed.

Lemma loop_back_not_nil msg : not_nil (loop_back msg).
Proof. by destruct msg. Qed.

Lemma decode_not_nil s r m unread : decode_into s r = Ok (m, unread) → not_nil m.
Proof.
  unfold decode_into, mbind, result_bind, mret, result_ret. intros Hd.
  by repeat (case_match; simplify_eq).
Qed.

Lemma deserialize_not_nil s r m r' : deserializeMsg (decode_into s) r = Ok (m, r') → not_nil m.
Proof.
  unfold deserializeMsg. destruct (ReadUvarint r) as [[k src]|]; [|done]. simpl. repeat (case_match; try done).
  destruct (decode_into s _) as [[m' u]|] eqn:Hd; [|done]. intros [= <- _]. by eapply decode_not_nil.
Qed.

Lemma channel_read_messages c fuel s r n : channel_ok c n → channel_ok c (read_messages fuel s r n).2.
Proof.
  revert r n. induction fuel as [|fuel IH]; intros r n Hn; [done|]. cbn [read_messages].
  destruct (deserializeMsg _ r) as [[m r1]|] eqn:Hd; [|done].
  pose proof (channel_receivedMsg c m n (deserialize_not_nil _ _ _ _ Hd) Hn) as Hm.
  unfold mbind, M_bind, try. destruct (receivedMsg m n) as [[] n1]; simpl in *; [by apply IH|done|done].
Qed.

Lemma channel_send_to_all c p msg data receivers n :
  channel_ok c n → channel_ok c (foldl (fun n r => sent_to p data msg r n) n receivers).
Proof.
  revert n. induction receivers as [|r rs IH]; intros n Hn; [done|]. cbn [foldl]. apply IH. unfold sent_to.
  case_match; [|by destruct Hn; split]. case_bool_decide; [|done].
  by apply channel_push; [apply loop_back_not_nil|..].
Qed.

Lemma channel_step c n n' : net_step n n' → channel_ok c n → channel_ok c n'.
Proof.
  intros [msg rs n0|id s deadline r n0 _|n0] Hn.
  - unfold LibP2PNetwork_Send. destruct rs as [|r rs]; [done|]. unfold mbind, M_bind, gets.
    case_match; [|done]. unfold sendAsync, mbind, M_bind, wrapM. destruct (serializeMsg _ msg); [|done|done].
    rewrite send_to_all_spec. by apply (channel_send_to_all _ _ _ _ (r :: rs)).
  - unfold streamHandlerForProtocol. case_match; [|done]. by apply channel_read_messages.
  - destruct Hn as [Hd Hb Hc]. unfold ReceivedChannel_take, mbind, M_bind, gets. simpl.
    destruct (net_receivedMsgs n0) as [|m ms] eqn:E; simpl; [by split; rewrite ?E|].
    apply Forall_cons in Hd as [_ Hd]. split; simpl; [done| |done]. simpl in Hb. lia.
Qed.

Lemma channel_run c n n' : rtc net_step n n' → channel_ok c n → channel_ok c n'.
Proof. induction 1; eauto using channel_step. Qed.

(** C33: The main loop is given only messages it can handle: in every state a network reaches that
    started with an empty channel, whatever is sent and whatever bytes its streams carry, the
    channel holds at most its capacity of messages, none of them is a nil pointer, of whatever
    type, and each is an event the loop can take. *)
Theorem received_deliverable n n' :
  net_receivedMsgs n = [] → 0 <= net_capacity n → rtc net_step n n' →
  Z.of_nat (length (net_receivedMsgs n')) <= net_capacity n ∧
  ∀ m, m ∈ net_receivedMsgs n' → not_nil m ∧ deliverable_event (EvMessage (Some m)).
Proof.
  intros Hempty Hcap Hrun.
  assert (channel_ok (net_capacity n) n) as Hn by (split; rewrite ?Hempty; [constructor|done|done]).
  destruct (channel_run _ _ _ Hrun Hn) as [Hd Hb _].
  split; [done|]. intros m Hm. rewrite Forall_forall in Hd. split; [by apply Hd|by apply not_nil_deliverable, Hd].
Qed.
End theorems.
