(* ===== verification/PeerTheorems.v ===== *)
(** * Properties of the network peer

    How the bootstrap connection ends, depending on how its dials end; and that the peer and
    the network of a node are created for the identity of its keys. *)

From Stdlib Require Import ZArith Lia Strings.Byte String.
From stdpp Require Import base list strings option gmap.
From S2P Require Import Prelude GoBase BftTypes Summary TxInterface Messages Wire KVStore ShardConfStore Selector Node Network Peer NodeOps Configuration Handlers NodeInit.

Section peer_theorems.
Context {BT : BftTypes} {BL : BftLib} {ML : MsgLib} {PL : PeerLib} {H W : Type} {PE : PeerEnv H W}.
Implicit Types (w : W) (p : Peer (H:=H)) (a : AddrInfo).

Lemma wp_env {A} (call : W → result A * W) Q E w :
  wp (env call) Q E w ↔
  match (call w).1 with Ok x => Q x (call w).2 | Fail e => E e (call w).2 end.
Proof. unfold wp, env. destruct (call w) as [[] ?]; done. Qed.
Hint Rewrite @wp_env : wp.

(** ** Dialling one peer *)

(** [failing k a delay w e w']: [k] attempts one after the other failed, the last with [e], and
    the delay passed between any two of them. *)
Inductive failing a delay : nat → W → error → W → Prop :=
  | failing_once w e w' : host_Connect a w = (Fail e, w') → failing a delay 1 w e w'
  | failing_more k w e w1 w2 e' w' :
      host_Connect a w = (Fail e, w1) → wait_or_done delay w1 = (false, w2) →
      failing a delay k w2 e' w' → failing a delay (S k) w e' w'.

(** The end of a dial with [c] retries: [c + 1] failed attempts, a success after at most [c],
    or a context that ended during a delay. *)
Definition dialled (c : nat) delay a w (d : dial_end) w' : Prop :=
  match d with
  | DialFailed e => failing a delay (S c) w e w'
  | Connected =>
      host_Connect a w = (Ok tt, w') ∨
      ∃ k e w1 w2, (k <= c)%nat ∧ failing a delay k w e w1 ∧ wait_or_done delay w1 = (false, w2) ∧
        host_Connect a w2 = (Ok tt, w')
  | DialCancelled =>
      ∃ k e w1, (k <= c)%nat ∧ failing a delay k w e w1 ∧ wait_or_done delay w1 = (true, w')
  end.

Lemma dial_correct c delay a w : ∃ d w', dial c delay a w = (Ret d, w') ∧ dialled c delay a w d w'.
Proof.
  revert w. induction c as [|c IH]; intros w; simpl; unfold mbind, M_bind, try, env;
    destruct (host_Connect a w) as [[[]|e] w1] eqn:Hc.
  - exists Connected, w1. split; [done|]. by left.
  - exists (DialFailed e), w1. split; [done|]. by constructor.
  - exists Connected, w1. split; [done|]. by left.
  - destruct (wait_or_done delay w1) as [[] w2] eqn:Hw.
    { exists DialCancelled, w2. split; [done|]. exists 1%nat, e, w1. split; [lia|]. split; [by constructor|done]. }
    destruct (IH w2) as (d & w' & Hd & Hend). exists d, w'. split; [exact Hd|].
    destruct d as [|e'|]; simpl in *.
    + right. destruct Hend as [Hok|(k & e' & w3 & w4 & Hk & Hf & ? & ?)].
      * exists 1%nat, e, w1, w2. split; [lia|]. split_and!; [by constructor|done|done].
      * exists (S k), e', w3, w4. split_and!; [lia|by eapply failing_more|done|done].
    + by eapply failing_more.
    + destruct Hend as (k & e' & w3 & Hk & Hf & ?). exists (S k), e', w3. split_and!; [lia|by eapply failing_more|done].
Qed.

(** ** Dialling all peers *)

Inductive dialled_all (c : nat) delay : list AddrInfo → W → list dial_end → W → Prop :=
  | dialled_none w : dialled_all c delay [] w [] w
  | dialled_next a l w d w1 ds w' :
      dialled c delay a (peerstore_AddAddrs a w) d w1 → dialled_all c delay l w1 ds w' →
      dialled_all c delay (a :: l) w (d :: ds) w'.

Lemma dialled_all_length c delay l w ds w' : dialled_all c delay l w ds w' → length ds = length l.
Proof. induction 1; simpl; congruence. Qed.

Lemma dial_all_correct b r l w :
  ∃ ds w', dial_all b (Some r) l w = (Ret ds, w') ∧
    dialled_all (Z.to_nat (retries b r)) (retry_delay r) l w ds w'.
Proof.
  revert w. induction l as [|a l IH]; intros w; simpl.
  - exists [], w. split; [done|constructor].
  - destruct (dial_correct (Z.to_nat (retries b r)) (retry_delay r) a (peerstore_AddAddrs a w)) as (d & w1 & Hd & Hend).
    destruct (IH w1) as (ds & w' & Hds & Hends). exists (d :: ds), w'. split; [|by econstructor].
    unfold mbind, M_bind, dial_peer, modify. simpl. unfold mbind, M_bind. simpl. rewrite Hd. simpl. by rewrite Hds.
Qed.

(** An attempt ended with an error. *)
Definition dial_failed (d : dial_end) : bool := match d with DialFailed _ => true | _ => false end.

Lemma dial_errors_length ds : (length (dial_errors ds) <= length ds)%nat.
Proof. induction ds as [|[] ds IH]; simpl; lia. Qed.

Lemma all_failed ds : Nat.eqb (length (dial_errors ds)) (length ds) = forallb dial_failed ds.
Proof.
  induction ds as [|[] ds IH]; simpl; try done;
    pose proof (dial_errors_length ds); apply Nat.eqb_neq; lia.
Qed.

Lemma bootstrapPeers_spec l self a :
  a ∈ bootstrapPeers l self ↔ a ∈ l ∧ AddrInfo_ID a ≠ self.
Proof.
  induction l as [|x l IH]; simpl; [set_solver|]. destruct (String.eqb_spec (AddrInfo_ID x) self); set_solver.
Qed.

Lemma isBootnode_spec self l : isBootnode self l = true ↔ ∃ a, a ∈ l ∧ AddrInfo_ID a = self.
Proof.
  induction l as [|x l IH]; simpl; [set_solver|].
  rewrite orb_true_iff, IH, String.eqb_eq. set_solver.
Qed.

Lemma foldl_join_is_some es e : is_Some (foldl (fun all e => Some (errors_Join all e)) (Some e) es).
Proof. revert e. induction es as [|e' es IH]; intros e; simpl; [by eexists|apply IH]. Qed.

Lemma join_all_some es : es ≠ [] → is_Some (join_all es).
Proof. destruct es as [|e es]; [done|]. intros _. apply foldl_join_is_some. Qed.

(** C34: How a peer joins the network. [BootstrapConnect] dials every bootstrap peer but itself, up
    to the configured number of times with the delay in between (a bootnode dials once); each
    dial ends with a connection, with [count + 1] failures, or with the end of the context.
    Only when all of them end with failures is there an error, made of their errors, and none
    for a bootnode; in all other cases the DHT is bootstrapped and its answer returned.  A
    context that ends therefore counts as a connection. *)
Theorem bootstrap_correct p r w :
  pc_BootstrapConnectRetry (peer_conf p) = Some r →
  let bootnode := isBootnode (peer_ID p) (pc_BootstrapPeers (peer_conf p)) in
  ∃ peers,
    (∀ a, a ∈ peers ↔ a ∈ pc_BootstrapPeers (peer_conf p) ∧ AddrInfo_ID a ≠ peer_ID p) ∧
    if bool_decide (peers = []) then BootstrapConnect p w = (Ret tt, w) else
    ∃ ds w', dialled_all (Z.to_nat (retries bootnode r)) (retry_delay r) peers w ds w' ∧
      if forallb dial_failed ds then
        if bootnode then BootstrapConnect p w = (Ret tt, w')
        else ∃ e, join_all (dial_errors ds) = Some e ∧
          BootstrapConnect p w = (Throw (ErrWrap "failed to bootstrap" e), w')
      else BootstrapConnect p w = env dht_Bootstrap w'.
Proof.
  intros Hr bootnode. exists (bootstrapPeers (pc_BootstrapPeers (peer_conf p)) (peer_ID p)).
  split; [by apply bootstrapPeers_spec|]. unfold BootstrapConnect. rewrite Hr.
  set (peers := bootstrapPeers _ _). destruct peers as [|a l] eqn:Hp; [done|].
  rewrite bool_decide_eq_false_2 by done.
  destruct (dial_all_correct bootnode r (a :: l) w) as (ds & w' & Hds & Hends).
  pose proof (dialled_all_length _ _ _ _ _ _ Hends) as Hlen.
  exists ds, w'. split; [done|]. unfold mbind, M_bind. fold bootnode. rewrite Hds, <-Hlen, all_failed.
  destruct (forallb dial_failed ds) eqn:Hall; [|done].
  destruct (join_all_some (dial_errors ds)) as [e He].
  { intros Hnil. rewrite <-all_failed, Hnil in Hall. apply Nat.eqb_eq in Hall. simpl in *. lia. }
  rewrite He. destruct bootnode; [done|by eauto].
Qed.

(** ** The network of a node *)

(** Registering protocols only changes the tables. *)
Lemma wp_register_all {P} (register : P → NetM H unit) id ps n :
  (∀ (x : P) n, net_self n = id → wp (register x) (fun _ n' => net_self n' = id) (fun _ _ => True) n) →
  net_self n = id → wp (register_all register ps) (fun _ n' => net_self n' = id) (fun _ _ => True) n.
Proof.
  intros Hr. revert n. induction ps as [|x ps IH]; intros n Hn; simpl; wp_norm; [done|].
  eapply wp_mono; [by apply Hr| |done]. intros [] n' Hn'. by apply IH.
Qed.

Lemma wp_registerReceiveProtocol id (p : ReceiveProtocolDescription) n :
  net_self n = id →
  wp (registerReceiveProtocol (H:=H) p) (fun _ n' => net_self n' = id) (fun _ _ => True) n.
Proof.
  intros Hn. unfold registerReceiveProtocol, RegisterProtocolHandler. wp_norm.
  repeat (wp_case; wp_norm); done.
Qed.

Lemma RegisterValidatorProtocols_no_panic n : (RegisterValidatorProtocols (H:=H) n).1 ≠ Panic.
Proof.
  assert (wp (RegisterValidatorProtocols (H:=H)) (fun _ n' => net_self n' = net_self n) (fun _ _ => True) n) as Hwp.
  { apply (wp_register_all registerReceiveProtocol (net_self n)); [|done]. intros. by apply wp_registerReceiveProtocol. }
  unfold wp in Hwp. by destruct (RegisterValidatorProtocols n) as [[] ?].
Qed.

Lemma NewLibP2PValidatorNetwork_self id mux opts :
  NewLibP2PValidatorNetwork (Some (id, mux)) opts ≠ Panic ∧
  ∀ n : LibP2PNetwork H, NewLibP2PValidatorNetwork (Some (id, mux)) opts = Ret n → net_self n = id.
Proof.
  unfold NewLibP2PValidatorNetwork. destruct (NewLibP2PNetwork _ _) as [base|] eqn:Hb; [|done].
  assert (net_self base = id) as Hid by (by injection Hb as <-).
  match goal with |- context [match ?m base with _ => _ end] =>
    assert (wp m (fun _ n => net_self n = id) (fun _ _ => True) base) as Hwp end.
  { wp_norm. unfold RegisterSendProtocols, RegisterReceiveProtocols, sendProtocolDescriptions, receiveProtocolDescriptions. cbv iota.
    eapply wp_mono; [apply (wp_register_all registerSendProtocol id)| |done]; [|done|].
    - intros p n Hn. unfold registerSendProtocol. wp_norm. repeat (wp_case; wp_norm); done.
    - intros [] n Hn. wp_norm. apply (wp_register_all registerReceiveProtocol id); [|done].
      intros. by apply wp_registerReceiveProtocol. }
  unfold wp in Hwp. destruct ((_ : NetM H unit) base) as [[[]| |] n]; [|done|done].
  split; [done|]. by intros n' [= <-].
Qed.

Lemma BootstrapConnect_returns p r w :
  pc_BootstrapConnectRetry (peer_conf p) = Some r →
  wp (BootstrapConnect p) (fun _ _ => True) (fun _ _ => True) w.
Proof.
  intros Hr. unfold BootstrapConnect. rewrite Hr.
  destruct (bootstrapPeers _ _) as [|a l]; wp_norm; [done|].
  destruct (dial_all_correct (isBootnode (peer_ID p) (pc_BootstrapPeers (peer_conf p))) r (a :: l) w)
    as (ds & w' & Hds & _).
  unfold wp at 1. rewrite Hds. repeat case_match; wp_norm; try done. by destruct (dht_Bootstrap w') as [[] ?].
Qed.

(** The host runs under the identity of the keys, and so does the network built over it. *)
Lemma initNetwork_wp {N : Type} (given : option N) pc k pub id r w :
  readKeyPair pc = Ok (k, pub) → IDFromPrivateKey k = Ok id → pc_BootstrapConnectRetry pc = Some r →
  wp (initNetwork given pc)
    (fun x _ => peer_ID x.1 = id ∧
      match x.2 with inl net => given = Some net | inr net => given = None ∧ net_self net = id end)
    (fun _ _ => True) w.
Proof.
  intros Hk Hid Hr. unfold initNetwork, NewPeer, newPeerStore, newDHT. wp_norm. rewrite Hk. wp_norm.
  destruct (NewPeerstore w) as [[[]|] w1]; simpl; [|done]. wp_norm.
  destruct (libp2p_New _ _ _ w1) as [[mux|] w2]; simpl; [|done]. wp_norm.
  destruct (dht_New _ _ w2) as [[[]|] w3]; simpl; [|done]. wp_norm.
  destruct (host_Start w3) as [[[]|] w4]; simpl; [|done]. wp_norm. rewrite Hid. wp_norm.
  destruct (dht_Bootstrap w4) as [[[]|] w5]; simpl; [|done].
  destruct given as [net|]; wp_norm; [done|].
  destruct (NewLibP2PValidatorNetwork_self id mux DefaultValidatorNetworkOptions) as [Hp Hs]. unfold wp at 1.
  destruct (NewLibP2PValidatorNetwork _ _) as [net| |]; [|done|done].
  wp_norm. eapply wp_mono; [by eapply BootstrapConnect_returns| |done]. intros [] w6 _. wp_norm. simpl. auto.
Qed.
End peer_theorems.
