(* ===== verification/NodeSystem.v ===== *)
(** * The running node

    A node runs its main loop, its replication workers and the goroutine of its T1 timer.  The
    loop takes one event at a time and the workers only read the block store, so a run is a
    sequence of the steps below, in any order.  The theorems hold for every run from a node
    that satisfies the invariant; NodeStart.v shows that a node starts in one. *)

From Stdlib Require Import ZArith Lia Strings.Byte String.
From stdpp Require Import base list strings option gmap relations.
From S2P Require Import Prelude GoBase BftTypes Summary TxInterface Messages KVStore ShardConfStore Selector Node NodeOps Handlers NodeInvariant NodeQuiet NodeSafety HandlerSafety.

Section system.
Context {BT : BftTypes} {BL : BftLib} {ML : MsgLib}.
Context {AL : AccessorLaws BL} {OL : OrderLaws BL} {KL : KeyLaws BL} {VL : VerifyLaws BL} {CL : CborLaws BL} {SH : Shard}.
Context {T W D DC : Type} {TS : TransactionSystem T W} {TSL : TransactionSystemLaws T W} {NE : NodeEnv W}.
Context {KVB : KeyValueDB D Block} {KVBL : KeyValueDBLaws D Block}.
Context {KVC : KeyValueDB DC PartitionDescriptionRecord}.
Context {KVCL : KeyValueDBLaws DC PartitionDescriptionRecord}.
Implicit Types (n : Node T W D DC).
#[local] Abbreviation NodeM := (NodeM (T:=T) (W:=W) (D:=D) (DC:=DC)).

(** The node and the local variables of its loop. *)
Inductive sys_step : Node T W D DC * (Z * Z) → Node T W D DC * (Z * Z) → Prop :=
  | sys_loop ev n last n' last' :
      enabled ev n = true → deliverable_event ev →
      loop_iteration ev last n = (Ret last', n') → sys_step (n, last) (n', last')
  | sys_worker n last n' :
      replicationLoop_iteration n = (Ret tt, n') → sys_step (n, last) (n', last)
  | sys_timer g a n last t :
      timer_act g a (nd_timer n) = Some t → sys_step (n, last) (set_timer t n, last).

Lemma sys_step_good c c' : sys_step c c' → Inv c.1 → good c.1 c'.1.
Proof.
  intros Hs Hi. destruct Hs as [ev n last n' last' _ Hd Hl|n last n' Hw|g a n last t Ht]; simpl in *.
  - apply (wp_ret_inv _ _ _ _ _ _ (safe_loop_iteration n ev last Hi Hd) Hl).
  - apply (wp_ret_inv _ _ _ _ _ _ (safe_replicationLoop_iteration n Hi) Hw).
  - apply frame_good; [done|]. apply frame_set_timer. intros Hok. by eapply timer_act_ok.
Qed.

Lemma run_good c c' : rtc sys_step c c' → Inv c.1 → good c.1 c'.1.
Proof.
  induction 1 as [|c1 c2 c3 Hs _ IH]; intros Hi; [by apply good_refl|].
  pose proof (sys_step_good _ _ Hs Hi) as Hg. eapply good_trans; [done|]. apply IH. by eapply good_inv.
Qed.

(** ** Errors do not end the loop *)

(** The call does not return an error. *)
Definition nothrow {S A} (m : M S A) : Prop :=
  ∀ s, match (m s).1 with Throw _ => False | _ => True end.

Lemma nothrow_bind {S A B} (m : M S A) (k : A → M S B) :
  nothrow m → (∀ a, nothrow (k a)) → nothrow (m ≫= k).
Proof.
  intros Hm Hk s. specialize (Hm s). unfold mbind, M_bind.
  destruct (m s) as [[a| |] s']; simpl in *; [apply Hk|done|done].
Qed.
Lemma nothrow_ret {S A} (a : A) : nothrow (S:=S) (mret a).
Proof. done. Qed.
Lemma nothrow_gets {S A} (f : S → A) : nothrow (gets f).
Proof. done. Qed.
Lemma nothrow_modify {S} (f : S → S) : nothrow (modify f).
Proof. done. Qed.
Lemma nothrow_try {S A} (m : M S A) : nothrow (try m).
Proof. intros s. unfold try. by destruct (m s) as [[] ?]. Qed.
Lemma nothrow_deref {S A} (p : option A) : nothrow (S:=S) (deref p).
Proof. intros s. by destruct p. Qed.
Lemma nothrow_world {A} (f : W → A * W) : nothrow (world (T:=T) (D:=D) (DC:=DC) f).
Proof. intros n. unfold world. by destruct (f _). Qed.
Hint Resolve nothrow_ret nothrow_gets nothrow_modify nothrow_try nothrow_deref nothrow_world : node.

Ltac nothrow := repeat first
  [ solve [eauto with node]
  | apply nothrow_bind; [|intros]
  | match goal with |- nothrow (match ?x with _ => _ end) => destruct x end ].

Lemma nothrow_handleT1TimeoutEvent : nothrow (handleT1TimeoutEvent (T:=T) (W:=W) (D:=D) (DC:=DC)).
Proof.
  unfold handleT1TimeoutEvent, currentRoundNumber, latestTR, latestUC, get_state, revertState. nothrow.
Qed.

Lemma nothrow_handleEpochChangeEvent : nothrow (handleEpochChangeEvent (T:=T) (W:=W) (D:=D) (DC:=DC)).
Proof. unfold handleEpochChangeEvent, currentEpoch, latestTR, latestUC, get_state. nothrow. Qed.

Lemma nothrow_try_peers msg self peers : nothrow (try_peers (T:=T) (D:=D) (DC:=DC) msg self peers).
Proof. induction peers; simpl; nothrow. Qed.
Hint Resolve nothrow_try_peers : node.

Lemma nothrow_handleMonitoring a b : nothrow (handleMonitoring (T:=T) (D:=D) (DC:=DC) a b).
Proof.
  unfold handleMonitoring, elapsed, sendHandshake, sendLedgerReplicationRequest, get_state,
    committedUC, Validators. nothrow.
Qed.

Lemma nothrow_ensureT1TimerState : nothrow (ensureT1TimerState (T:=T) (W:=W) (D:=D) (DC:=DC)).
Proof. unfold ensureT1TimerState, startT1Timer, stopT1Timer, upd_timer. nothrow. Qed.
Hint Resolve nothrow_handleT1TimeoutEvent nothrow_handleEpochChangeEvent nothrow_handleMonitoring
  nothrow_ensureT1TimerState : node.

Definition ends_loop (ev : loop_event) : bool :=
  match ev with EvDone | EvMessage None => true | _ => false end.

Lemma nothrow_loop_iteration ev last :
  ends_loop ev = false → nothrow (loop_iteration (T:=T) (W:=W) (D:=D) (DC:=DC) ev last).
Proof.
  intros He. unfold loop_iteration. apply nothrow_bind; [|intros; nothrow].
  destruct ev as [|[m|]| | |]; try done; unfold upd_timer; nothrow.
Qed.

(** C10: The main loop of a node never panics on a nil pointer, and no message, timeout, epoch
    change or tick ends it: for every event the network and the node's own channels can
    deliver, the iteration runs to its end and the node it leaves satisfies the invariant. Only
    the cancellation of the context and the closing of the receive channel end the loop. *)
Theorem loop_never_stops ev last n :
  Inv n → deliverable_event ev →
  if ends_loop ev then ∃ e, loop_iteration ev last n = (Throw e, n)
  else ∃ last' n', loop_iteration ev last n = (Ret last', n') ∧ Inv n'.
Proof.
  intros Hi Hd. destruct (ends_loop ev) eqn:He.
  - destruct ev as [|[m|]| | |]; try done; eexists; reflexivity.
  - pose proof (safe_loop_iteration n ev last Hi Hd) as Hs.
    pose proof (nothrow_loop_iteration ev last He n) as Hn.
    unfold safe, wp in Hs. destruct (loop_iteration ev last n) as [[last'| |] n']; simpl in Hn; try done.
    exists last', n'. split; [done|]. by apply Hs.
Qed.

(** C22: The invariant holds in every state a node reaches: whatever the loop, the workers and
    the timer do, and in whatever order. *)
Theorem reachable_invariant c c' : Inv c.1 → rtc sys_step c c' → Inv c'.1.
Proof. intros Hi Hr. by eapply good_inv, run_good. Qed.

(** C7: The node is guaranteed to have blocks starting at fuc+1: in every reachable state, for
    every round after that of the first certificate and up to the committed one there is a
    block in the store, and it carries the certificate of that round. *)
Theorem committed_blocks_available c c' r :
  Inv c.1 → rtc sys_step c c' →
  GetRoundNumber (fuc (nd_state c'.1)) < r <= GetRoundNumber (committed c'.1) →
  ∃ b u, block_at (blocks c'.1) r = Some b ∧ getUCv1 (Some b) = Ok u ∧ GetRoundNumber (Some u) = r.
Proof.
  intros Hi Hr Hrange. destruct (run_good _ _ Hr Hi) as [Hi' _].
  by eapply chain_block; [apply inv_chain|].
Qed.

(** C3: Committed history is final. Between two states of a run the committed certificate only
    moves along successors (no round is skipped, none is committed twice), the block of every
    round passed is in the store, and the blocks that were committed before are still there,
    byte for byte. *)
Theorem committed_history_final c c' :
  Inv c.1 → rtc sys_step c c' →
  chain (blocks c'.1) (committed c.1) (committed c'.1) ∧
  GetRoundNumber (committed c.1) <= GetRoundNumber (committed c'.1) ∧
  ∀ r, is_u64 r → is_Some (committed c.1) → r <= GetRoundNumber (committed c.1) →
    block_at (blocks c'.1) r = block_at (blocks c.1) r.
Proof.
  intros Hi Hr. destruct (run_good _ _ Hr Hi) as [_ [_ _ _ _ Hc Hk]].
  split_and!; [done|by eapply chain_rounds|done].
Qed.

(** The latest certificate never goes back to an earlier root round, and never falls behind
    the committed one. *)
Theorem latest_certificate_monotone c c' :
  Inv c.1 → rtc sys_step c c' →
  GetRootRoundNumber (luc (nd_state c.1)) <= GetRootRoundNumber (luc (nd_state c'.1)) ∧
  GetRootRoundNumber (committed c'.1) <= GetRootRoundNumber (luc (nd_state c'.1)).
Proof.
  intros Hi Hr. destruct (run_good _ _ Hr Hi) as [Hi' Hev]. split; [apply Hev|apply Hi'].
Qed.
End system.
