(* ===== verification/T1Timer.v ===== *)
(** * The T1 timer (round.go)

    The loop, the goroutine that waits for the timeout and [ensureT1TimerState] share the
    timer's flag and channel.  While a node is the leader and not recovering the timer stays
    armed, in every interleaving; one timeout may be lost when it passes just before
    [ensureT1TimerState] runs. *)

From Stdlib Require Import ZArith Lia Strings.Byte String.
From stdpp Require Import base list strings option gmap relations.
From S2P Require Import Prelude GoBase BftTypes Summary TxInterface Messages KVStore ShardConfStore Selector Node NodeOps Handlers NodeInvariant NodeQuiet NodeSafety HandlerSafety NodeSystem.

Section timer.
Context {BT : BftTypes} {BL : BftLib} {ML : MsgLib}.
Context {AL : AccessorLaws BL} {OL : OrderLaws BL} {KL : KeyLaws BL} {VL : VerifyLaws BL} {CL : CborLaws BL} {SH : Shard}.
Context {T W D DC : Type} {TS : TransactionSystem T W} {TSL : TransactionSystemLaws T W} {NE : NodeEnv W}.
Context {KVB : KeyValueDB D Block} {KVBL : KeyValueDBLaws D Block}.
Context {KVC : KeyValueDB DC PartitionDescriptionRecord}.
Context {KVCL : KeyValueDBLaws DC PartitionDescriptionRecord}.
Implicit Types (n : Node T W D DC).
#[local] Abbreviation NodeM := (NodeM (T:=T) (W:=W) (D:=D) (DC:=DC)).

Definition should_run n : bool :=
  String.eqb (leader (nd_state n)) (nd_peerID n) && negb (bool_decide (cs_status (nd_state n) = recovering)).

(** The event has been sent, or a goroutine that is not cancelled still has to send it. *)
Definition armed (t : roundTimer) : Prop :=
  timer_event t = true ∨
  ∃ g tg, timer_goroutines t !! g = Some tg ∧ tg_cancelled tg = false ∧ tg_phase tg ≠ TDone.

Lemma timer_stop_not_running t : timer_isRunning (timer_stop t) = false.
Proof. unfold timer_stop. by destruct (timer_cancel t). Qed.

Lemma ensureT1TimerState_run n :
  ∃ t, ensureT1TimerState n = (Ret tt, set_timer t n) ∧ timer_isRunning t = should_run n ∧
    t = if should_run n then if timer_isRunning (nd_timer n) then nd_timer n else timer_start (nd_timer n)
        else if timer_isRunning (nd_timer n) then timer_stop (nd_timer n) else nd_timer n.
Proof.
  unfold ensureT1TimerState, mbind, M_bind, gets, id. fold (should_run n).
  destruct (should_run n), (timer_isRunning (nd_timer n)) eqn:Hr; simpl;
    try (exists (nd_timer n); destruct n; by split_and!).
  - by exists (timer_start (nd_timer n)).
  - exists (timer_stop (nd_timer n)). split_and!; [done|apply timer_stop_not_running|done].
Qed.

(** [ensureT1TimerState] makes the flag follow the node's role: afterwards the timer runs
    exactly if the node is the leader and not recovering, a timer that runs has a goroutine
    that waits with a context that is not cancelled, one that should keep running is left
    alone, and nothing but the timer changes. *)
Theorem ensureT1TimerState_post n :
  timer_ok (nd_timer n) →
  ∃ t, ensureT1TimerState n = (Ret tt, set_timer t n) ∧
    timer_isRunning t = should_run n ∧ timer_ok t ∧
    (should_run n = true → armed t ∧ (timer_isRunning (nd_timer n) = true → t = nd_timer n)).
Proof.
  intros Hok. destruct (ensureT1TimerState_run n) as (t & Hrun & Hflag & Ht).
  assert (timer_ok t) as Hok'.
  { rewrite Ht. repeat case_match; try done; [by apply timer_start_ok|by apply timer_stop_ok]. }
  exists t. split_and!; try done. intros Hs. rewrite Hs in *. split.
  - destruct (timer_running _ Hok' Hflag) as (g & _ & Hg). right. by exists g, (mkTimerGoroutine TWaiting false).
  - intros Hr. by rewrite Hr in Ht.
Qed.

(** A worker does not touch the timer or the consensus state. *)
Definition keeps {A} (m : NodeM A) : Prop :=
  ∀ n, nd_timer (m n).2 = nd_timer n ∧ nd_state (m n).2 = nd_state n ∧ nd_peerID (m n).2 = nd_peerID n.

Lemma keeps_bind {A B} (m : NodeM A) (k : A → NodeM B) : keeps m → (∀ a, keeps (k a)) → keeps (m ≫= k).
Proof.
  intros Hm Hk n. specialize (Hm n). unfold mbind, M_bind. destruct (m n) as [[a| |] n']; simpl in *; try done.
  destruct Hm as (H1 & H2 & H3). destruct (Hk a n') as (H4 & H5 & H6). by rewrite H4, H5, H6.
Qed.
Lemma keeps_ret {A} (a : A) : keeps (mret a).
Proof. done. Qed.
Lemma keeps_gets {A} (f : Node T W D DC → A) : keeps (gets f).
Proof. done. Qed.
Lemma keeps_lift {A} (r : result A) : keeps (lift r).
Proof. intros n. by destruct r. Qed.
Lemma keeps_try {A} (m : NodeM A) : keeps m → keeps (try m).
Proof. intros Hm n. specialize (Hm n). unfold try. by destruct (m n) as [[] ?]. Qed.
Lemma keeps_wrapM {A} msg (m : NodeM A) : keeps m → keeps (wrapM msg m).
Proof. intros Hm n. specialize (Hm n). unfold wrapM. by destruct (m n) as [[] ?]. Qed.
Lemma keeps_world {A} (f : W → A * W) : keeps (world f).
Proof. intros n. unfold world. by destruct (f _). Qed.
Lemma keeps_Send msg to : keeps (Send msg to).
Proof. intros n. unfold Send, world, mbind, M_bind, modify. simpl. destruct (net_Send _ _ _) as [[] ?]; done. Qed.
Lemma keeps_queue q : keeps (modify (set_replicationCh q)).
Proof. done. Qed.
Hint Resolve keeps_ret keeps_gets keeps_lift keeps_try keeps_wrapM keeps_world keeps_Send keeps_queue : node.

Ltac keeps := repeat first
  [ solve [eauto with node]
  | apply keeps_bind; [|intros]
  | match goal with |- keeps (match ?x with _ => _ end) => destruct x end ].

Lemma keeps_fetch_blocks mx e it f : keeps (fetch_blocks mx e it f).
Proof. revert f. induction it as [|[key value] it IH]; intros f; cbn [fetch_blocks]; keeps. Qed.
Hint Resolve keeps_fetch_blocks : node.

Lemma keeps_replicationLoop_iteration : keeps replicationLoop_iteration.
Proof.
  unfold replicationLoop_iteration, processReplicationRequest, sendLedgerReplicationResponse. keeps.
  apply keeps_try. keeps.
Qed.

Lemma timer_act_armed g a t t' : timer_act g a t = Some t' → armed t → armed t'.
Proof.
  unfold timer_act. destruct (timer_goroutines t !! g) as [tg|] eqn:Hg; [|done]. simpl.
  intros Ht [He|(g' & tg' & Hg' & Hc & Hp)].
  { left. destruct a, (tg_phase tg); repeat case_match; by simplify_eq/=. }
  destruct (decide (g' = g)) as [->|Hne].
  - simplify_eq. destruct a, (tg_phase tg) eqn:Hp'; try done; rewrite ?Hc in Ht; try done.
    + simplify_eq. right. exists g, (mkTimerGoroutine TSending (tg_cancelled tg)). simpl.
      rewrite list_lookup_insert_eq by (by eapply lookup_lt_Some). rewrite Hc. by split_and!.
    + destruct (timer_event t); [done|]. simplify_eq. by left.
  - right. exists g', tg'. split; [|done].
    destruct a, (tg_phase tg); repeat case_match; simplify_eq/=; by rewrite list_lookup_insert_ne.
Qed.

Definition T1_ready n : Prop := should_run n = true → armed (nd_timer n).

Lemma loop_iteration_armed ev last n last' n' :
  Inv n → deliverable_event ev → loop_iteration ev last n = (Ret last', n') → T1_ready n'.
Proof.
  intros Hi Hd Hl Hs. pose proof (wp_ret_inv _ _ _ _ _ _ (safe_loop_iteration n ev last Hi Hd) Hl) as [[Hi' _] _].
  unfold loop_iteration in Hl. apply bind_ret_inv in Hl as (l & n1 & _ & Hl).
  destruct (ensureT1TimerState_run n1) as (t & Hrun & Hflag & _).
  unfold mbind, M_bind in Hl. rewrite Hrun in Hl. injection Hl as <- <-.
  destruct (timer_running _ (inv_timer _ Hi')) as (g & _ & Hg); [exact (eq_trans Hflag Hs)|].
  right. by exists g, (mkTimerGoroutine TWaiting false).
Qed.

(** C18: A leader's T1 timer never stops for good: in every state of a run, as long as the node
    is the leader and not recovering, either the timeout event waits in the channel or a
    goroutine whose context is not cancelled is still to send it, whatever the interleaving of
    the loop, the workers and the timer's goroutines. *)
Theorem T1_stays_armed c c' :
  Inv c.1 → T1_ready c.1 → rtc sys_step c c' → T1_ready c'.1.
Proof.
  intros Hi Ha Hr. induction Hr as [|c1 c2 c3 Hs _ IH]; [done|].
  apply IH; [by eapply good_inv, sys_step_good|].
  destruct Hs as [ev n last n' last' _ Hd Hl|n last n' Hw|g a n last t Ht]; simpl in *.
  - by eapply loop_iteration_armed.
  - destruct (keeps_replicationLoop_iteration n) as (Ht & Hst & Hp). rewrite Hw in *. simpl in *.
    unfold T1_ready, should_run. by rewrite Ht, Hst, Hp.
  - unfold T1_ready in *. simpl. intros Hsr. eapply timer_act_armed; eauto.
Qed.

(** C40: A timeout can be lost: if the T1 timeout of a leader passes and the loop handles any
    other event before the goroutine has sent its own, [ensureT1TimerState] sees the flag
    down, cancels the goroutine and starts a new timeout; the goroutine may then see the
    cancellation first and end without having sent the event. *)
Theorem T1_timeout_lost n g :
  timer_ok (nd_timer n) → should_run n = true → timer_event (nd_timer n) = false →
  timer_isRunning (nd_timer n) = true → timer_cancel (nd_timer n) = Some g →
  ∃ t1 t2 t3, timer_act g TimeoutPasses (nd_timer n) = Some t1 ∧
    ensureT1TimerState (set_timer t1 n) = (Ret tt, set_timer t2 n) ∧
    timer_act g SeesCancel t2 = Some t3 ∧
    timer_event t3 = false ∧ timer_goroutines t3 !! g = Some (mkTimerGoroutine TDone true).
Proof.
  intros Hok Hs He Hr Hc. destruct (timer_running _ Hok Hr) as (g' & Hc' & Hg). simplify_eq.
  assert (g < length (timer_goroutines (nd_timer n)))%nat as Hlen by (by eapply lookup_lt_Some).
  set (t1 := mkRoundTimer false (Some g) false
    (<[g := mkTimerGoroutine TSending false]> (timer_goroutines (nd_timer n)))).
  destruct (ensureT1TimerState_run (set_timer t1 n)) as (t2 & Hrun & _ & Ht2).
  change (should_run (set_timer t1 n)) with (should_run n) in Ht2. rewrite Hs in Ht2.
  change (t2 = timer_start t1) in Ht2. subst t2.
  eexists t1, (timer_start t1), _. split_and!; [|exact Hrun| | |].
  - unfold timer_act. rewrite Hg. simpl. by rewrite Hc, He.
  - unfold timer_act, timer_start, timer_stop, cancel_goroutine. simpl.
    rewrite lookup_app_l by (rewrite length_alter, length_insert; done).
    by rewrite list_lookup_alter_eq, list_lookup_insert_eq by done.
  - done.
  - simpl. rewrite list_lookup_insert_eq; [done|].
    unfold cancel_goroutine. rewrite length_app, length_alter, length_insert. lia.
Qed.
End timer.
