(* ===== verification/NodeStart.v ===== *)
(** * The start of a node satisfies the invariant

    What [NewNode] leaves: the invariant holds when the block store is empty or its last entry
    is a certified block.  When the store holds nothing but the pending proposal, the proposal
    is taken for a certified block. *)

From Stdlib Require Import ZArith Lia Strings.Byte String.
From stdpp Require Import base list strings option gmap relations.
From S2P Require Import Prelude GoBase BftTypes Summary TxInterface Messages KVStore ShardConfStore Selector Node NodeOps Handlers NodeInit NodeInvariant NodeQuiet NodeSafety HandlerSafety NodeSystem T1Timer.

Section start.
Context {BT : BftTypes} {BL : BftLib} {ML : MsgLib}.
Context {AL : AccessorLaws BL} {OL : OrderLaws BL} {KL : KeyLaws BL} {VL : VerifyLaws BL} {CL : CborLaws BL} {SH : Shard}.
Context {T W D DC : Type} {TS : TransactionSystem T W} {TSL : TransactionSystemLaws T W} {NE : NodeEnv W}.
Context {KVB : KeyValueDB D Block} {KVBL : KeyValueDBLaws D Block}.
Context {KVC : KeyValueDB DC PartitionDescriptionRecord}.
Context {KVCL : KeyValueDBLaws DC PartitionDescriptionRecord}.
Implicit Types (n : Node T W D DC).
#[local] Abbreviation NodeM := (NodeM (T:=T) (W:=W) (D:=D) (DC:=DC)).

(** The default validators promise what the node relies on. *)
Lemma default_validators_ok c :
  conf_ucValidator c = DefaultUnicityCertificateValidator_Validate (conf_hashAlgorithm c) →
  conf_bpValidator c = DefaultBlockProposalValidator_Validate (conf_hashAlgorithm c) → conf_ok c.
Proof.
  intros Hu Hb. split.
  - intros uc conf tb x [Hp Hs] Htb. rewrite Hu. unfold DefaultUnicityCertificateValidator_Validate.
    intros (h & _ & Hv)%result_bind_ok. rewrite Hp, Hs in Hv.
    destruct (UC_Verify_parts _ _ _ _ _ _ _ Hv) as (u & -> & _). exists u. split; [done|]. by exists tb, (conf_hashAlgorithm c), h, x.
  - intros p conf tb x. rewrite Hb. unfold DefaultBlockProposalValidator_Validate, BP_IsValid.
    destruct conf as [conf|]; [|done]. intros (? & _ & H)%result_bind_ok.
    apply result_bind_ok in H as (? & _ & H). apply result_bind_ok in H as (? & _ & H).
    destruct (PDR_FindValidator _ _); [|done]. apply result_bind_ok in H as (? & _ & H).
    apply result_bind_ok in H as (? & Hv & _).
    by destruct (UC_Verify_parts _ _ _ _ _ _ _ Hv) as (u & -> & ? & ?); exists u.
Qed.

Lemma timer_new_ok ev : timer_ok (mkRoundTimer false None ev []).
Proof. by split. Qed.

(** The pending proposal of the store has an input record. *)
Definition proposal_has_record (d : D) : Prop :=
  ∀ pr, db_map d !! Uint32ToBytes proposalKey = Some pr → has_record pr.

Lemma blocks_ok_proposal d : blocks_ok (db_map d) → proposal_has_record d.
Proof.
  intros Hs pr Hpr. destruct (Hs _ _ Hpr) as [[_ ?]|(u & _ & _ & Hk)]; [done|]. symmetry in Hk. by apply proposalKey_ne in Hk.
Qed.

Lemma restoreBlockProposal_wp n :
  proposal_has_record (nd_blockStore n) →
  wp restoreBlockProposal
    (fun _ n' => ∃ n1 b, frame n n1 ∧ nd_blockStore n1 = nd_blockStore n ∧
      (n' = n1 ∨ n' = set_state (cs_set_pending (Some b) (nd_state n)) n1))
    (fun _ _ => False) n.
Proof.
  intros Hrec. unfold restoreBlockProposal, loadPendingProposal. wp_norm.
  assert (∀ n', frame n n' → nd_blockStore n' = nd_blockStore n →
    ∃ n1 (b : Block), frame n n1 ∧ nd_blockStore n1 = nd_blockStore n ∧
    (n' = n1 ∨ n' = set_state (cs_set_pending (Some b) (nd_state n)) n1)) as Hsame.
  { intros n' Hf Hst. exists n', (mkBlock None None nil_slice). auto. }
  destruct (db_Read _ _) as [o|] eqn:Hread; wp_norm; [|by apply Hsame].
  apply Read_ok in Hread. destruct o as [pr|]; wp_norm; [|by apply Hsame].
  destruct (getUCv1 (Some pr)) as [u|] eqn:Hu; wp_norm; [|by apply Hsame].
  case_match; wp_norm; [by apply Hsame|].
  destruct (Hrec pr (eq_sym Hread) u Hu) as [ir Hir]. rewrite Hir. wp_norm.
  assert (∀ t, CommittedUC t = CommittedUC (nd_transactionSystem n) →
    ∀ w, frame n (set_tx (Revert t) (set_world w (set_tx t n)))) as Hrev.
  { intros t Ht w. split; try done. unfold committed. simpl. by rewrite CommittedUC_Revert. }
  eapply wp_mono; [apply FollowerVerify_committed| |]; intros r [t w] Hc; wp_norm; [|by apply Hsame; [apply Hrev|]].
  destruct (EqualsIR r (Some ir)); wp_norm; [|by apply Hsame; [apply Hrev|]].
  exists (set_world w (set_tx t n)), pr. split; [by apply frame_set_tx_world|]. split; [done|]. by right.
Qed.

(** The certificate of the last entry of the store, when it can be read. *)
Definition last_certificate (d : D) (u : option UnicityCertificate) : Prop :=
  match db_Last d with
  | None => u = None
  | Some (_, Ok b) => ∃ x, getUCv1 (Some b) = Ok x ∧ u = Some x
  | Some (_, Fail _) => False
  end.

(** The last entry is not the pending proposal: the store is empty or has a block. *)
Definition last_is_block (d : D) : Prop :=
  ∀ k v, db_Last d = Some (k, v) → k ≠ Uint32ToBytes proposalKey.

(** The last entry of a store is then its highest block. *)
Lemma last_block d c :
  blocks_ok (db_map d) → last_is_block d → last_certificate d c →
  top_stored (db_map d) c ∧ (∀ u, c = Some u → genuine u) ∧
  ∀ r, is_u64 r → is_Some (block_at (db_map d) r) → is_Some c ∧ r <= GetRoundNumber c.
Proof.
  unfold last_certificate. intros Hs Hl Hc. pose proof (Last_spec d) as Hlast.
  destruct (db_Last d) as [[k [b|]]|] eqn:Hd; [|done|].
  - destruct Hc as (u & Hu & ->), Hlast as (_ & Hb & Hmax). specialize (Hb b eq_refl).
    destruct (Hs _ _ Hb) as [[Hk _]|(u' & Hu' & Hcomp & ->)]; [by destruct (Hl k (Ok b) Hd)|].
    rewrite Hu in Hu'. injection Hu' as <-. split_and!.
    + intros ? [= <-]. by exists b.
    + by intros ? [= <-].
    + intros r Hr Hsome. split; [done|]. apply key_le_round; [done|apply GetRoundNumber_u64|]. by apply Hmax.
  - subst c. rewrite Hlast. split_and!; [done|done|]. intros r _ [b Hb]. unfold block_at in Hb. by rewrite lookup_empty in Hb.
Qed.

(** What the first half of [initState] may change. *)
Definition restored n u n' : Prop :=
  nd_state n' = nd_state n ∧ nd_conf n' = nd_conf n ∧ nd_blockStore n' = nd_blockStore n ∧
  nd_peerID n' = nd_peerID n ∧ nd_replicationCh n' = nd_replicationCh n ∧ nd_timer n' = nd_timer n ∧
  coherent (nd_shardConfStore n') ∧ scs_db (nd_shardConfStore n') = scs_db (nd_shardConfStore n) ∧
  committed n' = u ∧
  (of_shard (nd_shardConf n) → confs_of_shard (nd_shardConfStore n) → of_shard (nd_shardConf n')).

Lemma restore_last_block_wp n :
  coherent (nd_shardConfStore n) → committed n = None →
  wp restore_last_block
    (fun _ n' => ∃ u, last_certificate (nd_blockStore n) u ∧ restored n u n') (fun _ _ => True) n.
Proof.
  intros Hc Hn. unfold restore_last_block, last_certificate. wp_norm.
  destruct (db_Last (nd_blockStore n)) as [[k v]|]; wp_norm.
  2: { exists None. by split_and!. }
  destruct v as [b|]; wp_norm; [|done].
  destruct (getUCv1 (Some b)) as [u|] eqn:Hu; wp_norm; [|done].
  eapply wp_mono; [by apply Get_wp| |done]. intros c s (Hst & Hdb & _ & Hs). wp_norm.
  eapply wp_mono; [apply UpdateConfig_committed| |done]. intros ? [t w] _. wp_norm.
  eapply wp_mono; [apply RestoreState_spec| |done]. intros ? [t' w'] [Ht _].
  exists (Some u). split; [by eauto|]. split_and!; try done. intros _ Hall. by apply (Hall _ _ Hst).
Qed.

(** [initState] as a whole, on a node just created. *)
Definition initialized n u n' : Prop :=
  committed n' = u ∧ fuc (nd_state n') = u ∧ luc (nd_state n') = u ∧
  cs_status (nd_state n') = cs_status (nd_state n) ∧ leader (nd_state n') = leader (nd_state n) ∧
  ltr (nd_state n') = ltr (nd_state n) ∧ nd_conf n' = nd_conf n ∧ nd_peerID n' = nd_peerID n ∧
  nd_replicationCh n' = nd_replicationCh n ∧ coherent (nd_shardConfStore n') ∧
  scs_db (nd_shardConfStore n') = scs_db (nd_shardConfStore n) ∧
  (timer_ok (nd_timer n) → timer_ok (nd_timer n')) ∧ nd_blockStore n' = nd_blockStore n ∧
  (of_shard (nd_shardConf n) → confs_of_shard (nd_shardConfStore n) → of_shard (nd_shardConf n')).

Lemma initState_wp n :
  coherent (nd_shardConfStore n) → committed n = None → proposal_has_record (nd_blockStore n) →
  wp initState
    (fun _ n' => ∃ u, last_certificate (nd_blockStore n) u ∧ initialized n u n') (fun _ _ => True) n.
Proof.
  intros Hc Hn Hp. unfold initState. wp_norm.
  eapply wp_mono; [by apply restore_last_block_wp| |done].
  intros ? n1 (u & Hu & Hs1 & Hcf1 & Hb1 & Hp1 & Hq1 & Ht1 & Hco1 & Hdb1 & Hc1 & Hsh1). wp_norm.
  set (n2 := set_state _ n1).
  eapply wp_mono; [apply (restoreBlockProposal_wp n2)| |done].
  { change (nd_blockStore n2) with (nd_blockStore n1). by rewrite Hb1. }
  intros ? n' (n3 & b & [Hcf Hs Hbl Hco Hpe Hsc Hq Ht Hk Hsh] & Hst & [->| ->]);
    exists u; (split; [done|]); unfold initialized;
    change (committed (set_state _ n3)) with (committed n3);
    rewrite ?Hco, ?Hs, ?Hcf, ?Hpe, ?Hq, ?Hsc; simpl; rewrite ?Hs1, ?Hsc, ?Hpe, ?Hcf, ?Hq, ?Hst; simpl;
    (split_and!; try done; [by rewrite <-Ht1|]; intros; by apply Hsh, Hsh1).
Qed.

Lemma NewNode_init_wp conf t d scs id zero w :
  conf_ok conf → CommittedUC t = None → id ≠ ""%string →
  coherent scs → epoch_keys scs → confs_of_shard scs → blocks_ok (db_map d) → last_is_block d →
  wp NewNode_init
    (fun _ n' => Inv n' ∧ T1_ready n' ∧ cs_status (nd_state n') = initializing ∧
      last_certificate d (committed n') ∧ fuc (nd_state n') = committed n' ∧ luc (nd_state n') = committed n' ∧
      nd_peerID n' = id ∧ nd_conf n' = conf ∧ nd_blockStore n' = d)
    (fun _ _ => True) (new_node conf t d scs id zero w).
Proof.
  intros Hcf Ht Hid Hco Hek Hall Hst Hlb. unfold NewNode_init. wp_norm.
  eapply wp_mono; [by apply GetFirst_wp| |done]. intros c s (Hdb & Hs & ec & Hec). wp_norm.
  eapply wp_mono; [by apply initState_wp; [..|apply blocks_ok_proposal]| |done].
  intros ? n' (u & Hu & Hc & Hf & Hl & Hsta & Hle & Hlt & Hcf' & Hpe & Hq & Hco' & Hdb' & Htm & Hbs & Hsh). simpl in *.
  destruct (last_block d u Hst Hlb Hu) as (Htop & Hcomp & Hbd).
  assert (blocks n' = db_map d) as Hbl by (unfold blocks; by rewrite Hbs).
  split_and!; try congruence.
  - split; rewrite ?Hcf', ?Hpe, ?Hq, ?Hbl, ?Hc; try done.
    + split.
      * intros x Hx. apply Hcomp. by rewrite <-Hx, Hl.
      * by rewrite Hle.
      * rewrite Hlt. by intros [].
      * by rewrite Hsta.
    + rewrite Hf. constructor.
    + rewrite Hl. lia.
    + simpl. lia.
    + apply Htm, timer_new_ok.
    + intros r Hr Hsome. destruct (Hbd r Hr Hsome). lia.
    + unfold epoch_keys. by rewrite Hdb', Hdb.
    + apply Hsh; [by apply (Hall _ _ Hec)|]. unfold confs_of_shard. simpl. by rewrite Hdb.
    + unfold confs_of_shard. by rewrite Hdb', Hdb.
  - intros Hsr. unfold should_run in Hsr. rewrite Hle, Hpe in Hsr.
    apply andb_true_iff in Hsr as [Hsr%String.eqb_eq _]. congruence.
Qed.

(** C38: Restarting from an uncertified proposal: if the block store holds only the pending
    proposal (the node stopped between its first certification request and the first
    certificate), [initState] takes the proposal for the last block, and the record that was
    never certified becomes the first, the latest and the committed certificate of the node. *)
Theorem initState_restores_uncertified n n' pr u :
  coherent (nd_shardConfStore n) → committed n = None →
  db_map (nd_blockStore n) = {[ Uint32ToBytes proposalKey := pr ]} →
  getUCv1 (Some pr) = Ok u → is_Some (uc_InputRecord u) →
  initState n = (Ret tt, n') →
  committed n' = Some u ∧ fuc (nd_state n') = Some u ∧ luc (nd_state n') = Some u.
Proof.
  intros Hc Hn Hdb Hu Hir Hrun.
  assert (proposal_has_record (nd_blockStore n)) as Hp.
  { intros pr'. rewrite Hdb, lookup_singleton_eq. intros [= <-] u' Hu'. rewrite Hu in Hu'. by injection Hu' as <-. }
  pose proof (wp_ret_inv _ _ _ _ _ _ (initState_wp n Hc Hn Hp) Hrun) as (x & Hx & H1 & H2 & H3 & _).
  unfold last_certificate in Hx. pose proof (Last_spec (nd_blockStore n)) as Hl.
  destruct (db_Last (nd_blockStore n)) as [[k [b|]]|]; [|done|].
  - destruct Hl as (_ & Hv & _). specialize (Hv b eq_refl). rewrite Hdb in Hv.
    apply lookup_singleton_Some in Hv as [_ <-]. destruct Hx as (y & Hy & ->). rewrite Hu in Hy. injection Hy as <-. by rewrite H1, H2, H3.
  - rewrite Hdb in Hl. apply (f_equal (lookup (Uint32ToBytes proposalKey))) in Hl.
    by rewrite lookup_singleton_eq, lookup_empty in Hl.
Qed.
End start.
