(* ===== verification/ConfigurationTheorems.v ===== *)
(** * A configured node starts well

    What [NewNodeConf] guarantees of the configuration, that the identifier of the peer is the
    one the keys stand for, and that a node built from such a configuration starts in a state
    that satisfies the invariant. *)

From Stdlib Require Import ZArith Lia Strings.Byte String.
From stdpp Require Import base list strings option gmap relations.
From S2P Require Import Prelude GoBase BftTypes Summary TxInterface Messages Wire KVStore ShardConfStore Selector Node Network Peer NodeOps Configuration Handlers NodeInit NodeInvariant NodeQuiet NodeSafety HandlerSafety PeerTheorems NodeSystem T1Timer NodeStart.

Section configuration.
Context {BT : BftTypes} {BL : BftLib} {ML : MsgLib} {PL : PeerLib} {PLL : PeerLibLaws PL}.
Context {AL : AccessorLaws BL} {OL : OrderLaws BL} {KL : KeyLaws BL} {VL : VerifyLaws BL} {CL : CborLaws BL} {SH : Shard}.
Context {HT T W D DC N TBS : Type} {PE : PeerEnv HT W} {TS : TransactionSystem T W} {TSL : TransactionSystemLaws T W} {NE : NodeEnv W}.
Context {KVB : KeyValueDB D Block} {KVBL : KeyValueDBLaws D Block}.
Context {KVC : KeyValueDB DC PartitionDescriptionRecord}.
Context {KVCL : KeyValueDBLaws DC PartitionDescriptionRecord}.
Implicit Types (c : FullNodeConf D DC N TBS) (opt : NodeOption D DC N TBS).

(** ** Options *)

(** An option keeps the keys and the stores, the signer and the hash algorithm, and a
    configuration whose validators the node can rely on. *)
Record option_ok opt : Prop := {
  option_conf c : conf_ok (nc_conf c) → conf_ok (nc_conf (opt c));
  option_keys c : nc_keyConf (opt c) = nc_keyConf c;
  option_store c : nc_shardConfStore (opt c) = nc_shardConfStore c;
  option_signer c : conf_signer (nc_conf (opt c)) = conf_signer (nc_conf c);
  option_hash c : conf_hashAlgorithm (nc_conf (opt c)) = conf_hashAlgorithm (nc_conf c);
}.

Lemma option_ok_same_validators opt :
  (∀ c, conf_ucValidator (nc_conf (opt c)) = conf_ucValidator (nc_conf c)) →
  (∀ c, conf_bpValidator (nc_conf (opt c)) = conf_bpValidator (nc_conf c)) →
  (∀ c, nc_keyConf (opt c) = nc_keyConf c) → (∀ c, nc_shardConfStore (opt c) = nc_shardConfStore c) →
  (∀ c, conf_signer (nc_conf (opt c)) = conf_signer (nc_conf c)) →
  (∀ c, conf_hashAlgorithm (nc_conf (opt c)) = conf_hashAlgorithm (nc_conf c)) → option_ok opt.
Proof.
  intros Hu Hb Hk Hs Hsig Hh. split; [|done..]. intros c [Hc1 Hc2]. split; intros *.
  - rewrite Hu. apply Hc1.
  - rewrite Hb. apply Hc2.
Qed.

Lemma source_options_ok (s : string) (l : list string) r nw d (a b e t : Z) :
  Forall option_ok
    [WithAddress s; WithAnnounceAddresses l; WithBootstrapAddresses l; WithBootstrapConnectRetry r;
     WithValidatorNetwork nw; WithBlockDB d; WithReplicationParams a b e t; WithT1Timeout t].
Proof. repeat constructor; by apply option_ok_same_validators. Qed.

Lemma validator_options_ok v v' :
  (∀ uc conf tb x, of_shard conf → trusted tb → v uc (Some conf) tb = Ok x → ∃ u, uc = Some u ∧ genuine u) →
  (∀ p conf tb x, v' (Some p) conf tb = Ok x → ∃ u, bp_UnicityCertificate p = Some u ∧ complete_uc u) →
  Forall option_ok [WithUnicityCertificateValidator v; WithBlockProposalValidator v'].
Proof.
  intros Hv Hv'. constructor; [|constructor; [|constructor]]; (split; [|done..]); intros c [H1 H2]; by split.
Qed.

Lemma options_keep opts c :
  Forall option_ok opts → conf_ok (nc_conf c) →
  let c' := foldl (fun c option => option c) c opts in
  conf_ok (nc_conf c') ∧ nc_keyConf c' = nc_keyConf c ∧ nc_shardConfStore c' = nc_shardConfStore c ∧
  conf_signer (nc_conf c') = conf_signer (nc_conf c) ∧ conf_hashAlgorithm (nc_conf c') = conf_hashAlgorithm (nc_conf c).
Proof.
  intros Ho. revert c. induction Ho as [|opt opts [H1 H2 H3 H4 H5] _ IH]; intros c Hc; [done|]. simpl.
  destruct (IH (opt c) (H1 c Hc)) as (? & ? & ? & ? & ?). split_and!; congruence.
Qed.

Lemma default_conf_ok signer : conf_ok (default_conf signer).
Proof. by apply default_validators_ok. Qed.

(** What a configuration that was built has. *)
Lemma NewNodeConf_built db keys scs tbs opts c :
  coherent scs → epoch_keys scs → Forall option_ok opts →
  NewNodeConf db (Some keys) (Some scs) (Some tbs) opts = Ret c →
  conf_ok (nc_conf c) ∧ nc_keyConf c = keys ∧
  coherent (nc_shardConfStore c) ∧ scs_db (nc_shardConfStore c) = scs_db scs ∧
  (∃ s, KeyConf_Signer keys = Ok s ∧ conf_signer (nc_conf c) = Some s) ∧
  conf_hashAlgorithm (nc_conf c) = SHA256 ∧ 1 <= maxWorkers (conf_replicationConfig (nc_conf c)).
Proof.
  intros Hco Hek Ho. unfold NewNodeConf. pose proof (GetFirst_wp scs Hco Hek) as Hg. unfold wp in Hg.
  destruct (GetFirst scs) as [[sc| |] scs1]; [|done|done]. destruct Hg as (Hdb & Hco1 & _).
  destruct (KeyConf_Signer keys) as [signer|] eqn:Hs; [|done].
  set (c0 := mkFullNodeConf _ _ _ _ _ _ _ _ _ _ _ _).
  destruct (options_keep opts c0 Ho (default_conf_ok signer)) as (? & Hk & Hst & Hsig & Hh).
  case_match eqn:Hw; [done|]. intros [= <-]. apply Z.ltb_ge in Hw.
  split_and!; try done; [by rewrite Hst|by rewrite Hst|by exists signer].
Qed.

(** ** Keys *)

(** The host is created with the keys of the configuration, and its identifier is the one
    [KeyConf.NodeID] reports. *)
Lemma PeerConf_identity c pc :
  PeerConf c = Ok pc →
  KeyConf_NodeID (nc_keyConf c) = Ok (pc_ID pc) ∧ pc_ID pc ≠ ""%string ∧
  (∃ k, readKeyPair pc = Ok (k, GetPublic k) ∧ IDFromPrivateKey k = Ok (pc_ID pc)) ∧
  is_Some (pc_BootstrapConnectRetry pc).
Proof.
  unfold PeerConf. intros (kp & Hkp & H)%result_bind_ok. apply wrap_ok in Hkp.
  apply result_bind_ok in H as (boot & _ & H). unfold NewPeerConfiguration in H.
  apply result_bind_ok in H as (id & Hid & H). apply wrap_ok in Hid.
  apply result_bind_ok in H as (ann & _ & [= <-]). simpl.
  unfold KeyConf_AuthKeyPair in Hkp. case_match; [done|].
  apply result_bind_ok in Hkp as (k & Hk & Hkp). apply wrap_ok in Hk.
  apply result_bind_ok in Hkp as (kb & Hkb & Hkp). apply result_bind_ok in Hkp as (pb & Hpb & [= <-]).
  unfold NodeIDFromPublicKeyBytes in Hid. simpl in Hid. rewrite (Unmarshal_PubKey_Raw _ _ Hpb) in Hid. simpl in Hid.
  split_and!.
  - unfold KeyConf_NodeID. rewrite Hk. simpl. by rewrite IDFromPrivateKey_public.
  - by eapply IDFromPublicKey_nonempty.
  - exists k. unfold readKeyPair. simpl. rewrite (Unmarshal_PrivKey_Raw _ _ Hkb), (Unmarshal_PubKey_Raw _ _ Hpb).
    split; [done|]. by rewrite IDFromPrivateKey_public.
  - by eexists.
Qed.

(** ** Start *)

(** The world is no part of the invariant. *)
Lemma Inv_set_world w (n : Node T W D DC) : Inv n → Inv (set_world w n).
Proof. intros Hi. eapply good_inv, frame_good; [done|]. by split. Qed.

(** What [NewNode] makes of a configuration: a node over its block store and its shard
    configurations, with a peer and a network for the identity of its keys. *)
Lemma NewNode_wp db keys scs tbs opts c t zero w :
  NewNodeConf db (Some keys) (Some scs) (Some tbs) opts = Ret c → Forall option_ok opts →
  CommittedUC t = None → coherent scs → epoch_keys scs → confs_of_shard scs →
  blocks_ok (db_map (nc_blockDB c)) → last_is_block (nc_blockDB c) →
  NewNode c t zero w ≠ Panic ∧
  ∀ n peer net, NewNode c t zero w = Ret (n, peer, net) →
    Inv n ∧ T1_ready n ∧ cs_status (nd_state n) = initializing ∧
    last_certificate (nc_blockDB c) (committed n) ∧
    fuc (nd_state n) = committed n ∧ luc (nd_state n) = committed n ∧
    KeyConf_NodeID keys = Ok (nd_peerID n) ∧ peer_ID peer = nd_peerID n ∧
    match net with inl x => nc_validatorNetwork c = Some x | inr x => net_self x = nd_peerID n end ∧
    (∃ s, KeyConf_Signer keys = Ok s ∧ conf_signer (nd_conf n) = Some s) ∧
    nd_blockStore n = nc_blockDB c.
Proof.
  intros Hc Ho Ht Hco Hek Hall Hst Hlast.
  destruct (NewNodeConf_built _ _ _ _ _ _ Hco Hek Ho Hc) as (Hcf & Hk & Hco1 & Hdb & Hs & _ & _).
  unfold NewNode. destruct (PeerConf c) as [pc|] eqn:Hpc; [|done].
  apply PeerConf_identity in Hpc as (Hid & Hne & (k & Hkp & Hkid) & [r Hr]). rewrite Hk in Hid.
  assert (epoch_keys (nc_shardConfStore c)) as Hek1 by (unfold epoch_keys; by rewrite Hdb).
  assert (confs_of_shard (nc_shardConfStore c)) as Hall1 by (unfold confs_of_shard; by rewrite Hdb).
  pose proof (NewNode_init_wp (nc_conf c) t (nc_blockDB c) (nc_shardConfStore c) (pc_ID pc) zero w
    Hcf Ht Hne Hco1 Hek1 Hall1 Hst Hlast) as Hwp.
  unfold wp in Hwp. destruct (NewNode_init _) as [[[]| |] n]; [|done|done].
  destruct Hwp as (Hi & HT1 & Hsta & Hl & Hf & Hlu & Hpe & Hcn & Hbs).
  pose proof (initNetwork_wp (nc_validatorNetwork c) pc k _ _ r (nd_world n) Hkp Hkid Hr) as Hnet.
  unfold wp in Hnet. unfold wrapM.
  destruct (initNetwork _ _ _) as [[[peer net]| |] w']; [|done|done]. destruct Hnet as [Hp Hn]. simpl in *.
  split; [done|]. intros ? ? ? [= <- <- <-]. simpl. rewrite Hpe, Hcn. split_and!; try done; [by apply Inv_set_world|].
  destruct net; [done|]. by destruct Hn.
Qed.

(** A configured node starts in a state that satisfies the invariant. From any configuration
    [NewNodeConf] accepts, with options that keep reliable validators, a new transaction
    system, a coherent configuration store of the shard and a block store that a node left, which is empty
    or has a block, [NewNode] does not panic; if it succeeds, the invariant
    holds, the node is initializing, its first, latest and committed certificates are all
    that of the last block (none for an empty store), it signs with the signing key, and its
    identifier, that of its host and that of its network are the one of the authentication key. *)
Theorem NewNode_invariant db keys scs tbs opts c t zero w :
  NewNodeConf db (Some keys) (Some scs) (Some tbs) opts = Ret c → Forall option_ok opts →
  CommittedUC t = None → coherent scs → epoch_keys scs → confs_of_shard scs →
  blocks_ok (db_map (nc_blockDB c)) → last_is_block (nc_blockDB c) →
  NewNode c t zero w ≠ Panic ∧
  ∀ n peer net, NewNode c t zero w = Ret (n, peer, net) →
    Inv n ∧ T1_ready n ∧ cs_status (nd_state n) = initializing ∧
    last_certificate (nc_blockDB c) (committed n) ∧
    fuc (nd_state n) = committed n ∧ luc (nd_state n) = committed n ∧
    KeyConf_NodeID keys = Ok (nd_peerID n) ∧ peer_ID peer = nd_peerID n ∧
    match net with inl x => nc_validatorNetwork c = Some x | inr x => net_self x = nd_peerID n end ∧
    ∃ s, KeyConf_Signer keys = Ok s ∧ conf_signer (nd_conf n) = Some s.
Proof.
  intros Hc Ho Ht Hco Hek Hall Hst Hlast.
  destruct (NewNode_wp db keys scs tbs opts c t zero w Hc Ho Ht Hco Hek Hall Hst Hlast) as [Hp Hn].
  split; [done|]. intros n peer net Hr. destruct (Hn n peer net Hr) as (? & ? & ? & ? & ? & ? & ? & ? & ? & ? & _).
  by split_and!.
Qed.
End configuration.
