(* ===== verification/Lifecycle.v ===== *)
(** * The life of a node: starts, runs and restarts

    What the run command starts satisfies the invariant, and the committed history survives
    any number of restarts, except for those before the first block on a store that holds a
    pending proposal ([restartable]).  A restart happens between two steps of a run: the command
    is started again on the databases the node left.  With [CrashDB] as the database this covers a
    crash in the middle of a handler: from then on nothing is written, so that the store the
    handler leaves is the one of the moment of the crash. *)

From Stdlib Require Import ZArith Lia Strings.Byte String.
From stdpp Require Import base list strings option gmap relations.
From S2P Require Import Prelude GoBase BftTypes Summary PowClient TxInterface TxSystem TxTheorems Messages Wire IpcClient KVStore ShardConfStore Selector Node Network Peer NodeOps Configuration Handlers NodeInit Run NodeInvariant NodeQuiet NodeSafety HandlerSafety PeerTheorems NodeSystem T1Timer NodeStart ConfigurationTheorems.

Section lifecycle.
Context {BT : BftTypes} {BL : BftLib} {ML : MsgLib} {PL : PeerLib} {PLL : PeerLibLaws PL}.
Context {AL : AccessorLaws BL} {OL : OrderLaws BL} {KL : KeyLaws BL} {VL : VerifyLaws BL} {CL : CborLaws BL} {SH : Shard}.
Context {HT W0 D DC N TB TBD TBS : Type}.
Context {HE : HttpEnv W0} {JL : JsonLib}.
#[local] Abbreviation W := (IPCClient * W0)%type.
Context {NE : NodeEnv W} {PE : PeerEnv HT W} {TBL : TrustBaseLib TB TBD TBS} {NC : NetCodec}.
Context {KVB : KeyValueDB D Block} {KVBL : KeyValueDBLaws D Block}.
Context {KVC : KeyValueDB DC PartitionDescriptionRecord}.
Context {KVCL : KeyValueDBLaws DC PartitionDescriptionRecord}.
#[local] Abbreviation GNode := (Node FGPTxSystem W D DC).
Implicit Types (n : GNode) (fs : Files D DC TB TBD) (f : cliFlags).

Lemma wp_outcomeM {A} (o : outcome A) Q E (w : W) :
  wp (outcomeM o) Q E w ↔ match o with Ret a => Q a w | Throw e => E e w | Panic => False end.
Proof. by destruct o. Qed.

Lemma wp_on {S A} (s : S) (m : M S A) Q E (w : W) :
  wp m (fun a s' => Q (a, s') w) (fun e _ => E e w) s → wp (on s m) Q E w.
Proof. unfold wp, on. by destruct (m s) as [[] ?]. Qed.

(** ** Start *)

(** What the command finds on disk: the two databases, and configurations of the shard with
    epochs that are [uint64]. *)
Record on_disk fs (d : D) (dc : DC) : Prop := {
  disk_blocks p x : open_blockDB fs p = Ok x → x = d;
  disk_confs p x : open_shardConfDB fs p = Ok x → x = dc;
  disk_epochs p c : read_ShardConf fs p = Ok c → is_u64 (pdr_Epoch c);
  disk_shard p c : read_ShardConf fs p = Ok c → of_shard c;
}.

Lemma load_all_forall {A} msg (read : string → result A) files path (P : A → Prop) l :
  (∀ p c, read p = Ok c → P c) → load_all msg read files path = Ok l → Forall P l.
Proof.
  intros Hr. unfold load_all. destruct files as [|x files].
  - intros (c & Hc & [= <-])%result_bind_ok. do 2 apply wrap_ok in Hc. constructor; [by eapply Hr|constructor].
  - generalize (x :: files). clear x files. intros files. revert l.
    induction files as [|x files IH]; intros l; simpl; [by intros [= <-]|].
    intros (c & Hc & H)%result_bind_ok. apply result_bind_ok in H as (cs & Hcs & [= <-]).
    do 2 apply wrap_ok in Hc. constructor; [by eapply Hr|by apply IH].
Qed.

Lemma store_shardConfs_wp confs (s : ShardConfStore DC) :
  scs_cache s = ∅ → epoch_keys s → confs_of_shard s →
  Forall (fun c => is_u64 (pdr_Epoch c) ∧ of_shard c) confs →
  wp (store_shardConfs confs) (fun _ s' => scs_cache s' = ∅ ∧ epoch_keys s' ∧ confs_of_shard s') (fun _ _ => True) s.
Proof.
  intros Hc Hk Hsh Hall. revert s Hc Hk Hsh.
  induction Hall as [|c confs [Hu Hof] _ IH]; intros s Hc Hk Hsh; simpl; wp_norm; [done|].
  eapply wp_mono; [apply Store_wp| |done]. intros [] s' (Hdb & Hca & _). apply IH; [by rewrite Hca| |].
  - intros k. rewrite Hdb, lookup_insert. case_decide; [|apply Hk]. intros _. by exists (pdr_Epoch c).
  - unfold confs_of_shard. rewrite Hdb. by apply map_Forall_insert_2.
Qed.

(** A node that has just started, from the block store [d]. *)
Record started (d : D) n : Prop := {
  st_inv : Inv n;
  st_timer : T1_ready n;
  st_status : cs_status (nd_state n) = initializing;
  st_committed : last_certificate d (committed n);
  st_fuc : fuc (nd_state n) = committed n;
  st_luc : luc (nd_state n) = committed n;
  st_store : nd_blockStore n = d;
}.

Lemma node_options_ok f (d : D) : Forall option_ok (node_options (DC:=DC) (N:=N) (TBS:=TBS) f d).
Proof. repeat constructor; by apply option_ok_same_validators. Qed.

Lemma NewNodeConf_blockDB db keys scs tbs f (d : D) (c : FullNodeConf D DC N TBS) :
  NewNodeConf db keys scs tbs (node_options f d) = Ret c → nc_blockDB c = d.
Proof. unfold NewNodeConf. intros Hc. repeat case_match; by simplify_eq. Qed.

Lemma NewNodeConf_no_panic db keys scs (tbs : TBS) opts :
  coherent scs → epoch_keys scs →
  NewNodeConf (N:=N) (D:=D) (DC:=DC) db (Some keys) (Some scs) (Some tbs) opts ≠ Panic.
Proof.
  intros Hco Hek. unfold NewNodeConf. pose proof (GetFirst_wp scs Hco Hek) as Hg. unfold wp in Hg.
  destruct (GetFirst scs) as [[sc| |] scs1]; [|done|done]. repeat case_match; done.
Qed.

Lemma NewFGPTxSystem_committed sc t : NewFGPTxSystem sc = Ok t → CommittedUC (W:=W) t = None.
Proof. unfold NewFGPTxSystem. by intros (d & _ & [= <-])%result_bind_ok. Qed.

Lemma create_node_wp db keys scs tbs f c t zero (d : D) (w : W) :
  NewNodeConf db (Some keys) (Some scs) (Some tbs) (node_options f d) = Ret c →
  CommittedUC (W:=W) t = None → coherent scs → epoch_keys scs → confs_of_shard scs →
  blocks_ok (db_map d) → last_is_block d →
  wp (create_node (H:=HT) (N:=N) (TBS:=TBS) c t zero)
    (fun x _ => started d x.1.1 ∧ KeyConf_NodeID keys = Ok (nd_peerID x.1.1) ∧ peer_ID x.1.2 = nd_peerID x.1.1)
    (fun _ _ => True) w.
Proof.
  intros Hc Ht Hco Hek Hall Hb Hl. pose proof (NewNodeConf_blockDB _ _ _ _ _ _ _ Hc) as <-.
  destruct (NewNode_wp db keys scs tbs _ c t zero w Hc (node_options_ok f _) Ht Hco Hek Hall Hb Hl) as [Hp Hn].
  unfold wp, create_node. destruct (NewNode c t zero w) as [[[n peer] net]| |]; [|done|done].
  destruct (Hn n peer net eq_refl) as (? & ? & ? & ? & ? & ? & ? & ? & _ & _ & ?). by split_and!.
Qed.

Lemma runNode_wp {L} (log : result L) fs mem zero f d dc (w : W) :
  on_disk fs d dc → epoch_keys (mkShardConfStore dc ∅) → confs_of_shard (mkShardConfStore dc ∅) →
  blocks_ok (db_map d) → last_is_block d →
  wp (runNode (H:=HT) (N:=N) (TBS:=TBS) log fs mem zero f)
    (fun x _ => started d x.1.1 ∧ peer_ID x.1.2 = nd_peerID x.1.1 ∧
      ∃ path keys, read_KeyConf fs path = Ok keys ∧ KeyConf_NodeID keys = Ok (nd_peerID x.1.1))
    (fun _ _ => True) w.
Proof.
  intros [Hdb Hdc Hde Hds] Hek Hsh Hb Hl. unfold runNode, initDB, loadConf. wp_norm.
  destruct log; [|done]. wp_norm. destruct (FileExists _ _); [|done]. wp_norm.
  destruct (read_KeyConf fs _) as [keys|] eqn:Hkeys; [|done]. cbn [wrap]. wp_norm.
  destruct (KeyConf_NodeID keys); [|done]. wp_norm.
  destruct (load_all _ _ _ _) as [confs|] eqn:Hconfs; [|done].
  apply (load_all_forall _ _ _ _ (fun c => is_u64 (pdr_Epoch c) ∧ of_shard c)) in Hconfs; [|by eauto]. wp_norm.
  destruct (open_shardConfDB fs _) as [dc'|] eqn:Hodc; [|done]. apply Hdc in Hodc as ->. cbn [wrap]. wp_norm.
  rewrite wp_outcomeM. pose proof (NewShardConfStore_new dc) as Hnew. pose proof (NewShardConfStore_no_panic dc Hek) as Hnp.
  destruct (NewShardConfStore dc) as [scs| |]; [|done|done]. rewrite (Hnew scs eq_refl).
  wp_norm. apply wp_on. eapply wp_mono; [by apply store_shardConfs_wp| |done]. intros [] s1 (Hc1 & Hk1 & Hsh1). wp_norm.
  assert (coherent s1) as Hco1 by (intros e c; by rewrite Hc1, lookup_empty).
  apply wp_on. eapply wp_mono; [by apply GetFirst_wp| |done]. intros sc s2 (Hs2 & Hco2 & _). wp_norm.
  assert (epoch_keys s2) as Hk2 by (unfold epoch_keys; by rewrite Hs2).
  assert (confs_of_shard s2) as Hsh2 by (unfold confs_of_shard; by rewrite Hs2).
  destruct (load_all _ _ _ _) as [tbs|]; [|done]. wp_norm.
  destruct (open_trustBaseDB fs _); [|done]. cbn [wrap]. wp_norm. destruct (NewTrustBaseStore _); [|done]. wp_norm.
  destruct (store_trustBases _ _) as [tb|]; [|done]. wp_norm.
  destruct (open_blockDB fs _) as [d'|] eqn:Hod; [|done]. apply Hdb in Hod as ->. cbn [wrap]. wp_norm.
  rewrite wp_outcomeM. pose proof (NewNodeConf_no_panic mem keys s2 tb (node_options (N:=N) f d) Hco2 Hk2) as Hcp.
  destruct (NewNodeConf _ _ _ _ _) as [c| |] eqn:Hc; [|done|done]. wp_norm.
  destruct (NewFGPTxSystem sc) as [t|] eqn:Ht; [|done]. wp_norm.
  apply NewFGPTxSystem_committed in Ht.
  eapply wp_mono; [by eapply create_node_wp| |done].
  intros x w' (? & ? & ?). by eauto 8.
Qed.

(** On what a node left. *)
Lemma runNode_wp_left {L} (log : result L) fs mem zero f n d dc (w : W) :
  Inv n → on_disk fs d dc → db_map d = blocks n → db_map dc = db_map (scs_db (nd_shardConfStore n)) → last_is_block d →
  wp (runNode (H:=HT) (N:=N) (TBS:=TBS) log fs mem zero f)
    (fun x _ => started d x.1.1 ∧ peer_ID x.1.2 = nd_peerID x.1.1 ∧
      ∃ path keys, read_KeyConf fs path = Ok keys ∧ KeyConf_NodeID keys = Ok (nd_peerID x.1.1))
    (fun _ _ => True) w.
Proof.
  intros Hi Hd Hdb Hdc Hl. apply (runNode_wp _ _ _ _ _ d dc); [done| | | |done].
  - intros k. simpl. rewrite Hdc. apply (inv_epochs _ Hi).
  - unfold confs_of_shard. simpl. rewrite Hdc. apply (inv_confs _ Hi).
  - rewrite Hdb. apply (inv_blocks _ Hi).
Qed.

(** The start of [Node.Run]. *)
Lemma Node_Run_quiet register (net : N + LibP2PNetwork HT) n : quiet n (Node_Run register net).
Proof.
  unfold Node_Run. apply quiet_bind.
  - apply quiet_wrapM. destruct net as [net|net]; [quiet|].
    pose proof (RegisterValidatorProtocols_no_panic net) as Hp.
    destruct (RegisterValidatorProtocols net) as [[] ?]; [quiet|quiet|done].
  - intros net' n' _. apply quiet_bind; [apply quiet_sendHandshake|]. intros. apply quiet_ret.
Qed.

(** ** Restarts *)

(** The run command again on what the node [n] left, and the start of [Node.Run]: on databases with
    the same contents, with any key files, configuration files of the shard and flags, in any
    world. *)
Inductive restart_step n n' : Prop :=
  | restart_intro (L : Type) (log : result L) fs d dc mem zero f register w n0 peer net w' net' :
      on_disk fs d dc → db_map d = blocks n → db_map dc = db_map (scs_db (nd_shardConfStore n)) →
      runNode (H:=HT) (N:=N) (TBS:=TBS) log fs mem zero f w = (Ret (n0, peer, net), w') →
      Node_Run register net n0 = (Ret net', n') →
      restart_step n n'.

(** The store has a block, or no pending proposal. What this leaves out is the store of a node
    that has stored a proposal and no block yet: there the last entry is the pending proposal,
    and [initState] takes it for a committed block, as NodeStart.v shows. *)
Definition restartable n : Prop :=
  (∃ r, is_u64 r ∧ is_Some (block_at (blocks n) r)) ∨ blocks n !! Uint32ToBytes proposalKey = None.

(** A step of the running node, or a restart on a store that is [restartable]. *)
Inductive life_step : GNode * (Z * Z) → GNode * (Z * Z) → Prop :=
  | life_run c c' : sys_step c c' → life_step c c'
  | life_restart c c' : restartable c.1 → restart_step c.1 c'.1 → life_step c c'.

(** The key of the pending proposal sorts before that of any round. *)
Lemma restartable_last n (d : D) : restartable n → db_map d = blocks n → last_is_block d.
Proof.
  intros Hr Hd k v Hl ->. pose proof (Last_spec d) as Hlast. rewrite Hl, Hd in Hlast.
  destruct Hlast as ([b Hb] & _ & Hmax). destruct Hr as [(r & Hr & Hs)|Hn]; [|congruence].
  specialize (Hmax _ Hs). unfold key_le in Hmax. unfold proposalKey in Hmax. rewrite Uint32ToBytes_0_ltb in Hmax by done. congruence.
Qed.

(** After the first commit every restart is covered. *)
Lemma committed_restartable n : Inv n → is_Some (committed n) → restartable n.
Proof.
  intros Hi [u Hu]. destruct (inv_top _ Hi u Hu) as (b & Hb & _).
  left. exists (GetRoundNumber (committed n)). split; [apply GetRoundNumber_u64|by eexists].
Qed.

(** The committed history of [n] is part of that of [n']. *)
Record survives n n' : Prop := {
  sv_some : is_Some (committed n) → is_Some (committed n');
  sv_round : GetRoundNumber (committed n) <= GetRoundNumber (committed n');
  sv_keep r : is_u64 r → is_Some (committed n) → r <= GetRoundNumber (committed n) →
    block_at (blocks n') r = block_at (blocks n) r;
  sv_new r : GetRoundNumber (committed n) < r <= GetRoundNumber (committed n') →
    ∃ b u, block_at (blocks n') r = Some b ∧ getUCv1 (Some b) = Ok u ∧ GetRoundNumber (Some u) = r;
}.

Lemma round_nonneg (c : option UnicityCertificate) : 0 <= GetRoundNumber c.
Proof. pose proof (GetRoundNumber_u64 c) as []. lia. Qed.

Lemma round_some (c : option UnicityCertificate) r : 0 <= r < GetRoundNumber c → is_Some c.
Proof. destruct c; [done|]. rewrite GetRoundNumber_nil. lia. Qed.

#[local] Instance survives_preorder : PreOrder survives.
Proof.
  split.
  { intros n. split; try done. intros. lia. }
  intros n1 n2 n3 S12 S23. destruct S12 as [So1 Sr1 Sk1 Sn1], S23 as [So2 Sr2 Sk2 Sn2]. split.
  - auto.
  - lia.
  - intros r Hr Hs Hle. rewrite Sk2; [by apply Sk1|done|by auto|lia].
  - intros r Hr. pose proof (round_nonneg (committed n1)).
    destruct (decide (r <= GetRoundNumber (committed n2))) as [Hle|]; [|apply Sn2; lia].
    destruct (Sn1 r) as (b & u & Hb & Hu & Hru); [lia|]. exists b, u. split_and!; [|done|done].
    rewrite Sk2; [done|subst r; apply GetRoundNumber_u64| |lia].
    apply (round_some _ (GetRoundNumber (committed n1))). lia.
Qed.

Lemma good_survives n n' : good n n' → survives n n'.
Proof.
  intros [_ [_ _ _ _ Hc Hk]]. split; [|by eapply chain_rounds|done|].
  - by destruct Hc.
  - intros r Hr. by eapply chain_block.
Qed.

(** A node restarted from the store of [n] continues where [n] was, or, when [n] had stored but
    not committed the block of the next round, one round later. *)
Lemma restart_survives n d n' : Inv n → db_map d = blocks n → last_is_block d → started d n' → survives n n'.
Proof.
  intros Hi Hd Hl [Hi' _ _ Hc _ _ Hst].
  assert (blocks n' = blocks n) as Hb by (unfold blocks at 1; by rewrite Hst).
  pose proof (inv_blocks _ Hi) as Hok. rewrite <-Hd in Hok.
  destruct (last_block d (committed n') Hok Hl Hc) as (Htop & _ & Hmax). rewrite Hd in *.
  assert (∀ u, committed n = Some u → is_Some (committed n') ∧
    GetRoundNumber (committed n) <= GetRoundNumber (committed n')) as Hsome.
  { intros u Hu. destruct (inv_top _ Hi u Hu) as (b & Hbu & _). apply Hmax; [apply GetRoundNumber_u64|by eexists]. }
  split.
  - intros [u Hu]. by apply (Hsome u).
  - destruct (committed n) as [u|] eqn:Hu; [by apply (Hsome u)|]. rewrite GetRoundNumber_nil. apply round_nonneg.
  - intros r _ _ _. by rewrite Hb.
  - intros r Hr. destruct (committed n') as [u|] eqn:Hu.
    2: { rewrite GetRoundNumber_nil in Hr. pose proof (round_nonneg (committed n)). lia. }
    destruct (Htop u eq_refl) as (b & Hbu & Hub).
    assert (GetRoundNumber (Some u) <= GetRoundNumber (committed n) + 1) as Hle
      by (apply (inv_bound _ Hi); [apply GetRoundNumber_u64|by eexists]).
    assert (r = GetRoundNumber (Some u)) as -> by lia. exists b, u. by rewrite Hb.
Qed.

Lemma restart_step_survives n n' : restart_step n n' → restartable n → Inv n → Inv n' ∧ survives n n'.
Proof.
  intros [L log fs d dc mem zero f register w n0 peer net w' net' Hd Hdb Hdc Hr Hrun] Hl Hi.
  pose proof (restartable_last _ _ Hl Hdb) as Hlast.
  pose proof (wp_ret_inv _ _ _ _ _ _ (runNode_wp_left log fs mem zero f n d dc w Hi Hd Hdb Hdc Hlast) Hr)
    as (Hst & _ & _). simpl in Hst.
  pose proof (wp_ret_inv _ _ _ _ _ _ (Node_Run_quiet register net n0) Hrun) as Hf.
  pose proof (frame_good _ _ (st_inv _ _ Hst) Hf) as Hg.
  split; [by apply Hg|]. transitivity n0; [by eapply restart_survives|by apply good_survives].
Qed.

Lemma life_step_survives c c' : life_step c c' → Inv c.1 → Inv c'.1 ∧ survives c.1 c'.1.
Proof.
  intros [? ? Hs|? ? Hl Hs] Hi; [|by apply restart_step_survives].
  pose proof (sys_step_good _ _ Hs Hi) as Hg. split; [by apply Hg|by apply good_survives].
Qed.

(** C4: The committed history survives restarts. However often the node is stopped between two
    steps and the run command started again on its databases, with other flags, keys or
    configuration files of the same shard if need be, the invariant holds, the committed round
    never goes back, the blocks committed before are still there byte for byte, and every round
    passed since has its block in the store with its certificate. One kind of restart is left
    out, by [restartable]: on a store that holds a pending proposal and not one block, where the
    node takes the uncertified proposal for committed. It can only concern a node before its
    first commit: once a node has committed a block, every restart is covered, as the last part
    says. *)
Theorem history_survives_restarts c c' :
  Inv c.1 → rtc life_step c c' →
  Inv c'.1 ∧ GetRoundNumber (committed c.1) <= GetRoundNumber (committed c'.1) ∧
  (∀ r, is_u64 r → is_Some (committed c.1) → r <= GetRoundNumber (committed c.1) →
    block_at (blocks c'.1) r = block_at (blocks c.1) r) ∧
  (∀ r, GetRoundNumber (committed c.1) < r <= GetRoundNumber (committed c'.1) →
    ∃ b u, block_at (blocks c'.1) r = Some b ∧ getUCv1 (Some b) = Ok u ∧ GetRoundNumber (Some u) = r) ∧
  ∀ c'', is_Some (committed c.1) → restart_step c'.1 c''.1 → life_step c' c''.
Proof.
  intros Hi Hr. assert (Inv c'.1 ∧ survives c.1 c'.1) as [Hi' []].
  2: { split_and!; try done. intros c'' Hs Hst. apply life_restart; [apply committed_restartable; auto|done]. }
  induction Hr as [c|c1 c2 c3 Hs _ IH]; [done|].
  destruct (life_step_survives _ _ Hs Hi) as [Hi2 Hs2]. destruct (IH Hi2) as [Hi3 Hs3].
  split; [done|]. by transitivity c2.1.
Qed.

(** What the block viewer shows of the store of a stopped node is certified: the block of the
    round asked for, with the certificate of that round. *)
Lemma viewer_shows_certified marshal_JSON marshal_CBOR fs f arg out n :
  Inv n → (∀ p x, open_blockDB fs p = Ok x → x = nd_blockStore n) →
  blockCmd marshal_JSON marshal_CBOR fs f outputFormatJSON arg = Ok out →
  ∃ r b u, ParseUint arg = Ok r ∧ block_at (blocks n) r = Some b ∧ genuine u ∧ GetRoundNumber (Some u) = r ∧
    marshal_JSON (mkBlockForJSON (blk_Header b) (blk_Transactions b) (Some u)) = Ok out.
Proof.
  intros Hi Hd. unfold blockCmd. intros (r & Hr & H)%result_bind_ok. apply wrap_ok in Hr.
  apply result_bind_ok in H as (d & Hdb & H). apply wrap_ok, Hd in Hdb as ->.
  apply result_bind_ok in H as (o & Ho & H). apply wrap_ok, Read_ok in Ho. destruct o as [b|]; [|done].
  apply wrap_ok in H. symmetry in Ho. apply ParseUint_u64 in Hr as Hu64.
  destruct (blocks_ok_block _ r b (inv_blocks _ Hi) Hu64 Ho) as (u & Hu & Hc & Hround).
  exists r, b, u. split_and!; try done. unfold block_for_JSON in H. unfold getUCv1 in Hu. case_match; [done|].
  by rewrite Hu in H.
Qed.

(** C21: The run command starts a node on what the last run left. When the two databases have
    the contents a node that satisfied the invariant left, and the block store is empty or has a
    block, [runNode] does not panic; if it succeeds, the node satisfies the invariant, continues from
    the certificate of the highest stored block, and its identifier and that of its host are
    the one of the key file. *)
Theorem runNode_continues {L} (log : result L) fs mem zero f n d dc w :
  Inv n → on_disk fs d dc → db_map d = blocks n → db_map dc = db_map (scs_db (nd_shardConfStore n)) → last_is_block d →
  match runNode (H:=HT) (N:=N) (TBS:=TBS) log fs mem zero f w with
  | (Ret (n', peer, net), _) =>
      started d n' ∧ peer_ID peer = nd_peerID n' ∧
      ∃ path keys, read_KeyConf fs path = Ok keys ∧ KeyConf_NodeID keys = Ok (nd_peerID n')
  | (Throw _, _) => True
  | (Panic, _) => False
  end.
Proof.
  intros Hi Hd Hdb Hdc Hl. pose proof (runNode_wp_left log fs mem zero f n d dc w Hi Hd Hdb Hdc Hl) as Hwp.
  unfold wp in Hwp. destruct (runNode _ _ _ _ _ _) as [[[[n' peer] net]| |] w']; done.
Qed.
End lifecycle.
