(* ===== verification/Agreement.v ===== *)
(** * The nodes of a shard

    Any number of nodes, each with its own databases, files, clock and view of the PoW chain.
    Nodes join with empty databases, run, and are restarted (on a store that is [restartable], that
    is: not on a pending proposal without any block); the network may deliver anything a
    stream handler accepts, to anyone, in any order, whoever sent it.  If the root chain
    certifies at most one input record for a round of the shard, no two nodes ever finalize
    different PoW blocks in the same round. *)

From Stdlib Require Import ZArith Lia Strings.Byte String.
From stdpp Require Import base list strings option gmap relations.
From S2P Require Import Prelude GoBase BftTypes Summary PowClient TxInterface TxSystem TxTheorems Messages Wire IpcClient KVStore ShardConfStore Selector Node Network Peer NodeOps Configuration Handlers NodeInit Run NodeInvariant NodeQuiet NodeSafety HandlerSafety PeerTheorems NodeSystem T1Timer NodeStart ConfigurationTheorems Lifecycle.

Section agreement.
Context {BT : BftTypes} {BL : BftLib} {ML : MsgLib} {PL : PeerLib} {PLL : PeerLibLaws PL}.
Context {AL : AccessorLaws BL} {OL : OrderLaws BL} {KL : KeyLaws BL} {VL : VerifyLaws BL} {CL : CborLaws BL} {SH : Shard}.
Context {HT W0 D DC N TB TBD TBS : Type}.
Context {HE : HttpEnv W0} {JL : JsonLib}.
#[local] Abbreviation W := (IPCClient * W0)%type.
Context {NE : NodeEnv W} {PE : PeerEnv HT W} {TBL : TrustBaseLib TB TBD TBS} {NC : NetCodec}.
Context {KVB : KeyValueDB D Block} {KVBL : KeyValueDBLaws D Block}.
Context {KVC : KeyValueDB DC PartitionDescriptionRecord}.
Context {KVCL : KeyValueDBLaws DC PartitionDescriptionRecord}.
#[local] Abbreviation GNode := (Node FGPTxSystem W D DC).
#[local] Abbreviation Member := (GNode * (Z * Z))%type.
Implicit Types (n : GNode) (c : Member) (cl : list Member) (fs : Files D DC TB TBD) (f : cliFlags).

(** ** The system *)

(** A node started for the first time. *)
Inductive joins : Member → Prop :=
  | join_start (L : Type) (log : result L) fs d dc mem zero f register w n0 peer net w' net' n last :
      on_disk fs d dc → db_map d = ∅ → db_map dc = ∅ →
      runNode (H:=HT) (N:=N) (TBS:=TBS) log fs mem zero f w = (Ret (n0, peer, net), w') →
      Node_Run register net n0 = (Ret net', n) →
      joins (n, last).

Inductive shard_step : list Member → list Member → Prop :=
  | shard_join c cl : joins c → shard_step cl (cl ++ [c])
  | shard_life i c c' cl :
      cl !! i = Some c → life_step (HT:=HT) (N:=N) (TB:=TB) (TBD:=TBD) (TBS:=TBS) c c' →
      shard_step cl (<[i := c']> cl).

Lemma empty_last_is_block (d : D) : db_map d = ∅ → last_is_block d.
Proof.
  intros He k v Hl. pose proof (Last_spec d) as H. rewrite Hl in H. destruct H as ([b Hb] & _).
  by rewrite He, lookup_empty in Hb.
Qed.

Lemma empty_last_certificate (d : D) u : db_map d = ∅ → last_certificate d u → u = None.
Proof.
  intros He. unfold last_certificate. pose proof (Last_spec d) as H. destruct (db_Last d) as [[k r]|]; [|done].
  destruct H as ([b Hb] & _). by rewrite He, lookup_empty in Hb.
Qed.

(** It satisfies the invariant and has committed nothing. *)
Lemma joins_new c : joins c → Inv c.1 ∧ committed c.1 = None.
Proof.
  intros [L log fs d dc mem zero f register w n0 peer net w' net' n last Hd Hdb Hdc Hr Hrun]. simpl.
  assert (wp (runNode (H:=HT) (N:=N) (TBS:=TBS) log fs mem zero f)
    (fun x _ => started d x.1.1 ∧ peer_ID x.1.2 = nd_peerID x.1.1 ∧
      ∃ path keys, read_KeyConf fs path = Ok keys ∧ KeyConf_NodeID keys = Ok (nd_peerID x.1.1))
    (fun _ _ => True) w) as Hwp.
  { apply (runNode_wp _ _ _ _ _ d dc); [done| | | |by apply empty_last_is_block].
    - intros k. simpl. rewrite Hdc, lookup_empty. by intros [].
    - unfold confs_of_shard. simpl. rewrite Hdc. apply map_Forall_empty.
    - rewrite Hdb. apply map_Forall_empty. }
  pose proof (wp_ret_inv _ _ _ _ _ _ Hwp Hr) as [Hst _]. simpl in Hst.
  pose proof (wp_ret_inv _ _ _ _ _ _ (Node_Run_quiet register net n0) Hrun) as Hf.
  split; [by eapply good_inv, frame_good; [apply (st_inv _ _ Hst)|]|].
  transitivity (committed n0); [apply (fr_committed _ _ Hf)|]. by apply (empty_last_certificate d), (st_committed _ _ Hst).
Qed.

(** Every member satisfies the invariant of a node. *)
Definition all_inv cl : Prop := Forall (fun c => Inv c.1) cl.

Lemma shard_step_inv cl cl' : shard_step cl cl' → all_inv cl → all_inv cl'.
Proof.
  intros [c cl0 Hj|i c c' cl0 Hi Hl] Hall.
  - apply Forall_app. split; [done|]. constructor; [by apply joins_new|constructor].
  - apply Forall_insert; [done|]. apply (life_step_survives _ _ Hl). by eapply Forall_lookup_1 in Hall.
Qed.

Lemma shard_inv cl cl' : rtc shard_step cl cl' → all_inv cl → all_inv cl'.
Proof. induction 1 as [|cl1 cl2 cl3 Hs _ IH]; [done|]. intros Hi. by eapply IH, shard_step_inv. Qed.

Lemma member_inv cl c : rtc shard_step [] cl → c ∈ cl → Inv c.1.
Proof.
  intros Hr Hc. assert (all_inv cl) as Hall by (eapply (shard_inv [] cl); [done|constructor]).
  unfold all_inv in Hall. rewrite Forall_forall in Hall. by apply Hall.
Qed.

(** ** Agreement *)

(** The input record that the block of a round was certified with. *)
Definition record_at n (r : Z) : option InputRecord :=
  b ← block_at (blocks n) r;
  match getUCv1 (Some b) with Ok u => uc_InputRecord u | Fail _ => None end.

(** The PoW block that the node has finalized in a round: the state hash is its hash. *)
Definition finalized_at n (r : Z) : option slice := ir_Hash <$> record_at n r.

(** The root chain certifies at most one input record for each round of the shard. *)
Definition root_chain_safe : Prop :=
  ∀ u u', genuine u → genuine u' → GetRoundNumber (Some u) = GetRoundNumber (Some u') →
    uc_InputRecord u = uc_InputRecord u'.

(** A record is that of a genuine certificate of the round. *)
Lemma record_at_genuine n r ir :
  Inv n → is_u64 r → record_at n r = Some ir →
  ∃ u, genuine u ∧ GetRoundNumber (Some u) = r ∧ uc_InputRecord u = Some ir.
Proof.
  intros Hi Hr. unfold record_at. destruct (block_at (blocks n) r) as [b|] eqn:Hb; cbn [mbind option_bind]; [|done].
  destruct (blocks_ok_block _ _ _ (inv_blocks _ Hi) Hr Hb) as (u & Hu & Hg & Hround). rewrite Hu. by exists u.
Qed.

(** A block in the store is finalized. *)
Lemma stored_finalized n r : Inv n → is_u64 r → is_Some (block_at (blocks n) r) → is_Some (finalized_at n r).
Proof.
  intros Hi Hr [b Hb]. unfold finalized_at, record_at. rewrite Hb. cbn [mbind option_bind].
  destruct (blocks_ok_block _ _ _ (inv_blocks _ Hi) Hr Hb) as (u & -> & Hg & _).
  destruct (genuine_complete _ Hg) as [[ir ->] _]. by eexists.
Qed.

(** Every round a node has committed since it started is finalized. *)
Lemma committed_finalized n r :
  Inv n → GetRoundNumber (fuc (nd_state n)) < r <= GetRoundNumber (committed n) → is_Some (finalized_at n r).
Proof.
  intros Hi Hr. destruct (chain_block _ _ _ _ (inv_chain _ Hi) Hr) as (b & u & Hb & Hu & Hround).
  apply stored_finalized; [done|rewrite <-Hround; apply GetRoundNumber_u64|by eexists].
Qed.

(** C1: No two nodes of a shard finalize different PoW blocks in the same round, at any two
    moments of any runs of the shard, whatever the network delivers, provided the root chain
    certifies at most one input record per round. The runs include restarts of the nodes on what
    they left, except on a store that holds a pending proposal and no block ([restartable], which
    excludes nothing after a node's first commit): there the node takes an uncertified record
    for committed. Every round that a node has
    committed since its start has a finalized block; and the state hash, the block hash and all
    else that is certified of a round is the same at every node. *)
Theorem no_conflicting_finality cl1 cl2 c1 c2 r :
  root_chain_safe → rtc shard_step [] cl1 → rtc shard_step [] cl2 → c1 ∈ cl1 → c2 ∈ cl2 → is_u64 r →
  (∀ ir1 ir2, record_at c1.1 r = Some ir1 → record_at c2.1 r = Some ir2 → ir1 = ir2) ∧
  (GetRoundNumber (fuc (nd_state c1.1)) < r <= GetRoundNumber (committed c1.1) →
   GetRoundNumber (fuc (nd_state c2.1)) < r <= GetRoundNumber (committed c2.1) →
   ∃ h, finalized_at c1.1 r = Some h ∧ finalized_at c2.1 r = Some h).
Proof.
  intros Hroot Hr1 Hr2 H1 H2 Hu.
  pose proof (member_inv _ _ Hr1 H1) as Hi1. pose proof (member_inv _ _ Hr2 H2) as Hi2.
  assert (∀ ir1 ir2, record_at c1.1 r = Some ir1 → record_at c2.1 r = Some ir2 → ir1 = ir2) as Heq.
  { intros ir1 ir2 (u1 & Hg1 & Hn1 & He1)%record_at_genuine (u2 & Hg2 & Hn2 & He2)%record_at_genuine; try done.
    specialize (Hroot u1 u2 Hg1 Hg2). rewrite Hn1, Hn2, He1, He2 in Hroot. specialize (Hroot eq_refl). congruence. }
  split; [done|]. intros Hc1 Hc2.
  destruct (committed_finalized _ _ Hi1 Hc1) as [h1 Hf1], (committed_finalized _ _ Hi2 Hc2) as [h2 Hf2].
  exists h1. split; [done|]. rewrite Hf2. unfold finalized_at in *.
  destruct (record_at c1.1 r) as [ir1|], (record_at c2.1 r) as [ir2|]; simplify_eq/=. by rewrite (Heq ir1 ir2).
Qed.
End agreement.
