(* ===== verification/Ledger.v ===== *)
(** * What a shard promises, and that it keeps it

    The promise is small: a ledger, which holds for each round the PoW block that was finalized
    in it.  A round is decided once; every member finalizes the decided rounds one after the
    other, from the first on, and what it shows for a round it has finalized is what was
    decided.  The nodes of Agreement.v, with their messages, databases, recovery and restarts,
    implement it. *)

From Stdlib Require Import ZArith Lia Strings.Byte String.
From stdpp Require Import base list strings option gmap relations.
From S2P Require Import Prelude GoBase BftTypes Summary PowClient TxInterface TxSystem TxTheorems Messages Wire IpcClient KVStore ShardConfStore Selector Node Network Peer NodeOps Configuration Handlers NodeInit Run NodeInvariant NodeQuiet NodeSafety HandlerSafety PeerTheorems NodeSystem T1Timer NodeStart ConfigurationTheorems Lifecycle Agreement.

(** ** The specification *)

Record Ledger := mkLedger {
  lg_decided : gmap Z slice;   (* by round: the hash of the PoW block *)
  lg_heights : list Z;         (* by member: the last round it has finalized *)
}.

Definition empty_ledger : Ledger := mkLedger ∅ [].

Inductive ledger_step : Ledger → Ledger → Prop :=
  | ledger_decide r h dec hs :
      dec !! r = None → ledger_step (mkLedger dec hs) (mkLedger (<[r := h]> dec) hs)
  | ledger_join dec hs :
      ledger_step (mkLedger dec hs) (mkLedger dec (hs ++ [0]))
  | ledger_finalize i r dec hs :
      hs !! i = Some r → is_Some (dec !! (r + 1)) →
      ledger_step (mkLedger dec hs) (mkLedger dec (<[i := r + 1]> hs)).

(** Nothing that was decided is ever changed. *)
Lemma ledger_final L L' : rtc ledger_step L L' → lg_decided L ⊆ lg_decided L'.
Proof.
  induction 1 as [|L1 L2 L3 Hs _ IH]; [done|]. etrans; [|exact IH].
  destruct Hs; simpl; [by apply insert_subseteq|done|done].
Qed.

(** A member catches up with what is decided. *)
Lemma ledger_catch_up i (k : nat) r dec hs :
  hs !! i = Some r → (∀ s, r < s <= r + Z.of_nat k → is_Some (dec !! s)) →
  rtc ledger_step (mkLedger dec hs) (mkLedger dec (<[i := r + Z.of_nat k]> hs)).
Proof.
  revert r hs. induction k as [|k IH]; intros r hs Hi Hd.
  { rewrite Z.add_0_r, list_insert_id by done. reflexivity. }
  eapply rtc_l; [apply (ledger_finalize i r); [done|apply Hd; lia]|].
  replace (r + Z.of_nat (S k)) with (r + 1 + Z.of_nat k) by lia.
  rewrite <-(list_insert_insert_eq hs i (r + 1 + Z.of_nat k) (r + 1)).
  apply IH; [by eapply list_lookup_insert_eq, lookup_lt_Some|]. intros s Hs. apply Hd. lia.
Qed.

(** The rounds up to [r + k] that are not decided yet are decided as [f] says. *)
Lemma ledger_decide_all (f : Z → slice) (k : nat) r dec hs :
  ∃ dec', rtc ledger_step (mkLedger dec hs) (mkLedger dec' hs) ∧
    (∀ s h, dec' !! s = Some h ↔ dec !! s = Some h ∨ dec !! s = None ∧ r < s <= r + Z.of_nat k ∧ h = f s).
Proof.
  induction k as [|k (dec' & Hrun & Hd)].
  { exists dec. split; [reflexivity|]. intros s h. split; [by left|]. intros [?|(_ & ? & _)]; [done|lia]. }
  set (s0 := r + Z.of_nat (S k)). destruct (dec' !! s0) as [h0|] eqn:H0.
  - exists dec'. split; [done|]. intros s h. rewrite Hd. apply Hd in H0 as [H0|(_ & ? & _)]; [|lia].
    split; [intros [?|(? & ? & ?)]; [by left|right; split_and!; [done|lia|lia|done]]|].
    intros [?|(Hn & ? & ->)]; [by left|right]. split_and!; [done|lia| |done].
    destruct (decide (s = s0)) as [->|]; [congruence|lia].
  - exists (<[s0 := f s0]> dec'). split; [eapply rtc_r; [done|by apply ledger_decide]|].
    assert (dec !! s0 = None) as Hn0.
    { destruct (dec !! s0) as [h|] eqn:E; [|done]. assert (dec' !! s0 = Some h) by (apply Hd; by left). congruence. }
    intros s h. destruct (decide (s = s0)) as [->|Hne].
    + rewrite lookup_insert_eq. split; [intros [= <-]; right; split_and!; [done|lia|lia|done]|].
      intros [?|(_ & _ & ->)]; [congruence|done].
    + rewrite lookup_insert_ne by done. rewrite Hd.
      split; (intros [?|(? & ? & ?)]; [by left|right; split_and!; [done|lia|lia|done]]).
Qed.

(** ** The implementation *)

Section implementation.
Context {BT : BftTypes} {BL : BftLib} {ML : MsgLib} {PL : PeerLib} {PLL : PeerLibLaws PL}.
Context {AL : AccessorLaws BL} {OL : OrderLaws BL} {KL : KeyLaws BL} {VL : VerifyLaws BL} {CL : CborLaws BL} {SH : Shard}.
Context {HT W0 D DC N TB TBD TBS : Type}.
Context {HE : HttpEnv W0} {JL : JsonLib}.
#[local] Abbreviation W := (IPCClient * W0)%type.
Context {NE : NodeEnv W} {PE : PeerEnv HT W} {TBL : TrustBaseLib TB TBD TBS} {NC : NetCodec}.
Context {KVB : KeyValueDB D Block} {KVBL : KeyValueDBLaws D Block}.
Context {KVC : KeyValueDB DC PartitionDescriptionRecord}.
Context {KVCL : KeyValueDBLaws DC PartitionDescriptionRecord}.
#[local] Abbreviation GNode := (Node FGPTxSystem W D DC).
#[local] Abbreviation Member := (GNode * (Z * Z))%type.
#[local] Abbreviation life_step := (life_step (HT:=HT) (N:=N) (TB:=TB) (TBD:=TBD) (TBS:=TBS)).
#[local] Abbreviation shard_step := (shard_step (HT:=HT) (N:=N) (TB:=TB) (TBD:=TBD) (TBS:=TBS)).
Implicit Types (n : GNode) (c : Member) (cl : list Member) (dec : gmap Z slice).

(** The root chain has certified the PoW block [h] in the round [r]. *)
Definition certified (r : Z) (h : slice) : Prop :=
  ∃ u ir, genuine u ∧ GetRoundNumber (Some u) = r ∧ uc_InputRecord u = Some ir ∧ ir_Hash ir = h.

Definition height n : Z := GetRoundNumber (committed n).

(** The member has finalized every round up to its height, as it was decided. *)
Definition shows dec n : Prop := ∀ r, 0 < r <= height n → ∃ h, finalized_at n r = Some h ∧ dec !! r = Some h.

(** The ledger that a shard implements. *)
Record implements cl (L : Ledger) : Prop := {
  im_inv : all_inv cl;
  im_heights : lg_heights L = (fun c => height c.1) <$> cl;
  im_shows : Forall (fun c => shows (lg_decided L) c.1) cl;
  im_certified r h : lg_decided L !! r = Some h → certified r h;
}.

Lemma certified_unique r h h' : root_chain_safe → certified r h → certified r h' → h = h'.
Proof.
  intros Hroot (u & ir & Hg & Hr & Hir & <-) (u' & ir' & Hg' & Hr' & Hir' & <-).
  specialize (Hroot u u' Hg Hg'). rewrite Hr, Hr', Hir, Hir' in Hroot. by injection (Hroot eq_refl) as ->.
Qed.

Lemma finalized_certified n r h : Inv n → is_u64 r → finalized_at n r = Some h → certified r h.
Proof.
  intros Hi Hr. unfold finalized_at. destruct (record_at n r) as [ir|] eqn:He; [|done]. intros [= <-].
  destruct (record_at_genuine _ _ _ Hi Hr He) as (u & Hg & Hround & Hir). by exists u, ir.
Qed.

Lemma shows_mono dec dec' n : dec ⊆ dec' → shows dec n → shows dec' n.
Proof. intros Hs Hn r Hr. destruct (Hn r Hr) as (h & Hf & Hd). exists h. split; [done|]. by eapply lookup_weaken. Qed.

Lemma height_u64 n r : 0 < r <= height n → is_u64 r.
Proof. unfold height. intros Hr. pose proof (GetRoundNumber_u64 (committed n)) as []. split; lia. Qed.

(** What a node has finalized stays, and the rounds it goes through are finalized. *)
Lemma survives_finalized dec n n' r :
  Inv n' → survives n n' → shows dec n → 0 < r <= height n' →
  is_Some (finalized_at n' r) ∧ (r <= height n → finalized_at n' r = finalized_at n r).
Proof.
  intros Hi [_ _ Hkeep Hnew] Hs Hr. pose proof (height_u64 _ _ Hr) as Hu.
  assert (r <= height n → finalized_at n' r = finalized_at n r) as Heq.
  { intros Hle. unfold finalized_at, record_at. rewrite Hkeep; [done|done| |done].
    apply (round_some _ (r - 1)). unfold height in Hle. lia. }
  split; [|done]. destruct (decide (r <= height n)) as [Hle|Hgt].
  - rewrite (Heq Hle). destruct (Hs r ltac:(lia)) as (h & -> & _). by eexists.
  - destruct (Hnew r ltac:(unfold height in *; lia)) as (b & u & Hb & _). by apply stored_finalized.
Qed.

(** One step of one member. *)
Lemma member_simulated i c c' cl L :
  root_chain_safe → implements cl L → cl !! i = Some c → life_step c c' →
  ∃ L', rtc ledger_step L L' ∧ implements (<[i := c']> cl) L'.
Proof.
  intros Hroot [Hinv Hh Hs Hcert] Hi Hstep. destruct L as [dec hs]. simpl in *. subst hs.
  pose proof (Forall_lookup_1 _ _ _ _ Hinv Hi) as Hin. pose proof (Forall_lookup_1 _ _ _ _ Hs Hi) as Hsh. simpl in *.
  destruct (life_step_survives _ _ Hstep Hin) as [Hin' Hsv].
  pose proof (survives_finalized dec c.1 c'.1) as Hfin.
  set (f r := default nil_slice (finalized_at c'.1 r)).
  assert (height c.1 <= height c'.1) as Hle by apply (sv_round _ _ Hsv).
  assert (0 <= height c.1) as Hpos by apply round_nonneg.
  set (k := Z.to_nat (height c'.1 - height c.1)).
  destruct (ledger_decide_all f k (height c.1) dec ((fun c => height c.1) <$> cl)) as (dec' & Hrun & Hdec).
  assert (dec ⊆ dec') as Hsub by (apply map_subseteq_spec; intros s h Hd; apply Hdec; by left).
  assert (shows dec' c'.1) as Hshows.
  { intros r Hr. destruct (Hfin r Hin' Hsv Hsh Hr) as [[h Hf] Heq]. exists h. split; [done|]. apply Hdec.
    destruct (dec !! r) as [y|] eqn:Hy.
    - left. f_equal. apply (certified_unique r); [done|by apply Hcert|].
      eapply finalized_certified; [done|by eapply height_u64|done].
    - right. split_and!; [done| |lia|unfold f; by rewrite Hf].
      destruct (decide (r <= height c.1)) as [Hrl|]; [|lia].
      destruct (Hsh r ltac:(lia)) as (? & _ & ?). congruence. }
  exists (mkLedger dec' (<[i := height c'.1]> ((fun c => height c.1) <$> cl))). split.
  - etrans; [exact Hrun|]. replace (height c'.1) with (height c.1 + Z.of_nat k) by lia.
    apply ledger_catch_up; [by rewrite list_lookup_fmap, Hi|].
    intros s Hr. destruct (Hshows s ltac:(lia)) as (h & _ & ->). by eexists.
  - split; simpl.
    + by apply Forall_insert.
    + by rewrite list_fmap_insert.
    + apply Forall_insert; [|done]. eapply Forall_impl; [exact Hs|]. intros c0. apply (shows_mono dec dec' c0.1 Hsub).
    + intros r h [?|(_ & Hr & ->)]%Hdec; [by apply Hcert|].
      destruct (Hfin r Hin' Hsv Hsh ltac:(lia)) as [[h Hf] _]. unfold f. rewrite Hf. simpl.
      eapply finalized_certified; [done|apply (height_u64 c'.1); lia|done].
Qed.

Lemma shard_simulated cl cl' L :
  root_chain_safe → implements cl L → shard_step cl cl' → ∃ L', rtc ledger_step L L' ∧ implements cl' L'.
Proof.
  intros Hroot Him Hs. revert Him. destruct Hs as [c cl0 Hj|i c c' cl0 Hi Hl]; intros Him; [|by apply (member_simulated i c c')].
  destruct Him as [Hinv Hh Hs Hcert], L as [dec hs], (joins_new _ Hj) as [Hn Hc].
  cbn [lg_heights lg_decided] in *.
  assert (height c.1 = 0) as H0 by (unfold height; rewrite Hc; apply GetRoundNumber_nil).
  exists (mkLedger dec (hs ++ [0])). split; [apply rtc_once, ledger_join|]. split; simpl.
  - apply Forall_app. by split; [|constructor].
  - rewrite fmap_app, Hh. simpl. by rewrite H0.
  - apply Forall_app. split; [done|]. constructor; [|constructor]. intros r Hr. lia.
  - done.
Qed.

Lemma shard_run_simulated cl cl' L :
  root_chain_safe → implements cl L → rtc shard_step cl cl' →
  ∃ L', rtc ledger_step L L' ∧ implements cl' L'.
Proof.
  intros Hroot Him Hrun. revert L Him.
  induction Hrun as [cl|cl1 cl2 cl3 Hs _ IH]; intros L Him; [by exists L|].
  destruct (shard_simulated _ _ _ Hroot Him Hs) as (L1 & Hr1 & Him1).
  destruct (IH _ Him1) as (L2 & Hr2 & Him2). exists L2. split; [by etrans|done].
Qed.

Lemma implements_empty : implements [] empty_ledger.
Proof. split; simpl; [constructor|done|constructor|]. intros r h. by rewrite lookup_empty. Qed.

(** C2: The nodes of a shard implement the ledger, if the root chain certifies at most one input
    record per round. Every run of the shard, with nodes that join, run their protocol, recover
    and are restarted while the network delivers anything, is a run of the ledger, if no node
    is restarted on a store with a pending proposal and no block ([restartable], a condition
    that holds from the first commit of a node on): the rounds
    are decided once, the members finalize them in order from the first on, and each member
    shows for every round up to its height the PoW block that was decided. When the shard goes
    on, the ledger goes on with it, and what was decided stays. *)
Theorem shard_implements_ledger cl cl' :
  root_chain_safe → rtc shard_step [] cl → rtc shard_step cl cl' →
  ∃ L L', rtc ledger_step empty_ledger L ∧ implements cl L ∧
    rtc ledger_step L L' ∧ implements cl' L' ∧ lg_decided L ⊆ lg_decided L'.
Proof.
  intros Hroot Hr Hr'.
  destruct (shard_run_simulated _ _ _ Hroot implements_empty Hr) as (L & Hl & Him).
  destruct (shard_run_simulated _ _ _ Hroot Him Hr') as (L' & Hl' & Him').
  exists L, L'. split_and!; try done. by apply ledger_final.
Qed.
End implementation.
