(* ===== verification/Process.v ===== *)
(** * The process: goroutines, the quit signal and the exit code

    [Node.Run] starts the main loop and the replication workers in an [errgroup]: the first
    error ends the others through the context, and [Wait] returns it when all have ended
    (partition/node.go, cmd/run.go).  The root context is cancelled by a signal, and [main]
    turns what the command returned into the exit code (CommandLine.v). *)

From Stdlib Require Import ZArith Lia Strings.Byte String.
From stdpp Require Import base list strings option gmap relations.
From S2P Require Import Prelude GoBase BftTypes Summary TxInterface Messages KVStore ShardConfStore Selector Node NodeOps Handlers NodeInvariant NodeQuiet NodeSafety HandlerSafety NodeSystem CommandLine.

Section process.
Context {BT : BftTypes} {BL : BftLib} {ML : MsgLib}.
Context {AL : AccessorLaws BL} {OL : OrderLaws BL} {KL : KeyLaws BL} {VL : VerifyLaws BL} {CL : CborLaws BL} {SH : Shard}.
Context {T W D DC : Type} {TS : TransactionSystem T W} {TSL : TransactionSystemLaws T W} {NE : NodeEnv W}.
Context {KVB : KeyValueDB D Block} {KVBL : KeyValueDBLaws D Block}.
Context {KVC : KeyValueDB DC PartitionDescriptionRecord}.
Context {KVCL : KeyValueDBLaws DC PartitionDescriptionRecord}.
Implicit Types (n : Node T W D DC).

(** ** Node.Run *)

(** The goroutines of [Run] with what they share.  A worker is [true] while it runs;
    [pr_err] is the first error of the group; [pr_closed] says that the receive channel was
    closed, which the libp2p network never does. *)
Record Process := mkProcess {
  pr_node : Node T W D DC;
  pr_last : Z * Z;
  pr_cause : option error;
  pr_closed : bool;
  pr_loop : bool;
  pr_workers : list bool;
  pr_err : option error;
}.
Implicit Types (p : Process).

Definition Run_start n (last : Z * Z) : Process :=
  mkProcess n last None false true (replicate (Z.to_nat (maxWorkers (conf_replicationConfig (nd_conf n)))) true) None.

(** The context of the group. *)
Definition cancelled p : bool := bool_decide (is_Some (pr_cause p)) || bool_decide (is_Some (pr_err p)).

Definition set_pr_node n last p : Process :=
  mkProcess n last (pr_cause p) (pr_closed p) (pr_loop p) (pr_workers p) (pr_err p).
Definition set_pr_cause err p : Process :=
  mkProcess (pr_node p) (pr_last p) (Some err) (pr_closed p) (pr_loop p) (pr_workers p) (pr_err p).
Definition close_channel p : Process :=
  mkProcess (pr_node p) (pr_last p) (pr_cause p) true (pr_loop p) (pr_workers p) (pr_err p).

(** A goroutine of the group returns: the loop with an error, a worker without. *)
Definition loop_returns (err : error) p : Process :=
  mkProcess (pr_node p) (pr_last p) (pr_cause p) (pr_closed p) false (pr_workers p)
    (match pr_err p with Some e => Some e | None => Some err end).
Definition worker_returns (i : nat) p : Process :=
  mkProcess (pr_node p) (pr_last p) (pr_cause p) (pr_closed p) (pr_loop p) (<[i := false]> (pr_workers p)) (pr_err p).

(** What the [select] of the loop may take. *)
Definition available (ev : loop_event) p : bool :=
  match ev with
  | EvDone => cancelled p
  | EvMessage None => pr_closed p
  | _ => enabled ev (pr_node p)
  end.

Inductive process_step : Process → Process → Prop :=
  | ps_signal sig p :
      pr_cause p = None → process_step p (set_pr_cause (quitSignalContext sig) p)
  | ps_close p : process_step p (close_channel p)
  | ps_loop ev last n p :
      pr_loop p = true → available ev p = true → deliverable_event ev →
      loop_iteration ev (pr_last p) (pr_node p) = (Ret last, n) →
      process_step p (set_pr_node n last p)
  | ps_loop_returns ev err n p :
      pr_loop p = true → available ev p = true → deliverable_event ev →
      loop_iteration ev (pr_last p) (pr_node p) = (Throw err, n) →
      process_step p (loop_returns err (set_pr_node n (pr_last p) p))
  | ps_worker i n p :
      pr_workers p !! i = Some true → replicationLoop_iteration (pr_node p) = (Ret tt, n) →
      process_step p (set_pr_node n (pr_last p) p)
  | ps_worker_returns i p :
      pr_workers p !! i = Some true → cancelled p = true → process_step p (worker_returns i p)
  | ps_timer g a t p :
      timer_act g a (nd_timer (pr_node p)) = Some t →
      process_step p (set_pr_node (set_timer t (pr_node p)) (pr_last p) p).

(** [Wait] returns. *)
Definition finished p : Prop := pr_loop p = false ∧ Forall (eq false) (pr_workers p).

(** ** What holds in every state of the process *)

Record process_ok n0 p : Prop := {
  po_good : good n0 (pr_node p);
  po_cause err : pr_cause p = Some err → cancelledByQuitSignal (Some err) = true;
  po_err : is_Some (pr_err p) ↔ pr_loop p = false;
  po_returned : pr_loop p = false → is_Some (pr_cause p) ∨ pr_closed p = true;
  po_workers : Exists (eq false) (pr_workers p) → cancelled p = true;
}.

Lemma start_ok n last : Inv n → process_ok n (Run_start n last).
Proof.
  intros Hi. split; [by apply good_refl|done|split; [by intros []|done]|done|].
  simpl. intros (b & Hb & <-)%Exists_exists. by apply elem_of_replicate in Hb as [? _].
Qed.

(** The node is changed by a step of the running node only. *)
Lemma process_ok_node n0 n last p : process_ok n0 p → good (pr_node p) n → process_ok n0 (set_pr_node n last p).
Proof. intros [Hg Hc He Hr Hw] Hg'. split; try done. by eapply good_trans. Qed.

(** The loop ends with its context or its channel only. *)
Lemma loop_ends ev last n err n' :
  loop_iteration ev last n = (Throw err, n') → (ev = EvDone ∨ ev = EvMessage None) ∧ n' = n.
Proof.
  intros Hl. destruct (ends_loop ev) eqn:He.
  - destruct ev as [|[m|]| | |]; try done; injection Hl as _ <-; auto.
  - pose proof (nothrow_loop_iteration ev last He n) as Hn. by rewrite Hl in Hn.
Qed.

Lemma cancelled_returns err p : cancelled (loop_returns err p) = true.
Proof. unfold cancelled. simpl. destruct (pr_err p); by rewrite orb_true_r. Qed.

Lemma process_step_ok n0 p p' : process_step p p' → process_ok n0 p → process_ok n0 p'.
Proof.
  intros Hs Hok. pose proof (good_inv _ _ (po_good _ _ Hok)) as Hi.
  destruct Hs as [sig p Hc|p|ev last n p _ _ Hd Hl|ev err n p Hr Ha Hd Hl|i n p _ Hl|i p Hi' Hc|g a t p Ht].
  - destruct Hok as [Hg _ He Hr Hw]. split; try done.
    + by intros err [= <-].
    + intros Hloop. left. by eexists.
  - destruct Hok as [Hg Hc He Hr Hw]. split; try done. by right.
  - apply process_ok_node; [done|]. apply (wp_ret_inv _ _ _ _ _ _ (safe_loop_iteration _ ev _ Hi Hd) Hl).
  - apply loop_ends in Hl as [Hev ->]. destruct Hok as [Hg Hc He Hret Hw]. split; try done.
    + split; [done|]. intros _. simpl. by destruct (pr_err p); eexists.
    + intros _. simpl. destruct Hev as [->| ->]; [|by right]. left. simpl in Ha. unfold cancelled in Ha.
      apply orb_true_iff in Ha as [Ha|Ha]; apply bool_decide_eq_true in Ha; [done|]. apply He in Ha. congruence.
    + intros _. apply cancelled_returns.
  - apply process_ok_node; [done|]. apply (wp_ret_inv _ _ _ _ _ _ (safe_replicationLoop_iteration _ Hi) Hl).
  - destruct Hok as [Hg Hca He Hret Hw]. by split.
  - apply process_ok_node; [done|]. apply frame_good; [done|]. apply frame_set_timer. intros ?. by eapply timer_act_ok.
Qed.

Lemma process_run_ok n0 p p' : rtc process_step p p' → process_ok n0 p → process_ok n0 p'.
Proof. induction 1 as [|p1 p2 p3 Hs _ IH]; [done|]. intros Hok. by eapply IH, process_step_ok. Qed.

(** ** Ending *)

(** When the context is cancelled, the goroutines that still run may return one after the
    other. *)
Lemma workers_return p k :
  cancelled p = true → (k <= length (pr_workers p))%nat →
  ∃ p', rtc process_step p p' ∧ pr_node p' = pr_node p ∧ pr_cause p' = pr_cause p ∧ pr_loop p' = pr_loop p ∧
    pr_err p' = pr_err p ∧ length (pr_workers p') = length (pr_workers p) ∧
    ∀ i, (i < k)%nat → pr_workers p' !! i = Some false.
Proof.
  intros Hc. induction k as [|k IH]; intros Hk; [exists p; split_and!; try done; lia|].
  destruct IH as (p1 & Hrun & Hn & Hca & Hl & He & Hlen & Hw); [lia|].
  destruct (lookup_lt_is_Some_2 (pr_workers p1) k ltac:(lia)) as [[] Hb].
  - exists (worker_returns k p1). split_and!; try done.
    + eapply rtc_r; [done|]. apply ps_worker_returns; [done|]. unfold cancelled in *. by rewrite Hca, He.
    + simpl. by rewrite length_insert.
    + intros i Hik. simpl. destruct (decide (i = k)) as [->|]; [apply list_lookup_insert_eq; lia|].
      rewrite list_lookup_insert_ne by done. apply Hw. lia.
  - exists p1. split_and!; try done. intros i Hik. destruct (decide (i = k)) as [->|]; [done|]. apply Hw. lia.
Qed.

Lemma group_finishes p :
  cancelled p = true → ∃ p', rtc process_step p p' ∧ finished p' ∧ pr_node p' = pr_node p ∧ pr_cause p' = pr_cause p.
Proof.
  intros Hc.
  assert (∃ p1, rtc process_step p p1 ∧ pr_loop p1 = false ∧ cancelled p1 = true ∧ pr_node p1 = pr_node p ∧ pr_cause p1 = pr_cause p)
    as (p1 & Hr1 & Hl1 & Hc1 & Hn1 & Hca1).
  { destruct (pr_loop p) eqn:Hl; [|by exists p].
    eexists. split; [eapply rtc_once, (ps_loop_returns EvDone _ (pr_node p) p Hl Hc); [by intros m|reflexivity]|].
    split_and!; try done. apply cancelled_returns. }
  destruct (workers_return p1 _ Hc1 (reflexivity _)) as (p2 & Hr2 & Hn2 & Hca2 & Hl2 & _ & Hlen & Hw).
  exists p2. split; [by etrans|]. split; [|split; congruence]. split; [congruence|].
  apply Forall_lookup. intros i b Hb. pose proof (lookup_lt_Some _ _ _ Hb) as Hlt. rewrite Hw in Hb by lia. congruence.
Qed.

(** C11: How the process ends. In every state of it the committed history of the node is what it
    was at the start, extended. The goroutines end only because of a quit signal or the closing of
    the receive channel: no message, no timeout and no other failure ends them. When all
    have ended, the exit code is 0 if the quit signal came and 1 if not. After the signal
    nothing keeps the process from ending: all goroutines can return, and they leave the
    node as it is. *)
Theorem process_ends n0 last p :
  Inv n0 → rtc process_step (Run_start n0 last) p →
  good n0 (pr_node p) ∧
  (pr_loop p = false ∨ Exists (eq false) (pr_workers p) → is_Some (pr_cause p) ∨ pr_closed p = true) ∧
  (finished p → exit_code (pr_err p) (pr_cause p) = if bool_decide (is_Some (pr_cause p)) then 0 else 1) ∧
  (is_Some (pr_cause p) → ∃ p', rtc process_step p p' ∧ finished p' ∧ pr_node p' = pr_node p ∧
    exit_code (pr_err p') (pr_cause p') = 0).
Proof.
  intros Hi Hrun. pose proof (process_run_ok _ _ _ Hrun (start_ok n0 last Hi)) as [Hg Hc He Hr Hw].
  split_and!.
  - done.
  - intros [Hl|Hx%Hw]; [by apply Hr|]. unfold cancelled in Hx.
    apply orb_true_iff in Hx as [Hx|Hx]; apply bool_decide_eq_true in Hx; [by left|]. by apply Hr, He.
  - intros [Hl _]. apply He in Hl. unfold exit_code. rewrite (bool_decide_eq_true_2 (is_Some (pr_err p))) by done.
    destruct (pr_cause p) as [err|]; [|done]. by rewrite (Hc err eq_refl).
  - intros [err Herr]. destruct (group_finishes p) as (p' & Hr' & Hf & Hn & Hca).
    { unfold cancelled. by rewrite Herr. }
    exists p'. split_and!; try done. unfold exit_code. rewrite Hca, Herr, (Hc err Herr). by rewrite andb_false_r.
Qed.
End process.
