(* ===== verification/Replication.v ===== *)
(** * Ledger replication: serving blocks (recovery.go)

    [processReplicationRequest] answers with consecutive blocks, starting with the one asked
    for, because the committed blocks are all in the store and its keys sort as their rounds. *)

From Stdlib Require Import ZArith Lia Strings.Byte String.
From stdpp Require Import base list strings option gmap relations sorting.
From S2P Require Import Prelude GoBase BftTypes Summary TxInterface Messages KVStore ShardConfStore Selector Node NodeOps Handlers NodeInvariant NodeQuiet NodeSafety HandlerSafety NodeSystem.

(** A strictly increasing list that starts at [b] or later and has every number up to [c]
    counts from [b]. *)
Lemma consecutive (l : list Z) b c :
  StronglySorted Z.lt l → Forall (fun r => b <= r) l → (∀ r, b <= r <= c → r ∈ l) →
  ∀ i, b + Z.of_nat i <= c → l !! i = Some (b + Z.of_nat i).
Proof.
  intros Hs. revert b. induction Hs as [|x l Hs IH Hx]; intros b Hb Hin i Hi.
  { assert (b ∈ []) as H by (apply Hin; lia). by apply elem_of_nil in H. }
  rewrite Forall_forall in Hx. apply Forall_cons in Hb as [Hbx Hb].
  assert (b = x) as <-.
  { assert (b ∈ x :: l) as [|H]%elem_of_cons by (apply Hin; lia); [done|]. apply Hx in H. lia. }
  destruct i as [|i]; simpl; [f_equal; lia|].
  rewrite (IH (b + 1)); [f_equal; lia| | |lia].
  - apply Forall_forall. intros y Hy%Hx. lia.
  - intros r Hr. assert (r ∈ b :: l) as [->|H]%elem_of_cons by (apply Hin; lia); [lia|done].
Qed.

(** Such a list, if it does not go further than [c + 1], counts from [b] to its end. *)
Lemma sorted_from (l : list Z) b i r :
  StronglySorted Z.lt l → Forall (fun r => b <= r) l → l !! i = Some r → b + Z.of_nat i <= r.
Proof.
  intros Hs. revert b i. induction Hs as [|x l Hs IH Hx]; intros b i Hb; [done|].
  apply Forall_cons in Hb as [Hbx _]. destruct i as [|i]; simpl; [intros [= ->]; lia|].
  intros Hi. apply (IH (x + 1)) in Hi; [lia|]. eapply Forall_impl; [exact Hx|]. simpl. lia.
Qed.

Lemma consecutive_to_end (l : list Z) b c i r :
  StronglySorted Z.lt l → Forall (fun r => b <= r <= c + 1) l → (∀ r, b <= r <= c → r ∈ l) →
  l !! i = Some r → r = b + Z.of_nat i.
Proof.
  intros Hs Hb Hin Hi. assert (Forall (fun r => b <= r) l) as Hb' by (eapply Forall_impl; [exact Hb|]; simpl; lia).
  destruct (Z.leb_spec (b + Z.of_nat i) c) as [Hle|Hgt].
  - rewrite (consecutive l b c Hs Hb' Hin i Hle) in Hi. congruence.
  - pose proof (sorted_from _ _ _ _ Hs Hb' Hi). pose proof (Forall_lookup_1 _ _ _ _ Hb Hi) as [_ ?]. lia.
Qed.

Section server.
Context {BT : BftTypes} {BL : BftLib} {ML : MsgLib}.
Context {AL : AccessorLaws BL} {OL : OrderLaws BL} {KL : KeyLaws BL} {VL : VerifyLaws BL} {CL : CborLaws BL} {SH : Shard}.
Context {T W D DC : Type} {TS : TransactionSystem T W} {TSL : TransactionSystemLaws T W} {NE : NodeEnv W}.
Context {KVB : KeyValueDB D Block} {KVBL : KeyValueDBLaws D Block}.
Context {KVC : KeyValueDB DC PartitionDescriptionRecord}.
Context {KVCL : KeyValueDBLaws DC PartitionDescriptionRecord}.
Implicit Types (n : Node T W D DC).
#[local] Abbreviation NodeM := (NodeM (T:=T) (W:=W) (D:=D) (DC:=DC)).

(** ** The loop over the iterator *)

(** The rounds and blocks the loop gathers, with [budget] more allowed. *)
Fixpoint served (budget : nat) (endBlock : Z) (it : list (list byte * result Block)) : list (Z * Block) :=
  match it with
  | (key, Ok b) :: it =>
      let r := BytesToUint64 key in
      (r, b) :: if Nat.leb budget 1 || ((endBlock <=? r) && (0 <? endBlock)) then []
                else served (budget - 1) endBlock it
  | _ => []
  end.

Lemma served_lookup m e it i r b :
  served m e it !! i = Some (r, b) → ∃ k, it !! i = Some (k, Ok b) ∧ r = BytesToUint64 k.
Proof.
  revert m i. induction it as [|[k [x|]] it IH]; intros m i; simpl; try done.
  destruct i as [|i]; simpl; [intros [= <- <-]; eauto|]. case_match; [done|]. apply IH.
Qed.

Lemma served_length m e it : (length (served m e it) <= Nat.max 1 m)%nat.
Proof.
  revert m. induction it as [|[k [x|]] it IH]; intros m; simpl; try lia.
  destruct (Nat.leb_spec m 1); simpl; [lia|]. destruct (_ && _); simpl; [lia|].
  specialize (IH (m - 1)%nat). lia.
Qed.

(** Only the last block gathered may be at or past the end of the request. *)
Lemma served_before_end m e it i r b :
  served m e it !! i = Some (r, b) → (S i < length (served m e it))%nat → 0 < e → r < e.
Proof.
  revert m i. induction it as [|[k [x|]] it IH]; intros m i; simpl; try done.
  destruct (Nat.leb m 1); simpl; [destruct i; simpl; [intros; lia|done]|].
  destruct (Z.leb_spec e (BytesToUint64 k)), (Z.ltb_spec 0 e); simpl; try (intros; lia).
  destruct i as [|i]; simpl; [by intros [= <- _]|]. intros Hi Hl. apply (IH _ _ Hi). lia.
Qed.

(** The loop stops for one of three reasons: the budget is used up, the end of the request is
    reached, or the iterator is exhausted. *)
Lemma served_stop m e it :
  Forall (fun x => is_ok x.2 = true) it → (length (served m e it) < m)%nat →
  length (served m e it) = length it ∨ ∃ r, last (served m e it).*1 = Some r ∧ e <= r ∧ 0 < e.
Proof.
  intros Hok. revert m. induction Hok as [|[k v] it Hv Hok IH]; intros m; simpl; [by left|].
  destruct v as [b|]; [|done]. simpl. destruct (Nat.leb_spec m 1); simpl; [lia|].
  destruct (Z.leb_spec e (BytesToUint64 k)), (Z.ltb_spec 0 e); simpl; intros Hlen.
  1: right; eauto.
  all: destruct (IH (m - 1)%nat) as [Heq|(r & Hl & ?)]; [lia|left; lia|].
  all: right; exists r; split; [|done].
  all: destruct (served (m - 1) e it) as [|[]] eqn:Hse; [done|exact Hl].
Qed.

(** What the loop has gathered after [l]. *)
Definition gather (f : fetched) (l : list (Z * Block)) (f' : fetched) : Prop :=
  f_blocks f' = f_blocks f ++ (Some <$> l.*2) ∧
  f_first f' = (if f_first f =? 0 then default 0 (head l.*1) else f_first f) ∧
  f_last f' = default (f_last f) (last l.*1).

Lemma gather_nil f : gather f [] f.
Proof.
  unfold gather. simpl. rewrite app_nil_r. split_and!; try done. by destruct (Z.eqb_spec (f_first f) 0).
Qed.

Lemma gather_cons f r b l f' c :
  0 < r →
  gather (mkFetched (f_blocks f ++ [Some b]) (if f_first f =? 0 then r else f_first f) r c) l f' →
  gather f ((r, b) :: l) f'.
Proof.
  intros Hr (Hb & Hf & Hl). unfold gather. simpl in *. split_and!.
  - by rewrite Hb, <-app_assoc.
  - rewrite Hf. destruct (Z.eqb_spec (f_first f) 0); [by destruct (Z.eqb_spec r 0); [lia|]|].
    by destruct (Z.eqb_spec (f_first f) 0).
  - rewrite Hl. destruct l as [|[r' b'] l]; [done|]. rewrite !fmap_cons. simpl.
    by destruct (last_is_Some (r' :: l.*1)) as [_ [x ->]].
Qed.

Lemma fetch_blocks_wp mx e it f n :
  mx <= maxUint64 → 0 <= f_cnt f → (f_cnt f < mx ∨ f_cnt f = 0) →
  Forall (fun k => 0 < BytesToUint64 k) it.*1 →
  wp (fetch_blocks mx e it f)
    (fun r n' => nd_sent n' = nd_sent n ∧ nd_conf n' = nd_conf n ∧
      ∀ f', r = Some f' → gather f (served (Z.to_nat (mx - f_cnt f)) e it) f')
    (fun _ _ => False) n.
Proof.
  intros Hmx. revert f n. induction it as [|[k v] it IH]; intros f n Hc0 Hc Hpos; cbn [fetch_blocks].
  { wp_norm. split_and!; try done. intros f' [= <-]. apply gather_nil. }
  apply Forall_cons in Hpos as [Hk Hpos]. wp_norm. destruct (ctx_Done (nd_world n)) as [[] w]; wp_norm; [done|].
  destruct v as [b|]; wp_norm.
  2: { split_and!; try done. intros f' [= <-]. apply gather_nil. }
  cbn [f_cnt served].
  rewrite u64_add_id by (unfold maxUint64 in *; lia).
  assert (Nat.leb (Z.to_nat (mx - f_cnt f)) 1 = (mx <=? f_cnt f + 1)) as ->.
  { destruct (Nat.leb_spec (Z.to_nat (mx - f_cnt f)) 1), (Z.leb_spec mx (f_cnt f + 1)); lia. }
  destruct ((mx <=? f_cnt f + 1) || _) eqn:Hstop; wp_norm.
  { split_and!; try done. intros f' [= <-]. eapply gather_cons; [done|apply gather_nil]. }
  apply orb_false_iff in Hstop as [Hmx'%Z.leb_gt _].
  eapply wp_mono; [apply IH; simpl; [lia|lia|done]| |done].
  intros r n' (Hs & Hcf & Hf). split_and!; [done|done|]. intros f' Hr. specialize (Hf f' Hr). cbn [f_cnt] in Hf.
  eapply gather_cons; [done|].
  replace (Z.to_nat (mx - f_cnt f) - 1)%nat with (Z.to_nat (mx - (f_cnt f + 1))) by lia. exact Hf.
Qed.

(** ** The keys of the store *)

(** Only blocks come after the key of a round. *)
Lemma found_key (m : gmap (list byte) Block) b k :
  blocks_ok m → is_u64 b → is_Some (m !! k) → key_le (Uint64ToBytes b) k →
  ∃ r, is_u64 r ∧ k = Uint64ToBytes r ∧ b <= r.
Proof.
  intros Hk Hb Hm Hle. destruct (blocks_ok_key _ _ Hk Hm) as [->|(r & Hr & ->)].
  - unfold key_le, proposalKey in Hle. by rewrite Uint32ToBytes_0_ltb in Hle.
  - exists r. split_and!; [done|done|]. by apply key_le_round.
Qed.

Lemma sorted_rounds ks :
  StronglySorted key_le ks → NoDup ks → Forall (fun k => ∃ r, is_u64 r ∧ k = Uint64ToBytes r) ks →
  StronglySorted Z.lt (BytesToUint64 <$> ks).
Proof.
  induction 1 as [|k ks Hs IH Hk]; intros Hnd Hall; [constructor|].
  apply NoDup_cons in Hnd as [Hnin Hnd]. apply Forall_cons in Hall as [(r & Hr & ->) Hall].
  rewrite fmap_cons. constructor; [by apply IH|].
  rewrite Forall_forall in Hall. rewrite Forall_forall in Hk. apply Forall_forall.
  intros x (k' & -> & Hin)%list_elem_of_fmap. destruct (Hall _ Hin) as (r' & Hr' & ->).
  rewrite !BytesToUint64_ToBytes by done. pose proof (key_le_round _ _ Hr Hr' (Hk _ Hin)).
  destruct (decide (r = r')) as [<-|]; [done|lia].
Qed.

Lemma found_rounds n b :
  Inv n → is_u64 b → GetRoundNumber (fuc (nd_state n)) < b →
  let rounds := BytesToUint64 <$> (db_Find (Uint64ToBytes b) (nd_blockStore n)).*1 in
  StronglySorted Z.lt rounds ∧ Forall (fun r => b <= r <= GetRoundNumber (committed n) + 1) rounds ∧
  ∀ r, b <= r <= GetRoundNumber (committed n) → r ∈ rounds.
Proof.
  intros Hi Hb Hf rounds. destruct (Find_spec (Uint64ToBytes b) (nd_blockStore n)) as (Hs & Hnd & Hdom & _).
  assert (∀ k, k ∈ (db_Find (Uint64ToBytes b) (nd_blockStore n)).*1 →
    ∃ r, is_u64 r ∧ k = Uint64ToBytes r ∧ b <= r) as Hkeys.
  { intros k [Hle Hm]%Hdom. eapply found_key; [apply Hi|done|done|done]. }
  split_and!.
  - apply sorted_rounds; [done|done|]. apply Forall_forall. intros k Hk. destruct (Hkeys k Hk) as (r & ? & ? & _). eauto.
  - apply Forall_forall. intros x (k & -> & Hin)%list_elem_of_fmap.
    destruct (Hkeys _ Hin) as (r & Hr & -> & ?). rewrite BytesToUint64_ToBytes by done. split; [done|].
    apply (inv_bound _ Hi); [done|]. by apply Hdom.
  - intros r Hr. destruct (chain_block _ _ _ r (inv_chain _ Hi)) as (x & u & Hx & _ & Hu); [lia|].
    assert (is_u64 r) as Hru by (rewrite <-Hu; apply GetRoundNumber_u64).
    apply list_elem_of_fmap. exists (Uint64ToBytes r). split; [by rewrite BytesToUint64_ToBytes|].
    apply Hdom. split; [|by eexists]. unfold key_le. rewrite Uint64ToBytes_ltb by done. apply Z.ltb_ge. lia.
Qed.

(** ** The response *)

Lemma sendLedgerReplicationResponse_sent msg to n n' :
  (try (sendLedgerReplicationResponse msg to);; mret tt) n = (Ret tt, n') → nd_sent n' ≠ nd_sent n →
  ∃ p, nd_sent n' = (MsgReplicationResponse msg, [p]) :: nd_sent n.
Proof.
  unfold sendLedgerReplicationResponse, Send, world, try, wrapM, lift, modify, mbind, M_bind, mret, M_ret.
  destruct (peer_Decode to) as [p|]; [|by intros [= <-]]. simpl.
  destruct (net_Send _ _ _) as [[] w]; intros [= <-] _; eauto.
Qed.

(** The last round a request may be answered with. *)
Definition request_end (lr : LedgerReplicationRequest) n : Z :=
  if 0 <? req_EndBlockNumber lr then Z.min (req_EndBlockNumber lr) (GetRoundNumber (committed n))
  else GetRoundNumber (committed n).

(** The blocks of a response start at the block asked for and follow each other, each stored
    under its round with a genuine certificate of that round, at most one past the committed
    round (stored and not committed yet).  There are not more than the limit and, but for the
    first, none past the end of the request; there are fewer only if the end of the request or
    of the ledger is reached. *)
Record good_batch n (lr : LedgerReplicationRequest) (bs : list Block) (lastBlock : Z) : Prop := {
  batch_blocks i b : bs !! i = Some b →
    block_at (blocks n) (req_BeginBlockNumber lr + Z.of_nat i) = Some b ∧
    ∃ u, getUCv1 (Some b) = Ok u ∧ genuine u ∧ GetRoundNumber (Some u) = req_BeginBlockNumber lr + Z.of_nat i;
  batch_nonempty : bs ≠ [];
  batch_last : lastBlock = req_BeginBlockNumber lr + Z.of_nat (length bs) - 1;
  batch_stored : lastBlock <= GetRoundNumber (committed n) + 1;
  batch_end : 0 < req_EndBlockNumber lr → lastBlock <= Z.max (req_BeginBlockNumber lr) (req_EndBlockNumber lr);
  batch_limit : Z.of_nat (length bs) <= maxReturnBlocks (conf_replicationConfig (nd_conf n));
  batch_maximal : Z.min (maxReturnBlocks (conf_replicationConfig (nd_conf n)))
    (request_end lr n - req_BeginBlockNumber lr + 1) <= Z.of_nat (length bs);
}.

Lemma served_round n lr m i r b :
  Inv n → is_u64 (req_BeginBlockNumber lr) →
  GetRoundNumber (fuc (nd_state n)) < req_BeginBlockNumber lr →
  served m (req_EndBlockNumber lr) (db_Find (Uint64ToBytes (req_BeginBlockNumber lr)) (nd_blockStore n)) !! i = Some (r, b) →
  r = req_BeginBlockNumber lr + Z.of_nat i ∧ r <= GetRoundNumber (committed n) + 1 ∧ is_u64 r ∧
  block_at (blocks n) r = Some b.
Proof.
  intros Hi Hb Hf Hl. destruct (found_rounds n _ Hi Hb Hf) as (Hs & Hall & Hin).
  apply served_lookup in Hl as (k & Hk & ->).
  pose proof (consecutive_to_end _ _ _ i (BytesToUint64 k) Hs Hall Hin) as Hr.
  rewrite !list_lookup_fmap, Hk in Hr. specialize (Hr eq_refl). split; [done|].
  destruct (Find_spec (Uint64ToBytes (req_BeginBlockNumber lr)) (nd_blockStore n)) as (_ & _ & Hdom & Hval).
  apply list_elem_of_lookup_2 in Hk.
  assert (key_le (Uint64ToBytes (req_BeginBlockNumber lr)) k ∧ is_Some (blocks n !! k)) as [Hle Hsome]
    by (apply Hdom, list_elem_of_fmap; by exists (k, Ok b)).
  destruct (found_key (blocks n) (req_BeginBlockNumber lr) k) as (x & Hx & -> & _); try done; [apply Hi|].
  rewrite BytesToUint64_ToBytes by done. split_and!; [by apply (inv_bound _ Hi)|done|by apply Hval].
Qed.

(** The rounds of what is gathered. *)
Lemma served_last n lr m x :
  Inv n → is_u64 (req_BeginBlockNumber lr) →
  GetRoundNumber (fuc (nd_state n)) < req_BeginBlockNumber lr →
  let l := served m (req_EndBlockNumber lr) (db_Find (Uint64ToBytes (req_BeginBlockNumber lr)) (nd_blockStore n)) in
  last l.*1 = Some x →
  x = req_BeginBlockNumber lr + Z.of_nat (length l) - 1 ∧ x <= GetRoundNumber (committed n) + 1 ∧
  (0 < req_EndBlockNumber lr → x <= Z.max (req_BeginBlockNumber lr) (req_EndBlockNumber lr)).
Proof.
  intros Hi Hb Hf l Hx. pose proof (fun i r y => served_round n lr m i r y Hi Hb Hf) as Hround. fold l in Hround.
  rewrite last_lookup, list_lookup_fmap, length_fmap in Hx.
  destruct (l !! pred (length l)) as [[r y]|] eqn:Hly; [|done]. injection Hx as ->.
  pose proof (lookup_lt_Some _ _ _ Hly) as Hlt. destruct (Hround _ _ _ Hly) as (-> & Hle & _).
  split_and!; [lia|done|]. intros He. destruct (decide (pred (length l) = 0%nat)) as [H0|Hn]; [lia|].
  destruct (lookup_lt_is_Some_2 l (pred (pred (length l)))) as [[r' y'] Hp]; [lia|].
  pose proof (served_before_end _ _ _ _ _ _ Hp ltac:(fold l; lia) He). destruct (Hround _ _ _ Hp) as (-> & _). lia.
Qed.

Lemma served_batch n lr :
  Inv n → is_u64 (req_BeginBlockNumber lr) →
  GetRoundNumber (fuc (nd_state n)) < req_BeginBlockNumber lr <= GetRoundNumber (committed n) →
  1 <= maxReturnBlocks (conf_replicationConfig (nd_conf n)) →
  Forall (fun x => is_ok x.2 = true) (db_Find (Uint64ToBytes (req_BeginBlockNumber lr)) (nd_blockStore n)) →
  let l := served (Z.to_nat (maxReturnBlocks (conf_replicationConfig (nd_conf n)))) (req_EndBlockNumber lr)
    (db_Find (Uint64ToBytes (req_BeginBlockNumber lr)) (nd_blockStore n)) in
  head l.*1 = Some (req_BeginBlockNumber lr) ∧ good_batch n lr l.*2 (default 0 (last l.*1)).
Proof.
  intros Hi Hb [Hf Hc] Hmax Hok l. destruct (found_rounds n _ Hi Hb Hf) as (Hs & Hall & Hin).
  pose proof (fun x => served_last n lr (Z.to_nat (maxReturnBlocks (conf_replicationConfig (nd_conf n)))) x Hi Hb Hf) as Hlast.
  pose proof (fun i r x => served_round n lr (Z.to_nat (maxReturnBlocks (conf_replicationConfig (nd_conf n)))) i r x Hi Hb Hf) as Hround.
  set (it := db_Find _ _) in *. set (b := req_BeginBlockNumber lr) in *. cbn zeta in Hlast. fold l in Hlast, Hround.
  assert (Forall (fun r => b <= r) (BytesToUint64 <$> it.*1)) as Hall' by (eapply Forall_impl; [exact Hall|]; simpl; lia).
  assert (∀ i, b + Z.of_nat i <= GetRoundNumber (committed n) → (i < length it)%nat) as Hlen.
  { intros i Hi'. pose proof (consecutive _ _ _ Hs Hall' Hin i Hi') as Hr%lookup_lt_Some.
    by rewrite !length_fmap in Hr. }
  assert (∃ r0 b0 l', l = (r0, b0) :: l') as (r0 & b0 & l' & Hl).
  { pose proof (Hlen O ltac:(lia)) as H0. unfold l. destruct it as [|[k [x|]] it]; simpl in *; [lia|by eauto|].
    by apply Forall_cons in Hok as [? _]. }
  destruct (last l.*1) as [x|] eqn:Hx; [|by rewrite Hl in Hx; apply last_None in Hx].
  destruct (Hlast x eq_refl) as (Hxr & Hxc & Hxe). split.
  { rewrite Hl. simpl. f_equal. destruct (Hround O r0 b0) as [-> _]; [by rewrite Hl|lia]. }
  pose proof (served_length (Z.to_nat (maxReturnBlocks (conf_replicationConfig (nd_conf n)))) (req_EndBlockNumber lr) it) as Hll.
  fold l in Hll. split; rewrite ?length_fmap; fold b; simpl; try done.
  - intros i y Hy. rewrite list_lookup_fmap in Hy. destruct (l !! i) as [[r z]|] eqn:Hli; [|done].
    injection Hy as ->. destruct (Hround _ _ _ Hli) as (-> & _ & Hu & Hbl).
    split; [done|]. by apply (blocks_ok_block (blocks n)); [apply Hi|..].
  - rewrite Hl. done.
  - lia.
  - destruct (decide (length l < Z.to_nat (maxReturnBlocks (conf_replicationConfig (nd_conf n))))%nat) as [Hlt|]; [|lia].
    unfold request_end. pose proof (served_stop _ _ _ Hok Hlt) as Hstop. fold l in Hstop.
    destruct Hstop as [Heq|(y & Hy & Hey & He)].
    + destruct (Z.leb_spec (b + Z.of_nat (length l)) (GetRoundNumber (committed n))) as [Hle|]; [|case_match; lia].
      pose proof (Hlen _ Hle). lia.
    + rewrite Hx in Hy. injection Hy as <-. destruct (Z.ltb_spec 0 (req_EndBlockNumber lr)); lia.
Qed.

(** C13: The answer to a replication request is right: when the block asked for is one the node
    committed after its first certificate and the store can be read, the response that is sent
    says Ok, starts with exactly that block and goes on with the stored blocks of the following
    rounds without a gap, each with a genuine certificate of its round, and reports the first
    and last round it carries. It does not go past the end of the request (unless that lies
    before its beginning, when it has one block) nor past the round after the committed one,
    has at most the configured number of blocks, and stops earlier only at the end of the
    request or of the committed ledger. *)
Theorem replication_response_correct n lr n' :
  Inv n → is_u64 (req_BeginBlockNumber lr) →
  GetRoundNumber (fuc (nd_state n)) < req_BeginBlockNumber lr <= GetRoundNumber (committed n) →
  1 <= maxReturnBlocks (conf_replicationConfig (nd_conf n)) <= maxUint64 →
  Forall (fun x => is_ok x.2 = true) (db_Find (Uint64ToBytes (req_BeginBlockNumber lr)) (nd_blockStore n)) →
  processReplicationRequest lr n = (Ret tt, n') → nd_sent n' ≠ nd_sent n →
  ∃ bs lastBlock p, good_batch n lr bs lastBlock ∧
    nd_sent n' = (MsgReplicationResponse (mkReplResp (req_UUID lr) StatusOk "" (Some (Some <$> bs))
      (req_BeginBlockNumber lr) lastBlock), [p]) :: nd_sent n.
Proof.
  intros Hi Hb Hc [Hm1 Hm2] Hok Hrun Hsent.
  destruct (served_batch n lr Hi Hb Hc Hm1 Hok) as [Hhead Hbatch].
  unfold processReplicationRequest in Hrun.
  apply bind_ret_inv in Hrun as (it & n0 & [= <- <-] & Hrun).
  apply bind_ret_inv in Hrun as (mx & n0 & [= <- <-] & Hrun).
  apply bind_ret_inv in Hrun as (f & n1 & Hfetch & Hrun).
  assert (Forall (fun k => 0 < BytesToUint64 k)
    (db_Find (Uint64ToBytes (req_BeginBlockNumber lr)) (nd_blockStore n)).*1) as Hpos.
  { destruct (found_rounds n _ Hi Hb (proj1 Hc)) as (_ & Hall & _).
    pose proof (GetRoundNumber_u64 (fuc (nd_state n))) as [].
    rewrite Forall_fmap in Hall. eapply Forall_impl; [exact Hall|]. simpl. intros. lia. }
  pose proof (fetch_blocks_wp _ (req_EndBlockNumber lr) _ (mkFetched [] 0 0 0) n Hm2 ltac:(simpl; lia)
    ltac:(simpl; lia) Hpos) as Hwp.
  destruct (wp_ret_inv _ _ _ _ _ _ Hwp Hfetch) as (Hs1 & _ & Hg).
  destruct f as [f|]; [|by injection Hrun as <-].
  destruct (Hg f eq_refl) as (Hfb & Hff & Hfl). simpl in Hfb, Hff, Hfl. rewrite Z.sub_0_r in *.
  rewrite Hhead in Hff. simpl in Hff.
  destruct (sendLedgerReplicationResponse_sent _ _ _ _ Hrun) as [p Hp]; [by rewrite Hs1|].
  eexists _, _, p. split; [exact Hbatch|]. by rewrite Hp, Hs1, Hfb, Hff, Hfl.
Qed.
End server.
