(* ===== verification/Behaviour.v ===== *)
(** * What the handlers do

    The functional behaviour of the node's handlers on their branches: finalizing a block,
    certificates, replication requests in both directions, and the end of recovery. *)

From Stdlib Require Import ZArith Lia Strings.Byte String.
From stdpp Require Import base list strings option gmap relations.
From S2P Require Import Prelude GoBase BftTypes Summary TxInterface Messages KVStore ShardConfStore Selector Node NodeOps Handlers NodeInvariant NodeQuiet NodeSafety HandlerSafety NodeSystem.

Section behaviour.
Context {BT : BftTypes} {BL : BftLib} {ML : MsgLib}.
Context {AL : AccessorLaws BL} {OL : OrderLaws BL} {KL : KeyLaws BL} {VL : VerifyLaws BL} {CL : CborLaws BL} {SH : Shard}.
Context {T W D DC : Type} {TS : TransactionSystem T W} {TSL : TransactionSystemLaws T W} {NE : NodeEnv W}.
Context {KVB : KeyValueDB D Block} {KVBL : KeyValueDBLaws D Block}.
Context {KVC : KeyValueDB DC PartitionDescriptionRecord}.
Context {KVCL : KeyValueDBLaws DC PartitionDescriptionRecord}.
Implicit Types (n : Node T W D DC).
#[local] Abbreviation NodeM := (NodeM (T:=T) (W:=W) (D:=D) (DC:=DC)).

(** ** Finalizing a block *)

(** C17: Finalizing a block is atomic up to store errors. For a block that carries a complete
    certificate, the successor of the committed one, [finalizeBlock] either commits the certificate with the block
    in the store under its round and nothing else of the consensus state changed, or returns an
    error with the committed certificate unchanged and the block not in the store, unless it
    was there before or the error says that it could not be deleted. *)
Theorem finalizeBlock_atomic n b u o n' :
  Inv n → cs_status (nd_state n) ≠ initializing →
  IsSuccessor u (committed n) = true → getUCv1 (Some b) = Ok u → genuine u →
  GetRootRoundNumber (Some u) <= GetRootRoundNumber (luc (nd_state n)) →
  finalizeBlock b u n = (o, n') →
  good n n' ∧
  match o with
  | Ret _ => finalized n b u n'
  | Throw e => finalize_failed n u e n'
  | Panic => False
  end.
Proof.
  intros Hi Hst Hs Hu Hcu Hr Hrun.
  pose proof (wp_outcome _ _ _ _ _ _ (finalizeBlock_wp n b u Hi Hst Hs Hu Hcu Hr) Hrun) as H. by destruct o.
Qed.

(** ** Certificates *)

(** C8: A certificate commits only the proposal it certifies. When a node that is not
    recovering handles a certificate without an error, it stays out of recovery, and either
    its committed certificate is unchanged or the certificate succeeds it, equals in its input
    record the pending proposal, and the proposal is now stored as the block of that round
    with the certificate in it. *)
Theorem certificate_commits_its_proposal n uc tr n' :
  Inv n → not_recovering n → handleUnicityCertificate uc tr n = (Ret tt, n') →
  ∃ u, uc = Some u ∧ not_recovering n' ∧
    (committed n' = committed n ∨
     IsSuccessor u (committed n) = true ∧
     ∃ b, pendingBlockProposal (nd_state n) = Some b ∧ certified b u n').
Proof.
  intros Hi Hn Hrun.
  destruct (wp_ret_inv _ _ _ _ _ _ (safe_handleUnicityCertificate n uc tr Hi) Hrun) as (_ & u & -> & Hh).
  exists u. split; [done|]. by apply Hh.
Qed.

Lemma startNewRound_run n :
  ∃ d, startNewRound n = (Ret tt, set_blockStore d (set_state (cs_set_pending None (nd_state n)) n)).
Proof.
  unfold startNewRound, resetProposal, deletePendingProposal, blockDB, try, mbind, M_bind, set_cs, modify.
  simpl. destruct (db_Delete _ _) as [d []]; by exists d.
Qed.

(** C25: A repeat certificate abandons the round: when the certificate repeats the one the node
    has, it becomes the latest one, nothing is committed, the pending proposal is dropped and
    the transaction system has no uncommitted changes any more. *)
Theorem repeat_certificate_reverts n u tr n' :
  Inv n → cs_status (nd_state n) = normal →
  IsDuplicate u (luc (nd_state n)) = false → IsRepeat u (luc (nd_state n)) = Ok true →
  handleUnicityCertificate (Some u) tr n = (Ret tt, n') →
  committed n' = committed n ∧ luc (nd_state n') = Some u ∧
  pendingBlockProposal (nd_state n') = None ∧ ∃ sm, StateSummary (nd_transactionSystem n') = Ok sm.
Proof.
  intros Hi Hst Hd Hrep Hrun. unfold handleUnicityCertificate in Hrun.
  apply bind_ret_inv in Hrun as (l & n0 & [= <- <-] & Hrun).
  apply bind_ret_inv in Hrun as ([] & n1 & Hup & Hrun).
  pose proof (wp_ret_inv _ _ _ _ _ _ (safe_wrapM _ _ _ _ (safe_updateLUC n (Some u) tr Hi)) Hup)
    as (_ & ? & [= <-] & [_ Hst1 _ Hc1 _ Hl1]).
  assert (luc (nd_state n1) = Some u) as Hl.
  { destruct Hl1 as [|[_ [[? _]|?]]]; [done|congruence|congruence]. }
  apply bind_ret_inv in Hrun as (st & n2 & [= <- <-] & Hrun). rewrite Hst1, Hst in Hrun. simpl in Hrun.
  apply bind_ret_inv in Hrun as ([] & n3 & [= <-] & Hrun).
  apply bind_ret_inv in Hrun as (u' & n3 & [= <- <-] & Hrun).
  unfold act_on_uc in Hrun. rewrite Hd, Hrep in Hrun.
  apply bind_ret_inv in Hrun as (rep & n3 & [= <- <-] & Hrun). cbn beta iota in Hrun.
  apply bind_ret_inv in Hrun as ([] & n3 & [= <-] & Hrun).
  destruct (startNewRound_run (set_tx (Revert (nd_transactionSystem n1)) n1)) as [d Hd'].
  rewrite Hd' in Hrun. injection Hrun as <-. unfold committed in *. simpl.
  split_and!; [by rewrite CommittedUC_Revert|done|done|apply StateSummary_Revert].
Qed.

(** ** Replication requests *)

(** The request can be served: it is for this shard, and for a block the node has. *)
Definition servable n (r : LedgerReplicationRequest) : bool :=
  (req_PartitionID r =? pdr_PartitionID (nd_shardConf n)) &&
  ShardID_Equal (req_ShardID r) (pdr_ShardID (nd_shardConf n)) &&
  (GetRoundNumber (fuc (nd_state n)) <? req_BeginBlockNumber r) &&
  (req_BeginBlockNumber r <=? GetRoundNumber (committed n)).

Definition queue_full n : bool :=
  maxWorkers (conf_replicationConfig (nd_conf n)) <=? Z.of_nat (length (nd_replicationCh n)).

(** The status of the answer to a request that is not queued. *)
Definition refusal n (r : LedgerReplicationRequest) : Status :=
  if negb (req_PartitionID r =? pdr_PartitionID (nd_shardConf n)) ||
     negb (ShardID_Equal (req_ShardID r) (pdr_ShardID (nd_shardConf n))) then WrongShard
  else if servable n r then Busy else BlocksNotFound.

Lemma error_response_run n r s text o n' :
  sendLedgerReplicationResponse (error_response r s text) (req_NodeID r) n = (o, n') →
  nd_replicationCh n' = nd_replicationCh n ∧ o ≠ Panic ∧
  (∀ p, peer_Decode (req_NodeID r) = Ok p →
    nd_sent n' = (MsgReplicationResponse (error_response r s text), [p]) :: nd_sent n).
Proof.
  unfold sendLedgerReplicationResponse, Send, world, wrapM, lift, modify, mbind, M_bind.
  destruct (peer_Decode (req_NodeID r)) as [p|]; [|by intros [= <- <-]]. simpl.
  destruct (net_Send _ _ _) as [[] w]; intros [= <- <-]; split_and!; try done; by intros ? [= <-].
Qed.

(** Every valid replication request is either queued or answered: it is queued, with nothing
    sent, exactly if it can be served and a worker has room for it; otherwise the queue is
    unchanged and the sender gets one response that says why (wrong shard, blocks not found,
    busy) and carries no blocks. *)
Theorem replication_request_disposition n r o n' :
  Req_IsValid (Some r) = Ok tt → handleLedgerReplicationRequest (Some r) n = (o, n') →
  if servable n r && negb (queue_full n)
  then o = Ret tt ∧ n' = set_replicationCh (nd_replicationCh n ++ [r]) n
  else nd_replicationCh n' = nd_replicationCh n ∧ o ≠ Panic ∧
    ∀ p, peer_Decode (req_NodeID r) = Ok p →
      ∃ text, nd_sent n' = (MsgReplicationResponse (error_response r (refusal n r) text), [p]) :: nd_sent n.
Proof.
  intros Hv Hrun. unfold handleLedgerReplicationRequest in Hrun.
  unfold mbind at 1 2 3, M_bind at 1 2 3, deref, wrapM, gets, id in Hrun. rewrite Hv in Hrun. cbn [lift] in Hrun.
  unfold refusal, servable, queue_full.
  destruct (negb (_ =? _) || negb _) eqn:Hsh.
  { apply orb_true_iff in Hsh as Hor. rewrite !negb_true_iff in Hor.
    assert (∀ x y, (req_PartitionID r =? pdr_PartitionID (nd_shardConf n)) &&
      ShardID_Equal (req_ShardID r) (pdr_ShardID (nd_shardConf n)) && x && y = false) as Hf.
    { intros. destruct Hor as [-> | ->]; simpl; [done|]. by rewrite andb_false_r. }
    rewrite Hf. simpl. apply error_response_run in Hrun as (? & ? & ?). eauto. }
  apply orb_false_iff in Hsh as [Hp%negb_false_iff Hs%negb_false_iff]. rewrite Hp, Hs. simpl.
  rewrite (Z.ltb_antisym (req_BeginBlockNumber r)). fold (committed n).
  destruct (req_BeginBlockNumber r <=? _) eqn:Hb; simpl.
  { apply error_response_run in Hrun as (? & ? & ?). eauto. }
  unfold mbind, M_bind, committedUC, gets in Hrun. fold (committed n) in Hrun.
  rewrite Z.ltb_antisym in Hrun. destruct (req_BeginBlockNumber r <=? GetRoundNumber (committed n)); simpl in *.
  2: { apply error_response_run in Hrun as (? & ? & ?). eauto. }
  rewrite Z.ltb_antisym in Hrun.
  destruct (maxWorkers _ <=? _); simpl in *; [|by injection Hrun as <- <-].
  apply error_response_run in Hrun as (? & ? & ?). eauto.
Qed.

(** ** Recovery *)

Definition replication_request n (uuid : UUID) : LedgerReplicationRequest :=
  let start := u64_add (GetRoundNumber (committed n)) 1 in
  mkReplReq uuid (pdr_PartitionID (nd_shardConf n)) (pdr_ShardID (nd_shardConf n))
    (peer_String (nd_peerID n)) start
    (u64_add start (maxFetchBlocks (conf_replicationConfig (nd_conf n)))).

Lemma try_peers_sent msg self peers n :
  wp (try_peers msg self peers)
    (fun _ n' => ∃ l, nd_sent n' = l ++ nd_sent n ∧
      Forall (fun x => x.1 = msg ∧ ∃ p, x.2 = [p] ∧ p ≠ self ∧ p ∈ peers) l)
    (fun _ _ => False) n.
Proof.
  assert (∀ p ps l, Forall (fun x => x.1 = msg ∧ ∃ q, x.2 = [q] ∧ q ≠ self ∧ q ∈ ps) l →
    Forall (fun x : Message * list PeerID => x.1 = msg ∧ ∃ q, x.2 = [q] ∧ q ≠ self ∧ q ∈ (p : PeerID) :: ps) l) as Hweak.
  { intros p ps l Hl. eapply Forall_impl; [exact Hl|]. intros [m to] [? (q & ? & ? & ?)]. simpl in *.
    split; [done|]. exists q. split_and!; [done|done|]. by apply elem_of_cons; right. }
  revert n. induction peers as [|p peers IH]; intros n; cbn [try_peers]; [by exists []|].
  destruct (String.eqb_spec self p) as [|Hne].
  { eapply wp_mono; [apply IH| |done]. intros _ n' (l & ? & ?). exists l. by auto. }
  unfold Send. wp_norm. cbn [nd_world add_sent set_world].
  assert (∀ w n', n' = set_world w (add_sent msg [p] n) → nd_sent n' = [(msg, [p])] ++ nd_sent n) as Hsent
    by (by intros ? ? ->).
  destruct (net_Send msg [p] _) as [[] w]; cbn [fst snd]; wp_norm.
  - exists [(msg, [p])]. split; [done|]. constructor; [|done]. split; [done|]. exists p. split_and!; [done|done|].
    by apply elem_of_cons; left.
  - eapply wp_mono; [apply IH| |done]. intros _ n' (l & Hl & Hall). exists (l ++ [(msg, [p])]).
    rewrite Hl, <-app_assoc. split; [done|]. apply Forall_app. split; [by auto|].
    constructor; [|done]. split; [done|]. exists p. split_and!; [done|done|]. by apply elem_of_cons; left.
Qed.

(** A recovering node asks for the right blocks: everything [sendLedgerReplicationRequest]
    sends is one and the same request, to single validators of the shard other than the node
    itself; it begins at the round after the committed one, and as long as the round numbers do
    not overflow it is a request its receivers accept as valid. *)
Theorem replication_request_sent n n' :
  (∀ l w, (util_ShuffleSliceCopy l w).1 ≡ₚ l) →
  sendLedgerReplicationRequest n = (Ret tt, n') →
  ∃ uuid l, nd_sent n' = l ++ nd_sent n ∧
    Forall (fun x => x.1 = MsgReplicationRequest (replication_request n uuid) ∧
      ∃ p, x.2 = [p] ∧ p ≠ nd_peerID n ∧ p ∈ validator_id <$> pdr_Validators (nd_shardConf n)) l ∧
    (pdr_PartitionID (nd_shardConf n) ≠ 0 → peer_String (nd_peerID n) ≠ ""%string →
     0 <= maxFetchBlocks (conf_replicationConfig (nd_conf n)) →
     GetRoundNumber (committed n) + 1 + maxFetchBlocks (conf_replicationConfig (nd_conf n)) <= maxUint64 →
     Req_IsValid (Some (replication_request n uuid)) = Ok tt ∧
     req_BeginBlockNumber (replication_request n uuid) = GetRoundNumber (committed n) + 1).
Proof.
  intros Hshuffle Hrun. destruct (uuid_New (nd_world n)) as [uuid w0] eqn:Huuid.
  exists uuid.
  assert (wp sendLedgerReplicationRequest
    (fun _ n' => ∃ l, nd_sent n' = l ++ nd_sent n ∧
      Forall (fun x => x.1 = MsgReplicationRequest (replication_request n uuid) ∧
        ∃ p, x.2 = [p] ∧ p ≠ nd_peerID n ∧ p ∈ validator_id <$> pdr_Validators (nd_shardConf n)) l)
    (fun _ _ => False) n) as Hwp.
  { unfold sendLedgerReplicationRequest, Validators. wp_norm. rewrite Huuid. cbn [fst snd].
    unfold id. cbn [nd_shardConf set_world]. change (CommittedUC (nd_transactionSystem n)) with (committed n).
    destruct (validator_id <$> pdr_Validators (nd_shardConf n)) as [|v vs] eqn:Hv; wp_norm; [by exists []|].
    eapply wp_mono; [apply try_peers_sent| |done]. intros _ n2 (l & Hl & Hall). exists l. split; [done|].
    eapply Forall_impl; [exact Hall|]. intros [m to] [Hm (p & ? & ? & Hp)]. simpl in *. split; [done|].
    exists p. split_and!; [done|done|]. by rewrite Hshuffle in Hp. }
  destruct (wp_ret_inv _ _ _ _ _ _ Hwp Hrun) as (l & Hl & Hall).
  exists l. split_and!; [done|done|]. intros Hpid Hpeer Hmx Hov.
  pose proof (GetRoundNumber_u64 (committed n)) as [Hr0 _].
  unfold Req_IsValid, replication_request. cbn [req_PartitionID req_NodeID req_EndBlockNumber req_BeginBlockNumber].
  rewrite !u64_add_id by (rewrite ?u64_add_id; lia). split; [|done].
  destruct (Z.eqb_spec (pdr_PartitionID (nd_shardConf n)) 0); [done|].
  destruct (String.eqb_spec (peer_String (nd_peerID n)) ""); [done|].
  destruct (Z.ltb_spec (GetRoundNumber (committed n) + 1 + maxFetchBlocks (conf_replicationConfig (nd_conf n)))
    (GetRoundNumber (committed n) + 1)); [lia|]. by rewrite andb_false_r.
Qed.

(** Every block of the list is committed, or was before. *)
Definition covers (bs : list (option Block)) n : Prop :=
  ∀ b u, b ∈ bs → getUCv1 b = Ok u → GetRoundNumber (Some u) <= GetRoundNumber (committed n).

Lemma good_round n n' : good n n' → GetRoundNumber (committed n) <= GetRoundNumber (committed n').
Proof. intros [_ Hev]. by eapply chain_rounds, ev_chain. Qed.

Lemma handle_blocks_covers n bs :
  Inv n → cs_status (nd_state n) = recovering →
  safe n (handle_blocks bs) (fun _ n' => cs_status (nd_state n') = recovering ∧ covers bs n').
Proof.
  revert n. induction bs as [|b bs IH]; intros n Hi Hst; cbn [handle_blocks].
  { apply safe_ret; [done|]. split; [done|]. intros ? ? H. by apply elem_of_nil in H. }
  eapply safe_bind; [apply safe_handleBlock; [done|by rewrite Hst]|].
  intros ? n1 Hg1 (u & Hu & Hs & Hc). eapply safe_mono; [apply IH; [by eauto with node|by rewrite Hs]|].
  intros ? n2 Hg2 [Hs2 Hcov]. split; [done|]. intros b' u' [->|Hb']%elem_of_cons Hu'; [|by eapply Hcov].
  rewrite Hu in Hu'. injection Hu' as <-. etransitivity; [|by apply good_round].
  pose proof (good_round _ _ Hg1). destruct Hc as [[? _]|[_ ->]]; lia.
Qed.

(** C23: Recovery makes progress and ends only when the node has caught up: when a recovering
    node accepts a batch of new blocks, every block of the batch is committed; if the committed
    round then is that of the latest certificate the node goes back to normal operation
    (and, with no proposal to retry, stays there), otherwise it keeps recovering. *)
Theorem recovery_batch_applied n lr n' :
  Inv n → cs_status (nd_state n) = recovering → resp_Status lr = StatusOk →
  GetRoundNumber (committed n) < resp_FirstBlockNumber lr →
  handleLedgerReplicationResponse (Some lr) n = (Ret tt, n') →
  ∃ n1, good n n1 ∧ covers (default [] (resp_Blocks lr)) n1 ∧ good n1 n' ∧
    if GetRoundNumber (committed n1) =? GetRoundNumber (luc (nd_state n1))
    then recoveryLastProp (nd_state n') = None ∧
      (recoveryLastProp (nd_state n1) = None → cs_status (nd_state n') = normal)
    else cs_status (nd_state n') = recovering ∧ committed n' = committed n1.
Proof.
  intros Hi Hst Hok Hfirst Hrun. unfold handleLedgerReplicationResponse in Hrun.
  apply bind_ret_inv in Hrun as ([] & n0 & Hv & Hrun).
  assert (n0 = n) as -> by (revert Hv; unfold wrapM, lift; destruct (Resp_IsValid _); intros Heq; by inversion Heq).
  apply bind_ret_inv in Hrun as (st & n0 & [= <- <-] & Hrun). rewrite Hst in Hrun. simpl in Hrun.
  apply bind_ret_inv in Hrun as (x & n0 & [= <- <-] & Hrun). rewrite Hok in Hrun. simpl in Hrun.
  apply bind_ret_inv in Hrun as (c & n0 & [= <- <-] & Hrun).
  fold (committed n) in Hrun. destruct (Z.leb_spec (resp_FirstBlockNumber lr) (GetRoundNumber (committed n))); [lia|].
  apply bind_ret_inv in Hrun as ([] & n1 & Hbs & Hrun).
  destruct (wp_ret_inv _ _ _ _ _ _ (handle_blocks_covers n _ Hi Hst) Hbs) as (Hg1 & Hst1 & Hcov).
  exists n1. split; [done|]. split; [done|]. assert (Inv n1) as Hi1 by eauto with node.
  apply bind_ret_inv in Hrun as (cmp & n2 & [= <- <-] & Hrun). fold (committed n1) in Hrun.
  destruct (GetRoundNumber (committed n1) =? _); simpl in Hrun.
  - pose proof (safe_finish_recovery n1 Hi1) as Hfin.
    destruct (wp_ret_inv _ _ _ _ _ _ Hfin Hrun) as [Hg _]. split; [done|]. clear Hfin.
    apply bind_ret_inv in Hrun as ([] & n2 & [= <-] & Hrun).
    destruct (startNewRound_run (set_state (cs_set_status normal (nd_state n1)) n1)) as [d Hd].
    apply bind_ret_inv in Hrun as ([] & n3 & Hnew & Hrun). rewrite Hd in Hnew. injection Hnew as <-.
    apply bind_ret_inv in Hrun as (p & n3 & [= <- <-] & Hrun). simpl in Hrun.
    destruct (recoveryLastProp (nd_state n1)) as [p|] eqn:Hp.
    + split; [|done]. apply bind_ret_inv in Hrun as (r & n3 & _ & [= <-]). done.
    + injection Hrun as <-. by split.
  - pose proof (wp_ret_inv _ _ _ _ _ _ (safe_quiet _ _ Hi1 (quiet_sendLedgerReplicationRequest n1)) Hrun) as [Hg Hf].
    split; [done|]. by rewrite (fr_state _ _ Hf), (fr_committed _ _ Hf).
Qed.
End behaviour.
