(* ===== verification/Proposals.v ===== *)
(** * Proposals and certification requests

    What a node asks the root chain to certify, and when it accepts another node's proposal. *)

From Stdlib Require Import ZArith Lia Strings.Byte String.
From stdpp Require Import base list strings option gmap.
From S2P Require Import Prelude GoBase BftTypes Summary TxInterface Messages KVStore ShardConfStore Selector Node NodeOps Handlers NodeInvariant NodeQuiet NodeSafety HandlerSafety NodeSystem Behaviour.

Section proposals.
Context {BT : BftTypes} {BL : BftLib} {ML : MsgLib}.
Context {AL : AccessorLaws BL} {OL : OrderLaws BL} {KL : KeyLaws BL} {VL : VerifyLaws BL} {CL : CborLaws BL} {SH : Shard}.
Context {T W D DC : Type} {TS : TransactionSystem T W} {TSL : TransactionSystemLaws T W} {NE : NodeEnv W}.
Context {KVB : KeyValueDB D Block} {KVBL : KeyValueDBLaws D Block}.
Context {KVC : KeyValueDB DC PartitionDescriptionRecord}.
Context {KVCL : KeyValueDBLaws DC PartitionDescriptionRecord}.
Implicit Types (n : Node T W D DC).
#[local] Abbreviation NodeM := (NodeM (T:=T) (W:=W) (D:=D) (DC:=DC)).

(** The round and epoch the node takes part in. *)
Definition cur_round n : Z :=
  match ltr (nd_state n) with
  | Some tr => tr_Round tr
  | None => u64_add (GetRoundNumber (luc (nd_state n))) 1
  end.
Definition cur_epoch n : Z :=
  match ltr (nd_state n), luc (nd_state n) ≫= uc_InputRecord with
  | Some tr, _ => tr_Epoch tr
  | None, Some ir => ir_Epoch ir
  | None, None => 0
  end.

(** The block [b] with input record [ir] is what [n] proposes for the state [st]: it extends
    the latest certificate's state and the committed block, in the current round and epoch, at
    the time of the latest seal. *)
Definition proposes n (author : string) (st : Summary) (b : Block) (ir : InputRecord) : Prop :=
  ∃ u seal bs, luc (nd_state n) = Some u ∧ uc_UnicitySeal u = Some seal ∧
    Cbor_Marshal_UC (pending_uc (cur_round n) (cur_epoch n) (seal_Timestamp seal) (GetStateHash (Some u)) st) = Ok bs ∧
    Block_CalculateBlockHash
      (mkBlock (Some (mkHeader 1 (pdr_PartitionID (nd_shardConf n)) (pdr_ShardID (nd_shardConf n)) author
        (GetBlockHash (committed n)))) (Some []) bs) (conf_hashAlgorithm (nd_conf n)) = (b, Ok ir).

Lemma currentRoundNumber_run n : currentRoundNumber n = (Ret (cur_round n), n).
Proof.
  unfold currentRoundNumber, cur_round, latestTR, latestUC, get_state, gets, mbind, M_bind.
  by destruct (ltr (nd_state n)).
Qed.

Lemma currentEpoch_run n e n' : currentEpoch n = (Ret e, n') → e = cur_epoch n ∧ n' = n.
Proof.
  unfold currentEpoch, cur_epoch, latestTR, latestUC, get_state, gets, mbind, M_bind.
  destruct (ltr (nd_state n)); [by intros [= <- <-]|].
  destruct (luc (nd_state n)) as [u|]; simpl; [|by intros [= <- <-]].
  unfold deref. destruct (uc_InputRecord u); [by intros [= <- <-]|done].
Qed.

Lemma RootValidators_run n ids n' : RootValidators n = (Ret ids, n') → ∃ w, n' = set_world w n.
Proof.
  unfold RootValidators, trustBase, latestUC, get_state, gets, world, wrapM, mbind, M_bind.
  destruct (trustBase_GetByEpoch _ _) as [[tb|] w]; simpl; [|done].
  unfold lift. destruct (decode_ids _); [|done]. intros [= _ <-]. by exists w.
Qed.

Lemma Send_run msg to n n' : Send msg to n = (Ret tt, n') → ∃ w, n' = set_world w (add_sent msg to n).
Proof.
  unfold Send, world, modify, mbind, M_bind. destruct (net_Send _ _ _) as [[[]|] w]; [|done].
  intros [= <-]. by exists w.
Qed.

Lemma storePendingProposal_run b n n' :
  storePendingProposal b n = (Ret tt, n') →
  ∃ d, n' = set_blockStore d n ∧ db_map d = <[Uint32ToBytes proposalKey := b]> (blocks n).
Proof.
  unfold storePendingProposal, blockDB, wrapM. destruct (db_Write _ b _) as [d [[]|]] eqn:Hw; [|done].
  intros [= <-]. exists d. split; [done|]. by apply Write_ok in Hw.
Qed.

Lemma lift_run {S A} (r : result A) a (s s' : S) : lift r s = (Ret a, s') → r = Ok a ∧ s' = s.
Proof. destruct r; by intros [= <- <-]. Qed.

Lemma wrapM_run {S A} msg (m : M S A) s a s' : wrapM msg m s = (Ret a, s') → m s = (Ret a, s').
Proof. unfold wrapM. by destruct (m s) as [[] ?]. Qed.

Lemma try_run {S A} (m : M S A) s r s' :
  try m s = (Ret r, s') → match r with Ok a => m s = (Ret a, s') | Fail e => m s = (Throw e, s') end.
Proof. unfold try. destruct (m s) as [[] ?]; by intros [= <- <-]. Qed.

(** The state in which a certification request is handed to the network: the proposed block is
    pending, in memory and in the store, the request for its input record is signed, and
    nothing has been sent or committed. *)
Record prepared n author st (b : Block) (ir : InputRecord) (req : BlockCertificationRequest) n1 : Prop := {
  pp_proposes : proposes n author st b ir;
  pp_sign : ∃ size, Block_Size b = Ok size ∧
    BCR_Sign (conf_signer (nd_conf n))
      (mkBCR (pdr_PartitionID (nd_shardConf n)) (pdr_ShardID (nd_shardConf n)) (peer_String (nd_peerID n))
        (Some ir) size 0 nil_slice) = Ok req;
  pp_pending : nd_state n1 = cs_set_pending (Some b) (nd_state n);
  pp_stored : blocks n1 = <[Uint32ToBytes proposalKey := b]> (blocks n);
  pp_sent : nd_sent n1 = nd_sent n;
  pp_committed : committed n1 = committed n;
  pp_rest : ∃ d w, n1 = set_world w (set_state (cs_set_pending (Some b) (nd_state n)) (set_blockStore d n));
}.

(** What a certification request leaves: the proposed block is pending, in memory and in the
    store; the signed request for its input record has been sent to [ids]. *)
Record requested n author st (b : Block) (ir : InputRecord) (req : BlockCertificationRequest)
    (ids : list PeerID) n' : Prop := {
  rq_proposes : proposes n author st b ir;
  rq_pending : nd_state n' = cs_set_pending (Some b) (nd_state n);
  rq_stored : blocks n' = <[Uint32ToBytes proposalKey := b]> (blocks n);
  rq_committed : committed n' = committed n;
  rq_sign : ∃ size, Block_Size b = Ok size ∧
    BCR_Sign (conf_signer (nd_conf n))
      (mkBCR (pdr_PartitionID (nd_shardConf n)) (pdr_ShardID (nd_shardConf n)) (peer_String (nd_peerID n))
        (Some ir) size 0 nil_slice) = Ok req;
  rq_sent : nd_sent n' = (MsgCertificationRequest req, ids) :: nd_sent n;
  rq_rest : ∃ d w, n' = set_world w (add_sent (MsgCertificationRequest req) ids
    (set_state (cs_set_pending (Some b) (nd_state n)) (set_blockStore d n)));
}.

Tactic Notation "run_bind" hyp(H) ident(a) ident(n) ident(E) :=
  apply bind_ret_inv in H as (a & n & E & H).

(** Calls that neither send nor commit, however they end. *)
Definition unsent n n' : Prop := nd_sent n' = nd_sent n ∧ committed n' = committed n.
Definition silent {A} (m : NodeM A) : Prop := ∀ n o n', m n = (o, n') → unsent n n'.

#[local] Instance unsent_trans : Transitive unsent.
Proof. intros n1 n2 n3 [] []. split; congruence. Qed.

Lemma silent_bind {A B} (m : NodeM A) (k : A → NodeM B) : silent m → (∀ a, silent (k a)) → silent (m ≫= k).
Proof.
  intros Hm Hk n o n' [(a & n1 & H1 & H2)|[[o1 H] _]]%bind_inv; [|by eapply Hm].
  transitivity n1; [by eapply Hm|by eapply Hk].
Qed.
Lemma silent_wrapM {A} msg (m : NodeM A) : silent m → silent (wrapM msg m).
Proof. intros Hm n o n'. unfold wrapM. destruct (m n) as [o1 n1] eqn:E. apply Hm in E. by destruct o1; intros [= <- <-]. Qed.
Lemma silent_try {A} (m : NodeM A) : silent m → silent (try m).
Proof. intros Hm n o n'. unfold try. destruct (m n) as [o1 n1] eqn:E. apply Hm in E. by destruct o1; intros [= <- <-]. Qed.
Lemma silent_gets {A} (f : Node T W D DC → A) : silent (gets f).
Proof. by intros n o n' [= _ <-]. Qed.
Lemma silent_throw {A} e : silent (throw (A:=A) e).
Proof. by intros n o n' [= _ <-]. Qed.
Lemma silent_mret {A} (a : A) : silent (mret a).
Proof. by intros n o n' [= _ <-]. Qed.
Lemma silent_lift {A} (r : result A) : silent (lift r).
Proof. intros n o n'. by destruct r; intros [= _ <-]. Qed.
Lemma silent_deref {A} (p : option A) : silent (deref p).
Proof. intros n o n'. by destruct p; intros [= _ <-]. Qed.
Lemma silent_of_outcome {A} (o : outcome A) : silent (of_outcome o).
Proof. by intros n o' n' [= _ <-]. Qed.
Lemma silent_world {A} (call : W → A * W) : silent (world call).
Proof. intros n o n'. unfold world. destruct (call _). by intros [= _ <-]. Qed.
Lemma silent_set_cs f : silent (set_cs f).
Proof. by intros n o n' [= _ <-]. Qed.
Lemma silent_blockDB call : silent (blockDB call).
Proof. intros n o n'. unfold blockDB. destruct (call _) as [d [[]|]]; by intros [= _ <-]. Qed.
Lemma silent_revertState : silent revertState.
Proof. intros n o n' [= _ <-]. split; [done|]. apply CommittedUC_Revert. Qed.

(** Solves [silent] for calls built from these. *)
Ltac silence :=
  repeat first
    [ done | apply silent_gets | apply silent_throw | apply silent_mret | apply silent_lift | apply silent_deref | apply silent_of_outcome
    | apply silent_world | apply silent_set_cs | apply silent_blockDB | apply silent_revertState
    | apply silent_wrapM | apply silent_try | apply silent_bind; [|intros ?] | case_match ].

Lemma silent_currentRoundNumber : silent currentRoundNumber.
Proof. unfold currentRoundNumber, latestTR, latestUC, get_state. silence. Qed.
Lemma silent_currentEpoch : silent currentEpoch.
Proof. unfold currentEpoch, latestTR, latestUC, get_state. silence. Qed.
Lemma silent_RootValidators : silent RootValidators.
Proof. unfold RootValidators, trustBase, latestUC, get_state. silence. Qed.

(** The run goes on after the call, or it ends there, and nothing was sent. *)
Tactic Notation "run_silent" hyp(H) ident(a) ident(n) ident(E) :=
  apply bind_inv in H as [(a & n & E & H)|[[?o E] ?Ho]];
  [|left; split; [|assumption];
    match type of E with ?m _ = _ => let Hs := fresh in assert (silent m) as Hs; [|apply Hs in E; exact E] end;
    first [apply silent_currentRoundNumber|apply silent_currentEpoch|apply silent_wrapM, silent_RootValidators|
           unfold latestUC, get_state, committedUC, storePendingProposal; silence]].

(** A call of [sendCertificationRequest] ends without having sent anything, or with the [Send] of
    the request in a state that is [prepared]. *)
Lemma sendCertificationRequest_split author st n o n' :
  sendCertificationRequest author st n = (o, n') →
  (unsent n n' ∧ ∀ x, o ≠ Ret x) ∨
  ∃ b ir req ids n1, prepared n author st b ir req n1 ∧ Send (MsgCertificationRequest req) ids n1 = (o, n').
Proof.
  intros Hrun. unfold sendCertificationRequest in Hrun.
  run_silent Hrun l n0 E. injection E as <- <-.
  run_silent Hrun round n0 E. rewrite currentRoundNumber_run in E. injection E as <- <-.
  run_silent Hrun epoch n0 E. apply currentEpoch_run in E as [-> ->].
  run_silent Hrun u n0 E. unfold deref in E. destruct (luc (nd_state n)) as [u'|] eqn:Hl; [|done]. injection E as <- <-.
  run_silent Hrun seal n0 E. unfold deref in E. destruct (uc_UnicitySeal u') as [sl|] eqn:Hsl; [|done]. injection E as <- <-.
  run_silent Hrun bs n0 E. apply wrapM_run, lift_run in E as [Hm ->].
  run_silent Hrun n0 n1 E. injection E as <- <-. unfold id in Hrun.
  run_silent Hrun c n1 E. injection E as <- <-. fold (committed n) in Hrun.
  destruct (Block_CalculateBlockHash _ _) as [b r] eqn:Hcalc.
  run_silent Hrun ir n1 E. apply wrapM_run, lift_run in E as [-> ->].
  run_silent Hrun stored n1 E. apply try_run in E. destruct stored as [[]|e].
  2: { left. assert (unsent n n1) as Hs1 by (eapply (silent_wrapM _ _ (silent_blockDB _)); exact E).
    split; [transitivity n1; [done|eapply (silent_bind _ _ silent_revertState (fun _ => silent_throw _)); exact Hrun]|].
    by injection Hrun as <- _. }
  apply storePendingProposal_run in E as (d & -> & Hd).
  apply bind_inv in Hrun as [(x & n2 & E & Hrun)|[[o1 E] Ho]]; [|by injection E as <- <-; left]. injection E as <- <-.
  run_silent Hrun size n2 E. apply wrapM_run, lift_run in E as [Hsize ->].
  run_silent Hrun req n2 E. apply wrapM_run, lift_run in E as [Hreq ->].
  run_silent Hrun rv n2 E. apply wrapM_run, RootValidators_run in E as [w ->].
  run_silent Hrun ids n2 E. apply wrapM_run in E. injection E as _ <-.
  right. eexists b, ir, req, ids, _. split; [|exact Hrun].
  split; try done; [|by eauto|by exists d, w]. exists u', sl, bs. by split_and!.
Qed.

Lemma sendCertificationRequest_run author st n n' :
  sendCertificationRequest author st n = (Ret tt, n') →
  ∃ b ir req ids, requested n author st b ir req ids n'.
Proof.
  intros [[_ Ho]|(b & ir & req & ids & n1 & [Hp Hs Hpe Hst Hse Hc (d & w & ->)] & Hrun)]%sendCertificationRequest_split.
  { by destruct (Ho tt). }
  apply Send_run in Hrun as [w' ->]. exists b, ir, req, ids. split; try done; by exists d, w'.
Qed.

(** C24: A certification request asks for exactly the proposed state, and only after it has been
    stored: however [sendCertificationRequest] ends, either nothing was sent, and it did not
    succeed, or its last act is to hand one request to the network, in a state in which the
    block is pending in memory and in the store, nothing has been sent before and nothing is
    committed. The request is signed; its input record has the current round and epoch, the latest
    certificate's state as the previous one, the state summary's values and the time of the
    latest seal, and the hash of the block that extends the committed one. *)
Theorem sendCertificationRequest_correct author st n o n' :
  sendCertificationRequest author st n = (o, n') →
  (nd_sent n' = nd_sent n ∧ committed n' = committed n ∧ o ≠ Ret tt) ∨
  ∃ b ir req ids n1, prepared n author st b ir req n1 ∧ Send (MsgCertificationRequest req) ids n1 = (o, n') ∧
    nd_sent n' = (MsgCertificationRequest req, ids) :: nd_sent n ∧ committed n' = committed n ∧
    blocks n' = <[Uint32ToBytes proposalKey := b]> (blocks n).
Proof.
  intros [[[Hs Hc] Ho]|(b & ir & req & ids & n1 & Hp & Hrun)]%sendCertificationRequest_split; [by left; split_and!|].
  right. exists b, ir, req, ids, n1.
  assert (nd_sent n' = (MsgCertificationRequest req, ids) :: nd_sent n1 ∧ committed n' = committed n1 ∧ blocks n' = blocks n1)
    as (-> & -> & ->).
  { revert Hrun. unfold Send, world, modify, mbind, M_bind. destruct (net_Send _ _ _) as [[[]|] w]; by intros [= _ <-]. }
  rewrite (pp_sent _ _ _ _ _ _ _ Hp), (pp_committed _ _ _ _ _ _ _ Hp), (pp_stored _ _ _ _ _ _ _ Hp). by split_and!.
Qed.

(** Nodes that agree on the certificates, the technical record and the configuration. *)
Record same_view n1 n2 : Prop := {
  sv_luc : luc (nd_state n1) = luc (nd_state n2);
  sv_ltr : ltr (nd_state n1) = ltr (nd_state n2);
  sv_committed : committed n1 = committed n2;
  sv_shardConf : nd_shardConf n1 = nd_shardConf n2;
  sv_hash : conf_hashAlgorithm (nd_conf n1) = conf_hashAlgorithm (nd_conf n2);
}.

Lemma proposes_agree n1 n2 author st b1 ir1 b2 ir2 :
  same_view n1 n2 → proposes n1 author st b1 ir1 → proposes n2 author st b2 ir2 → b1 = b2 ∧ ir1 = ir2.
Proof.
  intros [Hl Ht Hc Hs Hh] (u1 & s1 & x1 & Hu1 & Hs1 & Hm1 & Hb1) (u2 & s2 & x2 & Hu2 & Hs2 & Hm2 & Hb2).
  assert (u1 = u2) as -> by congruence. assert (s1 = s2) as -> by congruence.
  assert (cur_round n1 = cur_round n2) as Hr by (unfold cur_round; by rewrite Ht, Hl).
  assert (cur_epoch n1 = cur_epoch n2) as He by (unfold cur_epoch; by rewrite Ht, Hl).
  rewrite Hr, He in Hm1. assert (x1 = x2) as -> by congruence.
  rewrite Hs, Hc, Hh in Hb1. rewrite Hb1 in Hb2. by injection Hb2.
Qed.

Lemma BCR_Sign_record k x y : BCR_Sign k x = Ok y → bcr_InputRecord y = bcr_InputRecord x.
Proof.
  unfold BCR_Sign. destruct k as [k|]; [|done].
  destruct (BCR_Bytes x); [|done]. simpl. destruct (SignBytes k _); [|done]. by intros [= <-].
Qed.

(** C14: Nodes with the same view ask for the same thing: if two nodes agree on the certificates,
    the technical record and the configuration, and certify the same state for the same author,
    the input records of their requests are equal, whatever else differs between them, so the
    root chain can count them as votes for one record. *)
Theorem certification_requests_agree n1 n2 author st n1' n2' r1 to1 r2 to2 :
  same_view n1 n2 →
  sendCertificationRequest author st n1 = (Ret tt, n1') → sendCertificationRequest author st n2 = (Ret tt, n2') →
  head (nd_sent n1') = Some (MsgCertificationRequest r1, to1) →
  head (nd_sent n2') = Some (MsgCertificationRequest r2, to2) →
  bcr_InputRecord r1 = bcr_InputRecord r2 ∧
  pendingBlockProposal (nd_state n1') = pendingBlockProposal (nd_state n2').
Proof.
  intros Hv Hrun1 Hrun2 Hh1 Hh2.
  destruct (sendCertificationRequest_run _ _ _ _ Hrun1) as (b1 & ir1 & q1 & ids1 & [Hp1 Hst1 _ _ (z1 & _ & Hs1) Hsent1 _]).
  destruct (sendCertificationRequest_run _ _ _ _ Hrun2) as (b2 & ir2 & q2 & ids2 & [Hp2 Hst2 _ _ (z2 & _ & Hs2) Hsent2 _]).
  destruct (proposes_agree _ _ _ _ _ _ _ _ Hv Hp1 Hp2) as [-> ->].
  rewrite Hsent1 in Hh1. rewrite Hsent2 in Hh2. simpl in Hh1, Hh2. injection Hh1 as <- <-. injection Hh2 as <- <-.
  apply BCR_Sign_record in Hs1, Hs2. simpl in Hs1, Hs2. rewrite Hs1, Hs2, Hst1, Hst2. done.
Qed.

Lemma unless_run {S} ok e x (s s' : S) : unless ok e s = (Ret x, s') → ok = true ∧ s' = s.
Proof. destruct ok; by intros [= <-]. Qed.

Lemma trustBase_run e tb n n' : trustBase e n = (Ret tb, n') → ∃ w, n' = set_world w n.
Proof.
  unfold trustBase, world, mbind, M_bind. destruct (trustBase_GetByEpoch _ _) as [[x|] w]; [|done].
  intros [= _ <-]. by exists w.
Qed.

Lemma tx_run {A} (m : M (T * W) A) a n n' :
  tx m n = (Ret a, n') →
  ∃ t w, m (nd_transactionSystem n, nd_world n) = (Ret a, (t, w)) ∧ n' = set_world w (set_tx t n).
Proof. unfold tx. destruct (m _) as [o [t w]]. intros [= -> <-]. eauto. Qed.

(** What a node has checked of a proposal it answers with a certification request: [n1] is the
    node after it has processed the certificate of the proposal. *)
Record accepted n (p : BlockProposal) n1 (sm : Summary) : Prop := {
  ac_good : good n n1;
  ac_status : not_recovering n1;
  ac_valid : ∃ tb, conf_bpValidator (nd_conf n) (Some p) (Some (nd_shardConf n)) tb = Ok tt;
  ac_fresh : GetRootRoundNumber (luc (nd_state n)) <= GetRootRoundNumber (bp_UnicityCertificate p);
  ac_leader : bp_NodeID p = leader (nd_state n1) ∧ bp_NodeID p ≠ ""%string;
  ac_state : ∃ u cur, bp_UnicityCertificate p = Some u ∧ StateSummary (nd_transactionSystem n1) = Ok cur ∧
    (IsInitial u = true ∨ GetStateHash (Some u) ≡ Root cur);
  ac_verified : ∃ t w, FollowerVerify (cur_round n1) (bp_ProposedRoot p)
    (nd_transactionSystem n1, nd_world n1) = (Ret sm, (t, w));
}.

(** The checks after the certificate of the proposal has been processed. *)
Lemma verify_proposal_run p u n1 n' :
  (expectedLeader ← get_state leader;
    unless (negb (String.eqb expectedLeader "" || negb (String.eqb (bp_NodeID p) expectedLeader)))
      (ErrNew "expecting another leader");;
    t ← gets nd_transactionSystem;
    txState ← wrapM "transaction system state error" (lift (StateSummary t));
    unless (negb (negb (IsInitial u) && negb (bytes_Equal (GetStateHash (Some u)) (Root txState))))
      (ErrNew "transaction system start state mismatch error");;
    round ← currentRoundNumber;
    r ← try (tx (FollowerVerify round (bp_ProposedRoot p)));
    match r with
    | Fail e => revertState;; throw (ErrWrap "follower failed to verify proposed block" e)
    | Ok stateSummary =>
        wrapM "certification request send failed"
          (sendCertificationRequest (peer_String (bp_NodeID p)) stateSummary)
    end) n1 = (Ret tt, n') →
  bp_NodeID p = leader (nd_state n1) ∧ bp_NodeID p ≠ ""%string ∧
  ∃ cur sm t w, StateSummary (nd_transactionSystem n1) = Ok cur ∧
    (IsInitial u = true ∨ GetStateHash (Some u) ≡ Root cur) ∧
    FollowerVerify (cur_round n1) (bp_ProposedRoot p) (nd_transactionSystem n1, nd_world n1) = (Ret sm, (t, w)) ∧
    ∃ b ir req ids, requested (set_world w (set_tx t n1)) (peer_String (bp_NodeID p)) sm b ir req ids n'.
Proof.
  intros Hrun. run_bind Hrun l n0 E. injection E as <- <-.
  run_bind Hrun x n0 E. apply unless_run in E as [Hlead%negb_true_iff ->].
  apply orb_false_iff in Hlead as [Hne%String.eqb_neq Heq%negb_false_iff%String.eqb_eq].
  split; [done|]. split; [congruence|].
  run_bind Hrun t n0 E. injection E as <- <-.
  run_bind Hrun cur n0 E. apply wrapM_run, lift_run in E as [Hcur ->].
  run_bind Hrun y n0 E. apply unless_run in E as [Hst%negb_true_iff ->].
  run_bind Hrun round n0 E. rewrite currentRoundNumber_run in E. injection E as <- <-.
  run_bind Hrun r n0 E. apply try_run in E. destruct r as [sm|]; [|by run_bind Hrun z n2 E2].
  apply tx_run in E as (t & w & Hf & ->). apply wrapM_run, sendCertificationRequest_run in Hrun.
  exists cur, sm, t, w. split_and!; try done.
  apply andb_false_iff in Hst as [Hst|Hst]; apply negb_false_iff in Hst; [by left|right].
  by apply bytes_Equal_spec.
Qed.

(** C12: A node votes only for the leader's proposal. If [handleBlockProposal] returns without an
    error, the node is not recovering, the proposal passed its validator, its certificate is
    not older than the latest one the node had, the author is the leader of the round the node
    is in after processing that certificate, the certificate certifies the node's current
    state, the transaction system accepted the proposed root in the current round, and the
    certification request sent is for the state it returned. *)
Theorem handleBlockProposal_votes n p n' :
  Inv n → handleBlockProposal (Some p) n = (Ret tt, n') →
  not_recovering n ∧ ∃ n1 sm, accepted n p n1 sm ∧
    ∃ t w b ir req ids,
      requested (set_world w (set_tx t n1)) (peer_String (bp_NodeID p)) sm b ir req ids n'.
Proof.
  intros Hi Hrun. unfold handleBlockProposal in Hrun.
  run_bind Hrun st n0 E. injection E as <- <-.
  destruct (decide (cs_status (nd_state n) = recovering)) as [Hr|Hr].
  { rewrite bool_decide_eq_true_2 in Hrun by done. by run_bind Hrun x n0 E. }
  rewrite bool_decide_eq_false_2 in Hrun by done. split; [done|].
  run_bind Hrun tb n0 E. apply wrapM_run, trustBase_run in E as [w0 ->].
  set (n0 := set_world w0 n) in *. assert (good n n0) as Hg0 by (apply frame_good; [done|]; by split).
  run_bind Hrun m n2 E. injection E as <- <-. unfold id in Hrun.
  run_bind Hrun x n2 E. apply wrapM_run, lift_run in E as [Hv ->]. destruct x.
  run_bind Hrun u n2 E. unfold deref in E. destruct (bp_UnicityCertificate p) as [u'|] eqn:Hu; [|done]. injection E as <- <-.
  run_bind Hrun ir n2 E. unfold deref in E. destruct (uc_InputRecord u'); [|done]. injection E as <- <-.
  run_bind Hrun l n2 E. injection E as <- <-.
  run_bind Hrun y n2 E. apply unless_run in E as [Hfresh%negb_true_iff%Z.ltb_ge ->].
  run_bind Hrun z n1 E. destruct z.
  assert (good n0 n1 ∧ not_recovering n1) as [Hg1 Hn1].
  { destruct (_ <? _) in E.
    - apply wrapM_run in E.
      destruct (wp_ret_inv _ _ _ _ _ _ (safe_handleUnicityCertificate n0 (Some u') _ (good_inv _ _ Hg0)) E)
        as (? & u'' & _ & Hh). split; [done|]. by apply Hh.
    - injection E as <-. split; [apply good_refl; eauto with node|done]. }
  apply verify_proposal_run in Hrun as (Hl & Hne & cur & sm & t & w & Hcur & Hst & Hf & Hreq).
  exists n1, sm. split; [|by eauto]. split; try done.
  - by eapply good_trans.
  - by exists tb.
  - by rewrite Hu.
  - by exists u', cur.
  - by eauto.
Qed.
End proposals.
