(* ===== verification/Round.v ===== *)
(** * A round in which nothing fails

    The other theorems say what a handler has done when it returns.  Here the handlers are shown
    to do their work: when the environment works and the nodes of a shard have the same view,
    the leader's timeout makes it propose, a follower that gets the proposal votes for the same
    record, and the certificate of that record makes both commit it, after which they have the
    same view again. *)

From Stdlib Require Import ZArith Lia Strings.Byte String.
From stdpp Require Import base list strings option gmap relations.
From S2P Require Import Prelude GoBase BftTypes Summary PowClient TxInterface TxSystem TxTheorems Messages MessageTheorems KVStore ShardConfStore Selector Node NodeOps Handlers NodeInvariant NodeQuiet NodeSafety HandlerSafety NodeSystem Proposals.

Section round.
Context {BT : BftTypes} {BL : BftLib} {ML : MsgLib}.
Context {AL : AccessorLaws BL} {OL : OrderLaws BL} {KL : KeyLaws BL} {VL : VerifyLaws BL} {CL : CborLaws BL} {SH : Shard}.
Context {W D DC : Type} {PC : Client W} {PT : ClientTypes W} {NE : NodeEnv W}.
Context {KVB : KeyValueDB D Block} {KVBL : KeyValueDBLaws D Block}.
Context {KVC : KeyValueDB DC PartitionDescriptionRecord}.
Context {KVCL : KeyValueDBLaws DC PartitionDescriptionRecord}.
#[local] Abbreviation GNode := (Node FGPTxSystem W D DC).
#[local] Abbreviation NodeM := (NodeM (T:=FGPTxSystem) (W:=W) (D:=D) (DC:=DC)).
Implicit Types (n : GNode) (u : UnicityCertificate).

(** The run of [m] ends without an error in a node that satisfies [Q]. *)
Definition succeeds {A} n (m : NodeM A) (Q : A → GNode → Prop) : Prop := wp m Q (fun _ _ => False) n.

Lemma succeeds_ret {A} n (m : NodeM A) Q : succeeds n m Q → ∃ a n', m n = (Ret a, n') ∧ Q a n'.
Proof. unfold succeeds, wp. destruct (m n) as [[a| |] n']; [by eauto|done|done]. Qed.

(** ** An environment that works *)

(** The trust base store has trust bases with root nodes, messages are sent, the databases are
    written to, and the libraries encode, hash and sign what they are given. *)
Record working : Prop := {
  ok_trust epoch (w : W) : ∃ tb rv w',
    trustBase_GetByEpoch epoch w = (Ok tb, w') ∧ decode_ids (RootNodes tb) = Ok rv ∧ rv ≠ [];
  ok_send msg to (w : W) : ∃ w', net_Send msg to w = (Ok tt, w');
  ok_write key v (d : D) : ∃ d', db_Write key v d = (d', Ok tt);
  ok_UC_Hash u : ∃ h, UC_Hash u SHA256 = Ok h;
  ok_Marshal u : ∃ bs, Cbor_Marshal_UC u = Ok bs;
  ok_Calculate alg h u bs : is_Some (uc_InputRecord u) → Cbor_Marshal_UC u = Ok bs →
    ∃ b ir, Block_CalculateBlockHash (mkBlock (Some h) (Some []) bs) alg = (b, Ok ir) ∧
      ∀ ir0, uc_InputRecord u = Some ir0 → ir_Hash ir = ir_Hash ir0;
  ok_InputRecord alg b b' ir : Block_CalculateBlockHash b alg = (b', Ok ir) → Block_InputRecord b' = Ok ir;
  ok_Equal ir : AssertEqualIR ir (Some ir) = Ok tt;
  ok_Size b : ∃ z, Block_Size b = Ok z;
  ok_Hash alg p : ∃ h, BP_Hash alg p = Ok h;
  ok_Bytes r : ∃ bs, BCR_Bytes r = Ok bs;
  ok_SignHash k h : ∃ s, SignHash k h = Ok s;
  ok_SignBytes k bs : ∃ s, SignBytes k bs = Ok s;
}.

Context (OK : working).

Lemma succeeds_trustBase n epoch :
  succeeds n (trustBase epoch) (fun tb n' => trusted tb ∧ ∃ w, n' = set_world w n).
Proof.
  unfold succeeds, trustBase. wp_norm. destruct (ok_trust OK epoch (nd_world n)) as (tb & rv & w' & Ht & _).
  rewrite Ht. split; [by exists epoch, (nd_world n), w'|by exists w'].
Qed.

Lemma succeeds_RootValidators n :
  succeeds n RootValidators (fun rv n' => rv ≠ [] ∧ ∃ w, n' = set_world w n).
Proof.
  unfold succeeds, RootValidators, trustBase. wp_norm.
  destruct (ok_trust OK (GetRootEpoch (luc (nd_state n))) (nd_world n)) as (tb & rv & w' & Ht & Hd & Hne).
  rewrite Ht. simpl. rewrite Hd. split; [done|by exists w'].
Qed.

Lemma succeeds_Send n msg to : succeeds n (Send msg to) (fun _ n' => ∃ w, n' = set_world w (add_sent msg to n)).
Proof.
  unfold succeeds, Send. wp_norm. destruct (ok_send OK msg to (nd_world n)) as [w' Hs].
  change (nd_world (add_sent msg to n)) with (nd_world n). rewrite Hs. by exists w'.
Qed.

(** ** Certification requests *)

Lemma rootNodesSelector_succeeds u rv upTo :
  rv ≠ [] → 0 < upTo → ∃ ids, rootNodesSelector (Some u) rv upTo = Ret ids.
Proof.
  intros Hne Hpos. pose proof (rootNodesSelector_total (Some u) rv upTo Hpos) as Hp. unfold rootNodesSelector in *.
  destruct (ok_UC_Hash OK u) as [h Hh]. rewrite Hh in *.
  destruct (Z.ltb_spec (Z.of_nat (length rv)) 1); [destruct rv; simpl in *; [done|lia]|].
  destruct (Z.eqb_spec upTo 0); [lia|]. destruct (_ <=? upTo); [by eexists|].
  destruct (select_loop _ _ _ _ _ _); [by eexists|done].
Qed.

Lemma currentEpoch_succeeds n u : luc (nd_state n) = Some u → is_Some (uc_InputRecord u) → currentEpoch n = (Ret (cur_epoch n), n).
Proof.
  intros Hl [ir Hir]. unfold currentEpoch, cur_epoch, latestTR, latestUC, get_state, gets, mbind, M_bind.
  destruct (ltr (nd_state n)); [done|]. rewrite Hl. simpl. rewrite Hir. done.
Qed.

Lemma BCR_Sign_succeeds k r : ∃ req, BCR_Sign (Some k) r = Ok req.
Proof.
  unfold BCR_Sign. destruct (ok_Bytes OK r) as [bs ->]. simpl. destruct (ok_SignBytes OK k bs) as [s ->]. by eexists.
Qed.

Lemma request_succeeds n author st u k :
  luc (nd_state n) = Some u → complete_uc u → conf_signer (nd_conf n) = Some k →
  succeeds n (sendCertificationRequest author st) (fun _ n' => ∃ b ir req ids, requested n author st b ir req ids n').
Proof.
  intros Hl [Hir [seal Hseal]] Hk.
  assert (succeeds n (sendCertificationRequest author st) (fun _ _ => True)) as ([] & n' & Hrun & _)%succeeds_ret.
  2: { unfold succeeds, wp. rewrite Hrun. by apply sendCertificationRequest_run. }
  unfold succeeds, sendCertificationRequest. rewrite wp_bind, wp_latestUC, wp_bind. unfold wp at 1.
  rewrite currentRoundNumber_run, wp_bind. unfold wp at 1. rewrite (currentEpoch_succeeds n u Hl Hir).
  rewrite Hl. rewrite wp_bind, wp_deref, wp_bind, wp_deref, Hseal, wp_bind, wp_wrapM, wp_lift.
  set (p := pending_uc _ _ _ _ _). destruct (ok_Marshal OK p) as [bs Hbs]. rewrite Hbs. wp_norm.
  set (h := mkHeader _ _ _ _ _).
  destruct (ok_Calculate OK (conf_hashAlgorithm (nd_conf (id n))) h p bs) as (b & ir & Hb & _); [by eexists|done|].
  rewrite Hb. wp_norm. unfold storePendingProposal. wp_norm.
  destruct (ok_write OK (Uint32ToBytes proposalKey) b (nd_blockStore n)) as [d Hd]. rewrite Hd. cbn [fst snd]. wp_norm.
  destruct (ok_Size OK b) as [z Hz]. rewrite Hz. wp_norm.
  change (nd_conf (id n)) with (nd_conf n). rewrite Hk.
  set (r := mkBCR _ _ _ _ _ _ _). destruct (BCR_Sign_succeeds k r) as [req Hreq]. rewrite Hreq. wp_norm.
  eapply wp_mono; [apply succeeds_RootValidators| |done]. intros rv n1 [Hrv [w ->]]. wp_norm.
  destruct (rootNodesSelector_succeeds u rv defaultNofRootNodes Hrv eq_refl) as [ids Hids]. rewrite Hids.
  eapply wp_mono; [apply succeeds_Send|done|done].
Qed.

(** The record proposed for a summary has its root as the state hash. *)
Lemma proposes_hash n author st b ir : proposes n author st b ir → ir_Hash ir = Root st ∧ Block_InputRecord b = Ok ir.
Proof.
  intros (u & seal & bs & _ & _ & Hbs & Hb).
  set (p := pending_uc _ _ _ _ _) in Hbs. assert (is_Some (uc_InputRecord p)) as Hp by (by eexists).
  match type of Hb with Block_CalculateBlockHash (mkBlock (Some ?h) _ _) ?alg = _ =>
    destruct (ok_Calculate OK alg h p bs Hp Hbs) as (b' & ir' & Hb' & Hh) end.
  rewrite Hb in Hb'. injection Hb' as <- <-. split; [by rewrite (Hh _ eq_refl)|by apply (ok_InputRecord OK _ _ _ _ Hb)].
Qed.

(** ** Votes *)

(** What a vote leaves of a node: the record is requested for the state whose root is pending
    in the transaction system. *)
Record voted n (author : string) (sm : Summary) (b : Block) (ir : InputRecord) n' : Prop := {
  vt_proposes : proposes n author sm b ir;
  vt_tx : ∃ h, nd_transactionSystem n' = set_pending (Root sm) h (nd_transactionSystem n);
  vt_state : nd_state n' = cs_set_pending (Some b) (nd_state n);
  vt_conf : nd_conf n' = nd_conf n;
  vt_shardConf : nd_shardConf n' = nd_shardConf n;
  vt_peer : nd_peerID n' = nd_peerID n;
  vt_request : ∃ req ids, head (nd_sent n') = Some (MsgCertificationRequest req, ids) ∧ bcr_InputRecord req = Some ir;
}.

(** A request made after [sm] has been accepted is a vote. *)
Lemma requested_voted n t author sm b ir req ids n1 n' h :
  t = set_pending (Root sm) h (nd_transactionSystem n) →
  nd_state n1 = nd_state n → nd_conf n1 = nd_conf n → nd_shardConf n1 = nd_shardConf n → nd_peerID n1 = nd_peerID n →
  nd_transactionSystem n1 = t →
  requested n1 author sm b ir req ids n' → voted n author sm b ir n'.
Proof.
  intros Ht Hs Hc Hsh Hp Htx [(u & seal & bs & Hl & Hseal & Hbs & Hb) Hst _ Hcm (z & _ & Hsign) Hsent (d & w' & ->)].
  assert (committed n1 = committed n) as Hcom by (unfold committed; by rewrite Htx, Ht).
  split; simpl in *; try congruence.
  - exists u, seal, bs. unfold cur_round, cur_epoch in *. rewrite Hs, Hc, Hsh, Hcom in *. by split_and!.
  - exists h. congruence.
  - exists req, ids. split; [done|]. by rewrite (BCR_Sign_record _ _ _ Hsign).
Qed.

(** ** The leader *)

Lemma BP_Sign_succeeds alg k p : ∃ p', BP_Sign alg (Some k) p = Ok p'.
Proof.
  unfold BP_Sign. destruct (ok_Hash OK alg p) as [h ->]. simpl. destruct (ok_SignHash OK k h) as [s ->]. by eexists.
Qed.

(** The proposal of a root in the current round, before it is signed. *)
Definition unsigned n (tr : TechnicalRecord) (root : slice) : BlockProposal :=
  mkBlockProposal (pdr_PartitionID (nd_shardConf n)) (pdr_ShardID (nd_shardConf n)) (nd_peerID n)
    (luc (nd_state n)) tr root nil_slice.

Definition other_validators n : list PeerID :=
  List.filter (fun v => negb (String.eqb v (nd_peerID n))) (validator_id <$> pdr_Validators (nd_shardConf n)).

Lemma proposal_succeeds n tr k root :
  ltr (nd_state n) = Some tr → conf_signer (nd_conf n) = Some k →
  succeeds n (sendBlockProposal root) (fun _ n' => ∃ p w,
    BP_Sign (conf_hashAlgorithm (nd_conf n)) (Some k) (unsigned n tr root) = Ok p ∧
    n' = set_world w (add_sent (MsgBlockProposal p) (other_validators n) n)).
Proof.
  intros Ht Hk. unfold succeeds, sendBlockProposal. wp_norm. rewrite Ht. wp_norm.
  unfold id. rewrite Hk. fold (unsigned n tr root).
  destruct (BP_Sign_succeeds (conf_hashAlgorithm (nd_conf n)) k (unsigned n tr root)) as [p Hp]. rewrite Hp. wp_norm.
  unfold FilterValidatorNodes, Validators. wp_norm.
  eapply wp_mono; [apply succeeds_Send| |done]. intros _ n' [w ->]. by eauto.
Qed.

(** The leader's timeout: the proposal is sent to the other validators, then the vote to the
    root nodes. *)
Lemma T1_succeeds n l tr k sm t w :
  not_recovering n → leader (nd_state n) = nd_peerID n → luc (nd_state n) = Some l → complete_uc l →
  ltr (nd_state n) = Some tr → conf_signer (nd_conf n) = Some k → tx_wf (nd_transactionSystem n) →
  fgp_LeaderPropose (cur_round n) (nd_transactionSystem n, nd_world n) = (Ret sm, (t, w)) →
  succeeds n handleT1TimeoutEvent (fun _ n' => ∃ p b ir,
    BP_Sign (conf_hashAlgorithm (nd_conf n)) (Some k) (unsigned n tr (Root sm)) = Ok p ∧
    nd_sent n' !! 1%nat = Some (MsgBlockProposal p, other_validators n) ∧ voted n (peer_String (nd_peerID n)) sm b ir n').
Proof.
  intros Hrec Hlead Hl Hc Htr Hk Hwf Hprop.
  destruct (wp_ret_inv _ _ _ _ _ _ (LeaderPropose_wp _ _ _ Hwf) Hprop)
    as (tip & hFG & cand & tips & root & _ & _ & _ & Ht & Hsm). simpl in Ht.
  unfold succeeds, handleT1TimeoutEvent. rewrite wp_bind, wp_gets. unfold id.
  rewrite bool_decide_eq_false_2 by done. rewrite Hlead, String.eqb_refl. cbn [negb].
  rewrite wp_bind. unfold wp at 1. rewrite currentRoundNumber_run, wp_bind, wp_try, wp_tx.
  unfold wp at 1. cbn [LeaderPropose FGP_TransactionSystem]. rewrite Hprop. cbn [fst snd].
  set (n1 := set_world w (set_tx t n)). rewrite wp_bind, wp_try.
  eapply wp_mono; [apply (proposal_succeeds n1 tr k (Root sm) Htr Hk)| |done]. intros _ n2 (p & w2 & Hp & ->).
  rewrite wp_bind, wp_try. set (n2 := set_world w2 _).
  eapply wp_mono; [apply (request_succeeds n2 _ sm l k Hl Hc Hk)| |done].
  intros _ n3 (b & ir & req & ids & Hreq). wp_norm. exists p, b, ir. split; [done|]. split.
  - destruct (rq_rest _ _ _ _ _ _ _ _ Hreq) as (d & w3 & ->). done.
  - eapply (requested_voted n t _ _ _ _ _ _ n2); try done. rewrite Ht, Hsm. done.
Qed.

(** ** The followers *)

(** A node that has nothing uncommitted, in the round after the certificate [l], whose state is
    the committed one. *)
Record between n (l : UnicityCertificate) (tr : TechnicalRecord) (k : Signer) : Prop := {
  bt_status : cs_status (nd_state n) = normal;
  bt_luc : luc (nd_state n) = Some l;
  bt_ltr : ltr (nd_state n) = Some tr;
  bt_signer : conf_signer (nd_conf n) = Some k;
  bt_tx : tx_wf (nd_transactionSystem n);
  bt_clean : pendingStateHash (nd_transactionSystem n) = nil_slice;
  bt_state : IsInitial l = true ∨ GetStateHash (Some l) ≡ committedStateHash (nd_transactionSystem n);
}.

Lemma vote_succeeds n l tr k p :
  between n l tr k → complete_uc l → bp_UnicityCertificate p = Some l →
  leader (nd_state n) = bp_NodeID p → bp_NodeID p ≠ ""%string →
  (∀ tb, trusted tb → conf_bpValidator (nd_conf n) (Some p) (Some (nd_shardConf n)) tb = Ok tt) →
  (∀ w, ∃ h w', follower_view (nd_transactionSystem n) w (bp_ProposedRoot p) h w') →
  succeeds n (handleBlockProposal (Some p)) (fun _ n' => ∃ b ir,
    voted n (peer_String (bp_NodeID p)) (summary_of (nd_transactionSystem n) (bp_ProposedRoot p)) b ir n').
Proof.
  intros [Hst Hl Htr Hk Hwf Hclean Hstate] Hc Hu Hlead Hne Hvalid Hview.
  unfold succeeds, handleBlockProposal. rewrite wp_bind, wp_get_state, Hst. rewrite bool_decide_eq_false_2 by done.
  rewrite wp_bind, wp_wrapM. eapply wp_mono; [apply succeeds_trustBase| |done]. intros tb n0 [Htb [w0 ->]].
  rewrite wp_bind, wp_gets. unfold id. rewrite wp_bind, wp_wrapM, wp_lift.
  change (nd_conf (set_world w0 n)) with (nd_conf n). change (nd_shardConf (set_world w0 n)) with (nd_shardConf n).
  rewrite (Hvalid tb Htb), Hu. pose proof Hc as [[ir0 Hir0] _].
  rewrite wp_bind, wp_deref, wp_bind, wp_deref, Hir0, wp_bind, wp_latestUC.
  change (luc (nd_state (set_world w0 n))) with (luc (nd_state n)). rewrite Hl, wp_bind, wp_unless, Z.ltb_irrefl. cbn [negb].
  rewrite wp_bind, wp_ret, wp_bind, wp_get_state.
  change (leader (nd_state (set_world w0 n))) with (leader (nd_state n)). rewrite Hlead, String.eqb_refl.
  rewrite wp_bind, wp_unless. rewrite (proj2 (String.eqb_neq _ _) Hne). cbn [negb orb].
  rewrite wp_bind, wp_gets, wp_bind, wp_wrapM, wp_lift. cbn [StateSummary FGP_TransactionSystem]. unfold fgp_StateSummary.
  change (nd_transactionSystem (set_world w0 n)) with (nd_transactionSystem n). rewrite Hclean. cbn [slice_is_nil negb].
  rewrite wp_bind, wp_unless.
  change (Root (summary_of ?s ?h)) with h.
  assert (negb (IsInitial l) && negb (bytes_Equal (GetStateHash (Some l)) (committedStateHash (nd_transactionSystem n))) = false) as ->.
  { destruct Hstate as [->|Hs]; [done|]. rewrite (proj2 (bytes_Equal_spec _ _) Hs). apply andb_false_r. }
  cbn [negb]. rewrite wp_bind. unfold wp at 1. rewrite currentRoundNumber_run, wp_bind, wp_try, wp_tx. unfold wp at 1.
  cbn [FollowerVerify FGP_TransactionSystem]. change (nd_transactionSystem (set_world w0 n)) with (nd_transactionSystem n).
  destruct (Hview (nd_world (set_world w0 n))) as (h & w' & Hv).
  rewrite (FollowerVerify_complete _ _ _ _ _ _ Hwf Hv). cbn [fst snd]. rewrite wp_wrapM.
  set (n1 := set_world w' _).
  eapply wp_mono; [apply (request_succeeds n1 _ _ l k Hl Hc Hk)| |done].
  intros _ n' (b & ir & req & ids & Hreq). exists b, ir.
  by eapply (requested_voted n _ _ _ _ _ _ _ n1).
Qed.

(** ** The certificate *)

(** A certificate for [n], which has seen [l], of the record [ir]: valid, new, and the next one
    after the committed certificate. *)
Record next_certificate n (l u : UnicityCertificate) (ir : InputRecord) : Prop := {
  nx_record : uc_InputRecord u = Some ir;
  nx_valid tb : trusted tb → conf_ucValidator (nd_conf n) (Some u) (Some (nd_shardConf n)) tb = Ok tt;
  nx_check : CheckNonEquivocatingCertificates l u = Ok tt;
  nx_new : IsDuplicate u (Some l) = false;
  nx_repeat : IsRepeat u (Some l) = Ok false;
  nx_successor : IsSuccessor u (committed n) = true;
}.

(** The latest certificate is replaced, and the leader of the next round is known. *)
Lemma updateLUC_succeeds n l u ir tr ld :
  cs_status (nd_state n) = normal → luc (nd_state n) = Some l → complete_uc l →
  next_certificate n l u ir → peer_Decode (tr_Leader tr) = Ok ld →
  succeeds n (updateLUC (Some u) (Some tr)) (fun _ n' => ∃ w ev,
    n' = set_epochChangeEvent ev (set_world w (set_state (cs_set_luc (Some u) (Some tr) ld (nd_state n)) n))).
Proof.
  intros Hst Hl [[irl Hirl] _] [Hir Hv Hcheck Hnew _ _] Hld. unfold succeeds, updateLUC.
  rewrite wp_bind, wp_wrapM. eapply wp_mono; [apply succeeds_trustBase| |done]. intros tb n0 [Htb [w ->]].
  rewrite wp_bind, wp_gets. unfold id. rewrite wp_bind, wp_wrapM, wp_lift.
  change (nd_conf (set_world w n)) with (nd_conf n). change (nd_shardConf (set_world w n)) with (nd_shardConf n).
  rewrite (Hv tb Htb), wp_bind, wp_latestUC, wp_bind, wp_get_state.
  change (nd_state (set_world w n)) with (nd_state n). rewrite Hst, Hl.
  rewrite !bool_decide_eq_false_2 by done. cbn [andb]. unfold printUC. wp_norm. rewrite Hirl. wp_norm. rewrite Hir. wp_norm.
  rewrite Hcheck. wp_norm. rewrite Hnew. cbn [andb]. rewrite wp_bind. unfold wp at 1.
  rewrite (currentEpoch_succeeds (set_world w n) l Hl ltac:(by eexists)). wp_norm. rewrite Hld. wp_norm. unfold currentEpoch. wp_norm.
  cbn [ltr nd_state set_state cs_set_luc]. wp_norm.
  case_match; wp_norm; [by exists w, true|]. by exists w, (nd_epochChangeEvent n).
Qed.

(** The pending proposal is committed and stored with its certificate, and nothing is pending
    any more. *)
Definition commits n u tr ld b n' : Prop :=
  committed n' = Some u ∧
  nd_state n' = cs_set_pending None (cs_set_luc (Some u) (Some tr) ld (nd_state n)) ∧
  nd_conf n' = nd_conf n ∧ nd_shardConf n' = nd_shardConf n ∧ nd_peerID n' = nd_peerID n ∧
  nd_transactionSystem n' = set_pending nil_slice 0 (set_committed (pendingStateHash (nd_transactionSystem n))
    (pendingStateHeight (nd_transactionSystem n)) (Some u) (nd_transactionSystem n)) ∧
  ∃ bs, Cbor_Marshal_UC u = Ok bs ∧ block_at (blocks n') (GetRoundNumber (Some u)) = Some (blk_set_UC bs b).

Lemma startNewRound_succeeds n :
  succeeds n startNewRound (fun _ n' => ∃ d, n' = set_blockStore d (set_state (cs_set_pending None (nd_state n)) n) ∧
    ∀ r, block_at (db_map d) r = block_at (blocks n) r).
Proof.
  unfold succeeds, startNewRound, deletePendingProposal. wp_norm.
  destruct (db_Delete _ _) as [d x] eqn:Hd. cbn [fst snd]. simpl in Hd.
  destruct x; wp_norm; exists d; (split; [done|]); intros r.
  - rewrite (Delete_ok _ _ _ _ Hd). apply block_at_delete_proposal.
  - by rewrite (Delete_err _ _ _ _ Hd).
Qed.

Lemma certificate_succeeds n l u ir tr ld b :
  cs_status (nd_state n) = normal → luc (nd_state n) = Some l → complete_uc l →
  next_certificate n l u ir → peer_Decode (tr_Leader tr) = Ok ld →
  pendingBlockProposal (nd_state n) = Some b → Block_InputRecord b = Ok ir →
  pendingStateHash (nd_transactionSystem n) ≡ ir_Hash ir →
  succeeds n (handleUnicityCertificate (Some u) (Some tr)) (fun _ => commits n u tr ld b).
Proof.
  intros Hst Hl Hc Hnx Hld Hp Hb Hhash. pose proof Hnx as [Hir _ _ Hnew Hrep Hsucc].
  unfold succeeds, handleUnicityCertificate. rewrite wp_bind, wp_latestUC, wp_bind, wp_wrapM.
  eapply wp_mono; [by apply (updateLUC_succeeds n l u ir tr ld)| |done]. intros _ n1 (w & ev & ->).
  rewrite wp_bind, wp_get_state. set (n1 := set_epochChangeEvent _ _).
  change (cs_status (nd_state n1)) with (cs_status (nd_state n)). rewrite Hst, !bool_decide_eq_false_2 by done.
  rewrite wp_bind, wp_ret, wp_bind, wp_deref. unfold act_on_uc. rewrite Hl, Hnew, Hrep. wp_norm.
  change (CommittedUC (nd_transactionSystem n1)) with (committed n). rewrite Hsucc. cbn [negb]. wp_norm.
  change (pendingBlockProposal (nd_state n1)) with (pendingBlockProposal (nd_state n)). rewrite Hp.
  unfold certify_proposal. rewrite Hb, Hir, (ok_Equal OK). destruct (ok_Marshal OK u) as [bs Hbs]. rewrite Hbs. wp_norm.
  unfold finalizeBlock, storeBlock. wp_norm.
  change (cs_status (nd_state (set_state _ n1))) with (cs_status (nd_state n)). rewrite Hst.
  rewrite bool_decide_eq_false_2 by done. cbn [negb]. wp_norm.
  change (nd_blockStore (set_state _ n1)) with (nd_blockStore n).
  destruct (ok_write OK (Uint64ToBytes (GetRoundNumber (Some u))) (blk_set_UC bs b) (nd_blockStore n)) as [d Hd].
  rewrite Hd. cbn [fst snd]. wp_norm. cbn [Commit FGP_TransactionSystem].
  eapply wp_mono; [apply Commit_wp| |].
  - intros _ [t w1] [_ [= -> ->]]. wp_norm. eapply wp_mono; [apply startNewRound_succeeds| |done].
    intros _ n' (d' & -> & Hd'). split_and!; try done. exists bs. split; [done|].
    change (block_at (db_map d') (GetRoundNumber (Some u)) = Some (blk_set_UC bs b)). rewrite Hd'.
    unfold blocks, block_at. simpl. by rewrite (Write_ok _ _ _ _ _ Hd), lookup_insert_eq.
  - intros e [t w1] [Hne _]. exfalso. apply Hne. simpl. by rewrite (GetStateHash_ir _ _ Hir).
Qed.

(** ** The round *)

(** The follower [nf] can check what the leader [nl] signs with [k] and says about [l]. *)
Record recognizes (nf nl : GNode) (l : UnicityCertificate) (tr : TechnicalRecord) (k : Signer) : Prop := {
  rg_validator : conf_bpValidator (nd_conf nf) = DefaultBlockProposalValidator_Validate (conf_hashAlgorithm (nd_conf nf));
  rg_shard : ShardID_Equal (pdr_ShardID (nd_shardConf nf)) (pdr_ShardID (nd_shardConf nf)) = true;
  rg_signer : ∃ ni v, PDR_FindValidator (nd_shardConf nf) (peer_String (nd_peerID nl)) = Some ni ∧
    NodeInfo_SigVerifier ni = Ok v ∧ verifies_hash k v;
  rg_certificate tb : trusted tb → UC_Verify (Some l) tb (conf_hashAlgorithm (nd_conf nf))
    (pdr_PartitionID (nd_shardConf nf)) (pdr_ShardID (nd_shardConf nf)) nil_slice = Ok tt;
  rg_technical : TR_IsValid tr = Ok tt ∧ HashMatches tr (uc_TRHash l) = Ok tt;
}.

Lemma recognized (nf nl : GNode) l tr k root p :
  recognizes nf nl l tr k → same_view nl nf → nd_peerID nl ≠ ""%string → luc (nd_state nl) = Some l →
  BP_Sign (conf_hashAlgorithm (nd_conf nl)) (Some k) (unsigned nl tr root) = Ok p →
  bp_UnicityCertificate p = Some l ∧ bp_NodeID p = nd_peerID nl ∧ bp_ProposedRoot p = root ∧
  ∀ tb, trusted tb → conf_bpValidator (nd_conf nf) (Some p) (Some (nd_shardConf nf)) tb = Ok tt.
Proof.
  intros [Hv Hs (ni & v & Hni & Hver & Hk) Hcert [Htr Hh]] [_ _ _ Hsh Halg] Hne Hl Hsign.
  pose proof Hsign as (? & h & sig & _ & _ & _ & Hp)%BP_Sign_spec.
  split_and!; [by rewrite Hp|by rewrite Hp|by rewrite Hp|]. intros tb Htb. rewrite Hv. rewrite Halg in Hsign.
  refine (BP_Sign_valid (unsigned nl tr root) _ tb (nd_shardConf nf) _ k v ni Hk _ _ Hne Hni Hver _ Htr _ Hsign); simpl.
  - by rewrite Hsh.
  - by rewrite Hsh.
  - rewrite Hl. by apply Hcert.
  - unfold bp_TRHash. simpl. by rewrite Hl.
Qed.

(** The vote of a node is for [ir]. *)
Definition votes_for (ir : InputRecord) n : Prop :=
  ∃ req ids, head (nd_sent n) = Some (MsgCertificationRequest req, ids) ∧ bcr_InputRecord req = Some ir.

(** The certificate of the record a node voted for is committed. *)
Lemma voted_commits n l tr0 k author sm b ir n1 u tr ld :
  between n l tr0 k → complete_uc l → voted n author sm b ir n1 →
  next_certificate n l u ir → peer_Decode (tr_Leader tr) = Ok ld →
  ∃ n2, handleUnicityCertificate (Some u) (Some tr) n1 = (Ret tt, n2) ∧ commits n1 u tr ld b n2 ∧ between n2 u tr k.
Proof.
  intros [Hst Hl Htr Hk Hwf _ _] Hc [Hpr [h Ht] Hs Hcf Hsh _ _] [Hir Hv Hch Hnew Hrep Hsucc] Hld.
  destruct (proposes_hash _ _ _ _ _ Hpr) as [Hhash Hrec].
  assert (committed n1 = committed n) as Hcom by (unfold committed; by rewrite Ht).
  assert (succeeds n1 (handleUnicityCertificate (Some u) (Some tr)) (fun _ => commits n1 u tr ld b)) as ([] & n2 & Hrun & Hcm)%succeeds_ret.
  { apply (certificate_succeeds n1 l u ir tr ld b); rewrite ?Hs; try done.
    - split; rewrite ?Hcf, ?Hsh, ?Hcom; done.
    - rewrite Ht, Hhash. done. }
  exists n2. split; [done|]. split; [done|]. destruct Hcm as (_ & Hs2 & Hcf2 & _ & _ & Ht2 & _).
  assert (pendingStateHash (nd_transactionSystem n1) ≡ GetStateHash (Some u)) as Hq
    by (rewrite Ht, (GetStateHash_ir _ _ Hir), Hhash; done).
  split; rewrite ?Hs2, ?Hs, ?Hcf2, ?Hcf, ?Ht2; try done.
  - apply set_pending_wf, set_committed_wf; [rewrite Ht; by apply set_pending_wf|done].
  - right. done.
Qed.

(** The nodes [n] and [n'] have committed the certificate [u], store the same block for it, and
    are ready for the next round, which [ld] leads. *)
Record committed_together (n n' : GNode) u tr (ld : PeerID) (k k' : Signer) : Prop := {
  ct_committed : committed n = Some u;
  ct_view : same_view n n';
  ct_block : is_Some (block_at (blocks n) (GetRoundNumber (Some u)));
  ct_same_block : block_at (blocks n') (GetRoundNumber (Some u)) = block_at (blocks n) (GetRoundNumber (Some u));
  ct_leader : leader (nd_state n) = ld ∧ leader (nd_state n') = ld;
  ct_between : between n u tr k ∧ between n' u tr k';
}.

Lemma commits_together (nl nf nl1 nf1 nl2 nf2 : GNode) u tr ld k k' b :
  same_view nl nf →
  nd_conf nl1 = nd_conf nl → nd_conf nf1 = nd_conf nf →
  nd_shardConf nl1 = nd_shardConf nl → nd_shardConf nf1 = nd_shardConf nf →
  commits nl1 u tr ld b nl2 → commits nf1 u tr ld b nf2 → between nl2 u tr k → between nf2 u tr k' →
  committed_together nl2 nf2 u tr ld k k'.
Proof.
  intros [_ _ _ Hsh Halg] Hc Hc' Hs Hs' (Hcm & Hst & Hcf & Hsc & _ & _ & bs & Hbs & Hbl)
    (Hcm' & Hst' & Hcf' & Hsc' & _ & _ & bs' & Hbs' & Hbl') Hb Hb'.
  assert (bs' = bs) as -> by congruence.
  split; [done| |by eexists|congruence|by rewrite Hst, Hst'|done]. split; [by rewrite Hst, Hst'|by rewrite Hst, Hst'|congruence..].
Qed.

(** A follower of [nl] for a round in which [sm] is proposed: it has the leader's view, knows that
    [nl] leads, recognizes its messages, and its PoW node confirms the proposed block. *)
Record follows (nf nl : GNode) (l : UnicityCertificate) (tr : TechnicalRecord) (k kf : Signer) (sm : Summary) : Prop := {
  fo_between : between nf l tr kf;
  fo_view : same_view nl nf;
  fo_leader : leader (nd_state nf) = nd_peerID nl;
  fo_recognizes : recognizes nf nl l tr k;
  fo_confirms w : ∃ h w', follower_view (nd_transactionSystem nf) w (Root sm) h w';
}.

(** Both sides summarize a proposed root in the same way. *)
Lemma follower_summary (nl nf : GNode) r sm t w :
  tx_wf (nd_transactionSystem nl) → tx_wf (nd_transactionSystem nf) →
  fgp_LeaderPropose r (nd_transactionSystem nl, nd_world nl) = (Ret sm, (t, w)) →
  summary_of (nd_transactionSystem nf) (Root sm) = sm.
Proof.
  intros Hwf Hwf' Hprop.
  destruct (wp_ret_inv _ _ _ _ _ _ (LeaderPropose_wp _ _ _ Hwf) Hprop) as (? & ? & ? & ? & root & _ & _ & _ & _ & ->).
  destruct Hwf as [_ Hv1 Hf1 He1 _], Hwf' as [_ Hv2 Hf2 He2 _].
  unfold summary_of. by rewrite Hv1, Hf1, He1, Hv2, Hf2, He2.
Qed.

(** C5: A round in which nothing fails, for the whole shard. [nl] leads, the environment works,
    and the leader's PoW node has a candidate for it to propose. Then the leader's timeout sends
    a proposal to the other validators and a vote to the root nodes, for a record whose state
    is the candidate. Every node that follows the leader votes for the same record when it gets
    the proposal. When the root chain certifies that record as the successor of what is
    committed, the leader and every follower commit it, store the same block with it, know the
    leader of the next round, and are between rounds with the same view again. *)
Theorem fault_free_round (nl : GNode) l tr k sm t w :
  between nl l tr k → complete_uc l → nd_peerID nl ≠ ""%string → leader (nd_state nl) = nd_peerID nl →
  fgp_LeaderPropose (cur_round nl) (nd_transactionSystem nl, nd_world nl) = (Ret sm, (t, w)) →
  ∃ p ir nl1,
    handleT1TimeoutEvent nl = (Ret tt, nl1) ∧
    nd_sent nl1 !! 1%nat = Some (MsgBlockProposal p, other_validators nl) ∧
    ir_Hash ir = Root sm ∧ votes_for ir nl1 ∧
    ∀ (nf : GNode) kf, follows nf nl l tr k kf sm → ∃ nf1,
      handleBlockProposal (Some p) nf = (Ret tt, nf1) ∧ votes_for ir nf1 ∧
      ∀ u tr' ld, next_certificate nl l u ir → next_certificate nf l u ir → peer_Decode (tr_Leader tr') = Ok ld →
        ∃ nl2 nf2, handleUnicityCertificate (Some u) (Some tr') nl1 = (Ret tt, nl2) ∧
          handleUnicityCertificate (Some u) (Some tr') nf1 = (Ret tt, nf2) ∧
          committed_together nl2 nf2 u tr' ld k kf.
Proof.
  intros Hl Hc Hne Hlead Hprop. pose proof Hl as [Hst Hluc Hltr Hk Hwf _ _].
  assert (not_recovering nl) as Hnr by (unfold not_recovering; by rewrite Hst).
  destruct (succeeds_ret _ _ _ (T1_succeeds nl l tr k sm t w Hnr Hlead Hluc Hc Hltr Hk Hwf Hprop))
    as ([] & nl1 & Hrun1 & p & b & ir & Hsign & Hsent & Hvl).
  exists p, ir, nl1. split_and!; try done.
  { by destruct (proposes_hash _ _ _ _ _ (vt_proposes _ _ _ _ _ _ Hvl)). }
  { exact (vt_request _ _ _ _ _ _ Hvl). }
  intros nf kf [Hf Hview Hfollow Hrec Hconf].
  destruct (recognized nf nl l tr k (Root sm) p Hrec Hview Hne Hluc Hsign) as (Hpu & Hpn & Hpr & Hvalid).
  destruct (succeeds_ret nf (handleBlockProposal (Some p)) _ (vote_succeeds nf l tr kf p Hf Hc Hpu
    ltac:(congruence) ltac:(congruence) Hvalid ltac:(by rewrite Hpr))) as ([] & nf1 & Hrun2 & b' & ir' & Hvf).
  rewrite Hpr, (follower_summary nl nf _ sm t w Hwf (bt_tx _ _ _ _ Hf) Hprop), Hpn in Hvf.
  destruct (proposes_agree _ _ _ _ _ _ _ _ Hview (vt_proposes _ _ _ _ _ _ Hvl) (vt_proposes _ _ _ _ _ _ Hvf)) as [<- <-].
  exists nf1. split_and!; [done|exact (vt_request _ _ _ _ _ _ Hvf)|].
  intros u tr' ld Hn Hn' Hld.
  destruct (voted_commits _ _ _ _ _ _ _ _ _ u tr' ld Hl Hc Hvl Hn Hld) as (nl2 & Hr2 & Hcm2 & Hb2).
  destruct (voted_commits _ _ _ _ _ _ _ _ _ u tr' ld Hf Hc Hvf Hn' Hld) as (nf2 & Hr2' & Hcm2' & Hb2').
  exists nl2, nf2. split_and!; [done|done|].
  eapply commits_together; [exact Hview|..]; first [eassumption|apply Hvl|apply Hvf].
Qed.
End round.
