(* ===== verification/NodeModel.v ===== *)
(** * A concrete node

    A world, a message codec and a node to run the code on: a fixed PoW chain, a clock that
    ticks at every reading, a network that delivers, one trust base.  The node is a validator
    of a shard with two validators and uses the default validators of its messages.  The runs
    are used to apply the theorems to; they also show that the hypotheses of the theorems hold
    together. *)

From Stdlib Require Import ZArith Lia Strings.Byte String.
From stdpp Require Import base list strings option gmap relations.
From S2P Require Import Prelude GoBase BftTypes BftModel Summary PowClient TxInterface TxSystem TxTheorems Messages KVStore ShardConfStore Selector Node NodeOps Handlers NodeInit NodeInvariant NodeQuiet NodeSafety HandlerSafety NodeSystem T1Timer NodeStart.

#[local] Existing Instances ModelTypes ModelLib ModelAccessorLaws ModelOrderLaws ModelVerifyLaws ModelKeyLaws ModelCborLaws.

#[local] Instance ModelMsg : MsgLib := {|
  abhash_TechnicalRecord _ tr := Ok (Bytes (be_encode 8 (tr_Round tr)));
  abhash_BlockProposal _ p := Ok (bp_ProposedRoot p);
  Cbor_Marshal_BCR r := Ok (Bytes (be_encode 8 (IRRound (Some r))));
|}.

Record ModelWorld := mkModelWorld { mw_chain : FixedChain; mw_time : Z; mw_trust : list NodeInfo }.

Definition on_chain {A} (f : FixedChain → result A * FixedChain) (w : ModelWorld) : result A * ModelWorld :=
  let '(r, c) := f (mw_chain w) in (r, mkModelWorld c (mw_time w) (mw_trust w)).

#[local] Instance ModelClient : Client ModelWorld := {|
  GetTip := on_chain GetTip;
  GetBlockHeaderByHash h := on_chain (GetBlockHeaderByHash h);
  GetBlockHeaderByHeight h := on_chain (GetBlockHeaderByHeight h);
  GetChainTips := on_chain GetChainTips;
|}.

#[local] Instance ModelRand : Rand ModelWorld.
Proof. refine {| rand_Intn n w := (0, w) |}. intros n w Hn. simpl. lia. Defined.

#[local] Instance ModelEnv : NodeEnv ModelWorld := {|
  net_Send _ _ w := (Ok tt, w);
  time_Now w := (mw_time w, mkModelWorld (mw_chain w) (mw_time w + 1) (mw_trust w));
  uuid_New w := ([x01], w);
  util_ShuffleSliceCopy l w := (l, w);
  trustBase_GetByEpoch _ w := (Ok (mw_trust w), w);
  ctx_Done w := (false, w);
  env_Rand := ModelRand;
|}.

Abbreviation ModelNode := (Node FGPTxSystem ModelWorld (MemDB Block) (MemDB PartitionDescriptionRecord)).

(** ** The shard, the PoW chain and the configuration *)

Definition m_conf : PartitionDescriptionRecord :=
  mkPDR 3 3 3 0 2500 0 1 [mkNodeInfo "A" nil_slice 7; mkNodeInfo "B" nil_slice 8]
    {[ "dFG"%string := "6"%string ]}.

Definition m_header (hash : string) (confirmations height : Z) : BlockHeader :=
  mkBlockHeader hash confirmations height 1 "" 0 0 0 "" "" "" "" "".

Definition m_chain : FixedChain :=
  mkFixedChain (Ok (m_header "aa" 1 10)) [m_header "aa" 1 10; m_header "bb" 6 5] (Ok [mkChainTip 10 "aa" 0 "active"]).

Definition m_world : ModelWorld := mkModelWorld m_chain 0 [mkNodeInfo "R" nil_slice 1].

Definition m_tx : FGPTxSystem :=
  mkFGPTxSystem m_conf 6 nil_slice 0 nil_slice 0 None (Bytes []) 0 nil_slice.

Definition m_nodeconf : NodeConf :=
  mkNodeConf (Some 7 : option Signer) SHA256 (DefaultUnicityCertificateValidator_Validate SHA256)
    (DefaultBlockProposalValidator_Validate SHA256) 100 (mkReplicationConfig 10 10 2 1500).

Definition m_scs : ShardConfStore (MemDB PartitionDescriptionRecord) :=
  mkShardConfStore {[ epochToKey 0 := m_conf ]} ∅.

(** ** A run: start, first certificate, T1 timeout, certification of the proposal *)

Definition m_new : ModelNode := new_node m_nodeconf m_tx ∅ m_scs "A"%string m_conf m_world.
Definition m_start : ModelNode := (NewNode_init m_new).2.

Definition m_tr (round : Z) : TechnicalRecord := mkTR round 0 "A" (Bytes [x01]) (Bytes [x01]).
Definition m_uc (root next : Z) (ir : InputRecord) : UnicityCertificate :=
  mkUC 1 (Some ir) (Bytes (be_encode 8 next)) nil_slice (tt : ShardTreeCertificate)
    (Some 3 : option UnicityTreeCertificate) (Some (mkSeal 1 1 root 77 nil_slice nil_slice)).

(** The initial certificate, of round 0, names "A" the leader of round 1. *)
Definition m_uc0 : UnicityCertificate := m_uc 1 1 m_ir0.
Definition m_event0 : loop_event :=
  EvMessage (Some (RcvCertificationResponse (Some (mkCR 3 (0 : ShardID) (m_tr 1) m_uc0)))).

Definition m_after (ev : loop_event) (n : ModelNode) : ModelNode := (loop_iteration ev (0, 0) n).2.

Definition m_leader : ModelNode := m_after m_event0 m_start.
Definition m_fire (a : timer_action) (n : ModelNode) : ModelNode :=
  set_timer (default (nd_timer n) (timer_act 0 a (nd_timer n))) n.
Definition m_fired : ModelNode := m_fire SendsEvent (m_fire TimeoutPasses m_leader).
Definition m_proposed : ModelNode := m_after EvT1 m_fired.

(** The certificate of the proposal. *)
Definition m_uc1 : UnicityCertificate := m_uc 2 2 m_ir1.
Definition m_event1 : loop_event :=
  EvMessage (Some (RcvCertificationResponse (Some (mkCR 3 (0 : ShardID) (m_tr 2) m_uc1)))).
Definition m_committed : ModelNode := m_after m_event1 m_proposed.

Definition m_loop1 : outcome (Z * Z) := (loop_iteration m_event1 (0, 0) m_proposed).1.
Definition m_last : Z * Z := match m_loop1 with Ret l => l | _ => (0, 0) end.

#[local] Instance ModelShard : Shard := {| our_partition := 3; our_shard := 0 : ShardID |}.

Lemma m_genuine {W} {NE : NodeEnv W} (tb : TrustBase) root next ir :
  trusted (W:=W) tb → ir = m_ir0 ∨ ir = m_ir1 → genuine (W:=W) (m_uc root next ir).
Proof. intros Ht Hir. exists tb, 0, nil_slice, tt. split; [done|]. by destruct Hir as [->| ->]. Qed.

Lemma m_trusted : trusted (W:=ModelWorld) (mw_trust m_world).
Proof. by exists 0, m_world, m_world. Qed.

Lemma m_conf_ok : conf_ok m_nodeconf.
Proof. by apply default_validators_ok. Qed.

Lemma m_scs_coherent : coherent m_scs.
Proof. intros e c. simpl. by rewrite lookup_empty. Qed.

Lemma m_scs_keys : epoch_keys m_scs.
Proof.
  intros k [c Hk]. simpl in Hk. apply lookup_singleton_Some in Hk as [<- _]. exists 0. split; [|done].
  unfold is_u64, maxUint64. lia.
Qed.

Lemma m_scs_shard : confs_of_shard m_scs.
Proof. intros k c Hk. simpl in Hk. by apply lookup_singleton_Some in Hk as [_ <-]. Qed.

(** A node of the shard, with the identifier [id] and the block store [db], just started. *)
Definition m_node (id : PeerID) (db : MemDB Block) : ModelNode :=
  new_node m_nodeconf m_tx db m_scs id m_conf m_world.

Lemma m_empty_store : blocks_ok (db_map (∅ : MemDB Block)).
Proof. intros k b Hk. simpl in Hk. by rewrite lookup_empty in Hk. Qed.
Lemma m_empty_last : last_is_block (∅ : MemDB Block).
Proof. by intros k v [=]. Qed.

Lemma m_node_start id n :
  id ≠ ""%string → NewNode_init (m_node id ∅) = (Ret tt, n) → Inv n ∧ T1_ready n.
Proof.
  intros Hid Hn.
  pose proof (NewNode_init_wp m_nodeconf m_tx ∅ m_scs id m_conf m_world m_conf_ok eq_refl Hid
    m_scs_coherent m_scs_keys m_scs_shard m_empty_store m_empty_last) as Hwp.
  apply (wp_ret_inv _ _ _ _ _ _ Hwp) in Hn as (? & ? & _). done.
Qed.

Lemma m_start_ok : Inv m_start ∧ T1_ready m_start.
Proof. refine (m_node_start "A" m_start _ _); [done|]. refine (pair_fst (NewNode_init m_new) _ _). vm_compute. reflexivity. Qed.

(** The run, step by step. *)
Lemma m_loop_step ev n last last' :
  enabled ev n = true → deliverable_event ev → (loop_iteration ev last n).1 = Ret last' →
  sys_step (n, last) ((loop_iteration ev last n).2, last').
Proof. intros He Hd Hl. apply (sys_loop ev); [done|done|by apply pair_fst]. Qed.

Lemma m_timer_step a n last :
  is_Some (timer_act 0 a (nd_timer n)) → sys_step (n, last) (m_fire a n, last).
Proof. intros [t Ht]. apply (sys_timer 0 a). unfold m_fire. by rewrite Ht. Qed.

Lemma m_run_leader : rtc sys_step (m_start, (0, 0)) (m_leader, (0, 0)).
Proof.
  apply rtc_once. refine (m_loop_step m_event0 m_start (0, 0) (0, 0) _ _ _); [done| |].
  - by intros m [= <-].
  - vm_compute. reflexivity.
Qed.

Lemma m_run_proposed : rtc sys_step (m_leader, (0, 0)) (m_proposed, (0, 0)).
Proof.
  apply (rtc_l _ _ (m_fire TimeoutPasses m_leader, (0, 0))).
  { apply m_timer_step. vm_compute. by eexists. }
  apply (rtc_l _ _ (m_fired, (0, 0))).
  { apply m_timer_step. vm_compute. by eexists. }
  apply rtc_once. refine (m_loop_step EvT1 m_fired (0, 0) (0, 0) _ _ _).
  - vm_compute. reflexivity.
  - by intros m.
  - vm_compute. reflexivity.
Qed.

Lemma m_run_committed : rtc sys_step (m_proposed, (0, 0)) (m_committed, m_last).
Proof.
  apply rtc_once. refine (m_loop_step m_event1 m_proposed (0, 0) m_last _ _ _); [done| |].
  - by intros m [= <-].
  - vm_compute. reflexivity.
Qed.

Lemma m_run : rtc sys_step (m_start, (0, 0)) (m_committed, m_last).
Proof. exact (transitivity m_run_leader (transitivity m_run_proposed m_run_committed)). Qed.

Lemma m_inv l n : rtc sys_step (m_start, (0, 0)) (n, l) → Inv n.
Proof. intros Hr. apply (good_inv m_start), (run_good _ _ Hr), m_start_ok. Qed.

Lemma m_leader_inv : Inv m_leader.
Proof. eapply m_inv, m_run_leader. Qed.
Lemma m_proposed_inv : Inv m_proposed.
Proof. exact (m_inv _ _ (transitivity m_run_leader m_run_proposed)). Qed.
Lemma m_committed_inv : Inv m_committed.
Proof. eapply m_inv, m_run. Qed.
