(* ===== verification/NodeExamples.v ===== *)
(** * The theorems on concrete runs

    Each lemma applies the theorem it is named after to the node of NodeModel.v. *)

From Stdlib Require Import ZArith Lia Strings.Byte String.
From stdpp Require Import base list strings option gmap relations.
From S2P Require Import Prelude GoBase BftTypes BftModel Summary PowClient TxInterface TxSystem TxTheorems Messages KVStore ShardConfStore Selector Node NodeOps Handlers NodeInit NodeInvariant NodeQuiet NodeSafety HandlerSafety NodeSystem T1Timer NodeStart CommandLine Process Replication Behaviour Proposals NodeModel.

#[local] Existing Instances ModelTypes ModelLib ModelAccessorLaws ModelOrderLaws ModelVerifyLaws ModelKeyLaws ModelCborLaws ModelShard ModelMsg ModelClient ModelEnv.

(** ** Runs *)

Lemma m_event0_deliverable : deliverable_event m_event0.
Proof. by intros m [= <-]. Qed.

Lemma loop_never_stops_witness :
  ∃ last' n', loop_iteration m_event0 (0, 0) m_start = (Ret last', n') ∧ Inv n'.
Proof. exact (loop_never_stops m_event0 (0, 0) m_start (proj1 m_start_ok) m_event0_deliverable). Defined.

(** The node gets the initial certificate, then the signal. *)
Definition m_running : Process := set_pr_node m_leader (0, 0) (Run_start m_start (0, 0)).
Definition m_signalled : Process := set_pr_cause (quitSignalContext "interrupt") m_running.

Lemma m_process : rtc process_step (Run_start m_start (0, 0)) m_signalled.
Proof.
  eapply rtc_l; [|apply rtc_once, (ps_signal "interrupt" m_running); reflexivity].
  refine (ps_loop m_event0 (0, 0) m_leader (Run_start m_start (0, 0)) eq_refl eq_refl m_event0_deliverable _).
  refine (pair_fst (loop_iteration m_event0 (0, 0) m_start) _ _). vm_compute. reflexivity.
Qed.

Lemma process_ends_witness :
  ∃ p, rtc process_step m_signalled p ∧ finished p ∧ pr_node p = m_leader ∧ exit_code (pr_err p) (pr_cause p) = 0.
Proof.
  pose proof (process_ends m_start (0, 0) m_signalled (proj1 m_start_ok) m_process) as (_ & _ & _ & Hend).
  exact (Hend ltac:(eexists; reflexivity)).
Defined.

Lemma reachable_invariant_witness : Inv m_committed.
Proof. exact (reachable_invariant (m_start, (0, 0)) (m_committed, m_last) (proj1 m_start_ok) m_run). Defined.

Lemma committed_blocks_available_witness :
  ∃ b u, block_at (blocks m_committed) 1 = Some b ∧ getUCv1 (Some b) = Ok u ∧ GetRoundNumber (Some u) = 1.
Proof.
  apply (committed_blocks_available (m_start, (0, 0)) (m_committed, m_last) 1 (proj1 m_start_ok) m_run).
  vm_compute. split; [reflexivity|discriminate].
Defined.

Lemma committed_history_final_witness :
  chain (blocks m_committed) (committed m_start) (committed m_committed).
Proof.
  exact (proj1 (committed_history_final (m_start, (0, 0)) (m_committed, m_last) (proj1 m_start_ok) m_run)).
Defined.

Lemma latest_certificate_monotone_witness :
  GetRootRoundNumber (luc (nd_state m_start)) <= GetRootRoundNumber (luc (nd_state m_committed)) ∧
  GetRootRoundNumber (committed m_committed) <= GetRootRoundNumber (luc (nd_state m_committed)).
Proof.
  exact (latest_certificate_monotone (m_start, (0, 0)) (m_committed, m_last) (proj1 m_start_ok) m_run).
Defined.

(** ** The timer *)

Lemma ensureT1TimerState_post_witness :
  ∃ t, ensureT1TimerState m_leader = (Ret tt, set_timer t m_leader) ∧
    timer_isRunning t = should_run m_leader ∧ timer_ok t ∧
    (should_run m_leader = true → armed t ∧ (timer_isRunning (nd_timer m_leader) = true → t = nd_timer m_leader)).
Proof. exact (ensureT1TimerState_post m_leader (inv_timer _ m_leader_inv)). Defined.

Lemma T1_stays_armed_witness : should_run m_committed = true ∧ armed (nd_timer m_committed).
Proof.
  split; [vm_compute; reflexivity|].
  apply (T1_stays_armed (m_start, (0, 0)) (m_committed, m_last) (proj1 m_start_ok) (proj2 m_start_ok) m_run).
  vm_compute. reflexivity.
Defined.

Lemma T1_timeout_lost_witness :
  ∃ t1 t2 t3, timer_act 0 TimeoutPasses (nd_timer m_leader) = Some t1 ∧
    ensureT1TimerState (set_timer t1 m_leader) = (Ret tt, set_timer t2 m_leader) ∧
    timer_act 0 SeesCancel t2 = Some t3 ∧
    timer_event t3 = false ∧ timer_goroutines t3 !! 0%nat = Some (mkTimerGoroutine TDone true).
Proof.
  apply (T1_timeout_lost m_leader 0 (inv_timer _ m_leader_inv)); vm_compute; reflexivity.
Defined.

(** ** The start of a node *)

(** A node that stopped after its first certification request: only the proposal is stored. *)
Definition m_pending : Block := default (mkBlock None None nil_slice) (pendingBlockProposal (nd_state m_proposed)).
Definition m_pending_uc : UnicityCertificate :=
  match getUCv1 (Some m_pending) with Ok u => u | Fail _ => m_uc0 end.
Definition m_crashed : ModelNode := m_node "A"%string {[ Uint32ToBytes proposalKey := m_pending ]}.

Lemma initState_restores_uncertified_witness :
  uc_UnicitySeal m_pending_uc = None ∧ blocks m_proposed = {[ Uint32ToBytes proposalKey := m_pending ]} ∧
  ∃ n', initState m_crashed = (Ret tt, n') ∧ committed n' = Some m_pending_uc ∧
    fuc (nd_state n') = Some m_pending_uc ∧ luc (nd_state n') = Some m_pending_uc.
Proof.
  split; [vm_compute; reflexivity|]. split; [vm_compute; reflexivity|].
  exists (initState m_crashed).2.
  assert (initState m_crashed = (Ret tt, (initState m_crashed).2)) as Hrun
    by (refine (pair_fst (initState m_crashed) _ _); vm_compute; reflexivity).
  split; [exact Hrun|].
  apply (initState_restores_uncertified m_crashed _ m_pending m_pending_uc).
  - exact m_scs_coherent.
  - reflexivity.
  - reflexivity.
  - vm_compute. reflexivity.
  - vm_compute. by eexists.
  - exact Hrun.
Defined.
