(* ===== verification/HandlerExamples.v ===== *)
(** * The handlers on concrete runs

    Each lemma applies the theorem it is named after to the nodes of NodeModel.v and to a
    second validator of the same shard. *)

From Stdlib Require Import ZArith Lia Strings.Byte String.
From stdpp Require Import base list strings option gmap relations.
From S2P Require Import Prelude GoBase BftTypes BftModel Summary PowClient TxInterface TxSystem TxTheorems Messages KVStore ShardConfStore Selector Node NodeOps Handlers NodeInit NodeInvariant NodeQuiet NodeSafety HandlerSafety NodeSystem T1Timer NodeStart Replication Behaviour Proposals NodeModel.

#[local] Existing Instances ModelTypes ModelLib ModelAccessorLaws ModelOrderLaws ModelVerifyLaws ModelKeyLaws ModelCborLaws ModelShard ModelMsg ModelClient ModelEnv.

(** ** The second validator, "B" *)

Definition b_start : ModelNode := (NewNode_init (m_node "B" ∅)).2.
(** after the initial certificate: a follower of round 1 *)
Definition b_follower : ModelNode := m_after m_event0 b_start.
(** after a certificate for which it saw no proposal: recovering *)
Definition b_recovering : ModelNode := m_after m_event1 b_start.

Lemma b_start_inv : Inv b_start.
Proof.
  refine (proj1 (m_node_start "B" b_start _ _)); [done|].
  refine (pair_fst (NewNode_init (m_node "B" ∅)) _ _). vm_compute. reflexivity.
Qed.

Lemma m_after_inv ev n last' :
  Inv n → deliverable_event ev → (loop_iteration ev (0, 0) n).1 = Ret last' → Inv (m_after ev n).
Proof.
  intros Hi Hd Hl. apply (good_inv n).
  exact (proj1 (wp_ret_inv _ _ _ _ _ _ (safe_loop_iteration n ev (0, 0) Hi Hd) (pair_fst _ _ Hl))).
Qed.

Lemma b_follower_inv : Inv b_follower.
Proof.
  apply (m_after_inv _ _ (0, 0)); [apply b_start_inv|by intros m [= <-]|]. vm_compute. reflexivity.
Qed.

Lemma b_recovering_inv : Inv b_recovering.
Proof.
  apply (m_after_inv _ _ (0, 0)); [apply b_start_inv|by intros m [= <-]|]. vm_compute. reflexivity.
Qed.

(** ** Finalizing, certificates *)

Definition m_block : Block := default (mkBlock None None nil_slice) (pendingBlockProposal (nd_state m_proposed)).
Definition m_certified_block : Block :=
  blk_set_UC (match Cbor_Marshal_UC m_uc1 with Ok bs => bs | Fail _ => nil_slice end) m_block.
Definition m_updated : ModelNode := (updateLUC (Some m_uc1) (Some (m_tr 2)) m_proposed).2.

Lemma m_updated_inv : Inv m_updated.
Proof.
  apply (good_inv m_proposed).
  refine (proj1 (wp_ret_inv _ _ _ _ tt _ (safe_updateLUC m_proposed (Some m_uc1) (Some (m_tr 2)) m_proposed_inv) _)).
  refine (pair_fst (updateLUC (Some m_uc1) (Some (m_tr 2)) m_proposed) _ _). vm_compute. reflexivity.
Qed.

Lemma finalizeBlock_atomic_witness :
  finalized m_updated m_certified_block m_uc1 (finalizeBlock m_certified_block m_uc1 m_updated).2.
Proof.
  refine (proj2 (finalizeBlock_atomic m_updated m_certified_block m_uc1 (Ret tt) _ m_updated_inv _ _ _ _ _ _)).
  - vm_compute. discriminate.
  - vm_compute. reflexivity.
  - vm_compute. reflexivity.
  - apply (m_genuine _ _ _ _ m_trusted). right. reflexivity.
  - vm_compute. discriminate.
  - refine (pair_fst (finalizeBlock m_certified_block m_uc1 m_updated) _ _). vm_compute. reflexivity.
Defined.

Definition m_handled : ModelNode := (handleUnicityCertificate (Some m_uc1) (Some (m_tr 2)) m_proposed).2.

Lemma certificate_commits_its_proposal_witness :
  committed m_handled ≠ committed m_proposed ∧
  ∃ u, Some m_uc1 = Some u ∧ not_recovering m_handled ∧
    (committed m_handled = committed m_proposed ∨
     IsSuccessor u (committed m_proposed) = true ∧
     ∃ b, pendingBlockProposal (nd_state m_proposed) = Some b ∧ certified b u m_handled).
Proof.
  split; [vm_compute; discriminate|].
  apply (certificate_commits_its_proposal m_proposed (Some m_uc1) (Some (m_tr 2)) m_handled m_proposed_inv).
  - vm_compute. discriminate.
  - refine (pair_fst (handleUnicityCertificate (Some m_uc1) (Some (m_tr 2)) m_proposed) _ _). vm_compute. reflexivity.
Defined.

(** The initial certificate again, from a later root round: the round was not certified. *)
Definition m_repeat : UnicityCertificate := m_uc 3 1 m_ir0.
Definition m_reverted : ModelNode := (handleUnicityCertificate (Some m_repeat) (Some (m_tr 1)) m_proposed).2.

Lemma repeat_certificate_reverts_witness :
  committed m_reverted = committed m_proposed ∧ luc (nd_state m_reverted) = Some m_repeat ∧
  pendingBlockProposal (nd_state m_reverted) = None ∧
  ∃ sm, StateSummary (nd_transactionSystem m_reverted) = Ok sm.
Proof.
  apply (repeat_certificate_reverts m_proposed m_repeat (Some (m_tr 1)) m_reverted m_proposed_inv).
  - vm_compute. reflexivity.
  - vm_compute. reflexivity.
  - vm_compute. reflexivity.
  - refine (pair_fst (handleUnicityCertificate (Some m_repeat) (Some (m_tr 1)) m_proposed) _ _). vm_compute. reflexivity.
Defined.

(** ** Replication *)

Definition m_request : LedgerReplicationRequest := mkReplReq [x02] 3 (0 : ShardID) "B" 1 11.

Definition m_queued : ModelNode := (handleLedgerReplicationRequest (Some m_request) m_committed).2.

Lemma replication_request_disposition_witness :
  servable m_committed m_request && negb (queue_full m_committed) = true ∧
  m_queued = set_replicationCh (nd_replicationCh m_committed ++ [m_request]) m_committed.
Proof.
  assert (servable m_committed m_request && negb (queue_full m_committed) = true) as Hs by (vm_compute; reflexivity).
  split; [exact Hs|].
  assert (handleLedgerReplicationRequest (Some m_request) m_committed = (Ret tt, m_queued)) as Hrun
    by (refine (pair_fst (handleLedgerReplicationRequest (Some m_request) m_committed) _ _); vm_compute; reflexivity).
  pose proof (replication_request_disposition m_committed m_request (Ret tt) m_queued eq_refl Hrun) as H.
  rewrite Hs in H. exact (proj2 H).
Defined.

Definition m_served : ModelNode := (processReplicationRequest m_request m_committed).2.

Lemma replication_response_correct_witness :
  ∃ bs lastBlock p, good_batch m_committed m_request bs lastBlock ∧
    nd_sent m_served = (MsgReplicationResponse (mkReplResp [x02] StatusOk "" (Some (Some <$> bs)) 1 lastBlock), [p])
      :: nd_sent m_committed.
Proof.
  apply (replication_response_correct m_committed m_request m_served m_committed_inv).
  - vm_compute. split; discriminate.
  - vm_compute. split; [reflexivity|discriminate].
  - vm_compute. split; discriminate.
  - vm_compute. repeat constructor.
  - refine (pair_fst (processReplicationRequest m_request m_committed) _ _). vm_compute. reflexivity.
  - intros H. apply (f_equal length) in H. vm_compute in H. discriminate.
Defined.

Definition b_asked : ModelNode := (sendLedgerReplicationRequest b_recovering).2.

Lemma replication_request_sent_witness :
  ∃ uuid l, nd_sent b_asked = l ++ nd_sent b_recovering ∧
    Forall (fun x => x.1 = MsgReplicationRequest (replication_request b_recovering uuid) ∧
      ∃ p, x.2 = [p] ∧ p ≠ nd_peerID b_recovering ∧ p ∈ validator_id <$> pdr_Validators (nd_shardConf b_recovering)) l.
Proof.
  destruct (replication_request_sent b_recovering b_asked) as (uuid & l & Hl & Hall & _).
  - intros l w. reflexivity.
  - refine (pair_fst (sendLedgerReplicationRequest b_recovering) _ _). vm_compute. reflexivity.
  - exists uuid, l. split; [exact Hl|exact Hall].
Defined.

(** The batch "A" sends brings "B" back to normal operation. *)
Definition b_response : LedgerReplicationResponse :=
  mkReplResp [x01] StatusOk "" (Some [Some m_certified_block]) 1 1.
Definition b_recovered : ModelNode := (handleLedgerReplicationResponse (Some b_response) b_recovering).2.

Lemma recovery_batch_applied_witness :
  cs_status (nd_state b_recovering) = recovering ∧ cs_status (nd_state b_recovered) = normal ∧
  ∃ n1, good b_recovering n1 ∧ covers [Some m_certified_block] n1 ∧ good n1 b_recovered ∧
    if GetRoundNumber (committed n1) =? GetRoundNumber (luc (nd_state n1))
    then recoveryLastProp (nd_state b_recovered) = None ∧
      (recoveryLastProp (nd_state n1) = None → cs_status (nd_state b_recovered) = normal)
    else cs_status (nd_state b_recovered) = recovering ∧ committed b_recovered = committed n1.
Proof.
  split; [vm_compute; reflexivity|]. split; [vm_compute; reflexivity|].
  apply (recovery_batch_applied b_recovering b_response b_recovered b_recovering_inv).
  - vm_compute. reflexivity.
  - reflexivity.
  - vm_compute. reflexivity.
  - refine (pair_fst (handleLedgerReplicationResponse (Some b_response) b_recovering) _ _). vm_compute. reflexivity.
Defined.

(** ** Proposals *)

Definition m_summary : Summary := NewStateSummary (Bytes [xbb]) (Bytes []) 0 nil_slice.
Definition m_requested : ModelNode := (sendCertificationRequest "A" m_summary m_leader).2.
Definition b_requested : ModelNode := (sendCertificationRequest "A" m_summary b_follower).2.

Lemma m_requested_run : sendCertificationRequest "A" m_summary m_leader = (Ret tt, m_requested).
Proof. refine (pair_fst (sendCertificationRequest "A" m_summary m_leader) _ _). vm_compute. reflexivity. Qed.
Lemma b_requested_run : sendCertificationRequest "A" m_summary b_follower = (Ret tt, b_requested).
Proof. refine (pair_fst (sendCertificationRequest "A" m_summary b_follower) _ _). vm_compute. reflexivity. Qed.

Lemma sendCertificationRequest_correct_witness :
  ∃ b ir req ids n1, prepared m_leader "A" m_summary b ir req n1 ∧
    Send (MsgCertificationRequest req) ids n1 = (Ret tt, m_requested) ∧
    nd_sent m_requested = (MsgCertificationRequest req, ids) :: nd_sent m_leader ∧
    committed m_requested = committed m_leader ∧
    blocks m_requested = <[Uint32ToBytes proposalKey := b]> (blocks m_leader).
Proof.
  destruct (sendCertificationRequest_correct "A" m_summary m_leader (Ret tt) m_requested m_requested_run)
    as [(_ & _ & H)|H]; [by destruct H|exact H].
Defined.

Definition sent_request (n : ModelNode) : BlockCertificationRequest :=
  match head (nd_sent n) with
  | Some (MsgCertificationRequest r, _) => r
  | _ => mkBCR 0 (0 : ShardID) "" None 0 0 nil_slice
  end.
Definition sent_to (n : ModelNode) : list PeerID := match head (nd_sent n) with Some (_, to) => to | None => [] end.

Lemma certification_requests_agree_witness :
  bcr_InputRecord (sent_request m_requested) = bcr_InputRecord (sent_request b_requested) ∧
  pendingBlockProposal (nd_state m_requested) = pendingBlockProposal (nd_state b_requested).
Proof.
  apply (certification_requests_agree m_leader b_follower "A" m_summary m_requested b_requested
    (sent_request m_requested) (sent_to m_requested) (sent_request b_requested) (sent_to b_requested)).
  - split; vm_compute; reflexivity.
  - exact m_requested_run.
  - exact b_requested_run.
  - vm_compute. reflexivity.
  - vm_compute. reflexivity.
Defined.

(** "B" votes for the proposal "A" sent. *)
Definition m_proposal : BlockProposal :=
  match nd_sent m_proposed with
  | [_; (MsgBlockProposal p, _)] => p
  | _ => mkBlockProposal 0 (0 : ShardID) "" None (m_tr 0) nil_slice nil_slice
  end.
Definition b_voted : ModelNode := (handleBlockProposal (Some m_proposal) b_follower).2.

Lemma handleBlockProposal_votes_witness :
  not_recovering b_follower ∧ ∃ n1 sm, accepted b_follower m_proposal n1 sm ∧
    ∃ t w b ir req ids,
      requested (set_world w (set_tx t n1)) (peer_String (bp_NodeID m_proposal)) sm b ir req ids b_voted.
Proof.
  apply (handleBlockProposal_votes b_follower m_proposal b_voted b_follower_inv).
  refine (pair_fst (handleBlockProposal (Some m_proposal) b_follower) _ _). vm_compute. reflexivity.
Defined.
