(* ===== verification/LibExamples.v ===== *)
(** * Stores, selection, messages and framing on concrete inputs

    Each lemma applies the theorem it is named after. *)

From Stdlib Require Import ZArith Lia Strings.Byte String.
From stdpp Require Import base list strings option gmap.
From S2P Require Import Prelude GoBase BftTypes BftModel Messages Wire MessageTheorems KVStore ShardConfStore Selector Node NodeModel.

#[local] Existing Instances ModelTypes ModelLib ModelAccessorLaws ModelOrderLaws ModelVerifyLaws ModelKeyLaws ModelCborLaws ModelShard ModelMsg ModelRand.

(** ** The shard configuration store *)

Definition ex_epoch (e : Z) : PartitionDescriptionRecord := mkPDR 3 3 3 (0 : @ShardID ModelTypes) 2500 e 1 [] ∅.
Definition ex_store : ShardConfStore (MemDB PartitionDescriptionRecord) :=
  mkShardConfStore {[ epochToKey 2 := ex_epoch 2; epochToKey 1 := ex_epoch 1 ]} ∅.

Lemma ex_store_coherent : coherent ex_store.
Proof. intros e c. simpl. by rewrite lookup_empty. Qed.

Lemma ex_u64 e : 0 <= e <= 100 → is_u64 e.
Proof. unfold is_u64, maxUint64. lia. Qed.

Lemma ex_store_keys k : is_Some (db_map (scs_db ex_store) !! k) → ∃ e, is_u64 e ∧ k = epochToKey e.
Proof.
  intros [c Hk]. simpl in Hk. apply lookup_insert_Some in Hk as [[<- _]|[_ Hk]].
  - exists 2. split; [by apply ex_u64|done].
  - apply lookup_singleton_Some in Hk as [<- _]. exists 1. split; [by apply ex_u64|done].
Qed.

Lemma ex_store_reach : scs_reach ex_store.
Proof.
  apply (scs_new (scs_db ex_store)). transitivity (Ret (returned (NewShardConfStore (scs_db ex_store)) ex_store)).
  - apply is_ret_returned. vm_compute. reflexivity.
  - by f_equal.
Qed.

Definition ex_get1 := Get 1 ex_store.
Lemma ex_get1_run : Get 1 ex_store = (Ret (ex_epoch 1), ex_get1.2).
Proof. refine (pair_fst (Get 1 ex_store) _ _). vm_compute. reflexivity. Qed.

Lemma Get_coherent_witness :
  scs_db ex_get1.2 = scs_db ex_store ∧ Get 1 ex_get1.2 = (Ret (ex_epoch 1), ex_get1.2) ∧
  (Get 9 ex_get1.2).1 = Throw (ErrNew "shard conf not found").
Proof.
  destruct (Get_coherent 1 ex_store (Ret (ex_epoch 1)) ex_get1.2 ex_store_reach ex_get1_run) as (Hdb & Hagain & _).
  split; [exact Hdb|]. split; [exact (Hagain _ eq_refl)|].
  assert (scs_reach ex_get1.2) as Hr by (apply (scs_get 1 ex_store _ _ ex_store_reach (ex_u64 1 ltac:(lia)) ex_get1_run)).
  exact (proj2 (proj2 (Get_coherent 9 ex_get1.2 _ _ Hr (pair_fst (Get 9 ex_get1.2) _ eq_refl)))).
Defined.

Definition ex_stored := Store (ex_epoch 3) ex_store.
Lemma ex_stored_run : Store (ex_epoch 3) ex_store = (Ret tt, ex_stored.2).
Proof. refine (pair_fst (Store (ex_epoch 3) ex_store) _ _). vm_compute. reflexivity. Qed.

(** The epoch 2 is read, and stored again with another round. *)
Definition ex_read2 := Get 2 ex_store.
Definition ex_epoch2' : PartitionDescriptionRecord := mkPDR 3 3 3 (0 : @ShardID ModelTypes) 2500 2 7 [] ∅.
Definition ex_restored := Store ex_epoch2' ex_read2.2.
Lemma ex_restored_run : Store ex_epoch2' ex_read2.2 = (Ret tt, ex_restored.2).
Proof. refine (pair_fst (Store ex_epoch2' ex_read2.2) _ _). vm_compute. reflexivity. Qed.

Lemma Store_Get_witness :
  stored ex_stored.2 3 = Some (ex_epoch 3) ∧ stored ex_stored.2 1 = stored ex_store 1 ∧
  stored ex_restored.2 2 = Some ex_epoch2' ∧ (Get 2 ex_restored.2).1 = Ret (ex_epoch 2).
Proof.
  destruct (Store_Get (ex_epoch 3) ex_store (Ret tt) ex_stored.2 (ex_u64 3 ltac:(lia)) ex_stored_run) as (_ & Hs & Ho & _).
  destruct (Store_Get ex_epoch2' ex_read2.2 (Ret tt) ex_restored.2 (ex_u64 2 ltac:(lia)) ex_restored_run) as (_ & Hs' & _ & Hg).
  split; [exact Hs|]. split; [apply Ho; [by apply ex_u64|discriminate]|]. split; [exact Hs'|exact Hg].
Defined.

Definition ex_first := GetFirst ex_store.
Lemma GetFirst_smallest_witness :
  ∃ e, is_u64 e ∧ stored ex_store e = Some (ex_epoch 1) ∧
    ∀ e', is_u64 e' → is_Some (stored ex_store e') → e <= e'.
Proof.
  apply (GetFirst_smallest ex_store (ex_epoch 1) ex_first.2 ex_store_coherent ex_store_keys).
  refine (pair_fst (GetFirst ex_store) _ _). vm_compute. reflexivity.
Defined.

Definition ex_new_store : ShardConfStore (MemDB PartitionDescriptionRecord) :=
  returned (NewShardConfStore (scs_db ex_store)) ex_store.
Lemma NewShardConfStore_consistent_witness :
  ex_new_store = mkShardConfStore (scs_db ex_store) ∅ ∧ coherent ex_new_store ∧
  (db_map (scs_db ex_store) = ∅ ∨ ∃ r, ∀ k c, db_map (scs_db ex_store) !! k = Some c → same_shard r c).
Proof.
  apply (NewShardConfStore_consistent (scs_db ex_store) ex_new_store ex_store_keys).
  apply is_ret_returned. vm_compute. reflexivity.
Defined.

(** ** Selection of root nodes *)

Lemma randomNodeSelector_subset_witness :
  ∃ sel rest w', randomNodeSelector ["a"; "b"; "c"; "d"]%string 3 m_world = (Ret sel, w') ∧
    sel ++ rest ≡ₚ ["a"; "b"; "c"; "d"]%string ∧ Z.of_nat (length sel) = Z.min 3 4.
Proof. apply (randomNodeSelector_subset ["a"; "b"; "c"; "d"]%string 3 m_world); [discriminate|lia]. Defined.

Lemma rootNodesSelector_rotation_witness :
  ∃ h, UC_Hash m_uc0 SHA256 = Ok h ∧
    rootNodesSelector (Some m_uc0) ["a"; "b"; "c"]%string 2 =
    Ret (take 2 (rotate (Z.to_nat (be_decode (slice_bytes h) mod 3)) ["a"; "b"; "c"]%string)).
Proof.
  exists (match UC_Hash m_uc0 SHA256 with Ok h => h | Fail _ => nil_slice end).
  split; [vm_compute; reflexivity|].
  apply (rootNodesSelector_rotation m_uc0 ["a"; "b"; "c"]%string 2); [discriminate|lia|vm_compute; reflexivity].
Defined.

(** ** Messages *)

Definition ex_trust : @TrustBase ModelTypes := [].
Definition ex_key : @Signer ModelTypes := 7.
Definition ex_ver : @Verifier ModelTypes := 7.

Lemma ex_verifies : verifies_hash ex_key ex_ver ∧ verifies_bytes ex_key ex_ver.
Proof.
  split; intros h sig; simpl; unfold sign, verify; intros [= <-]; by rewrite bool_decide_eq_true_2.
Qed.

Definition ex_request : BlockCertificationRequest := mkBCR 3 (0 : @ShardID ModelTypes) "A" (Some m_ir0) 1 0 nil_slice.

Lemma BCR_Sign_valid_witness :
  ∃ y, BCR_Sign (Some ex_key) ex_request = Ok y ∧ BCR_IsValid (Some y) (Some ex_ver) = Ok tt.
Proof.
  exists (match BCR_Sign (Some ex_key) ex_request with Ok y => y | Fail _ => ex_request end).
  split; [vm_compute; reflexivity|].
  apply (BCR_Sign_valid ex_key ex_ver ex_request); [apply ex_verifies|discriminate|discriminate|vm_compute; reflexivity|].
  vm_compute. reflexivity.
Defined.

Definition ex_proposal : BlockProposal :=
  mkBlockProposal 3 (0 : @ShardID ModelTypes) "A" (Some m_uc0) (m_tr 1) (Bytes [xbb]) nil_slice.

Lemma BP_Sign_valid_witness :
  ∃ y, BP_Sign SHA256 (Some ex_key) ex_proposal = Ok y ∧
    BP_IsValid (Some y) (Some ex_trust) (Some m_conf) SHA256 = Ok tt.
Proof.
  exists (match BP_Sign SHA256 (Some ex_key) ex_proposal with Ok y => y | Fail _ => ex_proposal end).
  split; [vm_compute; reflexivity|].
  apply (BP_Sign_valid ex_proposal _ ex_trust m_conf SHA256 ex_key ex_ver (mkNodeInfo "A" nil_slice 7));
    try (vm_compute; reflexivity); [apply ex_verifies|discriminate].
Defined.

(** A proposal that is accepted once it is signed. *)
Definition ex_signed : BlockProposal :=
  match BP_Sign SHA256 (Some ex_key) ex_proposal with Ok y => y | Fail _ => ex_proposal end.

Lemma BP_IsValid_correct_witness :
  valid_proposal ex_signed ex_trust m_conf SHA256 ∧ ¬ valid_proposal ex_proposal ex_trust m_conf SHA256.
Proof.
  split.
  - destruct (proj1 (BP_IsValid_correct (Some ex_signed) (Some ex_trust) (Some m_conf) SHA256))
      as (p & t & c & Hp & Ht & Hc & H); [vm_compute; reflexivity|].
    injection Hp as <-. injection Ht as <-. injection Hc as <-. exact H.
  - intros H.
    assert (BP_IsValid (Some ex_proposal) (Some ex_trust) (Some m_conf) SHA256 = Ok tt) as Hv
      by (apply (proj2 (BP_IsValid_correct (Some ex_proposal) (Some ex_trust) (Some m_conf) SHA256)); eauto 7).
    vm_compute in Hv. discriminate Hv.
Defined.

Lemma SetTechnicalRecord_valid_witness :
  ∃ cr, SetTechnicalRecord (m_tr 5) (mkCR 3 (0 : @ShardID ModelTypes) (m_tr 1) m_uc0) = Ok cr ∧ CR_IsValid (Some cr) = Ok tt.
Proof.
  exists (mkCR 3 (0 : @ShardID ModelTypes) (m_tr 5) (m_uc 1 5 m_ir0)). split; [vm_compute; reflexivity|].
  apply (SetTechnicalRecord_valid (mkCR 3 (0 : @ShardID ModelTypes) (m_tr 1) m_uc0) (m_tr 5) (3 : @UnicityTreeCertificate ModelTypes));
    try (vm_compute; reflexivity). discriminate.
Defined.

(** ** Framing, with the identity as codec *)

Definition ex_Decode (r : reader) : result (list byte * list byte) := Ok (r_bytes r, []).

Lemma message_roundtrip_witness :
  ∃ bs, serializeMsg (fun m => Ok m) [x01; x02] = Ret bs ∧
    deserializeMsg ex_Decode (mkReader (bs ++ [xff]) io_EOF) = Ok ([x01; x02], mkReader [xff] io_EOF).
Proof.
  apply (message_roundtrip (fun m => Ok m) ex_Decode [x01; x02] [x01; x02] [x01; x02] [xff] io_EOF).
  - reflexivity.
  - reflexivity.
  - vm_compute. split; [reflexivity|discriminate].
Defined.

Definition ex_stream : reader := mkReader [x02; x07; x08; x09] io_EOF.

(** The length is 2^28: nothing is decoded. *)
Definition ex_big : reader := mkReader [x80; x80; x80; x80; x01; x07] io_EOF.

Lemma deserialize_bounded_witness :
  (∃ n src unread, ReadUvarint ex_stream = Ok (n, src) ∧ 0 < n <= maxMsgSize ∧
    ex_Decode (LimitReader src n) = Ok ([x07; x08], unread) ∧ mkReader [x09] io_EOF = after_limit src n unread ∧
    r_bytes (LimitReader src n) `prefix_of` r_bytes src ∧
    Z.of_nat (length (r_bytes (LimitReader src n))) <= n) ∧
  ∃ e, ∀ Decode' : reader → result (list byte * list byte), deserializeMsg Decode' ex_big = Fail e.
Proof.
  split.
  - destruct (deserialize_bounded ex_Decode ex_stream) as (_ & _ & H). apply (H [x07; x08] (mkReader [x09] io_EOF)).
    vm_compute. reflexivity.
  - destruct (deserialize_bounded ex_Decode ex_big) as (_ & H & _).
    apply (H (2 ^ 28) (mkReader [x07] io_EOF)); [vm_compute; reflexivity|right; reflexivity].
Defined.
