(* ===== verification/LoggerExamples.v ===== *)
(** * The logger on concrete configurations *)

From Stdlib Require Import ZArith Lia Strings.Ascii String.
From stdpp Require Import base list strings option.
From S2P Require Import Prelude GoPath GoBase BftTypes BftModel Logger.

#[local] Existing Instances ModelTypes ModelLib.

Definition l_cfg (level format out : string) : LogConfiguration :=
  mkLogConfiguration level format out "" "" None None.

(** The levels the tests of the package expect. *)
Example log_levels :
  (fun level => logLevel (l_cfg level "" "")) <$>
    [""; "error"; "InfO"; "ERROR"; "WARNING"; "WARN"; "INFO"; "DEBUG"; "TRACE"; "NONE"; "info-1"; "info+1"; "foobar"]%string =
  [0; 8; 0; 8; 4; 4; 0; -4; -8; levelNone; -1; 1; 0].
Proof. vm_compute. reflexivity. Qed.

Example short_ids :
  short_peerID "12345678901" = "12*678901"%string ∧ short_peerID "1234567890" = "1234567890"%string.
Proof. split; reflexivity. Qed.

Example trimmed :
  src_Function (trimSource (mkSource "github.com/unicitynetwork/bft-core/cli/ubft/cmd.newBaseCmd.func1" "" 0)) =
    "newBaseCmd.func1"%string.
Proof. reflexivity. Qed.

Definition l_handler (c : LogConfiguration) : result (Handler (Time:=unit)) :=
  (cfg_Handler (fun _ => true) (fun _ _ => ""%string) (fun _ => ""%string) (fun _ => ""%string)
    (fun _ => Ok ""%string) (fun _ => false) c Stderr).2.
Definition l_text : Handler (Time:=unit) := TextHandler Stderr None [].
Definition l_get (c : LogConfiguration) : Handler := match l_handler c with Ok h => h | Fail _ => l_text end.
Definition l_enabled (c : LogConfiguration) (level : Z) : bool :=
  Enabled (fun min level => min <=? level) (l_get c) level.

(** "JSON" with the level ERROR logs from INFO on, and "none" logs everything. *)
Lemma logger_level_witness :
  l_enabled (l_cfg "error" "json" "") LevelInfo = false ∧
  l_enabled (l_cfg "error" "JSON" "") LevelInfo = true ∧
  l_enabled (l_cfg "none" "text" "") LevelDebug = true.
Proof.
  pose proof (fun c level => logger_level (Time:=unit) (fun _ => true) (fun _ _ => ""%string) (fun _ => ""%string)
    (fun _ => ""%string) (fun _ => Ok ""%string) (fun _ => false) (fun min level => min <=? level)
    c Stderr (l_get c) level) as Hlevel.
  split; [vm_compute; reflexivity|]. split.
  - etransitivity; [apply (Hlevel (l_cfg "error" "JSON" "") LevelInfo)|]; vm_compute; (reflexivity || discriminate).
  - etransitivity; [apply (Hlevel (l_cfg "none" "text" "") LevelDebug)|]; vm_compute; (reflexivity || discriminate).
Defined.
