(* ===== verification/IpcExamples.v ===== *)
(** * The gadget on a concrete PoW node

    A JSON codec, and a PoW node with the chain of TxExamples.v: the best block at height 10,
    the candidate at height 5.  Each lemma applies the theorem it is named after. *)

From Stdlib Require Import ZArith Lia Strings.Byte String.
From stdpp Require Import base list strings option gmap countable.
From S2P Require Import Prelude GoBase BftTypes BftModel Summary PowClient TxInterface TxSystem TxTheorems TxExamples Wire IpcClient GadgetOverIpc.

#[local] Existing Instances ModelTypes ModelLib ModelAccessorLaws ModelOrderLaws ModelVerifyLaws ModelKeyLaws.

(** ** A codec: values are counted *)

#[local] Instance rpc_param_eq_dec : EqDecision rpc_param.
Proof. solve_decision. Defined.
#[local] Instance rpc_param_countable : Countable rpc_param :=
  inj_countable' (fun p => match p with PString s => inl s | PUint64 n => inr n end)
    (fun c => match c with inl s => PString s | inr n => PUint64 n end) ltac:(by intros []).
#[local] Instance jsonRpcRequest_eq_dec : EqDecision jsonRpcRequest.
Proof. solve_decision. Defined.
#[local] Instance jsonRpcRequest_countable : Countable jsonRpcRequest :=
  inj_countable' (fun r => (rq_JSONRPC r, rq_Method r, rq_Params r, rq_ID r))
    (fun '(a, b, c, d) => mkRequest a b c d) ltac:(by intros []).
#[local] Instance BlockHeader_eq_dec : EqDecision BlockHeader.
Proof. solve_decision. Defined.
#[local] Instance BlockHeader_countable : Countable BlockHeader :=
  inj_countable' (fun b => (bh_Hash b, bh_Confirmations b, bh_Height b, bh_Version b, bh_VersionHex b, bh_Time b,
      bh_Mediantime b, bh_Nonce b, bh_Bits b, bh_Difficulty b, bh_Chainwork b, bh_PreviousBlockHash b, bh_RxHash b))
    (fun '(a, b, c, d, e, f, g, h, i, j, k, l, m) => mkBlockHeader a b c d e f g h i j k l m) ltac:(by intros []).
#[local] Instance ChainTip_eq_dec : EqDecision ChainTip.
Proof. solve_decision. Defined.
#[local] Instance ChainTip_countable : Countable ChainTip :=
  inj_countable' (fun t => (ct_Height t, ct_Hash t, ct_BranchLen t, ct_Status t))
    (fun '(a, b, c, d) => mkChainTip a b c d) ltac:(by intros []).
#[local] Instance rpc_value_eq_dec : EqDecision rpc_value.
Proof. solve_decision. Defined.
#[local] Instance rpc_value_countable : Countable rpc_value :=
  inj_countable' (fun v => match v with VHash h => inl h | VHeader b => inr (inl b) | VTips l => inr (inr l) end)
    (fun c => match c with inl h => VHash h | inr (inl b) => VHeader b | inr (inr l) => VTips l end)
    ltac:(by intros []).

Definition to_bytes {A} `{Countable A} (a : A) : list byte := pos_bytes (encode a).
Definition of_bytes {A} `{Countable A} (bs : list byte) : result A :=
  match decode (bytes_pos bs) with Some a => Ok a | None => Fail (ErrNew "invalid JSON") end.
Lemma of_to_bytes {A} `{Countable A} (a : A) : of_bytes (to_bytes a) = Ok a.
Proof. unfold of_bytes, to_bytes. by rewrite bytes_pos_bytes, decode_encode. Qed.

(** A response is the value, or no value for an error; the result is encoded again. *)
#[local] Instance ModelJson : JsonLib := {|
  json_Marshal_request r := Ok (to_bytes r);
  json_Unmarshal_response bs :=
    o ← of_bytes (A:=option rpc_value) bs;
    mret match o with
      | Some v => mkResponse (to_bytes v) None 0
      | None => mkResponse [] (Some "not found"%string) 0
      end;
  json_Unmarshal_string bs :=
    v ← of_bytes bs; match v with VHash h => mret h | _ => Fail (ErrNew "not a string") end;
  json_Unmarshal_header bs :=
    v ← of_bytes bs; match v with VHeader b => mret (typed_header b) | _ => Fail (ErrNew "not a header") end;
  json_Unmarshal_tips bs :=
    v ← of_bytes bs; match v with VTips l => mret (typed_tip <$> l) | _ => Fail (ErrNew "not an array") end;
|}.

#[local] Instance ModelJsonTypes : JsonTypes.
Proof.
  split; simpl; intros bs x (v & _ & Hv)%result_bind_ok; destruct v; try done; injection Hv as <-; simpl.
  - apply u64_is_u64.
  - apply Forall_fmap, Forall_true. intros t. simpl. auto using u64_is_u64.
Qed.

(** ** The node *)

Definition i_header (hash : string) (confirmations height : Z) : BlockHeader :=
  mkBlockHeader hash confirmations height 1 "" 0 0 0 "" "" "" "" "".
Definition i_tip : BlockHeader := i_header "aa" 1 10.
Definition i_candidate : BlockHeader := i_header "bb" 6 5.

Definition i_chain : PowChain := {|
  ch_best := "aa";
  ch_header h := if String.eqb h "aa" then Some i_tip else if String.eqb h "bb" then Some i_candidate else None;
  ch_hash_at n := if n =? 10 then Some "aa"%string else if n =? 5 then Some "bb"%string else None;
  ch_tips := [mkChainTip 10 "aa" 0 "active"];
|}.

#[local] Instance ModelHttp : HttpEnv unit := {|
  http_Do payload w :=
    match of_bytes payload with
    | Ok rq =>
        (Ok (mkHttpResponse StatusOK_http
          (Some (mkReader (to_bytes (answer i_chain (rq_Method rq) (rq_Params rq))) io_EOF))), w)
    | Fail e => (Fail e, w)
    end;
|}.

Definition i_values : list (option rpc_value) :=
  [None; Some (VHash "aa"); Some (VHash "bb"); Some (VHeader i_tip); Some (VHeader i_candidate);
   Some (VTips (ch_tips i_chain))].

Lemma i_answers method params : answer i_chain method params ∈ i_values.
Proof.
  unfold answer, i_values. repeat case_match; simplify_eq/=; repeat case_match; simplify_eq/=; set_solver.
Qed.

Lemma i_small : Forall (fun o => Z.of_nat (length (to_bytes (A:=option rpc_value) o)) <= maxResponseSize) i_values.
Proof. repeat constructor; vm_compute; discriminate. Qed.

Lemma i_serves : serves (fun _ : unit => i_chain).
Proof.
  intros method params id w. set (o := answer i_chain method params).
  exists (to_bytes (mkRequest "2.0" method params id)), (to_bytes o),
    (match o with Some v => to_bytes v | None => [] end),
    (match o with Some _ => None | None => Some "not found"%string end), 0, w.
  split_and!.
  - done.
  - cbn [http_Do ModelHttp]. by rewrite of_to_bytes.
  - pose proof (i_answers method params) as Hin. pose proof i_small as Hs.
    exact (proj1 (list.Forall_forall _ _) Hs o Hin).
  - cbn [json_Unmarshal_response ModelJson]. rewrite of_to_bytes. simpl. by destruct o.
  - pose proof (i_answers method params) as Hin. fold o in Hin |- *. clearbody o.
    unfold i_values in Hin. set_unfold. destruct_or! Hin; subst; [by eexists|..].
    all: split; [done|].
    all: cbn [encodes json_Unmarshal_string json_Unmarshal_header json_Unmarshal_tips ModelJson].
    all: rewrite of_to_bytes; vm_compute; reflexivity.
Qed.

(** The leader proposes the block at height 5. *)
Lemma leader_over_ipc_witness :
  ∃ sm s' st, fgp_LeaderPropose 1 (ex_new, (NewIPCClient "pow.sock", tt)) = (Ret sm, (s', st)) ∧
    Root sm = Bytes [xbb].
Proof.
  apply (leader_over_ipc (fun _ => i_chain) i_chain i_serves (fun _ => eq_refl) 1 ex_new _ tt (Bytes [xbb]) ex_new_wf).
  exists i_tip, 0, "bb"%string, i_candidate. split_and!; try (vm_compute; reflexivity).
  split; [vm_compute; reflexivity|]. repeat constructor. intros [Hs _]. by apply Hs.
Defined.

(** A follower accepts it. *)
Lemma follower_over_ipc_witness :
  ∃ sm s' st, fgp_FollowerVerify 1 (Bytes [xbb]) (ex_new, (NewIPCClient "pow.sock", tt)) = (Ret sm, (s', st)).
Proof.
  apply (follower_over_ipc (fun _ => i_chain) i_chain i_serves (fun _ => eq_refl) 1 ex_new _ tt (Bytes [xbb]) ex_new_wf).
  right. exists i_candidate, i_tip. split_and!; vm_compute; (reflexivity || discriminate).
Defined.
