(* ===== verification/NetExamples.v ===== *)
(** * Configuration and network on concrete inputs

    Each lemma applies the theorem it is named after: a node configured with keys and options,
    and two validators' networks with a codec that encodes a message by its kind and its block
    number. *)

From Stdlib Require Import ZArith Lia Strings.Byte String.
From stdpp Require Import base list strings option gmap relations.
From S2P Require Import Prelude GoBase BftTypes BftModel Summary PowClient TxInterface TxSystem TxTheorems Messages Wire KVStore ShardConfStore Selector Node Network Peer NodeOps Configuration Handlers NodeInit NodeInvariant NodeQuiet NodeSafety HandlerSafety NetworkTheorems PeerTheorems NodeSystem T1Timer NodeStart ConfigurationTheorems NodeModel NodeExamples.

#[local] Existing Instances ModelTypes ModelLib ModelAccessorLaws ModelOrderLaws ModelVerifyLaws ModelKeyLaws ModelCborLaws ModelShard ModelMsg ModelClient ModelEnv.

(** ** Configuration *)

(** A key is its bytes; one key belongs to "B", all others to "A". *)
Definition key_owner (k : slice) : PeerID := (if bool_decide (k = Bytes [x03]) then "B" else "A")%string.

#[local] Instance ModelPeerLib : PeerLib := {|
  PrivKey := slice;
  PubKey := slice;
  Multiaddr := string;
  AddrInfo := string;
  UnmarshalSecp256k1PrivateKey := Ok;
  UnmarshalSecp256k1PublicKey := Ok;
  PrivKey_Raw := Ok;
  PubKey_Raw := Ok;
  GetPublic k := k;
  IDFromPrivateKey k := Ok (key_owner k);
  IDFromPublicKey k := Ok (key_owner k);
  NewMultiaddr := Ok;
  AddrInfoFromString := Ok;
  AddrInfo_ID a := a;
  NewInMemorySecp256K1SignerFromKey _ := Ok (7 : @Signer ModelTypes);
|}.

#[local] Instance ModelPeerLibLaws : PeerLibLaws ModelPeerLib.
Proof. split; [done|intros p id [= <-]; simpl; unfold key_owner; by case_bool_decide|by intros p bs [= <-]|by intros k bs [= <-]]. Qed.

(** A host on which everything but dialling "B" works. *)
#[local] Instance ModelPeerEnv : PeerEnv unit ModelWorld := {|
  NewPeerstore w := (Ok tt, w);
  libp2p_New _ _ _ w := (Ok ∅, w);
  host_Start w := (Ok tt, w);
  dht_New _ _ w := (Ok tt, w);
  dht_Advertise _ w := (Ok 0, w);
  dht_FindPeers _ w := (Ok [], w);
  host_Addrs _ := [];
  dht_Bootstrap w := (Ok tt, w);
  dht_Close w := (Ok tt, w);
  host_Close w := (Ok tt, w);
  peerstore_AddAddrs _ w := w;
  host_Connect a w := (if String.eqb a "B" then Fail (ErrNew "no route") else Ok tt, w);
  wait_or_done _ w := (false, w);
|}.

Definition c_keys : KeyConf :=
  mkKeyConf (mkKey "secp256k1" (Bytes [x01])) (mkKey "secp256k1" (Bytes [x02])).

Abbreviation ModelConf := (FullNodeConf (MemDB Block) (MemDB PartitionDescriptionRecord) unit unit).

Definition c_options : list (NodeOption (MemDB Block) (MemDB PartitionDescriptionRecord) unit unit) :=
  [WithReplicationParams 10 10 2 1500; WithT1Timeout 100].

Definition c_new : outcome ModelConf := NewNodeConf (∅ : MemDB Block) (Some c_keys) (Some m_scs) (Some tt) c_options.
Definition c_default : ModelConf :=
  mkFullNodeConf c_keys m_scs tt "" [] [] None None ∅ (mkProofIndexConfig ∅ 20) m_nodeconf m_conf.
Definition c_conf : ModelConf := returned c_new c_default.

Lemma c_options_ok : Forall option_ok c_options.
Proof. repeat constructor; by apply option_ok_same_validators. Qed.

Definition c_new_node : outcome (ModelNode * Peer (H:=unit) * (unit + LibP2PNetwork unit)) :=
  NewNode c_conf m_tx m_conf m_world.
Definition c_peer_conf : PeerConfiguration := mkPeerConfiguration "" "" [] None [] None.
Definition c_started := returned c_new_node (m_new, mkPeer "" ∅ c_peer_conf, inl tt).

Lemma NewNode_invariant_witness :
  NewNode c_conf m_tx m_conf m_world = Ret c_started ∧ Inv c_started.1.1 ∧
  KeyConf_NodeID c_keys = Ok (nd_peerID c_started.1.1) ∧ peer_ID c_started.1.2 = nd_peerID c_started.1.1.
Proof.
  pose proof (is_ret_returned c_new c_default eq_refl) as Hc.
  pose proof (is_ret_returned c_new_node (m_new, mkPeer "" ∅ c_peer_conf, inl tt)) as Hn.
  assert (CommittedUC (W:=ModelWorld) m_tx = None) as Ht by reflexivity.
  destruct (NewNode_invariant (∅ : MemDB Block) c_keys m_scs tt c_options c_conf m_tx m_conf m_world Hc c_options_ok
    Ht m_scs_coherent m_scs_keys m_scs_shard m_empty_store m_empty_last) as [_ Hstart].
  assert (NewNode c_conf m_tx m_conf m_world = Ret c_started) as Hr by (apply Hn; vm_compute; reflexivity).
  destruct c_started as [[n p] net] eqn:Hcs.
  destruct (Hstart n p net Hr) as (Hi & _ & _ & _ & _ & _ & Hid & Hp & _).
  exact (conj Hr (conj Hi (conj Hid Hp))).
Defined.

(** ** Bootstrap *)

Definition b_peer (boot : list string) : Peer (H:=unit) :=
  mkPeer "A" ∅ (mkPeerConfiguration "A" "" [] None boot (Some (mkRetry 2 1))).

(** "B" cannot be reached: an error when it is the only one, none with "C" beside it. *)
Lemma bootstrap_correct_witness :
  BootstrapConnect (b_peer ["B"; "C"]%string) m_world = (Ret tt, m_world) ∧
  BootstrapConnect (b_peer ["B"]%string) m_world = (Throw (ErrWrap "failed to bootstrap" (ErrNew "no route")), m_world) ∧
  ∃ peers : list string, (∀ a : string, a ∈ peers ↔ a ∈ ["B"; "C"]%string ∧ a ≠ "A"%string).
Proof.
  split; [reflexivity|]. split; [reflexivity|].
  destruct (bootstrap_correct (b_peer ["B"; "C"]%string) (mkRetry 2 1) m_world eq_refl) as (peers & Hp & _).
  exists peers. exact Hp.
Defined.

(** ** Network *)

(** A codec for the replication requests of one node with small block numbers. *)
Definition x_request (first last : byte) : LedgerReplicationRequest :=
  mkReplReq [x01] 3 (0 : @ShardID ModelTypes) "A" (Z_of_byte first) (Z_of_byte last).

#[local] Instance x_request_dec : EqDecision LedgerReplicationRequest.
Proof.
  assert (EqDecision (@ShardID ModelTypes)) by (unfold ShardID; simpl; apply _).
  assert (EqDecision UUID) by (unfold UUID; apply _). solve_decision.
Defined.

Definition x_Marshal (msg : Message) : result (list byte) :=
  match msg with
  | MsgReplicationRequest r =>
      let first := byte_of_Z (req_BeginBlockNumber r) in
      let last := byte_of_Z (req_EndBlockNumber r) in
      if decide (r = x_request first last) then Ok [first; last] else Fail (ErrNew "unsupported")
  | _ => Fail (ErrNew "unsupported")
  end.

Definition x_unsupported {A} (r : reader) : result (A * list byte) := Fail (ErrNew "unsupported").

#[local] Instance ModelNetCodec : NetCodec := {|
  Cbor_Marshal_Message := x_Marshal;
  Cbor_Decode_CertificationResponse := x_unsupported;
  Cbor_Decode_BlockProposal := x_unsupported;
  Cbor_Decode_ReplicationRequest r :=
    match r_bytes r with first :: last :: rest => Ok (x_request first last, rest) | _ => Fail (r_end r) end;
  Cbor_Decode_ReplicationResponse := x_unsupported;
  Cbor_Decode_other _ := x_unsupported;
|}.

#[local] Instance ModelNetCodecLaws : NetCodecLaws.
Proof.
  split.
  - intros s lr m unread. destruct s; simpl; try done.
    destruct lr as [[|a [|b rest]] e]; simpl; try done. intros [= _ <-]. simpl. lia.
  - intros msg data. destruct msg as [|p|r|r|r]; simpl; try done.
    case_decide as Hr; [|done]. intros [= <-]. simpl. by rewrite <-Hr.
Qed.

(** Validators "A" and "B". *)
Definition x_network (self : PeerID) : LibP2PNetwork unit :=
  match NewLibP2PValidatorNetwork (Some (self, ∅)) DefaultValidatorNetworkOptions with
  | Ret n => (RegisterValidatorProtocols n).2
  | _ => mkNetwork self ∅ ∅ [] 0 []
  end.

Lemma x_timeouts : valid_timeouts DefaultValidatorNetworkOptions.
Proof. unfold valid_timeouts. simpl. lia. Qed.

Lemma x_no_handlers id s : (id, s) ∈ received_protocols → (∅ : gmap string (stream_handler unit)) !! id = None.
Proof. intros _. apply lookup_empty. Qed.

Lemma validator_network_ready_witness :
  ∃ n n', NewLibP2PValidatorNetwork (Some ("A"%string, (∅ : gmap string (stream_handler unit)))) DefaultValidatorNetworkOptions = Ret n ∧
    RegisterValidatorProtocols n = (Ret tt, n') ∧ ready DefaultValidatorNetworkOptions n' ∧
    net_self n' = "A"%string ∧ net_receivedMsgs n' = [] ∧ net_capacity n' = 1000.
Proof.
  destruct (validator_network_ready DefaultValidatorNetworkOptions "A" ∅ x_timeouts x_no_handlers)
    as (n & n' & H1 & H2 & H3 & _ & H4 & H5 & H6).
  exists n, n'. exact (conj H1 (conj H2 (conj H3 (conj H4 (conj H5 H6))))).
Defined.

Lemma x_ready self : ready DefaultValidatorNetworkOptions (x_network self).
Proof.
  split.
  - intros []; vm_compute; reflexivity.
  - intros id s Hin. unfold received_protocols in Hin. set_unfold.
    destruct_or! Hin; simplify_eq; vm_compute; reflexivity.
Qed.

Definition x_msg : Message := MsgReplicationRequest (x_request x05 x09).

Lemma x_room self : has_room (x_network self).
Proof. unfold has_room. vm_compute. reflexivity. Qed.

Lemma message_delivered_witness :
  ∃ sp s, LibP2PNetwork_Send x_msg ["B"%string] (x_network "A") = (Ret tt, net_spawn sp (x_network "A")) ∧
    sd_receiver sp = "B"%string ∧
    net_mux (x_network "B") !! sd_protocolID sp = Some (MessageHandler (sd_protocolID sp) s) ∧
    streamHandlerForProtocol s (Ok tt) (mkReader (sd_data sp) io_EOF) (x_network "B") =
      (Ret (Some StreamClosed), net_push (loop_back x_msg) (x_network "B")).
Proof.
  apply (message_delivered DefaultValidatorNetworkOptions DefaultValidatorNetworkOptions x_msg [x05; x09]
    (x_network "A") (x_network "B") (x_ready "A") (x_ready "B")).
  - exact I.
  - discriminate.
  - vm_compute. reflexivity.
  - vm_compute. split; [reflexivity|discriminate].
  - exact (x_room "B").
Defined.

Lemma Send_correct_witness :
  ∃ n', LibP2PNetwork_Send x_msg ["A"; "B"]%string (x_network "A") = (Ret tt, n') ∧
    net_spawned n' = [mkSpawned ProtocolLedgerReplicationReq 300000000 [x02; x05; x09] "B"].
Proof.
  assert (["A"; "B"]%string ≠ []) as Hne by discriminate.
  pose proof (Send_correct DefaultValidatorNetworkOptions x_msg ["A"; "B"]%string (x_network "A") (x_ready "A") Hne) as Hsend.
  assert (serializeMsg Cbor_Marshal_Message x_msg = Ret [x02; x05; x09]) as Hs by (vm_compute; reflexivity).
  rewrite Hs in Hsend. destruct Hsend as (n' & H1 & H2 & _). exists n'. exact (conj H1 H2).
Defined.

(** A message, then the first byte of another. *)
Definition x_stream : reader := mkReader [x02; x05; x09; x02] io_EOF.

Lemma stream_handler_correct_witness :
  ∃ e ms r', streamHandlerForProtocol SReplicationRequest (Ok tt) x_stream (x_network "B") =
      (Ret (Some e), push_all ms (x_network "B")) ∧
    reads SReplicationRequest x_stream ms r' ∧ stopped SReplicationRequest e r' (push_all ms (x_network "B")).
Proof.
  destruct (stream_handler_correct SReplicationRequest x_stream (x_network "B")) as (e & ms & r' & H1 & H2 & H3 & _).
  - vm_compute. discriminate.
  - exists e, ms, r'. exact (conj H1 (conj H2 H3)).
Defined.

(** "B" after the message has arrived. *)
Definition x_after : LibP2PNetwork unit :=
  (streamHandlerForProtocol SReplicationRequest (Ok tt) x_stream (x_network "B")).2.

Lemma received_deliverable_witness :
  net_receivedMsgs x_after = [RcvReplicationRequest (Some (x_request x05 x09))] ∧
  Z.of_nat (length (net_receivedMsgs x_after)) <= 1000 ∧
  ∀ m, m ∈ net_receivedMsgs x_after → not_nil m ∧ deliverable_event (EvMessage (Some m)).
Proof.
  split; [vm_compute; reflexivity|]. apply (received_deliverable (x_network "B") x_after).
  - vm_compute. reflexivity.
  - vm_compute. discriminate.
  - apply rtc_once. apply (net_step_stream ProtocolLedgerReplicationReq). vm_compute. reflexivity.
Defined.
