(* ===== verification/RunExamples.v ===== *)
(** * The run command on concrete files

    A node started on a store with one block, then restarted.  Each lemma applies the theorem
    it is named after. *)

From Stdlib Require Import ZArith Lia Strings.Byte String.
From stdpp Require Import base list strings option gmap relations.
From S2P Require Import Prelude GoBase BftTypes BftModel Summary PowClient TxInterface TxSystem TxTheorems Messages Wire IpcClient KVStore ShardConfStore Selector Node Network Peer NodeOps Configuration Handlers NodeInit Run NodeInvariant NodeQuiet NodeSafety HandlerSafety NodeSystem T1Timer NodeStart ConfigurationTheorems Lifecycle NodeModel IpcExamples NetExamples.

#[local] Existing Instances ModelTypes ModelLib ModelAccessorLaws ModelOrderLaws ModelVerifyLaws ModelKeyLaws ModelCborLaws ModelShard ModelMsg ModelJson ModelHttp ModelPeerLib ModelPeerLibLaws ModelNetCodec.

(** The world: the IPC client and a network that delivers. *)
#[local] Instance RunRand : Rand (IPCClient * unit).
Proof. refine {| rand_Intn n w := (0, w) |}. intros n w Hn. simpl. lia. Defined.

#[local] Instance RunNodeEnv : NodeEnv (IPCClient * unit) := {|
  net_Send _ _ w := (Ok tt, w);
  time_Now w := (0, w);
  uuid_New w := ([x01], w);
  util_ShuffleSliceCopy l w := (l, w);
  trustBase_GetByEpoch _ w := (Ok [mkNodeInfo "R" nil_slice 1], w);
  ctx_Done w := (false, w);
  env_Rand := RunRand;
|}.

#[local] Instance RunPeerEnv : PeerEnv unit (IPCClient * unit) := {|
  NewPeerstore w := (Ok tt, w);
  libp2p_New _ _ _ w := (Ok ∅, w);
  host_Start w := (Ok tt, w);
  dht_New _ _ w := (Ok tt, w);
  dht_Advertise _ w := (Ok 0, w);
  dht_FindPeers _ w := (Ok [], w);
  host_Addrs _ := [];
  dht_Bootstrap w := (Ok tt, w);
  dht_Close w := (Ok tt, w);
  host_Close w := (Ok tt, w);
  peerstore_AddAddrs _ w := w;
  host_Connect _ w := (Ok tt, w);
  wait_or_done _ w := (false, w);
|}.

#[local] Instance RunTrustBases : TrustBaseLib unit unit unit := {|
  NewTrustBaseStore := Ok;
  TrustBaseStore_Store _ s := (s, Fail (ErrNew "already exists"));
  ErrAlreadyExists := ErrNew "already exists";
|}.

Abbreviation RunNode := (Node FGPTxSystem (IPCClient * unit) (MemDB Block) (MemDB PartitionDescriptionRecord)).
Abbreviation RunFiles := (Files (MemDB Block) (MemDB PartitionDescriptionRecord) unit unit).

(** ** The files *)

Definition r_uc_bytes : slice := match Cbor_Marshal_UC m_uc1 with Ok bs => bs | Fail _ => nil_slice end.
Definition r_block : Block := mkBlock (Some (mkHeader 1 3 (0 : ShardID) "A" nil_slice)) (Some []) r_uc_bytes.
Definition r_blocks : MemDB Block := {[ Uint64ToBytes 1 := r_block ]}.
Definition r_confs : MemDB PartitionDescriptionRecord := {[ epochToKey 0 := m_conf ]}.

Definition r_disk (d : MemDB Block) (dc : MemDB PartitionDescriptionRecord) : RunFiles :=
  mkFiles (fun _ => true) (fun _ => Ok c_keys) (fun _ => Ok m_conf) (fun _ => Ok tt)
    (fun _ => Ok dc) (fun _ => Ok tt) (fun _ => Ok d).
Definition r_files : RunFiles := r_disk r_blocks r_confs.

Definition r_flags : cliFlags := run_defaults "/home/op" "/home/op/.fgp" "config.props" "logger-config.yaml".
Definition r_world : IPCClient * unit := (NewIPCClient "", tt).

Lemma r_block_uc : getUCv1 (Some r_block) = Ok m_uc1.
Proof. vm_compute. reflexivity. Qed.

Lemma r_blocks_ok : blocks_ok (db_map r_blocks).
Proof.
  intros k b Hk. unfold r_blocks in Hk. simpl in Hk. apply lookup_singleton_Some in Hk as [<- <-]. right. exists m_uc1.
  split; [exact r_block_uc|]. split; [|done]. apply (m_genuine [mkNodeInfo "R" nil_slice 1]); [by exists 0, r_world, r_world|by right].
Qed.

Lemma r_last : last_is_block r_blocks.
Proof. intros k v Hl. assert (k = Uint64ToBytes 1) as -> by (vm_compute in Hl; by injection Hl). by vm_compute. Qed.

Lemma r_confs_keys : epoch_keys (mkShardConfStore r_confs ∅).
Proof. exact m_scs_keys. Qed.

Lemma r_confs_shard : confs_of_shard (mkShardConfStore r_confs ∅).
Proof. exact m_scs_shard. Qed.

Lemma r_on_disk d dc : on_disk (r_disk d dc) d dc.
Proof.
  split; simpl; [by intros p x [= <-]|by intros p x [= <-]| |by intros p c [= <-]].
  intros p c [= <-]. split; vm_compute; congruence.
Qed.

(** ** Start and restart *)

Definition r_start : outcome (RunNode * Peer (H:=unit) * (unit + LibP2PNetwork unit)) * (IPCClient * unit) :=
  runNode (TBS:=unit) (Ok tt) r_files (∅ : MemDB Block) m_conf r_flags r_world.
Definition r_none : RunNode * Peer (H:=unit) * (unit + LibP2PNetwork unit) :=
  (new_node m_nodeconf m_tx ∅ m_scs "A"%string m_conf r_world, mkPeer "" ∅ c_peer_conf, inl tt).
Definition r_node : RunNode := (returned r_start.1 r_none).1.1.
Definition r_net : unit + LibP2PNetwork unit := (returned r_start.1 r_none).2.

Lemma r_started : started r_blocks r_node.
Proof.
  pose proof (runNode_wp (N:=unit) (TBS:=unit) (HT:=unit) (Ok tt) r_files (∅ : MemDB Block) m_conf r_flags
    r_blocks r_confs r_world (r_on_disk _ _) r_confs_keys r_confs_shard r_blocks_ok r_last) as Hwp.
  assert (r_start = (Ret (returned r_start.1 r_none), r_start.2)) as Hr.
  { destruct r_start as [o w] eqn:He. simpl. f_equal. apply is_ret_returned.
    assert (o = r_start.1) as -> by (by rewrite He). vm_compute. reflexivity. }
  exact (proj1 (wp_ret_inv _ _ _ _ _ _ Hwp Hr)).
Qed.

(** What the node leaves on disk. *)
Definition r_files2 : RunFiles := r_disk (nd_blockStore r_node) (scs_db (nd_shardConfStore r_node)).

Lemma r_last2 : last_is_block (nd_blockStore r_node).
Proof. rewrite (st_store _ _ r_started). exact r_last. Qed.

Definition r_start2 : outcome (RunNode * Peer (H:=unit) * (unit + LibP2PNetwork unit)) * (IPCClient * unit) :=
  runNode (TBS:=unit) (Ok tt) r_files2 (∅ : MemDB Block) m_conf r_flags r_world.
Definition r_restarted := returned r_start2.1 r_none.
Definition r_running := Node_Run Ok r_restarted.2 r_restarted.1.1.

Lemma returned_triple {A B C S} (p : outcome (A * B * C) * S) d :
  is_ret p.1 = true → p = (Ret ((returned p.1 d).1.1, (returned p.1 d).1.2, (returned p.1 d).2), p.2).
Proof. destruct p as [[[[a b] c]| |] s]; [done|discriminate|discriminate]. Qed.

Lemma r_start2_run :
  runNode (TBS:=unit) (Ok tt) r_files2 (∅ : MemDB Block) m_conf r_flags r_world =
    (Ret (r_restarted.1.1, r_restarted.1.2, r_restarted.2), r_start2.2).
Proof. refine (returned_triple r_start2 r_none _). vm_compute. reflexivity. Qed.

Lemma r_running_run : ∃ net, Node_Run Ok r_restarted.2 r_restarted.1.1 = (Ret net, r_running.2).
Proof.
  assert (∃ net, (Node_Run Ok r_restarted.2 r_restarted.1.1).1 = Ret net) as [net Hnet] by (vm_compute; eexists; reflexivity).
  exists net. exact (pair_fst (Node_Run Ok r_restarted.2 r_restarted.1.1) (Ret net) Hnet).
Qed.

Lemma r_committed : committed r_node = Some m_uc1.
Proof. vm_compute. reflexivity. Qed.

Lemma r_restart : life_step (HT:=unit) (N:=unit) (TB:=unit) (TBD:=unit) (TBS:=unit) (r_node, (0, 0)) (r_running.2, (0, 0)).
Proof.
  destruct r_running_run as [net Hnet].
  apply life_restart; [apply (committed_restartable r_node (st_inv _ _ r_started)); cbn [fst]; rewrite r_committed; by eexists|].
  exact (restart_intro r_node r_running.2 unit (Ok tt) r_files2 _ _ ∅ m_conf r_flags Ok r_world r_restarted.1.1 r_restarted.1.2
    r_restarted.2 r_start2.2 net (r_on_disk _ _) eq_refl eq_refl r_start2_run Hnet).
Qed.

Lemma r_stored : block_at (blocks r_node) 1 = Some r_block.
Proof. vm_compute. reflexivity. Qed.

Lemma history_survives_restarts_witness :
  committed r_node = Some m_uc1 ∧ Inv r_running.2 ∧ 1 <= GetRoundNumber (committed r_running.2) ∧
  block_at (blocks r_running.2) 1 = Some r_block.
Proof.
  assert (∀ n n' : RunNode, Inv n → life_step (HT:=unit) (N:=unit) (TB:=unit) (TBD:=unit) (TBS:=unit) (n, (0, 0)) (n', (0, 0)) →
    committed n = Some m_uc1 → block_at (blocks n) 1 = Some r_block →
    Inv n' ∧ 1 <= GetRoundNumber (committed n') ∧ block_at (blocks n') 1 = Some r_block) as Hgen.
  { intros n n' Hi Hs Hc Hb.
    destruct (history_survives_restarts (n, (0, 0)) (n', (0, 0)) Hi (rtc_once _ _ Hs)) as (Hi' & Hr & Hk & _ & _).
    cbn [fst] in Hr, Hk. rewrite Hc in Hr, Hk. split; [exact Hi'|]. split; [exact Hr|].
    rewrite (Hk 1); [exact Hb|split; vm_compute; congruence|by eexists|vm_compute; discriminate]. }
  split; [exact r_committed|]. exact (Hgen r_node r_running.2 (st_inv _ _ r_started) r_restart r_committed r_stored).
Defined.

Lemma runNode_continues_witness : started (nd_blockStore r_node) r_restarted.1.1.
Proof.
  pose proof (runNode_continues (N:=unit) (TBS:=unit) (HT:=unit) (Ok tt) r_files2 ∅ m_conf r_flags r_node _ _ r_world
    (st_inv _ _ r_started) (r_on_disk _ _) eq_refl eq_refl r_last2) as H.
  rewrite r_start2_run in H. exact (proj1 H).
Defined.
