(* ===== verification/CommandExamples.v ===== *)
(** * The precedence of flags on concrete files and environments

    A viper and a flag set that satisfy the laws of [CommandLine], and a command line with one
    flag given, one in the environment, one in the file and one nowhere. *)

From Stdlib Require Import ZArith Lia Strings.Ascii String.
From stdpp Require Import base list strings option gmap.
From S2P Require Import Prelude GoPath GoBase Logger Peer CommandLine.

(** A viper that is its view, and the path of the file to read. *)
Definition e_contents (path key : string) : option string :=
  if String.eqb path "/home/op/.fgp/config.props" then
    if String.eqb key "log-level" then Some "WARN"%string
    else if String.eqb key "address" then Some "/ip4/10.0.0.1/tcp/1"%string
    else if String.eqb key "t1-timeout" then Some "900"%string else None
  else None.

Definition with_file (f : string → option string) (w : View) : View := mkView (vw_prefix w) (vw_auto w) (vw_bound w) f.

Definition e_os : OS := mkOS
  (fun name => if String.eqb name "FGP_T1_TIMEOUT" then "750" else if String.eqb name "FGP_LOG_LEVEL" then "DEBUG" else "")
  (fun path => if String.eqb path "/home/op/.fgp/config.props" then Ok tt else Fail (ErrNew "no such file"))
  (Ok "/home/op"%string).

#[local] Instance e_viper : ViperLib (View * option string) := {|
  viper_New := (mkView "" false (fun _ => []) (fun _ => None), None);
  SetConfigFile p v := (v.1, Some p);
  ReadInConfig v :=
    match v.2 with
    | Some p => ((with_file (e_contents p) v.1, v.2), Ok tt)
    | None => (v, Fail (ErrNew "config file not found"))
    end;
  is_ConfigFileNotFoundError e := bool_decide (e = ErrNew "config file not found");
  SetEnvPrefix p v := (mkView p (vw_auto v.1) (vw_bound v.1) (vw_file v.1), v.2);
  AutomaticEnv v := (mkView (vw_prefix v.1) true (vw_bound v.1) (vw_file v.1), v.2);
  BindEnv k e v :=
    ((mkView (vw_prefix v.1) (vw_auto v.1) (fun k' => vw_bound v.1 k' ++ (if String.eqb k' k then [e] else [])) (vw_file v.1), v.2),
     Ok tt);
  IsSet k v := match view_get e_os v.1 k with Some _ => true | None => false end;
  viper_Get k v := default "" (view_get e_os v.1 k);
|}.

#[local] Instance e_viper_laws : ViperLaws e_os (View * option string).
Proof.
  refine {| viper_view := fst |}; try done.
  - by intros [w [p|]] k.
  - by intros k e v v' u _ [= <- _].
  - intros k v s _. simpl. by intros ->.
Defined.

(** Flags that take any text. *)
#[local] Abbreviation EFlags := (gmap string (string * bool)).
#[local] Instance e_flags : FlagLib EFlags := {|
  VisitAll_names fs := (map_to_list fs).*1;
  flag_Changed n fs := match fs !! n with Some (_, changed) => changed | None => false end;
  FlagSet_Set n s fs :=
    match fs !! n with
    | Some _ => (<[n := (s, true)]> fs, Ok tt)
    | None => (fs, Fail (ErrNew "no such flag"))
    end;
|}.

#[local] Instance e_flags_laws : FlagLaws EFlags string.
Proof.
  refine {| flag_value n fs := match fs !! n with Some (s, _) => s | None => "" end; flag_parse _ s := Some s |}.
  - intros fs. apply NoDup_fst_map_to_list.
  - intros n s fs fs' u _. simpl. destruct (fs !! n); [|done]. intros [= <- _]. by rewrite lookup_insert_eq.
  - intros n s fs n' Hn. simpl. destruct (fs !! n); simpl; [|done]. by rewrite lookup_insert_ne.
Defined.

Definition e_command : Command EFlags := mkCommand "" ""
  {[ "home" := ("", false); "config" := ("", false); "log-level" := ("ERROR", true); "t1-timeout" := ("2500", false);
     "address" := ("/ip4/127.0.0.1/tcp/26652", false); "block-db" := ("", false) ]}%string.

Definition e_after : Command EFlags := (initializeConfig (V:=View * option string) e_os e_command).2.

(** The log level is the one of the command line, although the environment and the file have
    one, the timeout the one of the environment, the address the one of the file. *)
Example e_values :
  is_ret (initializeConfig (V:=View * option string) e_os e_command).1 = true ∧
  cmd_CfgFile e_after = "/home/op/.fgp/config.props"%string ∧
  (fun n => flag_value n (cmd_Flags e_after)) <$> ["log-level"; "t1-timeout"; "address"; "block-db"]%string =
  ["ERROR"; "750"; "/ip4/10.0.0.1/tcp/1"; ""]%string.
Proof. vm_compute. done. Qed.

Lemma initializeConfig_precedence_witness :
  (initializeConfig (V:=View * option string) e_os e_command).1 = Ret tt ∧
  cmd_HomeDir e_after = "/home/op/.fgp"%string ∧
  takes_precedence e_os (e_contents "/home/op/.fgp/config.props") (cmd_Flags e_command) (cmd_Flags e_after) "t1-timeout".
Proof.
  assert (Forall (fun k => plain_key k = true) (VisitAll_names (cmd_Flags e_command))) as Hp
    by (vm_compute; repeat constructor).
  pose proof (initializeConfig_precedence (V:=View * option string) e_os e_command "/home/op" eq_refl Hp) as H.
  unfold e_after. assert ((initializeConfig (V:=View * option string) e_os e_command).1 = Ret tt) as Hr by (vm_compute; reflexivity).
  destruct (initializeConfig e_os e_command) as [o c']. simpl in Hr. subst o. destruct H as (Hh & _ & Ht).
  split; [reflexivity|]. split; [exact Hh|].
  apply (Ht "t1-timeout"%string). apply list_elem_of_In. vm_compute. tauto.
Defined.
