(* ===== verification/AgreementExamples.v ===== *)
(** * A shard of two nodes

    "A" leads the first round: it proposes a PoW block and commits it when it is certified.  "B"
    misses the proposal, finds out from the certificate, and gets the block from "A".  Then the
    two are compared. *)

From Stdlib Require Import ZArith Lia Strings.Byte String.
From stdpp Require Import base list strings option gmap relations.
From S2P Require Import Prelude GoBase BftTypes BftModel Summary PowClient TxInterface TxSystem TxTheorems Messages Wire IpcClient KVStore ShardConfStore Selector Node Network Peer NodeOps Configuration Handlers NodeInit Run NodeInvariant NodeQuiet NodeSafety HandlerSafety NodeSystem T1Timer NodeStart ConfigurationTheorems Lifecycle Agreement Ledger NodeModel IpcExamples NetExamples RunExamples.

#[local] Existing Instances ModelTypes ModelLib ModelAccessorLaws ModelOrderLaws ModelVerifyLaws ModelKeyLaws ModelCborLaws ModelShard ModelMsg ModelJson ModelHttp ModelPeerLib ModelPeerLibLaws ModelNetCodec RunNodeEnv RunPeerEnv RunTrustBases.

(** ** The first start *)

Definition a_keys (auth : byte) : KeyConf := mkKeyConf (mkKey "secp256k1" (Bytes [x01])) (mkKey "secp256k1" (Bytes [auth])).
Definition a_files (auth : byte) : RunFiles :=
  mkFiles (fun _ => true) (fun _ => Ok (a_keys auth)) (fun _ => Ok m_conf) (fun _ => Ok tt)
    (fun _ => Ok (∅ : MemDB PartitionDescriptionRecord)) (fun _ => Ok tt) (fun _ => Ok (∅ : MemDB Block)).

Definition a_start (auth : byte) : outcome (RunNode * Peer (H:=unit) * (unit + LibP2PNetwork unit)) * (IPCClient * unit) :=
  runNode (TBS:=unit) (Ok tt) (a_files auth) (∅ : MemDB Block) m_conf r_flags r_world.
Definition a_started (auth : byte) := returned (a_start auth).1 r_none.
Definition a_running (auth : byte) := Node_Run Ok (a_started auth).2 (a_started auth).1.1.
Definition a_node (auth : byte) : RunNode := (a_running auth).2.

Lemma a_on_disk auth : on_disk (a_files auth) ∅ ∅.
Proof.
  split; simpl; [by intros p x [= <-]|by intros p x [= <-]| |by intros p c [= <-]].
  intros p c [= <-]. split; vm_compute; congruence.
Qed.

Lemma a_joins auth :
  is_ret (a_start auth).1 = true → is_ret (a_running auth).1 = true →
  joins (HT:=unit) (N:=unit) (TB:=unit) (TBD:=unit) (TBS:=unit) (a_node auth, (0, 0)).
Proof.
  intros Hs Hr. destruct (a_running auth) as [[net| |] n] eqn:Hrun; [|discriminate|discriminate].
  refine (join_start unit (Ok tt) (a_files auth) ∅ ∅ ∅ m_conf r_flags Ok r_world (a_started auth).1.1 (a_started auth).1.2
    (a_started auth).2 (a_start auth).2 net (a_node auth) (0, 0) (a_on_disk auth) eq_refl eq_refl
    (returned_triple (a_start auth) r_none Hs) _).
  unfold a_node. rewrite Hrun. exact Hrun.
Qed.

Lemma a_joins_A : joins (HT:=unit) (N:=unit) (TB:=unit) (TBD:=unit) (TBS:=unit) (a_node x02, (0, 0)).
Proof. apply a_joins; vm_compute; reflexivity. Qed.
Lemma a_joins_B : joins (HT:=unit) (N:=unit) (TB:=unit) (TBD:=unit) (TBS:=unit) (a_node x03, (0, 0)).
Proof. apply a_joins; vm_compute; reflexivity. Qed.

(** ** The first round *)

Definition a_after (ev : loop_event) (n : RunNode) : RunNode := (loop_iteration ev (0, 0) n).2.
Definition a_fire (a : timer_action) (n : RunNode) : RunNode :=
  set_timer (default (nd_timer n) (timer_act 0 a (nd_timer n))) n.

Definition a_leader : RunNode := a_after m_event0 (a_node x02).
Definition a_fired : RunNode := a_fire SendsEvent (a_fire TimeoutPasses a_leader).
Definition a_proposed : RunNode := a_after EvT1 a_fired.
Definition a_committed : RunNode := a_after m_event1 a_proposed.

Definition a_block : Block := default (mkBlock None None nil_slice) (block_at (blocks a_committed) 1).
Definition a_batch : loop_event :=
  EvMessage (Some (RcvReplicationResponse (Some (mkReplResp [x01] StatusOk "" (Some [Some a_block]) 1 1)))).

Definition b_first : RunNode := a_after m_event0 (a_node x03).
Definition b_behind : RunNode := a_after m_event1 b_first.
Definition b_committed : RunNode := a_after a_batch b_behind.

Lemma a_names : (nd_peerID (a_node x02), nd_peerID (a_node x03)) = ("A", "B")%string.
Proof. vm_compute. reflexivity. Qed.
Lemma b_status : (cs_status (nd_state b_behind), cs_status (nd_state b_committed)) = (recovering, normal).
Proof. vm_compute. reflexivity. Qed.
Lemma a_rounds : (GetRoundNumber (committed a_committed), GetRoundNumber (committed b_committed)) = (1, 1).
Proof. vm_compute. reflexivity. Qed.

Abbreviation RunStep := (life_step (HT:=unit) (N:=unit) (TB:=unit) (TBD:=unit) (TBS:=unit)).
Abbreviation ShardStep := (shard_step (HT:=unit) (N:=unit) (TB:=unit) (TBD:=unit) (TBS:=unit)).

Lemma a_loop ev (n : RunNode) :
  enabled ev n = true → deliverable_event ev → (loop_iteration ev (0, 0) n).1 = Ret (0, 0) →
  RunStep (n, (0, 0)) (a_after ev n, (0, 0)).
Proof. intros He Hd Hl. apply life_run, (sys_loop ev); [exact He|exact Hd|exact (pair_fst (loop_iteration ev (0, 0) n) _ Hl)]. Qed.

Lemma a_timer a (n : RunNode) : is_Some (timer_act 0 a (nd_timer n)) → RunStep (n, (0, 0)) (a_fire a n, (0, 0)).
Proof. intros [t Ht]. apply life_run, (sys_timer 0 a). unfold a_fire. by rewrite Ht. Qed.

Lemma a_deliver0 : deliverable_event m_event0.
Proof. by intros m [= <-]. Qed.
Lemma a_deliver1 : deliverable_event m_event1.
Proof. by intros m [= <-]. Qed.
Lemma a_deliver_batch : deliverable_event a_batch.
Proof. intros m Hm. assert (m = RcvReplicationResponse (Some (mkReplResp [x01] StatusOk "" (Some [Some a_block]) 1 1))) as -> by (injection Hm; congruence). discriminate. Qed.

Lemma a_life : rtc RunStep (a_node x02, (0, 0)) (a_committed, (0, 0)).
Proof.
  eapply rtc_l; [exact (a_loop m_event0 (a_node x02) eq_refl a_deliver0 ltac:(vm_compute; reflexivity))|].
  eapply rtc_l; [exact (a_timer TimeoutPasses a_leader ltac:(vm_compute; eexists; reflexivity))|].
  eapply rtc_l; [exact (a_timer SendsEvent (a_fire TimeoutPasses a_leader) ltac:(vm_compute; eexists; reflexivity))|].
  eapply rtc_l; [exact (a_loop EvT1 a_fired ltac:(vm_compute; reflexivity) ltac:(intros ? [=]) ltac:(vm_compute; reflexivity))|].
  apply rtc_once. exact (a_loop m_event1 a_proposed eq_refl a_deliver1 ltac:(vm_compute; reflexivity)).
Qed.

Lemma b_life : rtc RunStep (a_node x03, (0, 0)) (b_committed, (0, 0)).
Proof.
  eapply rtc_l; [exact (a_loop m_event0 (a_node x03) eq_refl a_deliver0 ltac:(vm_compute; reflexivity))|].
  eapply rtc_l; [exact (a_loop m_event1 b_first eq_refl a_deliver1 ltac:(vm_compute; reflexivity))|].
  apply rtc_once. exact (a_loop a_batch b_behind eq_refl a_deliver_batch ltac:(vm_compute; reflexivity)).
Qed.

(** The life of one member is a run of the shard. *)
Lemma shard_run i c c' cl :
  cl !! i = Some c → rtc RunStep c c' → rtc ShardStep cl (<[i := c']> cl).
Proof.
  intros Hi Hr. revert cl Hi. induction Hr as [c|c1 c2 c3 Hs _ IH]; intros cl Hi; [by rewrite list_insert_id|].
  eapply rtc_l; [by apply (shard_life i c1 c2)|]. rewrite <-(list_insert_insert_eq cl i c3 c2). apply IH.
  by eapply list_lookup_insert_eq, lookup_lt_Some.
Qed.

Definition a_shard : list (RunNode * (Z * Z)) := [(a_committed, (0, 0)); (b_committed, (0, 0))].

Definition a_members : list (RunNode * (Z * Z)) := [(a_node x02, (0, 0)); (a_node x03, (0, 0))].

Lemma a_shard_joined : rtc ShardStep [] a_members.
Proof. eapply rtc_l; [exact (shard_join _ [] a_joins_A)|]. apply rtc_once. exact (shard_join _ _ a_joins_B). Qed.

Lemma a_shard_lived : rtc ShardStep a_members a_shard.
Proof.
  exact (transitivity (shard_run 0 _ _ a_members eq_refl a_life)
    (shard_run 1 _ _ [(a_committed, (0, 0)); (a_node x03, (0, 0))] eq_refl b_life)).
Qed.

Lemma a_shard_run : rtc ShardStep [] a_shard.
Proof. exact (transitivity a_shard_joined a_shard_lived). Qed.

(** The root chain of the model certifies two records, of two rounds. *)
Lemma a_root_chain : root_chain_safe (W0:=unit).
Proof.
  intros u u' (tb & alg & sch & x & _ & Hu) (tb' & alg' & sch' & x' & _ & Hu') Hr.
  apply verify_uc_record in Hu, Hu'. change (uc_round (Some u) = uc_round (Some u')) in Hr. unfold uc_round in Hr. simpl in Hr.
  destruct Hu as [Hu|Hu], Hu' as [Hu'|Hu']; rewrite Hu, Hu' in *; try reflexivity; vm_compute in Hr; discriminate.
Qed.

Lemma a_not_leading : GetRoundNumber (fuc (nd_state a_committed)) < 1 <= GetRoundNumber (committed a_committed).
Proof. vm_compute. split; [reflexivity|discriminate]. Qed.
Lemma b_not_leading : GetRoundNumber (fuc (nd_state b_committed)) < 1 <= GetRoundNumber (committed b_committed).
Proof. vm_compute. split; [reflexivity|discriminate]. Qed.

Lemma no_conflicting_finality_witness :
  ∃ h, finalized_at a_committed 1 = Some h ∧ finalized_at b_committed 1 = Some h.
Proof.
  assert ((a_committed, (0, 0)) ∈ a_shard) as Ha by apply list_elem_of_here.
  assert ((b_committed, (0, 0)) ∈ a_shard) as Hb by apply list_elem_of_further, list_elem_of_here.
  exact (proj2 (no_conflicting_finality a_shard a_shard (a_committed, (0, 0)) (b_committed, (0, 0)) 1
    a_root_chain a_shard_run a_shard_run Ha Hb ltac:(split; vm_compute; congruence)) a_not_leading b_not_leading).
Defined.

Lemma a_heights : (fun c => height c.1) <$> a_shard = [1; 1].
Proof. vm_compute. reflexivity. Qed.

Lemma shard_implements_ledger_witness :
  ∃ L, rtc ledger_step empty_ledger L ∧ implements a_shard L ∧ lg_heights L = [1; 1].
Proof.
  destruct (shard_implements_ledger a_members a_shard a_root_chain a_shard_joined a_shard_lived)
    as (L & L' & H1 & _ & H2 & H3 & _).
  exists L'. split; [exact (transitivity H1 H2)|]. split; [exact H3|]. rewrite (im_heights _ _ H3). exact a_heights.
Defined.
