(* ===== verification/RoundExamples.v ===== *)
(** * A round of the two nodes

    "A" and "B" of AgreementExamples.v after the initial certificate, with a PoW node that
    answers: the round in which "A" proposes the block "bb" and both commit it. *)

From Stdlib Require Import ZArith Lia Strings.Byte String.
From stdpp Require Import base list strings option gmap relations.
From S2P Require Import Prelude GoBase BftTypes BftModel Summary PowClient TxInterface TxSystem TxTheorems Messages MessageTheorems Wire IpcClient GadgetOverIpc KVStore ShardConfStore Selector Node Network Peer NodeOps Configuration Handlers NodeInit Run NodeInvariant NodeQuiet NodeSafety HandlerSafety NodeSystem T1Timer NodeStart Lifecycle Proposals Round NodeModel IpcExamples NetExamples RunExamples AgreementExamples.

#[local] Existing Instances ModelTypes ModelLib ModelAccessorLaws ModelOrderLaws ModelVerifyLaws ModelKeyLaws ModelCborLaws ModelShard ModelMsg ModelJson ModelJsonTypes ModelHttp RunNodeEnv.

(** The key of both nodes. *)
Definition r_key : Signer (BftTypes:=ModelTypes) := 7.

Lemma r_calculate (alg : Z) h u bs :
  is_Some (uc_InputRecord u) → marshal_uc u = Ok bs →
  ∃ b ir, calc_block_hash (mkBlock (Some h) (Some []) bs) alg = (b, Ok ir) ∧
    ∀ ir0, uc_InputRecord u = Some ir0 → ir_Hash ir = ir_Hash ir0.
Proof.
  intros [ir Hir] Hm. unfold calc_block_hash. cbn [blk_UnicityCertificate blk_Header].
  rewrite (unmarshal_marshal_uc _ _ Hm), Hir. eexists _, _. split; [done|]. by intros ir0 [= <-].
Qed.

Lemma r_block_ir alg b b' ir : calc_block_hash b alg = (b', Ok ir) → block_ir b' = Ok ir.
Proof.
  unfold calc_block_hash, block_ir. intros Hc. repeat case_match; simplify_eq/=.
  all: by rewrite (unmarshal_marshal_uc _ _ eq_refl).
Qed.

(** The environment of the two nodes works. *)
Lemma r_working : working (W:=IPCClient * unit) (D:=MemDB Block).
Proof.
  split; intros; try (by eexists); try done.
  - eexists _, _, _. split; [done|]. split; [done|]. done.
  - by eapply r_calculate.
  - by eapply r_block_ir.
  - simpl. by rewrite bool_decide_eq_true_2.
Qed.

(** The two nodes: new ones, in the state in which the initial certificate left "A" and "B". *)
Definition r_member (id : PeerID) (n : RunNode) : RunNode :=
  set_state (nd_state n) (new_node m_nodeconf m_tx ∅ m_scs id m_conf r_world).
Definition r_A : RunNode := r_member "A" a_leader.
Definition r_B : RunNode := r_member "B" b_first.

Lemma r_tx_wf : tx_wf m_tx.
Proof. by split. Qed.

Lemma r_between_A : between r_A m_uc0 (m_tr 1) r_key.
Proof.
  split; [vm_compute; reflexivity..|exact r_tx_wf|done|by left].
Qed.
Lemma r_between_B : between r_B m_uc0 (m_tr 1) r_key.
Proof.
  split; [vm_compute; reflexivity..|exact r_tx_wf|done|by left].
Qed.
Lemma r_same_view : same_view r_A r_B.
Proof. split; vm_compute; reflexivity. Qed.

Lemma r_verifies : verifies_hash r_key (7 : Verifier).
Proof. intros h sig [= <-]. simpl. unfold verify. by rewrite bool_decide_eq_true_2. Qed.

Lemma r_recognizes : recognizes r_B r_A m_uc0 (m_tr 1) r_key.
Proof.
  split; [done|done| | |].
  - eexists _, _. split; [vm_compute; reflexivity|]. split; [done|exact r_verifies].
  - intros tb _. vm_compute. reflexivity.
  - split; vm_compute; reflexivity.
Qed.

(** "B"'s PoW node confirms the block "bb". *)
Lemma r_confirms (w : IPCClient * unit) : ∃ h w', follower_view (nd_transactionSystem r_B) w (Bytes [xbb]) h w'.
Proof.
  eexists _, _. eapply (view_block _ _ _ i_candidate i_tip); [done| | |done|done].
  - by apply pair_fst, (ByHash_chain (fun _ => i_chain) i_chain i_serves (fun _ => eq_refl)).
  - by apply pair_fst, (GetTip_chain (fun _ => i_chain) i_chain i_serves (fun _ => eq_refl)).
Qed.

Definition r_sm : Summary := NewStateSummary (Bytes [xbb]) (Bytes []) 0 nil_slice.
Lemma r_proposes : ∃ t w, fgp_LeaderPropose (cur_round r_A) (nd_transactionSystem r_A, nd_world r_A) = (Ret r_sm, (t, w)).
Proof.
  destruct (fgp_LeaderPropose _ _) as [o [t w]] eqn:Hp. exists t, w. f_equal.
  assert (o = (fgp_LeaderPropose (cur_round r_A) (nd_transactionSystem r_A, nd_world r_A)).1) as -> by (by rewrite Hp).
  vm_compute. reflexivity.
Qed.

Lemma r_complete : complete_uc m_uc0.
Proof. split; by eexists. Qed.
Lemma r_named : nd_peerID r_A ≠ ""%string.
Proof. done. Qed.
Lemma r_leader_A : leader (nd_state r_A) = nd_peerID r_A.
Proof. vm_compute. reflexivity. Qed.
Lemma r_leader_B : leader (nd_state r_B) = nd_peerID r_A.
Proof. vm_compute. reflexivity. Qed.

Lemma r_follows : follows r_B r_A m_uc0 (m_tr 1) r_key r_key r_sm.
Proof. split; [exact r_between_B|exact r_same_view|exact r_leader_B|exact r_recognizes|exact r_confirms]. Qed.

(** The certificate of the round. *)
Lemma r_next_A : next_certificate r_A m_uc0 m_uc1 m_ir1.
Proof. split; [vm_compute; reflexivity|intros tb _; vm_compute; reflexivity|vm_compute; reflexivity..]. Qed.
Lemma r_next_B : next_certificate r_B m_uc0 m_uc1 m_ir1.
Proof. split; [vm_compute; reflexivity|intros tb _; vm_compute; reflexivity|vm_compute; reflexivity..]. Qed.

Lemma r_vote ir : votes_for ir (handleT1TimeoutEvent r_A).2 → ir = m_ir1.
Proof.
  intros (req & ids & Hs & Hr). vm_compute in Hs. injection Hs as <- <-. vm_compute in Hr. by injection Hr.
Qed.

Lemma fault_free_round_witness :
  ∃ p nl1 nf1 nl2 nf2,
    handleT1TimeoutEvent r_A = (Ret tt, nl1) ∧ handleBlockProposal (Some p) r_B = (Ret tt, nf1) ∧
    handleUnicityCertificate (Some m_uc1) (Some (m_tr 2)) nl1 = (Ret tt, nl2) ∧
    handleUnicityCertificate (Some m_uc1) (Some (m_tr 2)) nf1 = (Ret tt, nf2) ∧
    committed_together nl2 nf2 m_uc1 (m_tr 2) "A"%string r_key r_key.
Proof.
  destruct r_proposes as (t & w & Hp).
  destruct (fault_free_round r_working r_A m_uc0 (m_tr 1) r_key r_sm t w
    r_between_A r_complete r_named r_leader_A Hp) as (p & ir & nl1 & Hrun & _ & _ & Hv & Hfollow).
  assert (ir = m_ir1) as -> by (apply r_vote; by rewrite Hrun).
  destruct (Hfollow r_B r_key r_follows) as (nf1 & Hvote & _ & Hnext).
  destruct (Hnext m_uc1 (m_tr 2) "A"%string r_next_A r_next_B eq_refl) as (nl2 & nf2 & H1 & H2 & H3).
  exists p, nl1, nf1, nl2, nf2. exact (conj Hrun (conj Hvote (conj H1 (conj H2 H3)))).
Defined.
